(* ===== verification/_CoqProject ===== *)
-Q . S2P
Prelude.v
Threads.v
Types.v
StringPiece.v
Format.v
Process.v
Buffer.v
FileReader.v
Timestamp.v
LogStream.v
Logger.v
LogFile.v
AsyncLogging.v
Crc32.v
InetAddress.v
Stream.v
Sockets.v
SocketCalls.v
Examples.v
FileTransfer.v
Quic.v
QuicDiscard.v
Stun.v
StunPack.v
Rtp.v
Rtcp.v
Dump.v
StunDump.v
Ice.v
Http.v
HttpCodec.v
HttpStream.v
HttpHello.v
Dtls.v
Sdp.v
Settings.v
Srtp.v
PeerConnection.v
WebRTCServer.v
SignalServer.v
TimeWheel.v
Timers.v
Park.v
Epoll.v
Runtime.v
