(* ===== verification/Prelude.v ===== *)
(** * baize: a verification development

    baize is a C++ network library (buffers, slices, timers, coroutines,
    logging) with an HTTP codec, a WebRTC media server (STUN/ICE, DTLS, SRTP,
    RTP/RTCP), a QUIC listener and example programs built on it.  This library models the parts that decide
    what the program computes and proves what makes them correct.

    ** How the parts interact

    The event loop runs routines one at a time; a stream parks its routine
    until the kernel can go on.  The media server receives datagrams into
    pooled [Buffer]s, viewed as [StringPiece]s, and queues each at the peer
    connection of its sender, whose routine processes the queue.  A peer
    connection tells STUN, DTLS, RTCP and RTP apart: STUN goes to the ICE
    server, which answers with a packet it serialises into a [Buffer]; DTLS
    goes to the transport, which extracts the SRTP keys when the handshake
    completes; media is decrypted, inspected and echoed.  Session descriptions
    reach the server in HTTP messages over TLS.  Timers drive retransmission
    and key frame requests.  Everything logs through one front end, whose lines
    a writer thread collects into files.

    ** Files (paths under src/)

    - Prelude: outcomes, machine integers, lists indexed by [Z], endianness.
    - Threads: kernel/thread/{mutex,condition,wait_group,thread}.{h,cc}.
    - Types: kernel/util/types.h.
    - Process: kernel/process/{daemon,signal,process_info}.cc, the thread-locals
      of kernel/thread/thread.cc.
    - StringPiece: kernel/util/string_piece.{h,cc}.
    - Format: the number texts of [snprintf] and [std::to_string].
    - Buffer: kernel/net/net_buffer.{h,cc}, net_buffer_pool.{h,cc}; the class
      [ByteQueue] is the contract the serialisers are proved against.
    - FileReader: http/file_reader.{h,cc}.
    - Timestamp: kernel/time/time_stamp.{h,cc}.
    - LogStream: kernel/log/log_stream.{h,cc}.
    - Logger: kernel/log/logger.{h,cc}.
    - LogFile: kernel/log/{append_file,log_file}.{h,cc}; the class [LogOutput]
      is the contract the asynchronous writer is proved against.
    - AsyncLogging: kernel/log/async_logging.{h,cc},
      kernel/util/fixed_buffer.h.
    - Crc32: kernel/crypto/util.cc.
    - InetAddress: kernel/net/inet_address.{h,cc}.
    - Stream: kernel/net/{tcp_stream,udp_stream}.cc,
      kernel/crypto/tls_stream.cc.
    - Sockets: kernel/net/{socket,tcp_listener}.{h,cc}, and [AsyncConnect] of
      tcp_stream.cc.
    - SocketCalls: the same files, as the system calls they make.
    - Examples: example/{tcp_echo,tcp_discard,udp_discard}.cc.
    - FileTransfer: example/file_transfer.cc.
    - Quic: quic/{QuicListener,QuicConnection}.{h,cc}, QuicType.h.
    - QuicDiscard: quic/{QuicDiscard,QuicConfig}.cc.
    - Stun, StunPack: webrtc/ice/stun_packet.{h,cc} ([Parse] and [Pack]).
    - Rtp, Rtcp: webrtc/rtp/rtp_packet.{h,cc}, rtcp_packet.{h,cc}.
    - Dump: the texts of RTP and RTCP packets, [StringAppend] of
      kernel/log/log_stream.cc.
    - StunDump: [dump] of webrtc/ice/stun_packet.cc, [TempFmt] of
      kernel/log/log_stream.cc.
    - Ice: webrtc/ice/ice_server.{h,cc}.
    - Http, HttpCodec: http/http_message.{h,cc}.
    - HttpStream: http/http_stream.{h,cc}.
    - HttpHello: http/example/{http_hello,https_hello}.cc.
    - Dtls: webrtc/dtls/dtls_transport.{h,cc}.
    - Sdp: webrtc/sdp/sdp_message.{h,cc}.
    - Settings: webrtc/pc/webrtc_settings.cc, webrtc/dtls/dtls_config.cc,
      kernel/crypto/ssl_config.cc, [DtlsTransport::New].
    - Srtp: webrtc/rtp/srtp_session.{h,cc}.
    - PeerConnection: webrtc/pc/peer_connection.{h,cc}.
    - WebRTCServer: webrtc/pc/webrtc_server.{h,cc}, the rounds of its routines.
    - SignalServer: the loops around those rounds and the start of the servers.
    - TimeWheel: kernel/time/{time_stamp,timer,time_wheel}.{h,cc}.
    - Timers: the wheel with any number of short timers, and with timers that
      share a slot of the second wheel.
    - Park: kernel/runtime/{routine,async_park}.{h,cc}, and what event_loop.cc
      does with them.
    - Epoll: the registration of parks, the edges epoll reports and the round
      of event_loop.cc around [epoll_wait].
    - Runtime: kernel/runtime/{routine_pool,event_loop}.{h,cc} over the parks,
      which it sees only as the place where a routine waits.

    ** How the code is modelled

    A C++ class is a record of its members and a method a function from the
    record to a [result]: [Ret] with the new record and the returned value, or
    [Fault] where the execution leaves defined behaviour or aborts.  Memory is
    a list of bytes; a pointer is an offset into the object it points to, and
    every access checks its bounds, so "no fault" includes "no access outside
    the object".  Fixed-width integers are [Z]: conversions to unsigned and
    narrower types have their reduction written out, and signed arithmetic that
    input or time can take past its type (the indices of a buffer, the counter of
    the timer wheel, the digits of a number) checks its range, [int_val], and
    faults outside; other [int]s are bounded by the length of a packet or of
    an array and are plain [Z].  Structures that are cast from memory are read as
    their bytes (little-endian, as on the platforms the code supports).  What a
    component sends is collected in a list of its record.

    A log line has an array of fixed size behind it, so a long enough operand
    makes the statement write outside of it.  The statements whose operands a
    peer sizes (the dump of a STUN packet, the lines of a request and of a
    description) are therefore part of the functions that contain them: they
    take a [LogCtx], the source position, clock and thread data of the log
    statement, and the theorems state the sizes for which every line fits.

    Code outside the repository is a parameter: OpenSSL (a record of the calls
    the transport makes), libsrtp, HMAC-SHA1, [inet_pton] and [inet_ntop], the
    "%g" conversion, [fwrite], [fopen] and the clock of the log files, the
    quiche library (a record of the calls the QUIC classes make) and the texts
    of [strerror].  The
    theorems that need something of it assume a named predicate that states its
    documentation ([openssl_ok], [bio_fits], [srtp_ok], [digest_ok], [ntop_ok],
    [fopen_ok], [fwrite_ok]), and an instance shows that it can hold.  System
    calls appear as arguments that carry their outcome: the stream loops take
    the list of the answers that the kernel or OpenSSL gives to their
    successive calls; a file system is a map from paths to contents; that a
    descriptor becomes ready, and which edges epoll then reports, are steps of
    the system between those of the program.  Threads
    and the routines below the scheduler are step relations, of which every
    interleaving is a run.

    Loops whose recursion is not structural take fuel.  The wrappers pass a
    bound computed from the input (the length of the text or packet plus one,
    three rounds for the handshake timer, the number of answers for the reading
    of a message), and the theorems say that the call returns, so the bound is
    enough; a loop over answers is out of fuel only when the list ends before
    an answer that ends it, which the theorems exclude.  Only [Split] with an
    empty separator runs out for every fuel, which is its theorem.

    ** What the theorems show

    - Codecs: [Parse] (STUN), [Decode] (HTTP, RTP, SDP, RTCP reports) equal a
      reference reading of the bytes on every input, without an access outside
      the packet; [Pack]/[Parse], [Encode]/[Decode] and the feedback packet
      round trip; CRC-32 equals its bit-wise definition and detects changes.
    - Streams: a write loop sends exactly the bytes it reports, all of them
      while the kernel has room and does not fail; however a message is cut
      into reads, over TCP or TLS, the same message is read, and what one end
      writes the other end reads.  Accepting and connecting return a stream
      exactly when a connection stands and leave no descriptor open otherwise.
    - Programs on top: the echo server returns the bytes it receives, the
      hello servers answer every pipelined request, a file arrives as it was
      sent (unless it fits the read that completes its header), the QUIC
      listener keeps one connection per id and accepts exactly the tokens of
      the right form.
    - Logging: a log statement appends one line, with the prefix of its time
      and level, and nothing when its level is off; times read back from their
      texts; file names differ.
    - Containers: [Buffer] refines a byte queue as long as its indices fit an
      [int], the pool conserves the identities of its buffers, the timer lists refine disjoint lists; any number of short
      timers, one-shot or periodic, run at exactly their milliseconds; slices
      and number conversions meet their specifications.
    - State machines: the ICE server answers exactly the requests it should;
      over any run the DTLS transport is connected only with extracted keys,
      and a peer connection handles every event, has SRTP sessions only over
      such a transport and processes no media before.  In every state the
      routines of the media server reach, no buffer is lost or doubled, every
      connection has one key, every event is handled except that the loop over
      the delayed messages fails when one is added while it runs, and a datagram
      reaches the connection of its sender.  The scheduler neither loses nor doubles a
      routine or a task; the pointers of the parks, the timers and the timeout
      flags agree with where the routines are suspended, and the loop never
      touches a destroyed park as long as none is destroyed that something
      refers to; under edge-triggered polling no wake-up of a waiting routine is
      lost.  Over any interleaving of threads the log writer keeps the
      lines in order, and the files it rolls hold them all; a wait group lets
      its waiters go exactly when the last of its parties is done.
    - Error behaviour: theorems named after what goes wrong state where the
      code does not do what it means to (a skipped last header, timers that
      never run, numbers at the end of a log line, a park destroyed by the
      routine that an event woke, a routine whose place at a park is taken and
      that never runs again, a null stream).

    ** Not modelled

    The switch of stacks, which is boost code; rates that the example programs
    print in floating point; what the class declarations only name; the tests.
    The QUIC directory is left out of the build and written
    against an older version of the runtime; it is modelled as it stands.
    Log statements whose operands have a bounded size are left out of the
    functions that contain them; the logger and its stream are modelled on their
    own.  Routines run one at a time and stop only where they park, so the steps
    between two stops are modelled as sequential calls. *)

From Stdlib Require Import ZArith Lia Bool.
From Stdlib Require String Ascii.
From stdpp Require Import base numbers list.

#[global] Open Scope Z_scope.

(** ** Outcomes of a C++ call

    A modelled function returns [Ret v] when the C++ code returns [v], and
    [Fault f] when the execution leaves what the language defines (an access
    outside an object, signed overflow, a dereferenced null or wild pointer)
    or ends in a failed [assert] or an [abort].  [OutOfFuel] is only produced
    by loops whose bound was too small; the termination theorems show for
    which fuel it cannot occur. *)
Inductive fault : Type :=
  | OutOfBounds
  | SignedOverflow
  | AssertFailed
  | NullDeref
  | WildPointer
  | Aborted.

Inductive result (A : Type) : Type :=
  | Ret (a : A)
  | Fault (f : fault)
  | OutOfFuel.
Arguments Ret {A} a.
Arguments Fault {A} f.
Arguments OutOfFuel {A}.

#[global] Instance fault_eq_dec : EqDecision fault.
Proof. solve_decision. Defined.
#[global] Instance result_eq_dec `{EqDecision A} : EqDecision (result A).
Proof. solve_decision. Defined.

#[global] Instance result_ret : MRet result := λ A a, Ret a.
#[global] Instance result_bind : MBind result := λ A B k m,
  match m with
  | Ret a => k a
  | Fault f => Fault f
  | OutOfFuel => OutOfFuel
  end.

(** [assert(b)]: the build keeps assertions, so a false one ends the run. *)
Definition cpp_assert (b : bool) : result unit :=
  if b then Ret tt else Fault AssertFailed.

(** [b && k]: the right operand is evaluated only when the left one holds. *)
Definition and_then (b : bool) (k : result bool) : result bool := if b then k else Ret false.

(** ** Machine integers: the value a store into a w-bit unsigned object keeps *)
Definition u8 (z : Z) : Z := z mod 2 ^ 8.
Definition u16 (z : Z) : Z := z mod 2 ^ 16.
Definition u32 (z : Z) : Z := z mod 2 ^ 32.
Definition u64 (z : Z) : Z := z mod 2 ^ 64.
(** Conversion to [int]. *)
Definition s32 (z : Z) : Z := (z + 2 ^ 31) mod 2 ^ 32 - 2 ^ 31.

Definition INT_MAX : Z := 2 ^ 31 - 1.
(** The value of an expression of type [int]: one that is no [int] is a signed
    overflow. *)
Definition int_val (z : Z) : result Z :=
  if bool_decide (- 2 ^ 31 <= z <= INT_MAX) then Ret z else Fault SignedOverflow.

Definition is_u8 (z : Z) : Prop := 0 <= z < 2 ^ 8.
Definition is_u16 (z : Z) : Prop := 0 <= z < 2 ^ 16.
Definition is_u32 (z : Z) : Prop := 0 <= z < 2 ^ 32.
Definition is_u64 (z : Z) : Prop := 0 <= z < 2 ^ 64.

(** A byte sequence: every element is the value of an [unsigned char]. *)
Definition bytes_ok (l : list Z) : Prop := Forall is_u8 l.

(** ** Lists indexed by [Z], the way the code indexes with [int] *)
Definition zlen {A} (l : list A) : Z := Z.of_nat (length l).
Definition ztake {A} (n : Z) (l : list A) : list A := take (Z.to_nat n) l.
Definition zdrop {A} (n : Z) (l : list A) : list A := drop (Z.to_nat n) l.

(** [p[i]] on an object holding [l]: a read outside the object is a fault. *)
Definition rd (l : list Z) (i : Z) : result Z :=
  if bool_decide (0 <= i) then
    match l !! Z.to_nat i with
    | Some b => Ret b
    | None => Fault OutOfBounds
    end
  else Fault OutOfBounds.

(** [p[i] = v] on an object holding [l]. *)
Definition wr (l : list Z) (i v : Z) : result (list Z) :=
  if bool_decide (0 <= i < zlen l) then Ret (<[Z.to_nat i := v]> l)
  else Fault OutOfBounds.

(** ** Little-endian representation of an unsigned object of [n] bytes.
    The host is the little-endian one of [BAIZE_LITTLE_ENDIAN]. *)
Fixpoint le_val (l : list Z) : Z :=
  match l with
  | [] => 0
  | b :: l' => b + 256 * le_val l'
  end.

Fixpoint le_bytes (n : nat) (z : Z) : list Z :=
  match n with
  | O => []
  | S n' => z mod 256 :: le_bytes n' (z / 256)
  end.

(** Big-endian (network order) value and bytes: the wire specification. *)
Definition be_val (l : list Z) : Z := le_val (reverse l).
Definition be_bytes (n : nat) (z : Z) : list Z := reverse (le_bytes n z).

(** The bytes of a string literal. *)
Definition bytes_of (s : String.string) : list Z :=
  (λ c, Z.of_N (Ascii.N_of_ascii c)) <$> String.list_ascii_of_string s.

(** ** Automation *)
Create HintDb baize.

Ltac unfold_u := unfold is_u8, is_u16, is_u32, is_u64, u8, u16, u32, u64, INT_MAX in *.

(** A concrete list of bytes. *)
Ltac bytes_tac := repeat (constructor; [unfold is_u8; lia|]); constructor.

(** Case analysis on the boolean tests of the code, as propositions. *)
Ltac bool_cases :=
  repeat match goal with
  | H : context [bool_decide ?P] |- _ => destruct (bool_decide_reflect P)
  | |- context [bool_decide ?P] => destruct (bool_decide_reflect P)
  end.

(** Discharge one step of a [result] computation whose value is known. *)
Ltac ret_step :=
  match goal with
  | H : ?m = Ret _ |- context [mbind _ ?m] => rewrite H; cbn [mbind result_bind]
  | |- context [mbind _ (Ret _)] => cbn [mbind result_bind]
  end.

Lemma int_val_ok z : - 2 ^ 31 <= z <= INT_MAX → int_val z = Ret z.
Proof. intros. unfold int_val. by rewrite bool_decide_true. Qed.
Lemma int_val_Ret z v : int_val z = Ret v → v = z ∧ - 2 ^ 31 <= z <= INT_MAX.
Proof. unfold int_val. case_bool_decide; [by intros [= <-]|done]. Qed.

(** Split hypotheses [m ≫= k = Ret v] into the two runs. *)
Lemma bind_Ret {A B} (m : result A) (k : A → result B) v :
  m ≫= k = Ret v ↔ ∃ a, m = Ret a ∧ k a = Ret v.
Proof.
  destruct m; cbn; split; [intros H; eauto | intros (a' & [= <-] & H); done
    | done | by intros (? & ? & ?) | done | by intros (? & ? & ?)].
Qed.

Lemma bind_Ret_step {A B} (m : result A) (k : A → result B) a :
  m = Ret a → m ≫= k = k a.
Proof. intros ->. done. Qed.

Lemma bind_assoc_result {A B C} (m : result A) (k : A → result B) (h : B → result C) :
  (m ≫= k) ≫= h = m ≫= (λ a, k a ≫= h).
Proof. by destruct m. Qed.

(** Partial correctness: a result meets [P], and a fault is one of [ok]. *)
Definition ends {A} (ok : fault → Prop) (r : result A) (P : A → Prop) : Prop :=
  match r with Ret a => P a | Fault f => ok f | OutOfFuel => True end.
Lemma ends_bind {A B} ok (m : result A) (k : A → result B) (P : A → Prop) (Q : B → Prop) :
  ends ok m P → (∀ a, P a → ends ok (k a) Q) → ends ok (m ≫= k) Q.
Proof. destruct m; cbn; auto. Qed.
Lemma ends_weaken {A} ok (r : result A) (P Q : A → Prop) : ends ok r P → (∀ a, P a → Q a) → ends ok r Q.
Proof. destruct r; cbn; auto. Qed.
Lemma ends_if {A} (ok : fault → Prop) f (b : bool) (r : result A) P :
  ok f → (b = false → ends ok r P) → ends ok (if b then Fault f else r) P.
Proof. destruct b; [done|auto]. Qed.

(** Use [H : Ret a = Ret d] to eliminate [d], without reducing [a]. *)
Lemma Ret_inj {A} (a b : A) : Ret a = Ret b → b = a.
Proof. congruence. Qed.
Ltac inv_ret H := apply Ret_inj in H; subst.

Ltac inv_bind :=
  repeat match goal with
  | H : mbind _ _ = Ret _ |- _ =>
      let a := fresh "a" in let H1 := fresh "Hrun" in
      apply bind_Ret in H as (a & H1 & H)
  | H : Ret _ = Ret _ |- _ => injection H as H
  | H : Fault _ = Ret _ |- _ => discriminate H
  | H : OutOfFuel = Ret _ |- _ => discriminate H
  end.

(** ** Lists indexed by [Z] *)
Section zlists.
Context {A : Type}.
Implicit Types (l k : list A) (i n m : Z).

Lemma zlen_nonneg l : 0 <= zlen l.
Proof. unfold zlen. lia. Qed.
Lemma zlen_nil : zlen (@nil A) = 0.
Proof. done. Qed.
Lemma zlen_cons x l : zlen (x :: l) = 1 + zlen l.
Proof. unfold zlen. cbn. lia. Qed.
Lemma zlen_app l k : zlen (l ++ k) = zlen l + zlen k.
Proof. unfold zlen. rewrite length_app. lia. Qed.
Lemma zlen_reverse l : zlen (reverse l) = zlen l.
Proof. unfold zlen. by rewrite length_reverse. Qed.
Lemma zlen_ztake n l : 0 <= n <= zlen l → zlen (ztake n l) = n.
Proof. unfold zlen, ztake. rewrite length_take. lia. Qed.
Lemma zlen_ztake_min n l : 0 <= n → zlen (ztake n l) = Z.min n (zlen l).
Proof. unfold zlen, ztake. rewrite length_take. lia. Qed.
Lemma zlen_zdrop n l : 0 <= n <= zlen l → zlen (zdrop n l) = zlen l - n.
Proof. unfold zlen, zdrop. rewrite length_drop. lia. Qed.
Lemma zlen_zero_inv l : zlen l = 0 → l = [].
Proof. unfold zlen. destruct l; cbn; [done|lia]. Qed.

Lemma ztake_zdrop n l : ztake n l ++ zdrop n l = l.
Proof. apply take_drop. Qed.
Lemma ztake_app_le n l k : n <= zlen l → ztake n (l ++ k) = ztake n l.
Proof. intros. unfold ztake, zlen in *. rewrite take_app_le; [done|lia]. Qed.
Lemma ztake_app_all l k n : zlen l = n → ztake n (l ++ k) = l.
Proof. intros <-. unfold ztake, zlen. rewrite Nat2Z.id. apply take_app_length. Qed.
Lemma zdrop_app_all l k n : zlen l = n → zdrop n (l ++ k) = k.
Proof. intros <-. unfold zdrop, zlen. rewrite Nat2Z.id. apply drop_app_length. Qed.
Lemma zdrop_app_le n l k : n <= zlen l → zdrop n (l ++ k) = zdrop n l ++ k.
Proof. intros. unfold zdrop, zlen in *. rewrite drop_app_le; [done|lia]. Qed.
Lemma zdrop_app_ge n l k : zlen l <= n → zdrop n (l ++ k) = zdrop (n - zlen l) k.
Proof.
  intros. unfold zdrop, zlen in *. rewrite drop_app_ge by lia. f_equal. lia.
Qed.
Lemma ztake_ge n l : zlen l <= n → ztake n l = l.
Proof. unfold ztake, zlen. intros. apply take_ge. lia. Qed.
Lemma zdrop_ge n l : zlen l <= n → zdrop n l = [].
Proof. unfold zdrop, zlen. intros. apply drop_ge. lia. Qed.
Lemma ztake_neg n l : n <= 0 → ztake n l = [].
Proof. intros. unfold ztake. by replace (Z.to_nat n) with 0%nat by lia. Qed.
Lemma zdrop_neg n l : n <= 0 → zdrop n l = l.
Proof. intros. unfold zdrop. by replace (Z.to_nat n) with 0%nat by lia. Qed.
Lemma ztake_0 l : ztake 0 l = [].
Proof. done. Qed.
Lemma zdrop_0 l : zdrop 0 l = l.
Proof. done. Qed.
Lemma zdrop_zdrop n m l : 0 <= n → 0 <= m → zdrop n (zdrop m l) = zdrop (m + n) l.
Proof. intros. unfold zdrop. rewrite drop_drop. f_equal. lia. Qed.
Lemma ztake_ztake n m l : n <= m → ztake n (ztake m l) = ztake n l.
Proof. intros. unfold ztake. rewrite take_take. f_equal. lia. Qed.
Lemma zdrop_ztake n m l :
  0 <= n <= m → zdrop n (ztake m l) = ztake (m - n) (zdrop n l).
Proof.
  intros. unfold zdrop, ztake. rewrite skipn_firstn_comm. f_equal. lia.
Qed.
Lemma ztake_split n m l : 0 <= n <= m → ztake m l = ztake n l ++ ztake (m - n) (zdrop n l).
Proof.
  intros. rewrite <-(ztake_zdrop n (ztake m l)), ztake_ztake by lia.
  by rewrite zdrop_ztake.
Qed.
Lemma zdrop_split n m l : 0 <= n <= m → zdrop n l = ztake (m - n) (zdrop n l) ++ zdrop m l.
Proof.
  intros. rewrite <-(ztake_zdrop (m - n) (zdrop n l)) at 1.
  rewrite zdrop_zdrop by lia. do 2 f_equal. lia.
Qed.
End zlists.

Create Rewrite HintDb zlen.
#[export] Hint Rewrite @zlen_nil @zlen_cons @zlen_app @zlen_reverse : zlen.
Ltac zlen_simp := autorewrite with zlen in *.

(** Lengths of lists whose spine is known. *)
Ltac zlen_eval :=
  repeat match goal with
  | |- context [zlen ?l] =>
      let v := eval lazy in (zlen l) in
      let closed := constr:(eq_refl : Z.eqb v v = true) in
      change (zlen l) with v
  end.

Lemma Forall_ztake {A} (P : A → Prop) n l : Forall P l → Forall P (ztake n l).
Proof. intros. by apply Forall_take. Qed.
Lemma Forall_zdrop {A} (P : A → Prop) n l : Forall P l → Forall P (zdrop n l).
Proof. intros. by apply Forall_drop. Qed.

Lemma bytes_ok_cons b l : bytes_ok (b :: l) ↔ is_u8 b ∧ bytes_ok l.
Proof. apply Forall_cons_iff. Qed.
Lemma bytes_ok_app l k : bytes_ok (l ++ k) ↔ bytes_ok l ∧ bytes_ok k.
Proof. apply Forall_app. Qed.
Lemma bytes_ok_ztake n l : bytes_ok l → bytes_ok (ztake n l).
Proof. apply Forall_ztake. Qed.
Lemma bytes_ok_zdrop n l : bytes_ok l → bytes_ok (zdrop n l).
Proof. apply Forall_zdrop. Qed.
#[export] Hint Resolve bytes_ok_ztake bytes_ok_zdrop : baize.

(** ** Reads and writes *)
Lemma rd_Ret l i b : rd l i = Ret b ↔ 0 <= i ∧ l !! Z.to_nat i = Some b.
Proof. unfold rd. bool_cases; [|naive_solver lia]. destruct (l !! _); naive_solver. Qed.

Lemma rd_in_bounds l i : 0 <= i < zlen l → ∃ b, rd l i = Ret b.
Proof.
  unfold zlen. intros.
  destruct (lookup_lt_is_Some_2 l (Z.to_nat i)) as [b Hb]; [lia|].
  exists b. apply rd_Ret. split; [lia|done].
Qed.

Lemma rd_bounds l i b : rd l i = Ret b → 0 <= i < zlen l.
Proof. intros [? ?%lookup_lt_Some]%rd_Ret. unfold zlen. lia. Qed.

Lemma rd_oob l i : ¬ (0 <= i < zlen l) → rd l i = Fault OutOfBounds.
Proof.
  unfold rd, zlen. intros. bool_cases; [|done].
  by rewrite lookup_ge_None_2 by lia.
Qed.

Lemma rd_is_u8 l i b : bytes_ok l → rd l i = Ret b → is_u8 b.
Proof. intros Hl [_ Hb]%rd_Ret. by eapply Forall_lookup_1 in Hl. Qed.

Lemma rd_app_l l k i : i < zlen l → rd (l ++ k) i = rd l i.
Proof.
  unfold rd, zlen. intros. bool_cases; [|done]. by rewrite lookup_app_l by lia.
Qed.

Lemma rd_app_r l k i : zlen l <= i → rd (l ++ k) i = rd k (i - zlen l).
Proof.
  unfold rd, zlen. intros. bool_cases; try lia.
  rewrite lookup_app_r by lia.
  by replace (Z.to_nat (i - Z.of_nat (length l))) with (Z.to_nat i - length l)%nat by lia.
Qed.

Lemma rd_zdrop l n i : 0 <= n → 0 <= i → rd (zdrop n l) i = rd l (n + i).
Proof.
  unfold rd, zdrop. intros. bool_cases; try lia. rewrite lookup_drop.
  by replace (Z.to_nat n + Z.to_nat i)%nat with (Z.to_nat (n + i)) by lia.
Qed.

Lemma rd_ztake l n i : i < n → rd (ztake n l) i = rd l i.
Proof.
  unfold rd, ztake. intros. bool_cases; [|done]. by rewrite lookup_take_lt by lia.
Qed.

Lemma rd_cons_0 b l : rd (b :: l) 0 = Ret b.
Proof. done. Qed.
Lemma rd_cons_S b l i : 0 < i → rd (b :: l) i = rd l (i - 1).
Proof.
  unfold rd. intros. bool_cases; try lia.
  by replace (Z.to_nat i) with (S (Z.to_nat (i - 1))) by lia.
Qed.

Lemma wr_Ret l i v l' : wr l i v = Ret l' ↔ 0 <= i < zlen l ∧ l' = <[Z.to_nat i := v]> l.
Proof. unfold wr. bool_cases; naive_solver. Qed.
Lemma zlen_wr l i v l' : wr l i v = Ret l' → zlen l' = zlen l.
Proof. intros [_ ->]%wr_Ret. unfold zlen. by rewrite length_insert. Qed.
Lemma rd_wr_eq l i v l' : wr l i v = Ret l' → rd l' i = Ret v.
Proof.
  intros [? ->]%wr_Ret. apply rd_Ret. split; [lia|].
  apply list_lookup_insert_eq. unfold zlen in *. lia.
Qed.
Lemma rd_wr_ne l i j v l' : wr l i v = Ret l' → i ≠ j → rd l' j = rd l j.
Proof.
  intros [? ->]%wr_Ret Hij. unfold rd. bool_cases; [|done].
  rewrite list_lookup_insert_ne by lia. done.
Qed.
Lemma bytes_ok_wr l i v l' : bytes_ok l → is_u8 v → wr l i v = Ret l' → bytes_ok l'.
Proof. intros Hl Hv [_ ->]%wr_Ret. by apply Forall_insert. Qed.

(** ** Integer and bit facts shared by the codecs *)
Lemma u8_range z : is_u8 (u8 z).
Proof. unfold_u. apply Z.mod_pos_bound. lia. Qed.
Lemma u16_range z : is_u16 (u16 z).
Proof. unfold_u. apply Z.mod_pos_bound. lia. Qed.
Lemma u32_range z : is_u32 (u32 z).
Proof. unfold_u. apply Z.mod_pos_bound. lia. Qed.
Lemma u64_range z : is_u64 (u64 z).
Proof. unfold_u. apply Z.mod_pos_bound. lia. Qed.
#[export] Hint Resolve u8_range u16_range u32_range u64_range : baize.
Lemma u8_small z : is_u8 z → u8 z = z.
Proof. unfold_u. intros. by apply Z.mod_small. Qed.
Lemma u8_u8 z : u8 (u8 z) = u8 z.
Proof. apply u8_small, u8_range. Qed.
Lemma u16_small z : is_u16 z → u16 z = z.
Proof. unfold_u. intros. by apply Z.mod_small. Qed.
Lemma u32_small z : is_u32 z → u32 z = z.
Proof. unfold_u. intros. by apply Z.mod_small. Qed.
Lemma u64_small z : is_u64 z → u64 z = z.
Proof. unfold_u. intros. by apply Z.mod_small. Qed.

(** Disjoint [|] is [+]: the step that turns byte assembly into arithmetic. *)
Lemma lor_shiftl_add a b n :
  0 <= n → 0 <= a < 2 ^ n → Z.lor a (Z.shiftl b n) = a + b * 2 ^ n.
Proof.
  intros Hn Ha. rewrite <-Z.shiftl_mul_pow2 by lia.
  enough (Z.land a (Z.shiftl b n) = 0).
  { pose proof (Z.add_lor_land a (Z.shiftl b n)). lia. }
  apply Z.bits_inj'. intros i Hi. rewrite Z.land_spec, Z.bits_0.
  destruct (decide (i < n)).
  - by rewrite Z.shiftl_spec_low, andb_false_r by lia.
  - rewrite <-(Z.mod_small a (2 ^ n)), Z.mod_pow2_bits_high by lia. done.
Qed.

Lemma is_u8_mod z : is_u8 (z mod 256).
Proof. unfold_u. apply (Z.mod_pos_bound z 256). lia. Qed.
#[export] Hint Resolve is_u8_mod : baize.

(** ** Little- and big-endian bytes *)
Lemma length_le_bytes n z : length (le_bytes n z) = n.
Proof. revert z. induction n as [|n IH]; intros; cbn; [done|]. by rewrite IH. Qed.
Lemma length_be_bytes n z : length (be_bytes n z) = n.
Proof. unfold be_bytes. by rewrite length_reverse, length_le_bytes. Qed.
Lemma zlen_le_bytes n z : zlen (le_bytes n z) = Z.of_nat n.
Proof. unfold zlen. by rewrite length_le_bytes. Qed.
Lemma zlen_be_bytes n z : zlen (be_bytes n z) = Z.of_nat n.
Proof. unfold zlen. by rewrite length_be_bytes. Qed.
#[export] Hint Rewrite @zlen_le_bytes @zlen_be_bytes : zlen.

Lemma bytes_ok_le_bytes n z : bytes_ok (le_bytes n z).
Proof.
  revert z. induction n; intros; cbn; constructor; eauto with baize.
  apply IHn.
Qed.
Lemma bytes_ok_reverse l : bytes_ok l → bytes_ok (reverse l).
Proof. apply Forall_reverse. Qed.
Lemma bytes_ok_be_bytes n z : bytes_ok (be_bytes n z).
Proof. apply bytes_ok_reverse, bytes_ok_le_bytes. Qed.
#[export] Hint Resolve bytes_ok_le_bytes bytes_ok_reverse bytes_ok_be_bytes : baize.

Lemma le_val_le_bytes n z : le_val (le_bytes n z) = z mod 256 ^ Z.of_nat n.
Proof.
  revert z. induction n as [|n IH]; intros z; cbn [le_bytes le_val].
  { by rewrite Z.mod_1_r. }
  rewrite IH, Nat2Z.inj_succ, Z.pow_succ_r by lia.
  rewrite Z.rem_mul_r; [done|lia|]. apply Z.pow_pos_nonneg; lia.
Qed.

Lemma le_bytes_le_val l : bytes_ok l → le_bytes (length l) (le_val l) = l.
Proof.
  induction 1 as [|b l Hb Hl IH]; cbn [length le_bytes le_val]; [done|].
  unfold_u. rewrite Z.mul_comm, Z_mod_plus_full, Z.mod_small by lia.
  rewrite Z.div_add, Z.div_small, Z.add_0_l by lia. by rewrite IH.
Qed.

Lemma be_val_be_bytes n z : be_val (be_bytes n z) = z mod 256 ^ Z.of_nat n.
Proof. unfold be_val, be_bytes. by rewrite reverse_involutive, le_val_le_bytes. Qed.

Lemma be_bytes_be_val l : bytes_ok l → be_bytes (length l) (be_val l) = l.
Proof.
  intros. unfold be_val, be_bytes. rewrite <-length_reverse, le_bytes_le_val.
  - apply reverse_involutive.
  - by apply bytes_ok_reverse.
Qed.

Lemma le_val_range l : bytes_ok l → 0 <= le_val l < 256 ^ zlen l.
Proof.
  induction 1 as [|b l Hb Hl IH]; cbn [le_val]; [done|].
  rewrite zlen_cons, Z.pow_add_r by (pose proof (zlen_nonneg l); lia).
  unfold_u. lia.
Qed.
Lemma be_val_range l : bytes_ok l → 0 <= be_val l < 256 ^ zlen l.
Proof. intros. rewrite <-zlen_reverse. by apply le_val_range, bytes_ok_reverse. Qed.

Lemma be_val_u16 z : is_u16 z → be_val (be_bytes 2 z) = z.
Proof. intros. rewrite be_val_be_bytes. by apply u16_small. Qed.
Lemma zlen_u16 (l : list Z) : zlen l < 2 ^ 16 → is_u16 (zlen l).
Proof. pose proof (zlen_nonneg l). unfold_u. lia. Qed.
Lemma be_val_u32 z : is_u32 z → be_val (be_bytes 4 z) = z.
Proof. intros. rewrite be_val_be_bytes. by apply u32_small. Qed.

(** A block is the bytes of its big-endian value. *)
Lemma be_bytes_block n (l : list Z) :
  bytes_ok l → Z.of_nat n <= zlen l →
  be_bytes n (be_val (ztake (Z.of_nat n) l)) = ztake (Z.of_nat n) l.
Proof.
  intros Hl Hn. rewrite <-(be_bytes_be_val (ztake (Z.of_nat n) l)) at 2 by auto with baize.
  f_equal. pose proof (zlen_ztake (Z.of_nat n) l). unfold zlen in *. lia.
Qed.
Lemma be_bytes_block_at n i (l : list Z) :
  bytes_ok l → 0 <= i → i + Z.of_nat n <= zlen l →
  be_bytes n (be_val (ztake (Z.of_nat n) (zdrop i l))) = ztake (Z.of_nat n) (zdrop i l).
Proof. intros. apply be_bytes_block; [auto with baize|]. rewrite zlen_zdrop; lia. Qed.
Lemma be_val_block_range n i (l : list Z) :
  bytes_ok l → 0 <= i → 0 <= n → i + n <= zlen l → 0 <= be_val (ztake n (zdrop i l)) < 256 ^ n.
Proof.
  intros. rewrite <-(zlen_ztake n (zdrop i l)) at 3 by (rewrite zlen_zdrop; lia).
  apply be_val_range. auto with baize.
Qed.
Lemma zlen_replicate n (x : Z) : zlen (replicate n x) = Z.of_nat n.
Proof. unfold zlen. by rewrite length_replicate. Qed.
Lemma ztake_step {A} n m i (l : list A) :
  0 <= i → 0 <= n <= m → ztake m (zdrop i l) = ztake n (zdrop i l) ++ ztake (m - n) (zdrop (i + n) l).
Proof. intros. rewrite (ztake_split n m), zdrop_zdrop by lia. done. Qed.
