(* ===== verification/Threads.v ===== *)
(** * Threads: kernel/thread/{mutex.h,condition.{h,cc},wait_group.{h,cc},thread.{h,cc}}

    A wait group under any interleaving of its threads, each at a point of
    [Wait] or [Done], with the mutex and the waiting set of the condition
    variable; spurious wake-ups are steps too.  The theorems: [Wait] returns
    only after as many calls of [Done] as the group was created with, no
    wake-up is lost, and no state but the final one is stuck.  Then the life of
    a [Thread] object: [Start] returns only after the new thread has announced
    itself; a joined thread never touches a destroyed object, a detached one
    can. *)

From Stdlib Require Import ZArith Lia Bool.
From stdpp Require Import base numbers relations list.
From S2P Require Import Prelude.

(** ** Condition: the deadline of [WaitForSeconds] *)
Definition kNanoSecondsPerSecond : Z := 1000000000.
Definition abstime (tv_sec tv_nsec nanoseconds : Z) : Z * Z :=
  (tv_sec + Z.quot (tv_nsec + nanoseconds) kNanoSecondsPerSecond,
   Z.rem (tv_nsec + nanoseconds) kNanoSecondsPerSecond).

(** The deadline is as far away as was asked, and a valid [timespec]. *)
Lemma abstime_ok sec nsec ns :
  0 <= nsec < kNanoSecondsPerSecond → 0 <= ns →
  let '(s, n) := abstime sec nsec ns in
  0 <= n < kNanoSecondsPerSecond ∧
  s * kNanoSecondsPerSecond + n = sec * kNanoSecondsPerSecond + nsec + ns.
Proof.
  intros Hn Hs. unfold abstime. rewrite Z.quot_div_nonneg, Z.rem_mod_nonneg by (unfold kNanoSecondsPerSecond in *; lia).
  pose proof (Z.mod_pos_bound (nsec + ns) kNanoSecondsPerSecond eq_refl).
  pose proof (Z.div_mod (nsec + ns) kNanoSecondsPerSecond). unfold kNanoSecondsPerSecond in *. lia.
Qed.

(** ** WaitGroup *)

(** Where a thread is. *)
Inductive point : Type :=
  (** [Wait]: before the lock, at the test of [count_], inside
      [pthread_cond_wait], woken and before the lock again, returned *)
  | WaitLock
  | WaitTest
  | Waiting
  | WaitWoken
  | WaitReturned
  (** [Done]: before the lock, inside, returned *)
  | DoneLock
  | DoneHeld
  | DoneReturned.
#[global] Instance point_eq_dec : EqDecision point.
Proof. solve_decision. Defined.

Record WaitGroup : Type := mk_group {
  mutex_ : option nat;
  count_ : Z;
  threads : list point;
}.

(** Threads that will call [Wait] or [Done] once each. *)
Definition WaitGroup_new (count : Z) (waiters doners : nat) : WaitGroup :=
  mk_group None count (replicate waiters WaitLock ++ replicate doners DoneLock).

Definition wake (p : point) : point := if decide (p = Waiting) then WaitWoken else p.
Definition at_point (i : nat) (p : point) (g : WaitGroup) : list point := <[i := p]> (threads g).

(** What a thread that holds the mutex does in [Wait]: sleep, which gives up the
    mutex, or return. *)
Definition wait_test (i : nat) (g : WaitGroup) : WaitGroup :=
  if bool_decide (count_ g > 0) then mk_group None (count_ g) (at_point i Waiting g)
  else mk_group None (count_ g) (at_point i WaitReturned g).
(** ... and in [Done]: count down, and wake everyone at zero. *)
Definition done_body (i : nat) (g : WaitGroup) : WaitGroup :=
  let count := count_ g - 1 in
  let ts := at_point i DoneReturned g in
  mk_group None count (if bool_decide (count = 0) then wake <$> ts else ts).

Inductive wg_move : WaitGroup → WaitGroup → Prop :=
  | move_wait_lock g i :
      threads g !! i = Some WaitLock → mutex_ g = None →
      wg_move g (mk_group (Some i) (count_ g) (at_point i WaitTest g))
  | move_wait_test g i :
      threads g !! i = Some WaitTest → wg_move g (wait_test i g)
  | move_relock g i :
      threads g !! i = Some WaitWoken → mutex_ g = None →
      wg_move g (mk_group (Some i) (count_ g) (at_point i WaitTest g))
  | move_done_lock g i :
      threads g !! i = Some DoneLock → mutex_ g = None →
      wg_move g (mk_group (Some i) (count_ g) (at_point i DoneHeld g))
  | move_done_body g i :
      threads g !! i = Some DoneHeld → wg_move g (done_body i g).
(** A step is a move of a thread or a wake-up without a reason. *)
Inductive wg_step : WaitGroup → WaitGroup → Prop :=
  | step_move g g' : wg_move g g' → wg_step g g'
  | step_spurious g i :
      threads g !! i = Some Waiting → wg_step g (mk_group (mutex_ g) (count_ g) (at_point i WaitWoken g)).

(** ** The invariant *)
Definition returned (g : WaitGroup) : nat := length (filter (.= DoneReturned) (threads g)).
Definition is_doner (p : point) : Prop := p = DoneLock ∨ p = DoneHeld ∨ p = DoneReturned.
#[global] Instance is_doner_dec p : Decision (is_doner p).
Proof. unfold is_doner. apply _. Defined.
Definition doners (g : WaitGroup) : nat := length (filter is_doner (threads g)).
Definition holds (p : point) : Prop := p = WaitTest ∨ p = DoneHeld.

Record wg_inv (n : Z) (d : nat) (g : WaitGroup) : Prop := {
  (** the count is what is left *)
  wi_count : count_ g = n - Z.of_nat (returned g);
  (** a thread inside holds the mutex, and only one does *)
  wi_mutex i p : threads g !! i = Some p → holds p → mutex_ g = Some i;
  wi_owner i : mutex_ g = Some i → ∃ p, threads g !! i = Some p ∧ holds p;
  (** nobody sleeps when the count is down, nobody has returned before *)
  wi_wake i : threads g !! i = Some Waiting → 0 < count_ g;
  wi_return i : threads g !! i = Some WaitReturned → count_ g <= 0;
  wi_doners : doners g = d;
}.

(** Counting over an update of one thread. *)
Section counting.
Context (P : point → Prop) {Pdec : ∀ p, Decision (P p)}.

Lemma count_insert ts i p q :
  ts !! i = Some p →
  (length (filter P (<[i := q]> ts)) + (if decide (P p) then 1 else 0) =
   length (filter P ts) + (if decide (P q) then 1 else 0))%nat.
Proof using.
  revert i. induction ts as [|t ts IH]; intros [|i] Hi; cbn in Hi; [done|done| |].
  - injection Hi as ->. cbn [insert list_insert]. rewrite !filter_cons. repeat case_decide; cbn [length]; lia.
  - specialize (IH i Hi). change (<[S i := q]> (t :: ts)) with (t :: <[i := q]> ts). rewrite !filter_cons. revert IH.
    destruct (decide (P t)), (decide (P p)), (decide (P q)); cbn [length]; lia.
Qed.
Lemma count_wake ts : (∀ p, P (wake p) ↔ P p) → length (filter P (wake <$> ts)) = length (filter P ts).
Proof using.
  intros HP. induction ts as [|t ts IH]; [done|]. cbn [fmap list_fmap]. rewrite !filter_cons.
  destruct (decide (P (wake t))) as [H|H]; destruct (decide (P t)) as [H'|H']; cbn [length]; rewrite ?HP in H; (lia || done).
Qed.
End counting.

Lemma wake_cases p : (p = Waiting ∧ wake p = WaitWoken) ∨ (p ≠ Waiting ∧ wake p = p).
Proof. unfold wake. case_decide; auto. Qed.
Lemma lookup_wake (ts : list point) (i : nat) p : (wake <$> ts) !! i = Some p → p ≠ Waiting ∧ ∃ q, ts !! i = Some q ∧ p = wake q.
Proof.
  rewrite list_lookup_fmap. intros (q & Hq & ->)%fmap_Some. split; [|by exists q].
  destruct (wake_cases q) as [[_ ->]|[? ->]]; done.
Qed.

(** What is known of the threads after one has moved. *)
Lemma lookup_moved (ts : list point) (i j : nat) p q : (<[i := q]> ts) !! j = Some p → (j = i ∧ p = q) ∨ (j ≠ i ∧ ts !! j = Some p).
Proof. intros [(-> & -> & _)|[? ?]]%list_lookup_insert_Some; auto. Qed.

Lemma moved_counts g i p q :
  threads g !! i = Some p → (is_doner p ↔ is_doner q) →
  length (filter is_doner (<[i := q]> (threads g))) = doners g ∧
  (length (filter (.= DoneReturned) (<[i := q]> (threads g))) + (if decide (p = DoneReturned) then 1 else 0) =
   returned g + (if decide (q = DoneReturned) then 1 else 0))%nat.
Proof.
  intros Hi Hpq. pose proof (count_insert is_doner _ _ _ q Hi) as H1. pose proof (count_insert (.= DoneReturned) _ _ _ q Hi) as H2.
  split; [|exact H2]. unfold doners. destruct (decide (is_doner p)), (decide (is_doner q)); (lia || tauto).
Qed.

(** A thread moves without counting down: it takes the mutex, gives it up, or
    leaves it alone. *)
Lemma move_inv n d g i p q m :
  wg_inv n d g → threads g !! i = Some p → (is_doner p ↔ is_doner q) → p ≠ DoneReturned → q ≠ DoneReturned →
  (m = Some i ∧ holds q ∧ mutex_ g = None) ∨ (m = None ∧ ¬ holds q ∧ mutex_ g = Some i) ∨
    (m = mutex_ g ∧ ¬ holds q ∧ ¬ holds p) →
  (q = Waiting → 0 < count_ g) → (q = WaitReturned → count_ g <= 0) →
  wg_inv n d (mk_group m (count_ g) (at_point i q g)).
Proof.
  intros [Hc Hm Ho Hw Hr Hd] Hi Hpq Hp Hq Hmu Hqw Hqr. destruct (moved_counts g i p q Hi Hpq) as [H1 H2].
  rewrite !decide_False in H2 by done. unfold at_point. split; cbn [count_ mutex_ threads].
  - unfold returned at 1. cbn [threads]. rewrite Hc. do 2 f_equal. lia.
  - intros j r Hj Hh. apply lookup_moved in Hj as [[-> ->]|[Hne Hj]]; [naive_solver|].
    specialize (Hm j r Hj Hh). destruct Hmu as [(? & ? & ?)|[(? & ? & ?)|(? & ? & ?)]]; congruence.
  - intros j Hj. destruct Hmu as [(-> & Hh & _)|[(-> & _)|(-> & Hnq & Hnp)]]; [|done|].
    + injection Hj as ->. exists q. split; [|done]. apply list_lookup_insert_eq. by eapply lookup_lt_Some.
    + destruct (Ho j Hj) as (r & Er & Hh). exists r. split; [|done].
      rewrite list_lookup_insert_ne; [done|]. intros ->. rewrite Hi in Er. by injection Er as <-.
  - intros j Hj. apply lookup_moved in Hj as [[-> E]|[_ Hj]]; [auto|by eapply Hw].
  - intros j Hj. apply lookup_moved in Hj as [[-> E]|[_ Hj]]; [auto|by eapply Hr].
  - unfold doners at 1. cbn [threads]. congruence.
Qed.

Lemma done_inv n d g i :
  wg_inv n d g → threads g !! i = Some DoneHeld → wg_inv n d (done_body i g).
Proof.
  intros [Hc Hm Ho Hw Hr Hd] Hi. pose proof (Hm i _ Hi ltac:(by right)) as Hown.
  destruct (moved_counts g i DoneHeld DoneReturned Hi) as [H1 H2]; [unfold is_doner; tauto|].
  rewrite decide_False, decide_True in H2 by done. unfold done_body, at_point. cbv zeta.
  set (ts := <[i := DoneReturned]> (threads g)) in *.
  set (ts' := if bool_decide (count_ g - 1 = 0) then wake <$> ts else ts).
  assert (Hret : length (filter (.= DoneReturned) ts') = S (returned g)).
  { unfold ts'. case_bool_decide; [rewrite count_wake|]; [lia| |lia].
    intros p. destruct (wake_cases p) as [[-> ->]|[_ ->]]; done. }
  assert (Hdon : length (filter is_doner ts') = doners g).
  { unfold ts'. case_bool_decide; [rewrite count_wake|]; [done| |done].
    intros p. unfold is_doner. destruct (wake_cases p) as [[-> ->]|[_ ->]]; naive_solver. }
  assert (Hts : ∀ j p, ts' !! j = Some p → p = DoneReturned ∨ p = WaitWoken ∨
    (j ≠ i ∧ threads g !! j = Some p ∧ (p = Waiting → count_ g - 1 ≠ 0))).
  { intros j p. unfold ts'. case_bool_decide as Hz.
    - intros (Hnw & q & Hq & ->)%lookup_wake. destruct (wake_cases q) as [[-> E]|[Hne E]]; [rewrite E; auto|].
      rewrite E. apply lookup_moved in Hq as [[_ ->]|[? ?]]; [by left|]. right. right. done.
    - intros [[_ ->]|[? ?]]%lookup_moved; [by left|]. right. right. done. }
  clearbody ts'. split; cbn [count_ mutex_ threads].
  - unfold returned at 1. cbn [threads]. rewrite Hret. lia.
  - intros j p Hj Hh. apply Hts in Hj as [->|[->|(Hne & Hj & _)]]; [by destruct Hh|by destruct Hh|].
    specialize (Hm j p Hj Hh). congruence.
  - done.
  - intros j Hj. apply Hts in Hj as [?|[?|(_ & Hj & Hnz)]]; [done|done|]. specialize (Hw j Hj). specialize (Hnz eq_refl). lia.
  - intros j Hj. apply Hts in Hj as [?|[?|(_ & Hj & _)]]; [done|done|]. specialize (Hr j Hj). lia.
  - unfold doners at 1. cbn [threads]. congruence.
Qed.

Ltac move_thread := eapply move_inv; [eassumption|eassumption|unfold is_doner; naive_solver|done|done| |(done || lia)..]; unfold holds; naive_solver.

Lemma wg_step_inv n d g g' : wg_inv n d g → wg_step g g' → wg_inv n d g'.
Proof.
  intros Hinv Hs. destruct Hs as [g g' [g0 i Hi Hn|g0 i Hi|g0 i Hi Hn|g0 i Hi Hn|g0 i Hi]|g i Hi].
  - move_thread.
  - pose proof (wi_mutex _ _ _ Hinv i _ Hi ltac:(by left)) as Hown. unfold wait_test. case_bool_decide; move_thread.
  - move_thread.
  - move_thread.
  - by apply done_inv.
  - move_thread.
Qed.

Lemma replicate_all {A} (p q : A) n i : replicate n p !! i = Some q → q = p.
Proof. by intros [-> _]%lookup_replicate. Qed.
Lemma new_points w d i p :
  threads (WaitGroup_new 0 w d) !! i = Some p → p = WaitLock ∨ p = DoneLock.
Proof. intros [?|[_ ?]]%lookup_app_Some; eauto using replicate_all. Qed.

Lemma wg_inv_init n w d : wg_inv n d (WaitGroup_new n w d).
Proof.
  assert (Hp : ∀ i p, threads (WaitGroup_new n w d) !! i = Some p → p = WaitLock ∨ p = DoneLock) by apply new_points.
  split; [| |done|..].
  - unfold returned, WaitGroup_new. cbn [threads count_]. rewrite filter_app, length_app.
    assert (∀ m p, p ≠ DoneReturned → filter (.= DoneReturned) (replicate m p) = []) as Hf.
    { intros m p Hne. induction m as [|m IH]; [done|]. cbn [replicate]. by rewrite filter_cons_False. }
    rewrite !Hf by done. cbn. lia.
  - intros i p Hi [->| ->]; destruct (Hp _ _ Hi); done.
  - intros i Hi; destruct (Hp _ _ Hi); done.
  - intros i Hi; destruct (Hp _ _ Hi); done.
  - unfold doners, WaitGroup_new. cbn [threads]. rewrite filter_app, length_app.
    assert (filter is_doner (replicate w WaitLock) = []) as ->.
    { induction w as [|m IH]; [done|]. cbn [replicate]. rewrite filter_cons_False by (intros [?|[?|?]]; done). apply IH.
      intros j p Hj. by apply (new_points m d j p). }
    assert (∀ m, length (filter is_doner (replicate m DoneLock)) = m) as ->; [|done].
    induction m as [|m IH]; [done|]. cbn [replicate]. rewrite filter_cons_True by (by left). cbn [length]. by rewrite IH.
Qed.

(** ** No state but the last one is stuck *)
Definition finished (p : point) : Prop := p = WaitReturned ∨ p = DoneReturned.
Definition all_returned (g : WaitGroup) : Prop := Forall finished (threads g).

Lemma all_doners_returned ts :
  (∀ i p, ts !! i = Some p → is_doner p → p = DoneReturned) →
  length (filter (.= DoneReturned) ts) = length (filter is_doner ts).
Proof.
  induction ts as [|t ts IH]; intros Hall; [done|]. rewrite !filter_cons.
  assert (IH' : length (filter (.= DoneReturned) ts) = length (filter is_doner ts)).
  { apply IH. intros i p Hi. apply (Hall (S i) p Hi). }
  specialize (Hall 0%nat t eq_refl).
  destruct (decide (is_doner t)) as [Hd|Hd]; destruct (decide (t = DoneReturned)) as [->|Hne]; cbn [length];
    [lia|by destruct Hne; apply Hall|by destruct Hd; right; right|done].
Qed.

Lemma wg_progress n d g : wg_inv n d g → n <= Z.of_nat d → all_returned g ∨ ∃ g', wg_move g g'.
Proof.
  intros Hinv Hnd. destruct (mutex_ g) as [i|] eqn:Em.
  - destruct (wi_owner _ _ _ Hinv i Em) as (p & Hi & [->| ->]); right; eexists; [by eapply move_wait_test|by eapply move_done_body].
  - destruct (decide (all_returned g)) as [|Hno]; [by left|right].
    apply not_Forall_Exists in Hno as (p & Hin & Hp)%Exists_exists; [|intros ?; unfold finished; apply _].
    apply list_elem_of_lookup in Hin as (i & Hi).
    destruct p; try (by destruct Hp; (left + right)).
    + eexists. by eapply move_wait_lock.
    + eexists. by eapply move_wait_test.
    + pose proof (wi_wake _ _ _ Hinv i Hi) as Hpos.
      destruct (decide (Exists (λ p, is_doner p ∧ p ≠ DoneReturned) (threads g))) as [He|Hne].
      * apply Exists_exists in He as (p & Hin & Hd & Hne). apply list_elem_of_lookup in Hin as (j & Hj).
        destruct Hd as [->|[->|?]]; [|by eexists; eapply move_done_body|done]. eexists. by eapply move_done_lock.
      * exfalso. rewrite (wi_count _ _ _ Hinv) in Hpos. unfold returned in Hpos.
        rewrite all_doners_returned in Hpos.
        -- pose proof (wi_doners _ _ _ Hinv) as Hd. unfold doners in Hd. lia.
        -- intros j p Hj Hd. destruct (decide (p = DoneReturned)) as [|Hnr]; [done|]. destruct Hne.
           apply Exists_exists. exists p. split; [by eapply list_elem_of_lookup_2|done].
    + eexists. by eapply move_relock.
    + eexists. by eapply move_done_lock.
    + eexists. by eapply move_done_body.
Qed.

(** ** The work that is left *)

(** The moves a thread can still make, a waking [Done] paying for those it
    wakes. *)
Definition weight (k : nat) (p : point) : nat :=
  match p with
  | WaitLock | WaitWoken => 3
  | WaitTest => 2
  | Waiting => 1
  | WaitReturned | DoneReturned => 0
  | DoneLock => k + 2
  | DoneHeld => k + 1
  end.
Definition total (f : point → nat) (ts : list point) : nat := foldr (λ p n, (f p + n)%nat) 0%nat ts.
Definition work (g : WaitGroup) : nat := total (weight (2 * length (threads g))) (threads g).

Lemma total_insert f ts i p q : ts !! i = Some p → (total f (<[i := q]> ts) + f p = total f ts + f q)%nat.
Proof.
  unfold total. revert i. induction ts as [|t ts IH]; intros [|i] Hi; cbn in Hi; [done|done| |].
  - injection Hi as ->. cbn. lia.
  - specialize (IH i Hi). change (<[S i := q]> (t :: ts)) with (t :: <[i := q]> ts). cbn [foldr]. lia.
Qed.
Lemma total_wake k ts : (total (weight k) (wake <$> ts) <= total (weight k) ts + 2 * length ts)%nat.
Proof.
  unfold total. induction ts as [|t ts IH]; [done|]. rewrite fmap_cons. cbn [foldr length].
  destruct (wake_cases t) as [[-> ->]|[_ ->]]; cbn [weight]; lia.
Qed.

Lemma move_work g g' : wg_move g g' → (work g' < work g)%nat.
Proof.
  assert (Hone : ∀ m c i p q, threads g !! i = Some p →
    (weight (2 * length (threads g)) q < weight (2 * length (threads g)) p)%nat →
    (work (mk_group m c (at_point i q g)) < work g)%nat).
  { intros m c i p q Hi Hlt. unfold work, at_point. cbn [threads]. rewrite length_insert.
    pose proof (total_insert (weight (2 * length (threads g))) _ _ _ q Hi). lia. }
  intros Hm. destruct Hm as [g i Hi Hn|g i Hi|g i Hi Hn|g i Hi Hn|g i Hi].
  - eapply Hone; [done|]. cbn. lia.
  - unfold wait_test. case_bool_decide; (eapply Hone; [done|]); cbn; lia.
  - eapply Hone; [done|]. cbn. lia.
  - eapply Hone; [done|]. cbn. lia.
  - unfold done_body, work, at_point. cbn [threads]. clear Hone.
    set (ts := <[i := DoneReturned]> (threads g)). set (k := (2 * length (threads g))%nat).
    assert (Hl : length (if bool_decide (count_ g - 1 = 0) then wake <$> ts else ts) = length (threads g))
      by (case_bool_decide; unfold ts; rewrite ?length_fmap, length_insert; done).
    rewrite Hl. fold k.
    pose proof (total_insert (weight k) _ _ _ DoneReturned Hi) as Ht. fold ts in Ht. cbn [weight] in Ht.
    pose proof (total_wake k ts) as Hw. assert (length ts = length (threads g)) by (unfold ts; apply length_insert).
    case_bool_decide; unfold k in *; lia.
Qed.

(** C26: over every interleaving of threads that call [Wait] and [Done], with spurious
    wake-ups: a call of [Wait] has returned only after as many calls of [Done]
    as the group was created with; nobody sleeps once the count is down; and
    when there are enough calls of [Done], a state with a call that has not
    returned has a next move, and every move leaves less work, so all calls
    return. *)
Theorem wait_group_correct n w d g :
  rtc wg_step (WaitGroup_new n w d) g →
  ((∃ i, threads g !! i = Some WaitReturned) → n <= Z.of_nat (returned g)) ∧
  (n <= Z.of_nat (returned g) → Waiting ∉ threads g) ∧
  (n <= Z.of_nat d → all_returned g ∨ ∃ g', wg_move g g') ∧
  (∀ g', wg_move g g' → (work g' < work g)%nat).
Proof.
  intros Hr. assert (Hinv : wg_inv n d g).
  { pose proof (wg_inv_init n w d) as H0. induction Hr as [|g0 g1 g2 Hs _ IH]; [done|]. eauto using wg_step_inv. }
  pose proof (wi_count _ _ _ Hinv) as Hc. split_and!.
  - intros (i & Hi). pose proof (wi_return _ _ _ Hinv i Hi). lia.
  - intros Hn (i & Hi)%list_elem_of_lookup. pose proof (wi_wake _ _ _ Hinv i Hi). lia.
  - by apply wg_progress.
  - intros g'. apply move_work.
Qed.

(** One waiter that sleeps, one call of [Done]. *)
Lemma wait_group_correct_witness :
  let g := mk_group None 0 [WaitWoken; DoneReturned] in
  rtc wg_step (WaitGroup_new 1 1 1) g ∧ (1 <= Z.of_nat (returned g) → Waiting ∉ threads g).
Proof.
  intros g. assert (Hr : rtc wg_step (WaitGroup_new 1 1 1) g).
  { eapply rtc_l; [apply step_move; by apply (move_wait_lock _ 0)|].
    eapply rtc_l; [apply step_move; by apply (move_wait_test _ 0)|].
    eapply rtc_l; [apply step_move; by apply (move_done_lock _ 1)|].
    eapply rtc_l; [apply step_move; by apply (move_done_body _ 1)|]. apply rtc_refl. }
  split; [exact Hr|]. exact (proj1 (proj2 (wait_group_correct 1 1 1 g Hr))).
Defined.

(** ** Thread *)

(** Where the new thread is: not created, created, its number stored, announced
    (it has called [Done]), inside [func_], ended. *)
Inductive progress : Type := NotCreated | Created | Numbered | Announced | Running | Ended.
Record Thread : Type := mk_threadobj {
  started_ : bool;
  joined_ : bool;
  tid_ : Z;
  (** the object has been destroyed *)
  destroyed : bool;
  (** [Start] has returned *)
  start_returned : bool;
  child : progress;
}.
Definition Thread_new : Thread := mk_threadobj false false 0 false false NotCreated.

(** [Start]: up to [waitgroup_.Wait()]; a failing [pthread_create] aborts. *)
Definition thread_Start (created : bool) (t : Thread) : result Thread :=
  _ ← cpp_assert (negb (started_ t));
  if created then Ret (mk_threadobj true (joined_ t) (tid_ t) (destroyed t) (start_returned t) Created)
  else Fault Aborted.
(** [Join]: up to [pthread_join]. *)
Definition thread_Join (t : Thread) : result Thread :=
  _ ← cpp_assert (started_ t);
  _ ← cpp_assert (negb (joined_ t));
  Ret (mk_threadobj (started_ t) true (tid_ t) (destroyed t) (start_returned t) (child t)).

Definition set_child (p : progress) (tid : Z) (t : Thread) : Thread :=
  mk_threadobj (started_ t) (joined_ t) tid (destroyed t) (start_returned t) p.
(** [StartThread]: every access to [pThread] is to the object. *)
Definition child_step (gettid : Z) (t : Thread) : result Thread :=
  match child t with
  | Created => if destroyed t then Fault WildPointer else Ret (set_child Numbered gettid t)
  | Numbered => if destroyed t then Fault WildPointer else Ret (set_child Announced (tid_ t) t)
  | Announced => if destroyed t then Fault WildPointer else Ret (set_child Running (tid_ t) t)
  | Running => Ret (set_child Ended (tid_ t) t)
  | p => Ret t
  end.

(** [Done] has been called; [tid_] has been stored. *)
Definition announced (p : progress) : bool := match p with Announced | Running | Ended => true | _ => false end.
Definition numbered (p : progress) : bool := match p with NotCreated | Created => false | _ => true end.

(** The owner: [Wait] returns after the announcement, [pthread_join] after the
    end; the object is destroyed once [Start] has returned, and [Join] too when
    it was called. *)
Inductive thread_step (gettid : Z) : Thread → result Thread → Prop :=
  | own_start t : start_returned t = false → started_ t = false → thread_step gettid t (thread_Start true t)
  | own_started t :
      started_ t = true → announced (child t) = true →
      thread_step gettid t (Ret (mk_threadobj (started_ t) (joined_ t) (tid_ t) (destroyed t) true (child t)))
  | own_join t :
      start_returned t = true → joined_ t = false → destroyed t = false → child t = Ended →
      thread_step gettid t (thread_Join t)
  | own_destroy t :
      start_returned t = true → thread_step gettid t
        (Ret (mk_threadobj (started_ t) (joined_ t) (tid_ t) true (start_returned t) (child t)))
  | child_moves t : child t ≠ NotCreated → thread_step gettid t (child_step gettid t).

(** Histories that have not failed. *)
Inductive thread_reach (gettid : Z) (joins : bool) : Thread → Prop :=
  | reach_new : thread_reach gettid joins Thread_new
  | reach_step t t' :
      thread_reach gettid joins t → thread_step gettid t (Ret t') →
      (joins = true → destroyed t = false → destroyed t' = true → joined_ t = true) →
      thread_reach gettid joins t'.

Record thread_inv (gettid : Z) (joins : bool) (t : Thread) : Prop := {
  ti_started : child t ≠ NotCreated → started_ t = true;
  ti_tid : start_returned t = true → announced (child t) = true;
  ti_numbered : numbered (child t) = true → tid_ t = gettid;
  ti_joined : joined_ t = true → child t = Ended;
  ti_destroyed : joins = true → destroyed t = true → child t = Ended;
}.

Lemma thread_step_inv gettid joins t t' :
  thread_inv gettid joins t → thread_step gettid t (Ret t') →
  (joins = true → destroyed t = false → destroyed t' = true → joined_ t = true) → thread_inv gettid joins t'.
Proof.
  intros [H1 H2 H3 H4 H5] Hs Hj. remember (Ret t') as r eqn:Er.
  destruct Hs as [t Hr Hs|t Hs Hc|t Hr Hn Hd Hc|t Hr|t Hc]; destruct t as [st jo ti de sr ch];
    cbn [started_ joined_ tid_ destroyed start_returned child] in *; subst; cbn in Er.
  - injection Er as <-. destruct ch; split; cbn in *; auto; try done; try (intros; discriminate (H1 ltac:(done))).
    all: try (by intros; specialize (H4 ltac:(done))). all: try (intros; by specialize (H5 ltac:(done) ltac:(done))).
  - injection Er as <-. destruct ch; split; cbn in *; auto.
  - assert (st = true) as -> by (by apply H1). cbn in Er. injection Er as <-. split; cbn in *; auto.
  - injection Er as <-. destruct ch; split; cbn in *; auto.
    all: intros E _; destruct de; auto.
  - destruct ch, de; try done; injection Er as <-; split; cbn in *; auto; try done.
    all: intros E; by specialize (H4 E).
Qed.

Lemma thread_reach_inv gettid joins t : thread_reach gettid joins t → thread_inv gettid joins t.
Proof. induction 1 as [|t t' _ IH Hs Hj]; [by split|]. eauto using thread_step_inv. Qed.

(** Over every interleaving of the owner and the new thread: when [Start] has
    returned the number of the thread is known, and when the owner joins the
    thread before it destroys the object, no step of either touches a destroyed
    object or fails an assertion. *)
Theorem thread_life gettid joins t :
  thread_reach gettid joins t →
  (start_returned t = true → tid_ t = gettid) ∧
  (joins = true → ∀ r, thread_step gettid t r → ∃ t', r = Ret t').
Proof.
  intros [H1 H2 H3 H4 H5]%thread_reach_inv. split.
  - intros Hr. apply H3. specialize (H2 Hr). by destruct (child t).
  - intros Hj r Hs. destruct Hs as [t Hr Hs|t Hs Hc|t Hr Hn Hd Hc|t Hr|t Hc]; [|by eexists| |by eexists|].
    + unfold thread_Start. rewrite Hs. by eexists.
    + unfold thread_Join. rewrite H1, Hn by (by rewrite Hc). by eexists.
    + unfold child_step. specialize (H5 Hj). destruct (child t), (destroyed t); try (by eexists); by specialize (H5 eq_refl).
Qed.

Definition thread_at (destroyed returned : bool) (p : progress) : Thread :=
  mk_threadobj true false 7 destroyed returned p.
Lemma thread_at_announced joins : thread_reach 7 joins (thread_at false true Announced).
Proof.
  apply (reach_step 7 joins (thread_at false false Announced)); [|by apply own_started|done].
  apply (reach_step 7 joins (thread_at false false Numbered)); [|by apply (child_moves 7 (thread_at false false Numbered))|done].
  apply (reach_step 7 joins (mk_threadobj true false 0 false false Created));
    [|by apply (child_moves 7 (mk_threadobj true false 0 false false Created))|done].
  apply (reach_step 7 joins Thread_new); [constructor|by apply (own_start 7 Thread_new)|done].
Qed.
Lemma thread_life_witness : tid_ (thread_at false true Announced) = 7.
Proof. apply (thread_life 7 true (thread_at false true Announced) (thread_at_announced true)). reflexivity. Defined.

(** An owner that does not join may destroy the object as soon as [Start] has
    returned, while the new thread has yet to read [func_] from it. *)
Theorem detached_reads_freed :
  ∃ t, thread_reach 7 false t ∧ started_ t = true ∧ thread_step 7 t (Fault WildPointer).
Proof.
  exists (thread_at true true Announced). split; [|split; [done|]].
  - apply (reach_step 7 false (thread_at false true Announced)); [apply thread_at_announced|by apply own_destroy|done].
  - by apply (child_moves 7 (thread_at true true Announced)).
Qed.
