(* ===== verification/Types.v ===== *)
(** * Byte access, byte order and alignment: kernel/util/types.h

    [byteN p i] reads an N-byte network-order integer at offset [i] of the
    object [p]; [set_byteN] writes one; [Align4] rounds a size up to a
    multiple of four at its 16- or 32-bit width.  Reads and writes outside the
    object are faults, so the theorems below are also the bounds under which
    the inline functions are safe. *)

From Stdlib Require Import ZArith Lia Bool.
From stdpp Require Import base numbers list.
From S2P Require Import Prelude.

(** ** Host and network order on a little-endian host: [htobe] swaps bytes *)
Definition HostToNetwork64 (host64 : Z) : Z := le_val (reverse (le_bytes 8 host64)).
Definition HostToNetwork32 (host32 : Z) : Z := le_val (reverse (le_bytes 4 host32)).
Definition HostToNetwork16 (host16 : Z) : Z := le_val (reverse (le_bytes 2 host16)).
Definition NetworkToHost64 (net64 : Z) : Z := le_val (reverse (le_bytes 8 net64)).
Definition NetworkToHost32 (net32 : Z) : Z := le_val (reverse (le_bytes 4 net32)).
Definition NetworkToHost16 (net16 : Z) : Z := le_val (reverse (le_bytes 2 net16)).

(** ** Network-order reads *)
Definition byte1 (data : list Z) (i : Z) : result Z := rd data i.

Definition byte2 (data : list Z) (i : Z) : result Z :=
  d1 ← rd data (i + 1);
  d0 ← rd data i;
  Ret (u16 (Z.lor (u16 d1) (Z.shiftl (u16 d0) 8))).

Definition byte3 (data : list Z) (i : Z) : result Z :=
  d2 ← rd data (i + 2);
  d1 ← rd data (i + 1);
  d0 ← rd data i;
  Ret (Z.lor (Z.lor (u32 d2) (u32 (Z.shiftl (u32 d1) 8))) (u32 (Z.shiftl (u32 d0) 16))).

Definition byte4 (data : list Z) (i : Z) : result Z :=
  d3 ← rd data (i + 3);
  d2 ← rd data (i + 2);
  d1 ← rd data (i + 1);
  d0 ← rd data i;
  Ret (Z.lor (Z.lor (Z.lor (u32 d3) (u32 (Z.shiftl (u32 d2) 8)))
                    (u32 (Z.shiftl (u32 d1) 16)))
             (u32 (Z.shiftl (u32 d0) 24))).

Definition byte8 (data : list Z) (i : Z) : result Z :=
  hi ← byte4 data i;
  lo ← byte4 data (i + 4);
  Ret (Z.lor (u64 (Z.shiftl (u64 hi) 32)) (u64 lo)).

(** ** Network-order writes, in the order of the assignments *)
Definition set_byte1 (data : list Z) (i value : Z) : result (list Z) := wr data i value.

Definition set_byte2 (data : list Z) (i value : Z) : result (list Z) :=
  data ← wr data (i + 1) (u8 value);
  wr data i (u8 (Z.shiftr value 8)).

Definition set_byte3 (data : list Z) (i value : Z) : result (list Z) :=
  data ← wr data (i + 2) (u8 value);
  data ← wr data (i + 1) (u8 (Z.shiftr value 8));
  wr data i (u8 (Z.shiftr value 16)).

Definition set_byte4 (data : list Z) (i value : Z) : result (list Z) :=
  data ← wr data (i + 3) (u8 value);
  data ← wr data (i + 2) (u8 (Z.shiftr value 8));
  data ← wr data (i + 1) (u8 (Z.shiftr value 16));
  wr data i (u8 (Z.shiftr value 24)).

Definition set_byte8 (data : list Z) (i value : Z) : result (list Z) :=
  data ← wr data (i + 7) (u8 value);
  data ← wr data (i + 6) (u8 (Z.shiftr value 8));
  data ← wr data (i + 5) (u8 (Z.shiftr value 16));
  data ← wr data (i + 4) (u8 (Z.shiftr value 24));
  data ← wr data (i + 3) (u8 (Z.shiftr value 32));
  data ← wr data (i + 2) (u8 (Z.shiftr value 40));
  data ← wr data (i + 1) (u8 (Z.shiftr value 48));
  wr data i (u8 (Z.shiftr value 56)).

(** ** Alignment, at the width of each overload *)
Definition Align4_16 (size : Z) : Z :=
  if bool_decide (Z.land size 0x03 ≠ 0) then u16 (Z.land size 0xFFFC + 4) else size.

Definition Align4_32 (size : Z) : Z :=
  if bool_decide (Z.land size 0x03 ≠ 0) then u32 (Z.land size 0xFFFFFFFC + 4) else size.

(** ** Specification *)

(** ** Structures laid over memory *)

(** A field of [n] bytes at [p], read the way the host loads it. *)
Definition load (n : nat) (data : list Z) (p : Z) : result Z :=
  if bool_decide (0 <= p ∧ p + Z.of_nat n <= zlen data)
  then Ret (le_val (ztake (Z.of_nat n) (zdrop p data)))
  else Fault OutOfBounds.
(** [memcpy(data + p, v, sizeof v)], with [v] the bytes of the object. *)
Definition store (data : list Z) (p : Z) (v : list Z) : result (list Z) :=
  if bool_decide (0 <= p ∧ p + zlen v <= zlen data)
  then Ret (ztake p data ++ v ++ zdrop (p + zlen v) data)
  else Fault OutOfBounds.
(** A bit field of [w] bits, [off] bits above the least significant one. *)
Definition bit_field (x off w : Z) : Z := Z.land (Z.shiftr x off) (Z.ones w).

(** Reads only depend on the block they cover. *)
Lemma rd_block l i n k : 0 <= i → 0 <= k < n → rd l (i + k) = rd (ztake n (zdrop i l)) k.
Proof. intros. rewrite rd_ztake, rd_zdrop by lia. done. Qed.
Lemma rd_block_0 l i n : 0 <= i → 0 < n → rd l i = rd (ztake n (zdrop i l)) 0.
Proof. intros. rewrite <-(rd_block l i n 0) by lia. by rewrite Z.add_0_r. Qed.

Lemma block_length (l : list Z) i n : 0 <= i → 0 <= n → i + n <= zlen l → zlen (ztake n (zdrop i l)) = n.
Proof. intros. rewrite zlen_ztake; [done|]. rewrite zlen_zdrop; lia. Qed.

(** A block of known length is written out as its bytes. *)
Ltac explode w n :=
  lazymatch n with
  | O => destruct w; [|exfalso; cbn in *; lia]
  | S ?m => destruct w as [|? w]; [exfalso; cbn in *; lia|]; explode w m
  end.

Ltac byte_ranges :=
  repeat match goal with
  | H : bytes_ok (_ :: _) |- _ => apply bytes_ok_cons in H as [? H]
  | H : bytes_ok [] |- _ => clear H
  end.

(** Evaluate reads of a list of known length, and the big-endian value of one. *)
Ltac rd_eval :=
  repeat match goal with
  | |- context [rd ?l ?k] => let v := eval lazy in (rd l k) in change (rd l k) with v
  end;
  cbn [mbind result_bind];
  cbv [be_val le_val reverse rev_append].

(** Open the [n]-byte block of [data] at [i]: [k] bytes with their ranges. *)
Ltac open_block data i n k :=
  let Hw := fresh "Hw" in let Hwok := fresh "Hwok" in let w := fresh "w" in
  pose proof (block_length data i n ltac:(lia) ltac:(lia) ltac:(lia)) as Hw;
  unfold zlen in Hw;
  assert (Hwok : bytes_ok (ztake n (zdrop i data))) by auto with baize;
  revert Hw Hwok; generalize (ztake n (zdrop i data)); intros w Hw Hwok;
  explode w k; byte_ranges; rd_eval; unfold_u; f_equal.

Lemma shiftl_mod_small a n m : 0 <= n → 0 <= a * 2 ^ n < m → Z.shiftl a n mod m = Z.shiftl a n.
Proof. intros. rewrite Z.shiftl_mul_pow2 by lia. by apply Z.mod_small. Qed.

(** Turn disjoint [|] and in-range [mod] into sums. *)
Ltac lor_sum :=
  repeat first
    [ match goal with |- context [?a mod ?b] => rewrite (Z.mod_small a b) by lia end
    | match goal with |- context [Z.shiftl ?a ?n mod ?b] =>
        rewrite (shiftl_mod_small a n b) by lia end
    | match goal with |- context [Z.lor ?a (Z.shiftl ?b ?n)] =>
        rewrite (lor_shiftl_add a b n) by lia end ].

Section reads.
Context (data : list Z) (Hok : bytes_ok data).

Lemma byte2_val i :
  0 <= i → i + 2 <= zlen data → byte2 data i = Ret (be_val (ztake 2 (zdrop i data))).
Proof using Hok.
  intros. unfold byte2.
  rewrite (rd_block data i 2 1), (rd_block_0 data i 2) by lia.
  open_block data i 2 2%nat. lor_sum. lia.
Qed.

Lemma byte3_val i :
  0 <= i → i + 3 <= zlen data → byte3 data i = Ret (be_val (ztake 3 (zdrop i data))).
Proof using Hok.
  intros. unfold byte3.
  rewrite (rd_block data i 3 2), (rd_block data i 3 1), (rd_block_0 data i 3) by lia.
  open_block data i 3 3%nat. lor_sum. lia.
Qed.

Lemma byte4_val i :
  0 <= i → i + 4 <= zlen data → byte4 data i = Ret (be_val (ztake 4 (zdrop i data))).
Proof using Hok.
  intros. unfold byte4.
  rewrite (rd_block data i 4 3), (rd_block data i 4 2), (rd_block data i 4 1),
    (rd_block_0 data i 4) by lia.
  open_block data i 4 4%nat. lor_sum. lia.
Qed.

Lemma be_val_app l k : be_val (l ++ k) = be_val l * 256 ^ zlen k + be_val k.
Proof.
  unfold be_val. rewrite reverse_app, <-(zlen_reverse k).
  generalize (reverse k) as k', (reverse l) as l'. intros k' l'.
  induction k' as [|b k' IH]; [cbn [app le_val]; rewrite zlen_nil; lia|].
  cbn [app le_val]. rewrite IH, zlen_cons, Z.pow_add_r by (pose proof (zlen_nonneg k'); lia).
  lia.
Qed.

Lemma byte8_val i :
  0 <= i → i + 8 <= zlen data → byte8 data i = Ret (be_val (ztake 8 (zdrop i data))).
Proof using Hok.
  intros. unfold byte8. rewrite !byte4_val by lia. cbn [mbind result_bind].
  rewrite (ztake_split 4 8) by lia. rewrite zdrop_zdrop by lia.
  change (8 - 4) with 4. rewrite be_val_app, block_length by lia. f_equal.
  assert (Hb : ∀ j, 0 <= j → j + 4 <= zlen data → 0 <= be_val (ztake 4 (zdrop j data)) < 2 ^ 32).
  { intros j ??. pose proof (be_val_range (ztake 4 (zdrop j data))) as Hr.
    rewrite block_length in Hr by lia. apply Hr. auto with baize. }
  pose proof (Hb i ltac:(lia) ltac:(lia)). pose proof (Hb (i + 4) ltac:(lia) ltac:(lia)).
  unfold_u. rewrite Z.lor_comm. lor_sum. lia.
Qed.

(** Outside the object the reads fault: the code relies on its own checks. *)
Lemma byte2_oob i : ¬ (0 <= i ∧ i + 2 <= zlen data) → byte2 data i = Fault OutOfBounds.
Proof.
  intros. unfold byte2. destruct (decide (0 <= i + 1 < zlen data)).
  - destruct (rd_in_bounds data (i + 1)) as [b ->]; [done|]. cbn. rewrite rd_oob by lia. done.
  - by rewrite (rd_oob data (i + 1)) by lia.
Qed.
End reads.

(** ** Writes: the [n] bytes at [i] become the network-order bytes of [v] *)
(** Writing byte [k] of an open block. *)
Lemma wr_block pre bs post k v :
  0 <= k < zlen bs →
  wr (pre ++ bs ++ post) (zlen pre + k) v = Ret (pre ++ (<[Z.to_nat k := v]> bs) ++ post).
Proof.
  intros Hk. apply wr_Ret. unfold zlen in *. rewrite !length_app. split; [lia|].
  rewrite insert_app_r_alt by lia. f_equal.
  replace (Z.to_nat (Z.of_nat (length pre) + k) - length pre)%nat with (Z.to_nat k) by lia.
  rewrite insert_app_l by lia. done.
Qed.

Lemma wr_block_0 pre bs post v :
  0 < zlen bs → wr (pre ++ bs ++ post) (zlen pre) v = Ret (pre ++ (<[O := v]> bs) ++ post).
Proof. intros. rewrite <-(Z.add_0_r (zlen pre)), wr_block by lia. done. Qed.

Lemma split_block (l : list Z) i n :
  0 <= i → 0 <= n → i + n <= zlen l →
  l = ztake i l ++ ztake n (zdrop i l) ++ zdrop (i + n) l ∧ zlen (ztake i l) = i ∧
  zlen (ztake n (zdrop i l)) = n.
Proof.
  intros. split_and!; [|rewrite zlen_ztake; lia|by apply block_length].
  rewrite <-(zdrop_zdrop n i) by lia. by rewrite !ztake_zdrop.
Qed.

Ltac write_block data i n k :=
  let E := fresh "E" in let Hp := fresh "Hp" in let Hw := fresh "Hw" in
  let w := fresh "w" in let pre := fresh "pre" in let post := fresh "post" in
  destruct (split_block data i n ltac:(lia) ltac:(lia) ltac:(lia)) as (E & Hp & Hw);
  rewrite E at 1; revert Hp Hw; clear E;
  generalize (ztake i data) as pre, (ztake n (zdrop i data)) as w,
    (zdrop (i + n) data) as post;
  intros pre w post <- Hw;
  unfold zlen in Hw; explode w k;
  repeat (first [rewrite wr_block by (unfold zlen; rewrite ?length_insert; cbn; lia) | rewrite wr_block_0 by (unfold zlen; rewrite ?length_insert; cbn; lia)];
          cbn [mbind result_bind]);
  do 2 f_equal; unfold be_bytes; cbn [le_bytes]; cbv [reverse rev_append];
  repeat match goal with |- context [Z.to_nat ?k] =>
    let v := eval vm_compute in (Z.to_nat k) in change (Z.to_nat k) with v end;
  cbn [app insert list_insert];
  unfold_u; repeat (rewrite Z.shiftr_div_pow2 by lia); rewrite ?Z.div_div by lia.

Section writes.
Context (data : list Z).

Lemma set_byte2_val i v :
  0 <= i → i + 2 <= zlen data →
  set_byte2 data i v = Ret (ztake i data ++ be_bytes 2 v ++ zdrop (i + 2) data).
Proof. intros. unfold set_byte2. write_block data i 2 2%nat. done. Qed.

Lemma set_byte3_val i v :
  0 <= i → i + 3 <= zlen data →
  set_byte3 data i v = Ret (ztake i data ++ be_bytes 3 v ++ zdrop (i + 3) data).
Proof. intros. unfold set_byte3. write_block data i 3 3%nat. done. Qed.

Lemma set_byte4_val i v :
  0 <= i → i + 4 <= zlen data →
  set_byte4 data i v = Ret (ztake i data ++ be_bytes 4 v ++ zdrop (i + 4) data).
Proof. intros. unfold set_byte4. write_block data i 4 4%nat. done. Qed.

Lemma set_byte8_val i v :
  0 <= i → i + 8 <= zlen data →
  set_byte8 data i v = Ret (ztake i data ++ be_bytes 8 v ++ zdrop (i + 8) data).
Proof. intros. unfold set_byte8. write_block data i 8 8%nat. done. Qed.
End writes.

(** The block a write replaced reads back as the written value. *)
Lemma be_val_written (data : list Z) i n v :
  0 <= i → i + Z.of_nat n <= zlen data →
  be_val (ztake (Z.of_nat n) (zdrop i (ztake i data ++ be_bytes n v ++ zdrop (i + Z.of_nat n) data)))
  = v mod 256 ^ Z.of_nat n.
Proof.
  intros. rewrite zdrop_app_all by (rewrite zlen_ztake; lia).
  rewrite ztake_app_all by (by zlen_simp). apply be_val_be_bytes.
Qed.

Lemma bytes_ok_written (data : list Z) i n m v :
  bytes_ok data → bytes_ok (ztake i data ++ be_bytes n v ++ zdrop m data).
Proof. intros. rewrite !bytes_ok_app. auto with baize. Qed.
#[export] Hint Resolve bytes_ok_written : baize.

Lemma zlen_written (data : list Z) i n v :
  0 <= i → i + Z.of_nat n <= zlen data →
  zlen (ztake i data ++ be_bytes n v ++ zdrop (i + Z.of_nat n) data) = zlen data.
Proof. intros. zlen_simp. rewrite zlen_ztake, zlen_zdrop; lia. Qed.

(** A value written by [set_byte2/3/4/8] at an offset whose block lies in
    the object is read back by the matching [byteN], truncated to its width,
    and no byte outside the block changes.  *)
Theorem set_byte_roundtrip (data : list Z) (i v : Z) :
  bytes_ok data → 0 <= i → i + 8 <= zlen data →
  (set_byte2 data i v ≫= λ d, byte2 d i) = Ret (u16 v) ∧
  (set_byte3 data i v ≫= λ d, byte3 d i) = Ret (v mod 2 ^ 24) ∧
  (set_byte4 data i v ≫= λ d, byte4 d i) = Ret (u32 v) ∧
  (set_byte8 data i v ≫= λ d, byte8 d i) = Ret (u64 v) ∧
  (∀ d j, set_byte8 data i v = Ret d → ¬ (i <= j < i + 8) → rd d j = rd data j).
Proof.
  intros Hok Hi Hlen.
  rewrite set_byte2_val, set_byte3_val, set_byte4_val, set_byte8_val by lia.
  cbn [mbind result_bind].
  pose proof (zlen_written data i 2 v Hi ltac:(lia) : zlen (_ ++ _ ++ zdrop (i + 2) _) = _).
  pose proof (zlen_written data i 3 v Hi ltac:(lia) : zlen (_ ++ _ ++ zdrop (i + 3) _) = _).
  pose proof (zlen_written data i 4 v Hi ltac:(lia) : zlen (_ ++ _ ++ zdrop (i + 4) _) = _).
  pose proof (zlen_written data i 8 v Hi ltac:(lia) : zlen (_ ++ _ ++ zdrop (i + 8) _) = _).
  rewrite byte2_val, byte3_val, byte4_val, byte8_val by (auto with baize; lia).
  split_and!.
  { f_equal. apply (be_val_written data i 2 v); lia. }
  { f_equal. apply (be_val_written data i 3 v); lia. }
  { f_equal. apply (be_val_written data i 4 v); lia. }
  { f_equal. apply (be_val_written data i 8 v); lia. }
  intros d j Hd Hj. inv_ret Hd. destruct (decide (j < i)).
  - rewrite rd_app_l by (rewrite zlen_ztake; lia). by rewrite rd_ztake.
  - rewrite rd_app_r by (rewrite zlen_ztake; lia). rewrite zlen_ztake by lia.
    rewrite rd_app_r by (zlen_simp; lia). zlen_simp.
    rewrite rd_zdrop by lia. f_equal. lia.
Qed.

Lemma set_byte_roundtrip_witness :
  (set_byte2 [1;2;3;4;5;6;7;8;9] 1 0x1234 ≫= λ d, byte2 d 1) = Ret 0x1234.
Proof.
  refine (proj1 (set_byte_roundtrip [1;2;3;4;5;6;7;8;9] 1 0x1234 _ _ _)).
  - repeat constructor; unfold_u; cbn; lia.
  - lia.
  - unfold zlen; cbn; lia.
Defined.

(** ** Byte order *)
Section byte_order.
Lemma le_bytes_swap n v : le_bytes n (le_val (reverse (le_bytes n v))) = be_bytes n v.
Proof.
  unfold be_bytes. rewrite <-(length_le_bytes n v) at 1. rewrite <-length_reverse.
  apply le_bytes_le_val. auto with baize.
Qed.
Lemma swap_le_val n l :
  length l = n → bytes_ok l → le_val (reverse (le_bytes n (le_val l))) = be_val l.
Proof. intros <- ?. unfold be_val. by rewrite le_bytes_le_val. Qed.

(** What [Append(HostToNetworkN(v))] puts in memory. *)
Lemma mem_HostToNetwork16 v : le_bytes 2 (HostToNetwork16 v) = be_bytes 2 v.
Proof. apply le_bytes_swap. Qed.
Lemma mem_HostToNetwork32 v : le_bytes 4 (HostToNetwork32 v) = be_bytes 4 v.
Proof. apply le_bytes_swap. Qed.
Lemma mem_HostToNetwork64 v : le_bytes 8 (HostToNetwork64 v) = be_bytes 8 v.
Proof. apply le_bytes_swap. Qed.

Lemma swap_swap n v :
  le_val (reverse (le_bytes n (le_val (reverse (le_bytes n v))))) = v mod 256 ^ Z.of_nat n.
Proof. rewrite le_bytes_swap. unfold be_bytes. by rewrite reverse_involutive, le_val_le_bytes. Qed.

Lemma NetworkToHost16_HostToNetwork16 v : is_u16 v → NetworkToHost16 (HostToNetwork16 v) = v.
Proof. intros. unfold NetworkToHost16, HostToNetwork16. rewrite swap_swap. apply (u16_small v); done. Qed.
Lemma NetworkToHost32_HostToNetwork32 v : is_u32 v → NetworkToHost32 (HostToNetwork32 v) = v.
Proof. intros. unfold NetworkToHost32, HostToNetwork32. rewrite swap_swap. apply (u32_small v); done. Qed.
Lemma NetworkToHost64_HostToNetwork64 v : is_u64 v → NetworkToHost64 (HostToNetwork64 v) = v.
Proof. intros. unfold NetworkToHost64, HostToNetwork64. rewrite swap_swap. apply (u64_small v); done. Qed.
End byte_order.

Lemma bit_field_eq x off w : 0 <= off → 0 <= w → bit_field x off w = x / 2 ^ off mod 2 ^ w.
Proof. intros. unfold bit_field. by rewrite Z.land_ones, Z.shiftr_div_pow2 by lia. Qed.

(** A swapped load is the big-endian value of the block. *)
Lemma load_ok n data p :
  0 <= p → p + Z.of_nat n <= zlen data →
  load n data p = Ret (le_val (ztake (Z.of_nat n) (zdrop p data))).
Proof. intros. unfold load. by rewrite bool_decide_true by lia. Qed.
Section swapped_loads.
Context (data : list Z) (Hok : bytes_ok data).
Lemma swap_block n p :
  0 <= p → p + Z.of_nat n <= zlen data →
  le_val (reverse (le_bytes n (le_val (ztake (Z.of_nat n) (zdrop p data))))) =
  be_val (ztake (Z.of_nat n) (zdrop p data)).
Proof using Hok.
  intros. apply swap_le_val; [|auto with baize].
  pose proof (block_length data p (Z.of_nat n)) as E. unfold zlen in *. lia.
Qed.
Lemma NetworkToHost16_block p :
  0 <= p → p + 2 <= zlen data →
  NetworkToHost16 (le_val (ztake 2 (zdrop p data))) = be_val (ztake 2 (zdrop p data)).
Proof using Hok. intros. by apply (swap_block 2). Qed.
Lemma NetworkToHost32_block p :
  0 <= p → p + 4 <= zlen data →
  NetworkToHost32 (le_val (ztake 4 (zdrop p data))) = be_val (ztake 4 (zdrop p data)).
Proof using Hok. intros. by apply (swap_block 4). Qed.
End swapped_loads.

(** ** Alignment *)
Lemma land_3 z : Z.land z 3 = z mod 4.
Proof. change 3 with (Z.ones 2). by rewrite Z.land_ones. Qed.

Lemma land_mask4 z n m :
  0 <= n → 0 <= z < 2 ^ n → Z.lor m 3 = Z.ones n → Z.land m 3 = 0 → Z.land z m = z - z mod 4.
Proof.
  intros Hn Hz Hor Hand.
  assert (Hz' : Z.land z (Z.lor m 3) = z) by (rewrite Hor, Z.land_ones, Z.mod_small; lia).
  rewrite Z.land_lor_distr_r in Hz'.
  pose proof (Z.add_lor_land (Z.land z m) (Z.land z 3)) as Hsum.
  replace (Z.land (Z.land z m) (Z.land z 3)) with 0 in Hsum.
  - rewrite Hz', land_3 in Hsum. lia.
  - rewrite <-Z.land_assoc, (Z.land_comm z 3), (Z.land_assoc m), Hand, Z.land_0_l.
    by rewrite Z.land_0_r.
Qed.

Lemma Align4_16_spec size :
  is_u16 size →
  Align4_16 size = if bool_decide (size mod 4 = 0) then size else u16 (size - size mod 4 + 4).
Proof.
  intros Hs. unfold Align4_16. rewrite land_3, (land_mask4 size 16) by (unfold_u; first [lia|done]).
  bool_cases; try done; lia.
Qed.

Lemma Align4_32_spec size :
  is_u32 size →
  Align4_32 size = if bool_decide (size mod 4 = 0) then size else u32 (size - size mod 4 + 4).
Proof.
  intros Hs. unfold Align4_32. rewrite land_3, (land_mask4 size 32) by (unfold_u; first [lia|done]).
  bool_cases; try done; lia.
Qed.

(** Below 65533 the 16-bit [Align4] is the least multiple of four that is
    at least its argument; the three sizes above that wrap around to zero. *)
Theorem Align4_16_correct size :
  is_u16 size →
  if bool_decide (size <= 65532)
  then (4 | Align4_16 size) ∧ size <= Align4_16 size < size + 4
  else Align4_16 size = 0.
Proof.
  intros Hs. rewrite Align4_16_spec by done.
  pose proof (Z.mod_pos_bound size 4 ltac:(lia)) as Hm.
  pose proof (Z.div_mod size 4 ltac:(lia)) as Hd. unfold_u. bool_cases.
  - split; [|lia]. exists (size / 4). lia.
  - rewrite Z.mod_small by lia. split; [|lia]. exists (size / 4 + 1). lia.
  - lia.
  - replace (size - size mod 4 + 4) with (1 * 2 ^ 16) by lia. by rewrite Z_mod_mult.
Qed.

Lemma Align4_16_correct_witness : Align4_16 65533 = 0 ∧ Align4_16 13 = 16.
Proof.
  split; [|reflexivity].
  refine (Align4_16_correct 65533 _). unfold_u. lia.
Defined.
