(* ===== verification/StringPiece.v ===== *)
(** * Text slices: kernel/util/string_piece.{h,cc}

    A [StringPiece] is a pointer and a length into text it does not own.  The
    text is the list of bytes [sp_mem] of the underlying object, [ptr_] an
    offset in it, and the [const char*] positions that [Find] and [ParseInt]
    return are offsets too, so that the comparisons with [begin()] and [end()]
    are the ones of the code.  The loops carry fuel; the theorems show that
    the fuel chosen is enough and that no read leaves the slice. *)

From Stdlib Require Import ZArith Lia Bool.
From stdpp Require Import base numbers list.
From S2P Require Import Prelude Types.

Record StringPiece : Type := mk_sp {
  sp_mem : list Z;
  ptr_ : Z;
  length_ : Z;
}.

(** ** The language's library: what [<ctype.h>], [<algorithm>], [<string.h>] do *)
Definition isspace (c : Z) : bool := bool_decide (c = 32 ∨ 9 <= c <= 13).
Definition isdigit (c : Z) : bool := bool_decide (48 <= c <= 57).

Fixpoint prefixb (pat l : list Z) : bool :=
  match pat, l with
  | [], _ => true
  | p :: pat', c :: l' => bool_decide (p = c) && prefixb pat' l'
  | _ :: _, [] => false
  end.

(** [std::find]: the offset of the first [ch], or the length. *)
Fixpoint std_find (l : list Z) (ch : Z) : Z :=
  match l with
  | [] => 0
  | c :: l' => if bool_decide (c = ch) then 0 else 1 + std_find l' ch
  end.

(** [std::search]: the offset of the first occurrence of [pat], or the length. *)
Fixpoint std_search (l pat : list Z) : Z :=
  if prefixb pat l then 0
  else match l with
       | [] => 0
       | _ :: l' => 1 + std_search l' pat
       end.

(** The sign of [memcmp] over the first [n] bytes. *)
Fixpoint memcmp (a b : list Z) (n : nat) : Z :=
  match n, a, b with
  | S n', x :: a', y :: b' =>
      if bool_decide (x = y) then memcmp a' b' n' else if bool_decide (x < y) then -1 else 1
  | _, _, _ => 0
  end.

Definition strlen (l : list Z) : Z := std_find l 0.

(** ** Accessors *)
Definition sp_begin (s : StringPiece) : Z := ptr_ s.
Definition sp_end (s : StringPiece) : Z := ptr_ s + length_ s.
Definition sp_size (s : StringPiece) : Z := length_ s.
Definition sp_empty (s : StringPiece) : bool := bool_decide (length_ s = 0).

(** [AsString]: the bytes the slice denotes. *)
Definition AsString (s : StringPiece) : list Z := ztake (length_ s) (zdrop (ptr_ s) (sp_mem s)).

(** [operator[]]. *)
Definition sp_index (s : StringPiece) (i : Z) : result Z := rd (sp_mem s) (ptr_ s + i).

(** ** Constructors and setters *)
Definition StringPiece_null : StringPiece := mk_sp [] 0 0.
Definition StringPiece_cstr (str : list Z) : StringPiece := mk_sp str 0 (strlen str).
Definition StringPiece_string (str : list Z) : StringPiece := mk_sp str 0 (zlen str).
Definition StringPiece_len (mem : list Z) (offset len : Z) : StringPiece := mk_sp mem offset len.
Definition StringPiece_range (mem : list Z) (begin_ end_ : Z) : result StringPiece :=
  _ ← cpp_assert (bool_decide (end_ - begin_ >= 0));
  Ret (mk_sp mem begin_ (end_ - begin_)).
Definition sp_clear (s : StringPiece) : StringPiece := mk_sp [] 0 0.
Definition sp_set (s : StringPiece) (mem : list Z) (buffer len : Z) : StringPiece := mk_sp mem buffer len.

(** ** Operations *)
Definition RemoveSuffix (n : Z) (s : StringPiece) : StringPiece :=
  mk_sp (sp_mem s) (ptr_ s) (length_ s - n).
Definition RemovePrefix (n : Z) (s : StringPiece) : StringPiece :=
  mk_sp (sp_mem s) (ptr_ s + n) (length_ s - n).

Definition RemovePrefixUntil (s : StringPiece) (pos : Z) : result StringPiece :=
  _ ← cpp_assert (bool_decide (sp_begin s <= pos));
  _ ← cpp_assert (bool_decide (pos <= sp_end s));
  Ret (RemovePrefix (pos - sp_begin s) s).
Definition RemoveSuffixUntil (s : StringPiece) (pos : Z) : result StringPiece :=
  _ ← cpp_assert (bool_decide (sp_begin s <= pos));
  _ ← cpp_assert (bool_decide (pos <= sp_end s));
  Ret (RemoveSuffix (sp_end s - pos) s).

Definition Find_char (s : StringPiece) (ch : Z) : Z := sp_begin s + std_find (AsString s) ch.
Definition Find (s slice : StringPiece) : Z :=
  sp_begin s + std_search (AsString s) (AsString slice).

Definition StartsWith (s x : StringPiece) : bool :=
  bool_decide (length_ s >= length_ x) &&
  bool_decide (memcmp (AsString s) (AsString x) (Z.to_nat (length_ x)) = 0).

Definition sp_eqb (s x : StringPiece) : bool :=
  bool_decide (length_ s = length_ x) &&
  bool_decide (memcmp (AsString s) (AsString x) (Z.to_nat (length_ s)) = 0).

(** The four orderings are the same macro with the comparison of the lengths
    and the sign test as parameters. *)
Definition sp_cmp (lencmp auxcmp : Z → Z → bool) (s x : StringPiece) : bool :=
  let r := memcmp (AsString s) (AsString x)
             (Z.to_nat (if bool_decide (length_ s < length_ x) then length_ s else length_ x)) in
  auxcmp r 0 || (bool_decide (r = 0) && lencmp (length_ s) (length_ x)).
Definition sp_lt : StringPiece → StringPiece → bool := sp_cmp Z.ltb Z.ltb.
Definition sp_le : StringPiece → StringPiece → bool := sp_cmp Z.leb Z.ltb.
Definition sp_ge : StringPiece → StringPiece → bool := sp_cmp Z.geb Z.gtb.
Definition sp_gt : StringPiece → StringPiece → bool := sp_cmp Z.gtb Z.gtb.

(** [TrimSpace]: the two loops, with the moving position of each. *)
Fixpoint trim_front (fuel : nat) (pos : Z) (s : StringPiece) : result StringPiece :=
  match fuel with
  | O => OutOfFuel
  | S fuel =>
      if bool_decide (pos < sp_end s) then
        c ← rd (sp_mem s) pos;
        if isspace c then trim_front fuel (pos + 1) (RemovePrefix 1 s) else Ret s
      else Ret s
  end.

Fixpoint trim_back (fuel : nat) (pos : Z) (s : StringPiece) : result StringPiece :=
  match fuel with
  | O => OutOfFuel
  | S fuel =>
      if bool_decide (pos >= sp_begin s) then
        c ← rd (sp_mem s) pos;
        if isspace c then trim_back fuel (pos - 1) (RemoveSuffix 1 s) else Ret s
      else Ret s
  end.

Definition TrimSpace (s : StringPiece) : result StringPiece :=
  let fuel := S (Z.to_nat (length_ s)) in
  s ← trim_front fuel (sp_begin s) s;
  trim_back fuel (sp_end s - 1) s.

(** [Split(char)] and [Split(StringPiece)]: [last] is [end()] of the slice that
    is split; the loop consumes [tmp] and collects the non-empty pieces. *)
Fixpoint split_char_loop (fuel : nat) (last ch : Z) (tmp : StringPiece)
    (split : list StringPiece) : result (list StringPiece) :=
  match fuel with
  | O => OutOfFuel
  | S fuel =>
      if negb (sp_empty tmp) then
        let pos := Find_char tmp ch in
        piece ← StringPiece_range (sp_mem tmp) (sp_begin tmp) pos;
        let split := if negb (sp_empty piece) then split ++ [piece] else split in
        if bool_decide (pos = last)
        then split_char_loop fuel last ch (RemovePrefix (pos - sp_begin tmp) tmp) split
        else split_char_loop fuel last ch (RemovePrefix (pos - sp_begin tmp + 1) tmp) split
      else Ret split
  end.

Definition Split_char (s : StringPiece) (ch : Z) : result (list StringPiece) :=
  tmp ← StringPiece_range (sp_mem s) (sp_begin s) (sp_end s);
  split_char_loop (S (Z.to_nat (length_ s))) (sp_end s) ch tmp [].

Fixpoint split_loop (fuel : nat) (last : Z) (slice tmp : StringPiece)
    (split : list StringPiece) : result (list StringPiece) :=
  match fuel with
  | O => OutOfFuel
  | S fuel =>
      if negb (sp_empty tmp) then
        let pos := Find tmp slice in
        piece ← StringPiece_range (sp_mem tmp) (sp_begin tmp) pos;
        let split := if negb (sp_empty piece) then split ++ [piece] else split in
        if bool_decide (pos = last)
        then split_loop fuel last slice (RemovePrefix (pos - sp_begin tmp) tmp) split
        else split_loop fuel last slice (RemovePrefix (pos - sp_begin tmp + sp_size slice) tmp) split
      else Ret split
  end.

Definition Split (fuel : nat) (s slice : StringPiece) : result (list StringPiece) :=
  tmp ← StringPiece_range (sp_mem s) (sp_begin s) (sp_end s);
  split_loop fuel (sp_end s) slice tmp [].

Definition SliceFragment (s first last : StringPiece) : result StringPiece :=
  let pos_begin := Find s first in
  if bool_decide (pos_begin = sp_end s) then Ret StringPiece_null
  else
    fragment ← StringPiece_range (sp_mem s) (pos_begin + sp_size first) (sp_end s);
    let pos_end := Find fragment last in
    if bool_decide (pos_end = sp_end fragment) then Ret StringPiece_null
    else RemoveSuffixUntil fragment pos_end.

(** [ParseInt]: [int] arithmetic, so a value above [INT_MAX] is undefined
    behaviour.  The out-parameter is threaded: the result is the returned
    position and the final content of [num]. *)
Fixpoint parse_int_loop (fuel : nat) (s : StringPiece) (pos number : Z) : result (Z * Z) :=
  match fuel with
  | O => OutOfFuel
  | S fuel =>
      if bool_decide (pos ≠ sp_end s) then
        c ← rd (sp_mem s) pos;
        if isdigit c then
          let tmp := c - 48 in
          if bool_decide (number * 10 + tmp <= INT_MAX)
          then parse_int_loop fuel s (pos + 1) (number * 10 + tmp)
          else Fault SignedOverflow
        else Ret (pos, number)
      else Ret (pos, number)
  end.

Definition ParseInt (s : StringPiece) (num : Z) : result (Z * Z) :=
  '(pos, number) ← parse_int_loop (S (Z.to_nat (length_ s))) s (sp_begin s) 0;
  if bool_decide (pos = sp_begin s) then Ret (sp_begin s, num) else Ret (pos, number).

(** [string(p, n)]: a negative count is a length error of the string. *)
Definition string_at (mem : list Z) (p n : Z) : result (list Z) :=
  if bool_decide (n < 0) then Fault Aborted
  else if bool_decide (0 <= p ∧ p + n <= zlen mem) then Ret (ztake n (zdrop p mem))
  else Fault OutOfBounds.

(** A [const char*] argument: the characters with their terminating zero. *)
Definition lit (s : list Z) : StringPiece := StringPiece_cstr (s ++ [0]).

(** ** Well-formed slices: the pointer and the length stay in the object *)
Definition sp_wf (s : StringPiece) : Prop :=
  0 <= ptr_ s ∧ 0 <= length_ s ∧ ptr_ s + length_ s <= zlen (sp_mem s).

(** Reference definitions the operations are compared with. *)

(** The fields of a text around a separator byte, empty ones included. *)
Fixpoint fields (ch : Z) (l : list Z) : list (list Z) :=
  match l with
  | [] => [[]]
  | c :: l' =>
      if bool_decide (c = ch) then [] :: fields ch l'
      else match fields ch l' with
           | f :: fs => (c :: f) :: fs
           | [] => [[c]]
           end
  end.

Definition nonempty (l : list Z) : bool := match l with [] => false | _ => true end.
Definition non_empty_fields (fs : list (list Z)) : list (list Z) := filter (λ f, Is_true (nonempty f)) fs.

(** The same around a separator string, one field per round. *)
Fixpoint fields_by (n : nat) (pat l : list Z) : list (list Z) :=
  match n with
  | O => []
  | S n =>
      let k := std_search l pat in
      ztake k l :: (if bool_decide (k = zlen l) then [] else fields_by n pat (zdrop (k + zlen pat) l))
  end.

Fixpoint skip_space (l : list Z) : list Z :=
  match l with
  | [] => []
  | c :: l' => if isspace c then skip_space l' else l
  end.
Definition trim (l : list Z) : list Z := reverse (skip_space (reverse (skip_space l))).

Fixpoint digit_prefix (l : list Z) : list Z :=
  match l with
  | [] => []
  | c :: l' => if isdigit c then c :: digit_prefix l' else []
  end.
Definition dec_val (ds : list Z) : Z := foldl (λ n c, n * 10 + (c - 48)) 0 ds.

(** ** Slices and their text *)
Section slices.
Implicit Types s : StringPiece.

Lemma sp_wf_string l : sp_wf (StringPiece_string l).
Proof. unfold sp_wf. cbn. pose proof (zlen_nonneg l). lia. Qed.
Lemma AsString_string l : AsString (StringPiece_string l) = l.
Proof. unfold AsString. cbn. rewrite zdrop_0. by apply ztake_ge. Qed.
Lemma sp_wf_null : sp_wf StringPiece_null.
Proof. unfold sp_wf. cbn. unfold zlen. cbn. lia. Qed.

Lemma zlen_AsString s : sp_wf s → zlen (AsString s) = length_ s.
Proof. intros (?&?&?). unfold AsString. apply block_length; lia. Qed.

Lemma rd_AsString s i :
  sp_wf s → 0 <= i < length_ s → rd (sp_mem s) (ptr_ s + i) = rd (AsString s) i.
Proof. intros (?&?&?) ?. unfold AsString. by apply rd_block. Qed.

Lemma sp_wf_RemovePrefix n s : sp_wf s → 0 <= n <= length_ s → sp_wf (RemovePrefix n s).
Proof. unfold sp_wf. cbn. lia. Qed.
Lemma sp_wf_RemoveSuffix n s : sp_wf s → 0 <= n <= length_ s → sp_wf (RemoveSuffix n s).
Proof. unfold sp_wf. cbn. lia. Qed.
Lemma sp_end_RemovePrefix n s : sp_end (RemovePrefix n s) = sp_end s.
Proof. unfold sp_end. cbn. lia. Qed.

Lemma AsString_RemovePrefix n s :
  sp_wf s → 0 <= n <= length_ s → AsString (RemovePrefix n s) = zdrop n (AsString s).
Proof.
  intros (?&?&?) ?. unfold AsString. cbn. rewrite zdrop_ztake, zdrop_zdrop by lia. done.
Qed.
Lemma AsString_RemoveSuffix n s :
  sp_wf s → 0 <= n <= length_ s → AsString (RemoveSuffix n s) = ztake (length_ s - n) (AsString s).
Proof. intros (?&?&?) ?. unfold AsString. cbn. by rewrite ztake_ztake by lia. Qed.

(** The piece between two positions of a slice. *)
Lemma AsString_mk s i j :
  sp_wf s → 0 <= i <= j → j <= length_ s →
  AsString (mk_sp (sp_mem s) (ptr_ s + i) (j - i)) = ztake (j - i) (zdrop i (AsString s)).
Proof.
  intros (?&?&?) ??. unfold AsString. cbn.
  rewrite zdrop_ztake, zdrop_zdrop, ztake_ztake by lia. done.
Qed.
Lemma sp_wf_mk s i j :
  sp_wf s → 0 <= i <= j → j <= length_ s → sp_wf (mk_sp (sp_mem s) (ptr_ s + i) (j - i)).
Proof. unfold sp_wf. cbn. lia. Qed.

(** [string(p, n)] between two positions of a slice. *)
Lemma string_at_sub s i j :
  sp_wf s → 0 <= i <= j → j <= zlen (AsString s) →
  string_at (sp_mem s) (sp_begin s + i) (j - i) = Ret (ztake (j - i) (zdrop i (AsString s))).
Proof.
  intros Hs Hij Hj. pose proof (zlen_AsString s Hs) as Hl. rewrite <-AsString_mk by (done || lia).
  destruct Hs as (? & ? & ?). unfold string_at, sp_begin.
  by rewrite bool_decide_false, bool_decide_true by lia.
Qed.
Lemma StringPiece_range_ok mem b e :
  b <= e → StringPiece_range mem b e = Ret (mk_sp mem b (e - b)).
Proof. intros. unfold StringPiece_range, cpp_assert. by rewrite bool_decide_true by lia. Qed.

Lemma RemovePrefixUntil_ok s pos :
  sp_begin s <= pos <= sp_end s →
  RemovePrefixUntil s pos = Ret (RemovePrefix (pos - sp_begin s) s).
Proof.
  intros. unfold RemovePrefixUntil, cpp_assert. by rewrite !bool_decide_true by lia.
Qed.
Lemma RemoveSuffixUntil_ok s pos :
  sp_begin s <= pos <= sp_end s →
  RemoveSuffixUntil s pos = Ret (RemoveSuffix (sp_end s - pos) s).
Proof.
  intros. unfold RemoveSuffixUntil, cpp_assert. by rewrite !bool_decide_true by lia.
Qed.
End slices.
#[export] Hint Resolve sp_wf_string sp_wf_null sp_wf_RemovePrefix sp_wf_RemoveSuffix sp_wf_mk : baize.

(** ** [std::find] and [std::search] *)
Lemma std_find_range l ch : 0 <= std_find l ch <= zlen l.
Proof.
  induction l as [|c l IH]; cbn; [done|]. rewrite zlen_cons.
  bool_cases; lia.
Qed.
Lemma std_find_notin l ch : ch ∉ l → std_find l ch = zlen l.
Proof.
  induction l as [|c l IH]; intros Hl; cbn; [done|].
  apply not_elem_of_cons in Hl as [? ?]. rewrite bool_decide_false by congruence.
  by rewrite zlen_cons, IH.
Qed.
Lemma std_find_app a b ch : ch ∉ a → std_find (a ++ ch :: b) ch = zlen a.
Proof.
  induction a as [|c a IH]; intros Hl; cbn.
  - by rewrite bool_decide_true.
  - apply not_elem_of_cons in Hl as [? ?]. rewrite bool_decide_false by congruence.
    by rewrite zlen_cons, IH.
Qed.

Lemma std_find_in l ch : std_find l ch < zlen l ↔ ch ∈ l.
Proof.
  induction l as [|c l IH]; cbn; [split; [done|by intros ?%not_elem_of_nil]|].
  rewrite zlen_cons, elem_of_cons, <-IH. pose proof (zlen_nonneg l).
  bool_cases; [subst; intuition lia|]. intuition (lia || congruence).
Qed.
Lemma prefixb_spec pat l : prefixb pat l = true ↔ ∃ k, l = pat ++ k.
Proof.
  revert l. induction pat as [|p pat IH]; intros l; cbn.
  - naive_solver.
  - destruct l as [|c l]; cbn.
    + split; [done|by intros [? ?]].
    + rewrite andb_true_iff, bool_decide_eq_true, IH. naive_solver.
Qed.
Lemma prefixb_app pat k : prefixb pat (pat ++ k) = true.
Proof. apply prefixb_spec. eauto. Qed.

Lemma std_search_range l pat : 0 <= std_search l pat <= zlen l.
Proof.
  induction l as [|c l IH]; cbn.
  - by destruct (prefixb _ _).
  - rewrite zlen_cons. destruct (prefixb _ _); lia.
Qed.

(** A match that is found leaves room for the pattern. *)
Lemma std_search_found l pat :
  pat ≠ [] → std_search l pat ≠ zlen l →
  ∃ k, zdrop (std_search l pat) l = pat ++ k ∧ std_search l pat + zlen pat <= zlen l.
Proof.
  intros Hp. induction l as [|c l IH]; intros Hne.
  - cbn in Hne. destruct (prefixb pat []); done.
  - cbn [std_search] in *. destruct (prefixb pat (c :: l)) eqn:E.
    + apply prefixb_spec in E as [k Hk]. exists k. split; [done|].
      rewrite Hk. zlen_simp. pose proof (zlen_nonneg k). lia.
    + rewrite zlen_cons in *. destruct IH as (k & Hk & Hr); [lia|].
      pose proof (std_search_range l pat).
      exists k. split; [|lia]. rewrite <-Hk. unfold zdrop.
      by replace (Z.to_nat (1 + std_search l pat)) with (S (Z.to_nat (std_search l pat))) by lia.
Qed.

(** No occurrence starts before the position found. *)
Lemma std_search_first l pat i :
  0 <= i < std_search l pat → prefixb pat (zdrop i l) = false.
Proof.
  revert i. induction l as [|c l IH]; intros i Hi; cbn [std_search] in Hi.
  - destruct (prefixb pat []); lia.
  - destruct (prefixb pat (c :: l)) eqn:E; [lia|].
    destruct (decide (i = 0)) as [->|]; [done|].
    rewrite <-(IH (i - 1)) by lia. f_equal. unfold zdrop.
    by replace (Z.to_nat i) with (S (Z.to_nat (i - 1))) by lia.
Qed.

(** A pattern whose first byte does not occur in [a] is found after [a]. *)
Lemma std_search_app a p pat b :
  p ∉ a → std_search (a ++ (p :: pat) ++ b) (p :: pat) = zlen a.
Proof.
  induction a as [|c a IH]; intros Ha.
  - change ([] ++ (p :: pat) ++ b) with ((p :: pat) ++ b).
    destruct ((p :: pat) ++ b) as [|x l] eqn:E; [done|].
    cbn [std_search]. by rewrite <-E, prefixb_app.
  - apply not_elem_of_cons in Ha as [? ?]. cbn [app std_search prefixb].
    rewrite bool_decide_false by done. cbn [andb]. rewrite zlen_cons.
    by rewrite <-IH by done.
Qed.

(** A text that ends before the end of the first occurrence has none. *)
Lemma std_search_cut l pat k :
  pat ≠ [] → 0 <= k <= zlen l → k < std_search l pat + zlen pat →
  std_search (ztake k l) pat = zlen (ztake k l).
Proof.
  intros Hp Hk Hlt. destruct (decide (std_search (ztake k l) pat = zlen (ztake k l))) as [|Hne]; [done|exfalso].
  destruct (std_search_found _ pat Hp Hne) as (r & Hr & Hq). rewrite zlen_ztake in Hq by lia.
  pose proof (std_search_range (ztake k l) pat). set (q := std_search (ztake k l) pat) in *.
  pose proof (std_search_first l pat q ltac:(lia)) as Hf.
  pose proof (zlen_nonneg pat).
  rewrite <-(ztake_zdrop k l), zdrop_app_le, Hr, <-app_assoc, prefixb_app in Hf by (rewrite zlen_ztake; lia).
  done.
Qed.

(** The first occurrence stays the first whatever follows it. *)
Lemma prefixb_long pat l k : zlen pat <= zlen l → prefixb pat (l ++ k) = prefixb pat l.
Proof.
  revert l. induction pat as [|p pat IH]; intros [|c l] Hz; [done..| |].
  { rewrite zlen_cons, zlen_nil in Hz. pose proof (zlen_nonneg pat). lia. }
  rewrite !zlen_cons in Hz. cbn [app prefixb]. by rewrite IH by lia.
Qed.
Lemma std_search_extend a pat b :
  pat ≠ [] → std_search (a ++ pat) pat = zlen a → std_search (a ++ pat ++ b) pat = zlen a.
Proof.
  intros Hp. induction a as [|c a IH]; intros E.
  - rewrite zlen_nil. destruct pat as [|p pat]; [done|].
    change ([] ++ (p :: pat) ++ b) with ((p :: pat) ++ b).
    pose proof (prefixb_app (p :: pat) b) as Hb. cbn [app] in *. cbn [std_search]. by rewrite Hb.
  - rewrite zlen_cons in *. pose proof (zlen_nonneg a). cbn [app std_search] in *.
    destruct (prefixb pat (c :: a ++ pat)) eqn:E1; [lia|].
    change (c :: a ++ pat ++ b) with ((c :: a) ++ pat ++ b). rewrite app_assoc, prefixb_long.
    + change ((c :: a) ++ pat) with (c :: a ++ pat). rewrite E1, IH; lia.
    + rewrite zlen_app, zlen_cons. lia.
Qed.

Lemma std_search_skip a p pat l :
  p ∉ a → std_search (a ++ l) (p :: pat) = zlen a + std_search l (p :: pat).
Proof.
  induction a as [|c a IH]; intros Ha; [done|].
  apply not_elem_of_cons in Ha as [? ?]. cbn [app std_search prefixb].
  rewrite bool_decide_false by done. cbn [andb]. rewrite zlen_cons, IH by done. lia.
Qed.

Lemma std_search_none p pat l : p ∉ l → std_search l (p :: pat) = zlen l.
Proof.
  intros. rewrite <-(app_nil_r l), std_search_skip by done. zlen_simp. cbn. lia.
Qed.

Lemma Find_range s slice : sp_wf s → sp_begin s <= Find s slice <= sp_end s.
Proof.
  intros Hs. unfold Find, sp_end, sp_begin. pose proof (std_search_range (AsString s) (AsString slice)).
  rewrite zlen_AsString in * by done. lia.
Qed.
Lemma Find_char_range s ch : sp_wf s → sp_begin s <= Find_char s ch <= sp_end s.
Proof.
  intros Hs. unfold Find_char, sp_end, sp_begin. pose proof (std_find_range (AsString s) ch).
  rewrite zlen_AsString in * by done. lia.
Qed.

(** ** [Split(char)] *)
Lemma fields_find ch l :
  fields ch l = ztake (std_find l ch) l ::
    (if bool_decide (std_find l ch = zlen l) then [] else fields ch (zdrop (std_find l ch + 1) l)).
Proof.
  induction l as [|c l IH]; [done|]. cbn [fields std_find].
  destruct (bool_decide_reflect (c = ch)) as [->|Hne].
  { rewrite bool_decide_false; [done|]. rewrite zlen_cons. pose proof (zlen_nonneg l). lia. }
  rewrite IH. pose proof (std_find_range l ch). unfold ztake, zdrop.
  replace (Z.to_nat (1 + std_find l ch)) with (S (Z.to_nat (std_find l ch))) by lia.
  replace (Z.to_nat (1 + std_find l ch + 1)) with (S (Z.to_nat (std_find l ch + 1))) by lia.
  cbn [take drop]. rewrite zlen_cons. f_equal.
  destruct (bool_decide_reflect (std_find l ch = zlen l)).
  - by rewrite bool_decide_true by lia.
  - by rewrite bool_decide_false by lia.
Qed.

Lemma nonempty_zlen l : nonempty l = negb (bool_decide (zlen l = 0)).
Proof.
  destruct l; [done|]. rewrite zlen_cons. pose proof (zlen_nonneg l).
  by rewrite bool_decide_false by lia.
Qed.

Lemma non_empty_fields_cons f fs :
  non_empty_fields (f :: fs) = (if nonempty f then [f] else []) ++ non_empty_fields fs.
Proof. unfold non_empty_fields. rewrite filter_cons. by destruct f. Qed.

(** What one round of either loop pushes. *)
Lemma split_push (s : StringPiece) k (acc : list StringPiece) :
  sp_wf s → 0 <= k <= length_ s →
  let piece := mk_sp (sp_mem s) (sp_begin s) (sp_begin s + k - sp_begin s) in
  ∃ pushed,
    (if negb (sp_empty piece) then acc ++ [piece] else acc) = acc ++ pushed ∧
    AsString <$> pushed = (if nonempty (ztake k (AsString s)) then [ztake k (AsString s)] else []) ∧
    Forall sp_wf pushed.
Proof.
  intros Hs Hk piece.
  assert (piece = mk_sp (sp_mem s) (ptr_ s + 0) (k - 0)) as ->.
  { unfold piece, sp_begin. f_equal; lia. }
  rewrite nonempty_zlen, zlen_ztake by (rewrite zlen_AsString; done).
  unfold sp_empty. cbn. rewrite Z.sub_0_r.
  destruct (bool_decide_reflect (k = 0)); cbn.
  - exists []. by rewrite app_nil_r.
  - exists [mk_sp (sp_mem s) (ptr_ s + 0) k]. split_and!; [done| |].
    + cbn. f_equal. rewrite <-(Z.sub_0_r k) at 1. rewrite AsString_mk by (done || lia).
      by rewrite Z.sub_0_r, zdrop_0.
    + apply Forall_singleton. rewrite <-(Z.sub_0_r k). apply sp_wf_mk; done || lia.
Qed.

Lemma split_char_loop_ok fuel ch tmp acc :
  sp_wf tmp → (Z.to_nat (length_ tmp) < fuel)%nat →
  ∃ pieces, split_char_loop fuel (sp_end tmp) ch tmp acc = Ret (acc ++ pieces) ∧
    AsString <$> pieces = non_empty_fields (fields ch (AsString tmp)) ∧ Forall sp_wf pieces.
Proof.
  revert tmp acc. induction fuel as [|fuel IH]; intros tmp acc Hwf Hf; [lia|].
  cbn [split_char_loop]. pose proof (zlen_AsString tmp Hwf) as Hlen.
  unfold sp_empty at 1. destruct (bool_decide_reflect (length_ tmp = 0)) as [E|E]; cbn [negb].
  { exists []. rewrite app_nil_r. rewrite E in Hlen. by rewrite (zlen_zero_inv _ Hlen). }
  pose proof (std_find_range (AsString tmp) ch) as Hr. rewrite Hlen in Hr.
  pose proof Hwf as (?&?&?). rewrite StringPiece_range_ok by (unfold Find_char; lia).
  cbn [mbind result_bind]. unfold Find_char.
  destruct (split_push tmp (std_find (AsString tmp) ch) acc) as (pushed & -> & Hpush & Hpw);
    [done..|].
  rewrite fields_find, non_empty_fields_cons, Hlen, <-Hpush.
  replace (sp_begin tmp + std_find (AsString tmp) ch - sp_begin tmp)
    with (std_find (AsString tmp) ch) by lia.
  rewrite (bool_decide_ext (sp_begin tmp + std_find (AsString tmp) ch = sp_end tmp)
    (std_find (AsString tmp) ch = length_ tmp)) by (unfold sp_end, sp_begin; lia).
  destruct (bool_decide_reflect (std_find (AsString tmp) ch = length_ tmp)) as [E'|E'].
  - destruct (IH (RemovePrefix (std_find (AsString tmp) ch) tmp) (acc ++ pushed))
      as (ps & Hrun & Htxt & Hps); [auto with baize|cbn; lia|].
    rewrite sp_end_RemovePrefix in Hrun. rewrite AsString_RemovePrefix in Htxt by done.
    rewrite zdrop_ge in Htxt by lia. cbn in Htxt. apply fmap_nil_inv in Htxt as ->.
    exists pushed. rewrite Hrun, !app_nil_r. done.
  - destruct (IH (RemovePrefix (std_find (AsString tmp) ch + 1) tmp) (acc ++ pushed))
      as (ps & Hrun & Htxt & Hps); [apply sp_wf_RemovePrefix; [done|lia]|cbn; lia|].
    rewrite sp_end_RemovePrefix in Hrun. rewrite AsString_RemovePrefix in Htxt by (done || lia).
    exists (pushed ++ ps). rewrite Hrun, app_assoc, fmap_app, Htxt. split_and!; [done..|].
    by apply Forall_app.
Qed.

Lemma Split_char_ok s ch :
  sp_wf s →
  ∃ pieces, Split_char s ch = Ret pieces ∧
    AsString <$> pieces = non_empty_fields (fields ch (AsString s)) ∧ Forall sp_wf pieces.
Proof.
  intros Hs. pose proof Hs as (?&?&?). unfold Split_char.
  rewrite StringPiece_range_ok by (unfold sp_end, sp_begin; lia). cbn [mbind result_bind].
  replace (mk_sp (sp_mem s) (sp_begin s) (sp_end s - sp_begin s)) with s
    by (destruct s; unfold sp_end, sp_begin; cbn; f_equal; lia).
  destruct (split_char_loop_ok (S (Z.to_nat (length_ s))) ch s []) as (ps & ? & ? & ?);
    [done|lia|]. eauto.
Qed.

(** [Split(char)] terminates without a fault and returns, in order, the
    non-empty fields of the text around the separator, as well-formed slices. *)
Theorem Split_char_correct s ch :
  sp_wf s →
  ∃ pieces, Split_char s ch = Ret pieces ∧
    AsString <$> pieces = non_empty_fields (fields ch (AsString s)) ∧ Forall sp_wf pieces.
Proof. exact (Split_char_ok s ch). Qed.

Lemma Split_char_correct_witness :
  ∃ pieces, Split_char (StringPiece_string [38;104;105;38;38;121]) 38 = Ret pieces ∧
    AsString <$> pieces = [[104;105];[121]].
Proof.
  destruct (Split_char_correct (StringPiece_string [38;104;105;38;38;121]) 38) as (ps & ? & ? & _).
  - apply sp_wf_string.
  - exists ps. split; [assumption|]. etransitivity; [eassumption|reflexivity].
Defined.

(** ** [Split(StringPiece)] *)
Lemma split_loop_ok fuel slice tmp acc :
  sp_wf tmp → sp_wf slice → 0 < length_ slice → (Z.to_nat (length_ tmp) < fuel)%nat →
  ∃ pieces, split_loop fuel (sp_end tmp) slice tmp acc = Ret (acc ++ pieces) ∧
    AsString <$> pieces = non_empty_fields (fields_by fuel (AsString slice) (AsString tmp)) ∧
    Forall sp_wf pieces.
Proof.
  intros Hwf Hsl Hpos. revert tmp acc Hwf. induction fuel as [|fuel IH]; intros tmp acc Hwf Hf; [lia|].
  cbn [split_loop fields_by]. pose proof (zlen_AsString tmp Hwf) as Hlen.
  pose proof (zlen_AsString slice Hsl) as Hsz.
  assert (Hne : AsString slice ≠ []) by (intros E; rewrite E, zlen_nil in Hsz; lia).
  unfold sp_empty at 1. destruct (bool_decide_reflect (length_ tmp = 0)) as [E|E]; cbn [negb].
  { exists []. rewrite app_nil_r, Hlen. rewrite E in Hlen.
    rewrite (zlen_zero_inv _ Hlen). destruct (AsString slice) eqn:Esl; [done|]. cbn.
    by rewrite bool_decide_true. }
  pose proof (std_search_range (AsString tmp) (AsString slice)) as Hr. rewrite Hlen in Hr.
  pose proof Hwf as (?&?&?). rewrite StringPiece_range_ok by (unfold Find; lia).
  cbn [mbind result_bind]. unfold Find.
  destruct (split_push tmp (std_search (AsString tmp) (AsString slice)) acc)
    as (pushed & -> & Hpush & Hpw); [done..|].
  rewrite non_empty_fields_cons, Hlen, <-Hpush.
  replace (sp_begin tmp + std_search (AsString tmp) (AsString slice) - sp_begin tmp)
    with (std_search (AsString tmp) (AsString slice)) by lia.
  rewrite (bool_decide_ext (sp_begin tmp + std_search (AsString tmp) (AsString slice) = sp_end tmp)
    (std_search (AsString tmp) (AsString slice) = length_ tmp)) by (unfold sp_end, sp_begin; lia).
  destruct (bool_decide_reflect (std_search (AsString tmp) (AsString slice) = length_ tmp)) as [E'|E'].
  - rewrite E'. exists pushed. rewrite app_nil_r. split_and!; [|done..].
    destruct fuel as [|fuel]; [lia|]. cbn [split_loop]. unfold sp_empty. cbn.
    by rewrite bool_decide_true by lia.
  - destruct (std_search_found (AsString tmp) (AsString slice)) as (k & _ & Hroom);
      [done|by rewrite Hlen|]. unfold sp_size. rewrite Hsz in *.
    destruct (IH (RemovePrefix (std_search (AsString tmp) (AsString slice) + length_ slice) tmp)
      (acc ++ pushed)) as (ps & Hrun & Htxt & Hps);
      [apply sp_wf_RemovePrefix; [done|lia]|cbn; lia|].
    rewrite sp_end_RemovePrefix in Hrun. rewrite AsString_RemovePrefix in Htxt by (done || lia).
    exists (pushed ++ ps). rewrite Hrun, app_assoc, fmap_app, Htxt. split_and!; [done..|].
    by apply Forall_app.
Qed.

Lemma Split_unfold fuel s slice :
  sp_wf s → Split fuel s slice = split_loop fuel (sp_end s) slice s [].
Proof.
  intros (?&?&?). unfold Split.
  rewrite StringPiece_range_ok by (unfold sp_end, sp_begin; lia). cbn [mbind result_bind].
  do 2 f_equal. destruct s; unfold sp_end, sp_begin; cbn; f_equal; lia.
Qed.

Lemma Split_ok s slice fuel :
  sp_wf s → sp_wf slice → 0 < length_ slice → (Z.to_nat (length_ s) < fuel)%nat →
  ∃ pieces, Split fuel s slice = Ret pieces ∧
    AsString <$> pieces = non_empty_fields (fields_by fuel (AsString slice) (AsString s)) ∧
    Forall sp_wf pieces.
Proof.
  intros Hs Hsl Hpos Hf. rewrite Split_unfold by done.
  destruct (split_loop_ok fuel slice s [] Hs Hsl Hpos Hf) as (ps & ? & ? & ?). eauto.
Qed.

(** C36: [Split(StringPiece)] with a non-empty separator terminates, within as
    many rounds as the text is long, and returns its non-empty fields; with an
    empty separator on a non-empty text the loop never ends. *)
Theorem Split_correct s slice :
  sp_wf s → sp_wf slice →
  (0 < length_ slice → ∀ fuel, (Z.to_nat (length_ s) < fuel)%nat →
     ∃ pieces, Split fuel s slice = Ret pieces ∧
       AsString <$> pieces = non_empty_fields (fields_by fuel (AsString slice) (AsString s)) ∧
       Forall sp_wf pieces) ∧
  (length_ slice = 0 → 0 < length_ s → ∀ fuel, Split fuel s slice = OutOfFuel).
Proof.
  intros Hs Hsl. split.
  - intros Hpos fuel Hf. by apply Split_ok.
  - intros Hz Hpos fuel. rewrite Split_unfold by done. generalize (@nil StringPiece).
    induction fuel as [|fuel IH]; intros acc; [done|]. cbn [split_loop].
    assert (Hsl0 : AsString slice = []) by (apply zlen_zero_inv; rewrite zlen_AsString; done).
    assert (HF : Find s slice = sp_begin s).
    { unfold Find. rewrite Hsl0. replace (std_search (AsString s) []) with 0; [lia|].
      by destruct (AsString s). }
    unfold sp_empty at 1. rewrite bool_decide_false by lia. cbn [negb].
    rewrite HF, StringPiece_range_ok by lia. cbn [mbind result_bind].
    unfold sp_size. rewrite bool_decide_false by (unfold sp_end, sp_begin; lia).
    rewrite Hz, Z.sub_diag. replace (RemovePrefix (0 + 0) s) with s; [apply IH|].
    destruct s; unfold RemovePrefix; cbn; f_equal; lia.
Qed.

Lemma Split_correct_witness :
  ∃ pieces, Split 8 (StringPiece_string [47;38;104;47;38]) (StringPiece_string [47;38]) = Ret pieces ∧
    AsString <$> pieces = [[104]].
Proof.
  destruct (Split_correct (StringPiece_string [47;38;104;47;38]) (StringPiece_string [47;38])
    (sp_wf_string _) (sp_wf_string _)) as [H _].
  destruct (H ltac:(reflexivity) 8%nat ltac:(vm_compute; lia)) as (ps & ? & Htxt & _).
  exists ps. split; [assumption|]. etransitivity; [exact Htxt|reflexivity].
Defined.

(** ** [TrimSpace] *)
Lemma trim_front_ok fuel s :
  sp_wf s → (Z.to_nat (length_ s) < fuel)%nat →
  ∃ s', trim_front fuel (sp_begin s) s = Ret s' ∧ sp_wf s' ∧ length_ s' <= length_ s ∧
    AsString s' = skip_space (AsString s).
Proof.
  revert s. induction fuel as [|fuel IH]; intros s Hs Hf; [lia|]. cbn [trim_front].
  pose proof (zlen_AsString s Hs) as Hlen. pose proof Hs as (?&?&?).
  destruct (bool_decide_reflect (sp_begin s < sp_end s)) as [Hlt|Hge];
    unfold sp_end, sp_begin in *.
  - destruct (AsString s) as [|c l] eqn:E; [rewrite zlen_nil in Hlen; lia|].
    assert (Hc : rd (sp_mem s) (ptr_ s) = Ret c).
    { rewrite <-(Z.add_0_r (ptr_ s)), rd_AsString, E by (done || lia). done. }
    rewrite Hc. cbn [mbind result_bind skip_space]. destruct (isspace c).
    + destruct (IH (RemovePrefix 1 s)) as (s' & Hrun & Hw & Hl & Htxt);
        [apply sp_wf_RemovePrefix; [done|lia]|cbn; lia|].
      cbn in Hrun, Hl. exists s'. rewrite Hrun. split_and!; [done..|lia|].
      rewrite AsString_RemovePrefix, E in Htxt by (done || lia). done.
    + exists s. rewrite E. split_and!; done || lia.
  - exists s. rewrite (zlen_zero_inv (AsString s)) by lia. split_and!; done || lia.
Qed.

Lemma trim_back_ok fuel s :
  sp_wf s → (Z.to_nat (length_ s) < fuel)%nat →
  ∃ s', trim_back fuel (sp_end s - 1) s = Ret s' ∧ sp_wf s' ∧
    AsString s' = reverse (skip_space (reverse (AsString s))).
Proof.
  revert s. induction fuel as [|fuel IH]; intros s Hs Hf; [lia|]. cbn [trim_back].
  pose proof (zlen_AsString s Hs) as Hlen. pose proof Hs as (?&?&?).
  destruct (bool_decide_reflect (sp_end s - 1 >= sp_begin s)) as [Hge|Hlt];
    unfold sp_end, sp_begin in *.
  - destruct (AsString s) as [|c l _] eqn:E using rev_ind; [rewrite zlen_nil in Hlen; lia|].
    zlen_simp. assert (Hc : rd (sp_mem s) (ptr_ s + length_ s - 1) = Ret c).
    { replace (ptr_ s + length_ s - 1) with (ptr_ s + zlen l) by lia.
      rewrite rd_AsString, E, rd_app_r, Z.sub_diag by (done || lia). done. }
    rewrite Hc. cbn [mbind result_bind]. rewrite reverse_snoc. cbn [skip_space].
    destruct (isspace c).
    + destruct (IH (RemoveSuffix 1 s)) as (s' & Hrun & Hw & Htxt);
        [apply sp_wf_RemoveSuffix; [done|lia]|cbn; lia|].
      cbn in Hrun. replace (ptr_ s + (length_ s - 1) - 1) with (ptr_ s + length_ s - 1 - 1) in Hrun by lia.
      exists s'. rewrite Hrun. split_and!; [done..|].
      rewrite Htxt, AsString_RemoveSuffix, E, ztake_app_all by (done || lia). done.
    + exists s. rewrite E, reverse_cons, reverse_involutive. done.
  - exists s. rewrite (zlen_zero_inv (AsString s)) by lia. done.
Qed.

Lemma TrimSpace_ok s :
  sp_wf s → ∃ s', TrimSpace s = Ret s' ∧ sp_wf s' ∧ AsString s' = trim (AsString s).
Proof.
  intros Hs. unfold TrimSpace.
  destruct (trim_front_ok (S (Z.to_nat (length_ s))) s) as (s1 & -> & Hs1 & Hl & Ht1); [done|lia|].
  cbn [mbind result_bind]. pose proof Hs1 as (_ & ? & _).
  destruct (trim_back_ok (S (Z.to_nat (length_ s))) s1) as (s2 & -> & Hs2 & Ht2); [done|lia|].
  exists s2. unfold trim. by rewrite <-Ht1.
Qed.

(** [TrimSpace] never reads outside the slice and leaves exactly the text
    without its leading and trailing white space. *)
Theorem TrimSpace_correct s :
  sp_wf s → ∃ s', TrimSpace s = Ret s' ∧ sp_wf s' ∧ AsString s' = trim (AsString s).
Proof. exact (TrimSpace_ok s). Qed.

Lemma TrimSpace_correct_witness :
  ∃ s', TrimSpace (StringPiece_string [32;13;10;104;105;32]) = Ret s' ∧ AsString s' = [104;105].
Proof.
  destruct (TrimSpace_correct (StringPiece_string [32;13;10;104;105;32]) (sp_wf_string _))
    as (s' & ? & _ & Ht).
  exists s'. split; [assumption|]. etransitivity; [exact Ht|reflexivity].
Defined.

(** ** [ParseInt] *)
Lemma isdigit_range c : isdigit c = true → 0 <= c - 48 <= 9.
Proof. unfold isdigit. rewrite bool_decide_eq_true. lia. Qed.

Lemma foldl_dec_mono ds n :
  Forall (λ c, isdigit c = true) ds → 0 <= n → n <= foldl (λ n c, n * 10 + (c - 48)) n ds.
Proof.
  intros Hds. revert n. induction Hds as [|c ds Hc _ IH]; intros n Hn; cbn; [lia|].
  pose proof (isdigit_range c Hc). specialize (IH (n * 10 + (c - 48))). lia.
Qed.

Lemma digit_prefix_digits l : Forall (λ c, isdigit c = true) (digit_prefix l).
Proof. induction l as [|c l IH]; cbn; [done|]. destruct (isdigit c) eqn:?; by constructor. Qed.
Lemma zlen_digit_prefix l : zlen (digit_prefix l) <= zlen l.
Proof.
  induction l as [|c l IH]; cbn; [done|]. destruct (isdigit c); zlen_simp; [lia|].
  pose proof (zlen_nonneg l). lia.
Qed.

Lemma parse_int_loop_ok fuel s i n :
  sp_wf s → 0 <= i <= length_ s → 0 <= n → (Z.to_nat (length_ s - i) < fuel)%nat →
  let ds := digit_prefix (zdrop i (AsString s)) in
  let v := foldl (λ n c, n * 10 + (c - 48)) n ds in
  parse_int_loop fuel s (sp_begin s + i) n =
    if bool_decide (v <= INT_MAX) then Ret (sp_begin s + i + zlen ds, v)
    else if bool_decide (ds = []) then Ret (sp_begin s + i, n) else Fault SignedOverflow.
Proof.
  intros Hs. revert i n. induction fuel as [|fuel IH]; intros i n Hi Hn Hf; [lia|].
  cbn [parse_int_loop]. pose proof (zlen_AsString s Hs) as Hlen. unfold sp_begin, sp_end in *.
  destruct (bool_decide_reflect (ptr_ s + i ≠ ptr_ s + length_ s)) as [Hne|He].
  - destruct (zdrop i (AsString s)) as [|c l] eqn:E.
    { assert (Hz : zlen (zdrop i (AsString s)) = length_ s - i) by (rewrite zlen_zdrop; lia).
      rewrite E, zlen_nil in Hz. lia. }
    assert (Hc : rd (sp_mem s) (ptr_ s + i) = Ret c).
    { rewrite rd_AsString by (done || lia). rewrite <-(Z.add_0_r i), <-rd_zdrop by lia.
      by rewrite E. }
    assert (Hl : zdrop (i + 1) (AsString s) = l) by (rewrite <-zdrop_zdrop, E by lia; done).
    rewrite Hc. cbn [mbind result_bind digit_prefix]. destruct (isdigit c) eqn:Ed.
    + pose proof (isdigit_range c Ed) as Hr.
      pose proof (foldl_dec_mono (digit_prefix l) (n * 10 + (c - 48)) (digit_prefix_digits l)) as Hm.
      cbn [foldl]. rewrite (bool_decide_false (c :: digit_prefix l = [])) by done.
      destruct (bool_decide_reflect (n * 10 + (c - 48) <= INT_MAX)) as [Hle|Hgt].
      * rewrite <-Z.add_assoc, IH, Hl by lia. rewrite zlen_cons.
        destruct (bool_decide_reflect (foldl (λ n0 c0, n0 * 10 + (c0 - 48)) (n * 10 + (c - 48)) (digit_prefix l) <= INT_MAX)).
        -- do 2 f_equal. lia.
        -- destruct (digit_prefix l); [cbn in *; lia|]. by rewrite bool_decide_false.
      * rewrite bool_decide_false by lia. done.
    + cbn. rewrite Z.add_0_r. by destruct (bool_decide_reflect (n <= INT_MAX)).
  - rewrite zdrop_ge by lia. cbn. rewrite Z.add_0_r.
    by destruct (bool_decide_reflect (n <= INT_MAX)).
Qed.

Lemma ParseInt_ok s num :
  sp_wf s →
  let ds := digit_prefix (AsString s) in
  ParseInt s num =
    if bool_decide (ds = []) then Ret (sp_begin s, num)
    else if bool_decide (dec_val ds <= INT_MAX) then Ret (sp_begin s + zlen ds, dec_val ds)
    else Fault SignedOverflow.
Proof.
  intros Hs. cbn zeta. unfold ParseInt. pose proof Hs as (_&?&_).
  rewrite <-(Z.add_0_r (sp_begin s)) at 1. rewrite parse_int_loop_ok by (done || lia).
  rewrite zdrop_0, Z.add_0_r. fold (dec_val (digit_prefix (AsString s))).
  destruct (digit_prefix (AsString s)) as [|c ds].
  - rewrite (bool_decide_true (dec_val [] <= INT_MAX)) by done. cbn [mbind result_bind].
    change (zlen (@nil Z)) with 0. rewrite Z.add_0_r. by rewrite !bool_decide_true.
  - rewrite (bool_decide_false (c :: ds = [])) by done. destruct (bool_decide _); [|done].
    cbn [mbind result_bind]. rewrite zlen_cons. pose proof (zlen_nonneg ds).
    by rewrite bool_decide_false by lia.
Qed.

(** C37: [ParseInt] on a slice whose leading digits are [ds]: with no digit it
    returns [begin()] and leaves [num] alone; otherwise it returns the position
    after the digits and their decimal value, unless that value exceeds
    [INT_MAX], where the [int] accumulation overflows. *)
Theorem ParseInt_correct s num :
  sp_wf s →
  let ds := digit_prefix (AsString s) in
  ParseInt s num =
    if bool_decide (ds = []) then Ret (sp_begin s, num)
    else if bool_decide (dec_val ds <= INT_MAX) then Ret (sp_begin s + zlen ds, dec_val ds)
    else Fault SignedOverflow.
Proof. exact (ParseInt_ok s num). Qed.

Lemma ParseInt_correct_witness :
  ParseInt (StringPiece_string [49;50;53;54;54;104]) 0 = Ret (5, 12566) ∧
  ParseInt (StringPiece_string [50;49;52;55;52;56;51;54;52;56]) 0 = Fault SignedOverflow.
Proof.
  split.
  - rewrite (ParseInt_correct (StringPiece_string [49;50;53;54;54;104]) 0 (sp_wf_string _)).
    reflexivity.
  - rewrite (ParseInt_correct (StringPiece_string [50;49;52;55;52;56;51;54;52;56]) 0 (sp_wf_string _)).
    reflexivity.
Defined.

(** ** [SliceFragment] *)

(** The text strictly between the first [first] and the next [last]. *)
Definition between (first last l : list Z) : list Z :=
  let i := std_search l first in
  if bool_decide (i = zlen l) then []
  else
    let rest := zdrop (i + zlen first) l in
    let j := std_search rest last in
    if bool_decide (j = zlen rest) then [] else ztake j rest.

Lemma SliceFragment_ok s first last :
  sp_wf s → sp_wf first → 0 < length_ first → sp_wf last →
  ∃ s', SliceFragment s first last = Ret s' ∧ sp_wf s' ∧
    AsString s' = between (AsString first) (AsString last) (AsString s).
Proof.
  intros Hs Hf Hpos Hl. unfold SliceFragment, between. pose proof Hs as (?&?&?).
  pose proof (zlen_AsString s Hs) as Hlen. pose proof (zlen_AsString first Hf) as Hflen.
  rewrite (bool_decide_ext (Find s first = sp_end s)
    (std_search (AsString s) (AsString first) = zlen (AsString s)))
    by (unfold Find, sp_end, sp_begin; lia).
  destruct (bool_decide_reflect (std_search (AsString s) (AsString first) = zlen (AsString s)))
    as [E|E].
  { exists StringPiece_null. split_and!; [done|apply sp_wf_null|done]. }
  assert (AsString first ≠ []) by (intros E'; rewrite E', zlen_nil in Hflen; lia).
  destruct (std_search_found _ _ ltac:(done) E) as (k & _ & Hroom). rewrite Hflen, Hlen in *.
  pose proof (std_search_range (AsString s) (AsString first)).
  set (i := std_search (AsString s) (AsString first)) in *.
  unfold sp_size, Find, sp_end, sp_begin. fold i. rewrite StringPiece_range_ok by lia.
  cbn [mbind result_bind]. replace (ptr_ s + i + length_ first) with (ptr_ s + (i + length_ first)) by lia.
  set (j := i + length_ first) in *.
  replace (ptr_ s + length_ s - (ptr_ s + j)) with (length_ s - j) by lia.
  set (frag := mk_sp (sp_mem s) (ptr_ s + j) (length_ s - j)).
  assert (Hfrag : sp_wf frag) by (apply sp_wf_mk; [done|lia|lia]).
  assert (Htxt : AsString frag = zdrop j (AsString s)).
  { unfold frag. rewrite AsString_mk by (done || lia). apply ztake_ge.
    rewrite zlen_zdrop; lia. }
  assert (Hfl : zlen (zdrop j (AsString s)) = length_ s - j) by (rewrite zlen_zdrop; lia).
  fold (sp_end frag). rewrite Htxt. change (ptr_ frag) with (sp_begin frag).
  pose proof (std_search_range (zdrop j (AsString s)) (AsString last)) as Hr.
  set (m := std_search (zdrop j (AsString s)) (AsString last)) in *.
  rewrite (bool_decide_ext (sp_begin frag + m = sp_end frag) (m = zlen (zdrop j (AsString s))))
    by (unfold sp_end, sp_begin, frag; cbn; lia).
  destruct (bool_decide_reflect (m = zlen (zdrop j (AsString s)))).
  { exists StringPiece_null. split_and!; [done|apply sp_wf_null|done]. }
  assert (Hm : sp_begin frag <= sp_begin frag + m <= sp_end frag)
    by (unfold sp_end, sp_begin, frag; cbn; lia).
  rewrite RemoveSuffixUntil_ok by done. eexists. split; [done|].
  assert (Hrm : 0 <= sp_end frag - (sp_begin frag + m) <= length_ frag)
    by (unfold sp_end, sp_begin, frag in *; cbn in *; lia).
  split; [by apply sp_wf_RemoveSuffix|].
  rewrite AsString_RemoveSuffix, Htxt by done. f_equal. unfold sp_end, sp_begin. lia.
Qed.

(** [SliceFragment] with a non-empty opening tag never faults and denotes
    the text between the first [first] and the next [last]; it is empty when
    either tag is missing. *)
Theorem SliceFragment_correct s first last :
  sp_wf s → sp_wf first → 0 < length_ first → sp_wf last →
  ∃ s', SliceFragment s first last = Ret s' ∧ sp_wf s' ∧
    AsString s' = between (AsString first) (AsString last) (AsString s).
Proof. exact (SliceFragment_ok s first last). Qed.

Lemma SliceFragment_correct_witness :
  ∃ s', SliceFragment (StringPiece_string [120;97;58;49;50;59;121]) (StringPiece_string [97;58])
          (StringPiece_string [59]) = Ret s' ∧ AsString s' = [49;50].
Proof.
  destruct (SliceFragment_correct (StringPiece_string [120;97;58;49;50;59;121])
    (StringPiece_string [97;58]) (StringPiece_string [59])
    (sp_wf_string _) (sp_wf_string _) ltac:(reflexivity) (sp_wf_string _)) as (s' & ? & _ & Ht).
  exists s'. split; [assumption|]. etransitivity; [exact Ht|reflexivity].
Defined.

(** ** Comparison *)
Lemma memcmp_zero a b n :
  length a = n → length b = n → memcmp a b n = 0 ↔ a = b.
Proof.
  revert a b. induction n as [|n IH]; intros [|x a] [|y b] Ha Hb; try done; cbn in *.
  destruct (bool_decide_reflect (x = y)) as [->|Hne].
  - rewrite IH by lia. naive_solver.
  - split; [|congruence]. destruct (bool_decide _); done.
Qed.

Lemma sp_eqb_spec s x : sp_wf s → sp_wf x → sp_eqb s x = true ↔ AsString s = AsString x.
Proof.
  intros Hs Hx. unfold sp_eqb. rewrite andb_true_iff, !bool_decide_eq_true.
  pose proof (zlen_AsString s Hs) as H1. pose proof (zlen_AsString x Hx) as H2.
  split.
  - intros [Hl Hm]. apply memcmp_zero in Hm; unfold zlen in *; [done|lia..].
  - intros E. rewrite E in H1. split; [lia|]. rewrite E. apply memcmp_zero; unfold zlen in *; lia || done.
Qed.

(** ** Literals *)
Lemma AsString_lit pat : 0 ∉ pat → AsString (lit pat) = pat.
Proof.
  intros H0. unfold lit, StringPiece_cstr, AsString, strlen. cbn [sp_mem ptr_ length_].
  rewrite std_find_app by done. rewrite zdrop_0. by apply ztake_app_all.
Qed.
Lemma Find_lit s pat : 0 ∉ pat → Find s (lit pat) = sp_begin s + std_search (AsString s) pat.
Proof. intros. unfold Find. by rewrite AsString_lit. Qed.

Lemma sp_wf_lit pat : 0 ∉ pat → sp_wf (lit pat) ∧ length_ (lit pat) = zlen pat.
Proof.
  intros. unfold lit, StringPiece_cstr, sp_wf, strlen. cbn [sp_mem ptr_ length_].
  rewrite std_find_app, zlen_app by done. change (zlen [0]) with 1. pose proof (zlen_nonneg pat). lia.
Qed.
Lemma StartsWith_lit s pat :
  sp_wf s → 0 ∉ pat → StartsWith s (lit pat) = prefixb pat (AsString s).
Proof.
  intros Hs Hp. destruct (sp_wf_lit pat Hp) as [_ Hl]. unfold StartsWith. rewrite Hl, AsString_lit by done.
  pose proof (zlen_AsString s Hs) as Hlen. rewrite <-Hlen.
  generalize (AsString s) as l. intros l. apply eq_true_iff_eq.
  rewrite andb_true_iff, !bool_decide_eq_true, prefixb_spec. clear.
  replace (Z.to_nat (zlen pat)) with (length pat) by (unfold zlen; lia).
  revert l. induction pat as [|p pat IH]; intros l; cbn [memcmp length].
  { split; [by exists l|]. intros _. split; [unfold zlen; cbn; lia|by destruct l]. }
  destruct l as [|x l]; [split; [unfold zlen; cbn; lia|by intros [k ?]]|].
  rewrite !zlen_cons. specialize (IH l). cbn [memcmp]. destruct (bool_decide_reflect (x = p)) as [->|Hne].
  - destruct IH as [IH1 IH2]. split.
    + intros [H1 H2]. destruct IH1 as [k ->]; [split; [lia|done]|]. by exists k.
    + intros [k [= Hk]]. destruct IH2 as [H1 H2]; [by exists k|]. split; [lia|done].
  - split; [|by intros [k [= ? ?]]]. intros [_ H]. destruct (bool_decide _); done.
Qed.

(** ** Reads of a packet, in terms of its text *)
Section packet.
Context (packet : StringPiece) (Hwf : sp_wf packet) (Hok : bytes_ok (AsString packet)).
Let l := AsString packet.
Let len := sp_size packet.

Lemma packet_len : zlen l = len.
Proof. by apply zlen_AsString. Qed.
Lemma packet_bytes : bytes_ok l.
Proof. exact Hok. Qed.

Lemma packet_block i n :
  0 <= i → 0 <= n → i + n <= len →
  ztake n (zdrop (ptr_ packet + i) (sp_mem packet)) = ztake n (zdrop i l).
Proof.
  intros ???. unfold l, AsString, len, sp_size in *. rewrite zdrop_ztake, zdrop_zdrop, ztake_ztake by
    (destruct Hwf; lia). done.
Qed.

Lemma packet_rd i : 0 <= i < len → rd (sp_mem packet) (ptr_ packet + i) = rd l i.
Proof. intros. by apply rd_AsString. Qed.

Lemma packet_byte2 i :
  0 <= i → i + 2 <= len → byte2 (sp_mem packet) (ptr_ packet + i) = Ret (be_val (ztake 2 (zdrop i l))).
Proof.
  intros. rewrite <-byte2_val by (done || rewrite packet_len; lia).
  unfold byte2. rewrite <-!Z.add_assoc, !packet_rd by lia. done.
Qed.
Lemma packet_byte4_piece i :
  0 <= i → i + 4 <= len → byte4 (sp_mem packet) (ptr_ packet + i) = byte4 l i.
Proof. intros. unfold byte4. rewrite <-!Z.add_assoc, !packet_rd by lia. done. Qed.
Lemma packet_byte4 i :
  0 <= i → i + 4 <= len → byte4 (sp_mem packet) (ptr_ packet + i) = Ret (be_val (ztake 4 (zdrop i l))).
Proof. intros. rewrite packet_byte4_piece, byte4_val by (done || rewrite ?packet_len; lia). done. Qed.
Lemma packet_byte8 i :
  0 <= i → i + 8 <= len → byte8 (sp_mem packet) (ptr_ packet + i) = Ret (be_val (ztake 8 (zdrop i l))).
Proof.
  intros. rewrite <-byte8_val by (done || rewrite packet_len; lia).
  unfold byte8. rewrite <-!Z.add_assoc, !packet_byte4_piece by lia. done.
Qed.
Lemma packet_load n i :
  0 <= i → i + Z.of_nat n <= len →
  load n (sp_mem packet) (ptr_ packet + i) = Ret (le_val (ztake (Z.of_nat n) (zdrop i l))).
Proof.
  intros. unfold len, sp_size in *. rewrite load_ok, packet_block by (destruct Hwf; unfold sp_size; lia). done.
Qed.
Lemma packet_load1 i b : rd l i = Ret b → load 1 (sp_mem packet) (ptr_ packet + i) = Ret b.
Proof.
  intros Hb. pose proof (rd_bounds _ _ _ Hb). rewrite packet_len in *.
  rewrite packet_load by (unfold len in *; lia). f_equal.
  apply rd_Ret in Hb as [Hi Hb]. apply list_elem_of_split_length in Hb as (u & v & E & Hu).
  rewrite E, zdrop_app_all by (unfold zlen; lia). change (b + 256 * 0 = b). lia.
Qed.
Lemma packet_load1_0 b : rd l 0 = Ret b → load 1 (sp_mem packet) (ptr_ packet) = Ret b.
Proof. intros. rewrite <-(Z.add_0_r (ptr_ packet)). by apply packet_load1. Qed.
Lemma packet_index i : 0 <= i < len → sp_index packet i = rd l i.
Proof. intros. by apply rd_AsString. Qed.
End packet.
