(* ===== verification/Format.v ===== *)
(** * Text of numbers: the conversions of [snprintf] and [std::to_string]
    that the program uses

    [decimal] is the text of "%u" and of [std::to_string] on a non-negative
    number, [signed_decimal] that of "%d", [hex2] that of "%.2x" on a byte.
    Reading the text back gives the number, so distinct numbers have distinct
    texts. *)

From Stdlib Require Import ZArith Lia Bool.
From stdpp Require Import base numbers list.
From S2P Require Import Prelude Types StringPiece.

Fixpoint decimal_loop (n : nat) (v : Z) (acc : list Z) : list Z :=
  match n with
  | O => acc
  | S n =>
      let acc := (48 + v mod 10) :: acc in
      if bool_decide (v / 10 = 0) then acc else decimal_loop n (v / 10) acc
  end.
(** A number below [2^k] has at most [k] decimal digits. *)
Definition decimal (v : Z) : list Z := decimal_loop (S (Z.to_nat (Z.log2 v))) v [].
Definition signed_decimal (v : Z) : list Z := if bool_decide (v < 0) then 45 :: decimal (- v) else decimal v.

Definition hex_digit (d : Z) : Z := if bool_decide (d < 10) then 48 + d else 87 + d.
Definition hex2 (b : Z) : list Z := [hex_digit (b / 16); hex_digit (b mod 16)].

(** ** Decimal *)
Definition is_digits (l : list Z) : Prop := Forall (λ c, 48 <= c <= 57) l.

Lemma foldl_dec ds n : foldl (λ n c, n * 10 + (c - 48)) n ds = n * 10 ^ zlen ds + dec_val ds.
Proof.
  unfold dec_val. revert n. induction ds as [|c ds IH]; intros n; cbn [foldl].
  - change (zlen (@nil Z)) with 0. lia.
  - rewrite IH, (IH (0 * 10 + (c - 48))), zlen_cons, Z.pow_add_r by (pose proof (zlen_nonneg ds); lia). lia.
Qed.
Lemma dec_val_cons c ds : dec_val (c :: ds) = (c - 48) * 10 ^ zlen ds + dec_val ds.
Proof. unfold dec_val at 1. cbn [foldl]. rewrite foldl_dec. lia. Qed.

Lemma decimal_loop_ok n v acc :
  0 <= v < 10 ^ Z.of_nat n → (0 < n)%nat →
  ∃ ds, decimal_loop n v acc = ds ++ acc ∧ is_digits ds ∧ dec_val ds = v ∧ ds ≠ [] ∧
    zlen ds <= Z.of_nat n.
Proof.
  revert v acc. induction n as [|n IH]; intros v acc Hv Hn; [lia|]. cbn [decimal_loop].
  assert (Hd : 48 <= 48 + v mod 10 <= 57) by (pose proof (Z.mod_pos_bound v 10); lia).
  destruct (bool_decide_reflect (v / 10 = 0)) as [E|E].
  - exists [48 + v mod 10]. split_and!; [done|by apply Forall_singleton| |done|unfold zlen; cbn; lia].
    rewrite dec_val_cons. change (dec_val []) with 0. change (zlen (@nil Z)) with 0.
    Z.to_euclidean_division_equations. lia.
  - rewrite Nat2Z.inj_succ, Z.pow_succ_r in Hv by lia. destruct n as [|n].
    { change (10 * 10 ^ Z.of_nat 0) with 10 in Hv. Z.to_euclidean_division_equations. lia. }
    destruct (IH (v / 10) ((48 + v mod 10) :: acc)) as (ds & -> & Hds & Hval & _ & Hlen).
    { Z.to_euclidean_division_equations. lia. }
    { lia. }
    exists (ds ++ [48 + v mod 10]). split_and!.
    + by rewrite <-app_assoc.
    + apply Forall_app. split; [done|by apply Forall_singleton].
    + unfold dec_val in *. rewrite foldl_app, Hval. cbn. Z.to_euclidean_division_equations. lia.
    + by destruct ds.
    + rewrite zlen_app. change (zlen [48 + v mod 10]) with 1. lia.
Qed.

Lemma decimal_fuel v : 0 <= v → 0 <= v < 10 ^ Z.of_nat (S (Z.to_nat (Z.log2 v))).
Proof.
  intros Hv. split; [done|]. pose proof (Z.log2_nonneg v). rewrite Nat2Z.inj_succ, Z2Nat.id by done.
  destruct (decide (v = 0)) as [->|]; [apply Z.pow_pos_nonneg; lia|].
  apply Z.lt_le_trans with (2 ^ Z.succ (Z.log2 v)); [by apply Z.log2_spec; lia|].
  apply Z.pow_le_mono_l. lia.
Qed.

(** The text of a number: digits that read back as it. *)
Lemma decimal_ok v : 0 <= v → is_digits (decimal v) ∧ dec_val (decimal v) = v ∧ decimal v ≠ [].
Proof.
  intros Hv. unfold decimal.
  destruct (decimal_loop_ok _ v [] (decimal_fuel v Hv)) as (ds & -> & ? & ? & ? & _); [lia|].
  by rewrite app_nil_r.
Qed.

Lemma decimal_inj v w : 0 <= v → 0 <= w → decimal v = decimal w → v = w.
Proof.
  intros Hv Hw E. destruct (decimal_ok v Hv) as (_ & <- & _), (decimal_ok w Hw) as (_ & <- & _). by rewrite E.
Qed.

Lemma decimal_no c v : 0 <= v → ¬ (48 <= c <= 57) → c ∉ decimal v.
Proof.
  intros Hv Hc Hin. destruct (decimal_ok v Hv) as (Hd & _). by apply (Forall_forall _ _) with c in Hd.
Qed.

(** Two texts end in numbers after the same mark: they agree before it, too. *)
Lemma split_at_mark {A} (c : A) l1 l2 r1 r2 :
  c ∉ l1 → c ∉ l2 → l1 ++ c :: r1 = l2 ++ c :: r2 → l1 = l2 ∧ r1 = r2.
Proof.
  revert l2. induction l1 as [|x l1 IH]; intros [|y l2] H1 H2 E; cbn in E.
  - by injection E.
  - injection E as -> _. by destruct H2; left.
  - injection E as -> _. by destruct H1; left.
  - injection E as -> E. destruct (IH l2) as [-> ->]; [intros ?; apply H1; by right|intros ?; apply H2; by right|done|done].
Qed.
Lemma decimal_suffix c l1 l2 v w :
  ¬ (48 <= c <= 57) → 0 <= v → 0 <= w →
  l1 ++ [c] ++ decimal v = l2 ++ [c] ++ decimal w → l1 = l2 ∧ v = w.
Proof.
  intros Hc Hv Hw E%(f_equal reverse). rewrite !reverse_app, <-!app_assoc in E.
  apply split_at_mark in E as [Ed El]; [|rewrite elem_of_reverse; by apply decimal_no..].
  split; [by apply (inj reverse)|]. apply decimal_inj; [done..|]. by apply (inj reverse).
Qed.

(** Leading digits above zero need room: a number below [10^k] has at most
    [k] digits. *)
Lemma decimal_loop_fuel n m v acc :
  (n <= m)%nat → 0 <= v < 10 ^ Z.of_nat n → (0 < n)%nat → decimal_loop m v acc = decimal_loop n v acc.
Proof.
  revert m v acc. induction n as [|n IH]; intros m v acc Hm Hv Hn; [lia|].
  destruct m as [|m]; [lia|]. cbn [decimal_loop].
  destruct (bool_decide_reflect (v / 10 = 0)) as [|E]; [done|].
  rewrite Nat2Z.inj_succ, Z.pow_succ_r in Hv by lia.
  destruct n as [|n]; [change (10 * 10 ^ Z.of_nat 0) with 10 in Hv; Z.to_euclidean_division_equations; lia|].
  apply IH; [lia| |lia]. Z.to_euclidean_division_equations. lia.
Qed.
Lemma decimal_length k v : 0 <= v < 10 ^ Z.of_nat k → (0 < k)%nat → zlen (decimal v) <= Z.of_nat k.
Proof.
  intros Hv Hk. unfold decimal. set (m := S _).
  destruct (decide (k <= m)%nat).
  - rewrite (decimal_loop_fuel k m) by done.
    destruct (decimal_loop_ok k v [] Hv Hk) as (ds & -> & _ & _ & _ & H). by rewrite app_nil_r.
  - destruct (decimal_loop_ok m v [] (decimal_fuel v ltac:(lia))) as (ds & -> & _ & _ & _ & H); [lia|]. rewrite app_nil_r. lia.
Qed.

(** ** Hexadecimal *)
Definition hex_value (c : Z) : Z := if bool_decide (c < 58) then c - 48 else c - 87.

Lemma hex_value_digit d : 0 <= d < 16 → hex_value (hex_digit d) = d.
Proof. intros. unfold hex_value, hex_digit. repeat case_bool_decide; lia. Qed.

(** Two characters per byte. *)
Fixpoint read_hex (l : list Z) : list Z :=
  match l with
  | a :: b :: l => (16 * hex_value a + hex_value b) :: read_hex l
  | _ => []
  end.
Lemma read_hex_hex2 l : bytes_ok l → read_hex (concat (hex2 <$> l)) = l.
Proof.
  induction l as [|b l IH]; [done|]. intros [Hb Hl]%bytes_ok_cons. cbn.
  rewrite !hex_value_digit, IH by (done || (unfold is_u8 in Hb; Z.to_euclidean_division_equations; lia)).
  f_equal. Z.to_euclidean_division_equations. lia.
Qed.

Lemma zlen_hex l : zlen (concat (hex2 <$> l)) = zlen l * 2.
Proof.
  induction l as [|b l IH]; [done|]. cbn [fmap list_fmap concat]. rewrite zlen_app, zlen_cons, IH.
  change (zlen (hex2 b)) with 2. lia.
Qed.
Lemma hex2_no c b : is_u8 b → ¬ (48 <= c <= 57) → ¬ (97 <= c <= 102) → c ∉ hex2 b.
Proof.
  intros Hb H1 H2. assert (Hd : ∀ d, 0 <= d < 16 → hex_digit d ≠ c)
    by (intros d Hd; unfold hex_digit; case_bool_decide; lia).
  unfold is_u8 in Hb. unfold hex2. rewrite !elem_of_cons, elem_of_nil.
  intros [E|[E|[]]]; symmetry in E; revert E; apply Hd; Z.to_euclidean_division_equations; lia.
Qed.
Lemma hex_no c l : bytes_ok l → ¬ (48 <= c <= 57) → ¬ (97 <= c <= 102) → c ∉ concat (hex2 <$> l).
Proof.
  intros Hl H1 H2. induction Hl as [|b l Hb Hl IH]; [by intros ?%elem_of_nil|].
  cbn [fmap list_fmap concat]. rewrite elem_of_app. intros [Hin|]; [|done]. by apply hex2_no in Hin.
Qed.
