(* ===== verification/Process.v ===== *)
(** * Processes: kernel/process/{signal,daemon,process_info}.cc and the thread-locals of kernel/thread/thread.cc

    What a thread believes of itself is kept in thread-local variables, set
    when the process starts, when a thread starts and after a fork.  The state
    is a process: its number and, for each thread by the number the kernel
    gave it, those variables.  The dispositions of signals are a map.

    The theorems: the cached numbers are always those of the kernel, which a
    plain fork would break; and a process that has taken over its signals
    survives a write to a closed connection. *)

From Stdlib Require Import ZArith Lia Bool String.
From stdpp Require Import base numbers relations list gmap.
From S2P Require Import Prelude Types Format.

(** ** Who a thread is *)
Record Locals : Type := mk_locals {
  t_tid : Z;
  t_tidstring : list Z;
  t_threadname : list Z;
}.
Definition main_thread : list Z := bytes_of "main_thread".
Record Process : Type := mk_process {
  pid : Z;
  threads : gmap Z Locals;
}.

(** [gettid()] of the calling thread is its number. *)
Definition CallAfterFork (gettid : Z) : Locals := mk_locals gettid (decimal gettid) main_thread.
Definition StartThread (gettid : Z) (threadname : list Z) : Locals := mk_locals gettid (decimal gettid) threadname.
Definition is_main_thread (p : Process) (l : Locals) : bool := bool_decide (t_tid l = pid p).

(** The process starts: [init_thread]. *)
Definition process_start (id : Z) : Process := mk_process id {[id := CallAfterFork id]}.
(** A fork copies the thread that calls it, alone, with its variables. *)
Definition fork (child : Z) (l : Locals) : Process := mk_process child {[child := l]}.
(** [daemon] forks and ends the parent; a failure is fatal. *)
Definition BecomeDaemon (child : option Z) (l : Locals) : result Process :=
  match child with
  | None => Fault Aborted
  | Some child =>
      let p := fork child l in
      Ret (mk_process (pid p) (<[child := CallAfterFork child]> (threads p)))
  end.

Inductive process_step (p : Process) : Process → Prop :=
  | pr_thread tid name :
      threads p !! tid = None → tid ≠ pid p →
      process_step p (mk_process (pid p) (<[tid := StartThread tid name]> (threads p)))
  | pr_end tid : tid ≠ pid p → process_step p (mk_process (pid p) (delete tid (threads p)))
  | pr_daemon tid l child p' :
      threads p !! tid = Some l → BecomeDaemon (Some child) l = Ret p' → process_step p p'.

(** Every thread's variables are right. *)
Definition identity_ok (p : Process) : Prop :=
  ∀ tid l, threads p !! tid = Some l → t_tid l = tid ∧ t_tidstring l = decimal tid.
Lemma step_identity p p' : identity_ok p → process_step p p' → identity_ok p'.
Proof.
  intros Hp. destruct 1 as [tid name _ _|tid _|tid l child p' Hl E].
  - intros t l. cbn. intros [[<- <-]|[_ H]]%lookup_insert_Some; [done|by apply Hp].
  - intros t l. cbn. intros [_ H]%lookup_delete_Some. by apply Hp.
  - injection E as <-. intros t l'. cbn. intros [[<- <-]|[Hne [<- _]%lookup_singleton_Some]]%lookup_insert_Some; done.
Qed.

(** At every moment of a process, over threads that start and end and over
    becoming a daemon, each thread's cached number and its text are those of
    the kernel, and it takes itself for the main thread exactly when its number
    is the process's; after a fork alone, neither is true any more. *)
Theorem thread_identity id p :
  rtc process_step (process_start id) p →
  (∀ tid l, threads p !! tid = Some l →
     t_tid l = tid ∧ t_tidstring l = decimal tid ∧ (is_main_thread p l = true ↔ tid = pid p)) ∧
  (∀ tid l child, threads p !! tid = Some l → child ≠ tid →
     ¬ identity_ok (fork child l) ∧ is_main_thread (fork child l) l = false).
Proof.
  intros Hr. assert (H : identity_ok p).
  { assert (H0 : identity_ok (process_start id)) by (intros t l H; unfold process_start in H; cbn in H; by apply lookup_singleton_Some in H as [<- <-]).
    induction Hr as [|x y z Hs _ IH]; [done|]. apply IH. by eapply step_identity. }
  split.
  - intros tid l Hl. destruct (H tid l Hl) as [Ht Hs]. unfold is_main_thread. rewrite bool_decide_eq_true. by rewrite Ht.
  - intros tid l child Hl Hne. destruct (H tid l Hl) as [Ht _]. split.
    + intros Hok. destruct (Hok child l) as [E _]; [by apply lookup_singleton_Some|]. congruence.
    + unfold is_main_thread. apply bool_decide_eq_false. cbn. congruence.
Qed.

(** ** Signals *)
Definition SIGUSR1 : Z := 10.
Definition SIGUSR2 : Z := 12.
Definition SIGPIPE : Z := 13.
Inductive disposition : Type := SIG_DFL | SIG_IGN | Handler.
(** The handler does nothing, whatever the signal. *)
Definition HandleSignal (signum : Z) : unit := tt.
(** [sigaction], for the signals that have one set. *)
Definition TakeOverSignal (acts : gmap Z disposition) : gmap Z disposition :=
  <[SIGPIPE := SIG_IGN]> (<[SIGUSR2 := Handler]> (<[SIGUSR1 := Handler]> acts)).
(** A signal that nothing is set for has its default action; which of those
    end the process is the system's. *)
Definition survives (ends_process : Z → bool) (acts : gmap Z disposition) (signum : Z) : bool :=
  match acts !! signum with
  | Some SIG_IGN => true
  | Some Handler => let '_ := HandleSignal signum in true
  | Some SIG_DFL | None => negb (ends_process signum)
  end.

(** After the loop has taken over the signals a write to a closed connection
    and the user signals leave the process alive; every other signal acts as
    before. *)
Theorem signals_taken ends_process acts signum :
  survives ends_process (TakeOverSignal acts) signum =
    bool_decide (signum ∈ [SIGUSR1; SIGUSR2; SIGPIPE]) || survives ends_process acts signum.
Proof.
  unfold survives, TakeOverSignal. destruct (decide (signum = SIGPIPE)) as [->|N1]; [by rewrite lookup_insert_eq|].
  rewrite lookup_insert_ne by done. destruct (decide (signum = SIGUSR2)) as [->|N2]; [by rewrite lookup_insert_eq|].
  rewrite lookup_insert_ne by done. destruct (decide (signum = SIGUSR1)) as [->|N3]; [by rewrite lookup_insert_eq|].
  rewrite lookup_insert_ne by done. rewrite bool_decide_false; [done|]. set_solver.
Qed.
