(* ===== verification/Buffer.v ===== *)
(** * The network buffer and its pool: kernel/net/net_buffer.{h,cc},
    kernel/net/net_buffer_pool.{h,cc}

    A [Buffer] is a vector of bytes with a read and a write index.  Its
    contract is a byte queue: the readable bytes are the queue, [Append] and
    [ReadFd] add at the back, [Take] removes from the front, and making space
    (growing the vector, or moving the content to the front of it) is not
    visible.  The indices are [int]s: every sum the code forms of them is
    checked, so a buffer that would grow past [INT_MAX] is a signed overflow.
    [ByteQueue] states the contract for queues of at most [max_content] bytes;
    the clients that serialise into a buffer (HTTP, STUN) are proved against
    it. *)

From Stdlib Require Import ZArith Lia Bool.
From stdpp Require Import base numbers relations list.
From S2P Require Import Prelude Types StringPiece.

Record Buffer : Type := mk_buffer {
  buffer_ : list Z;
  reader_index_ : Z;
  writer_index_ : Z;
}.

Definition kCheapPrepend : Z := 8.
Definition kInitialSize : Z := 1500 + 8.
Definition extrabuf_size : Z := 65536.

Definition readable_bytes (b : Buffer) : Z := writer_index_ b - reader_index_ b.
Definition writable_bytes (b : Buffer) : Z := zlen (buffer_ b) - writer_index_ b.
Definition prependable_bytes (b : Buffer) : Z := reader_index_ b.
Definition read_index (b : Buffer) : Z := reader_index_ b.
Definition write_index (b : Buffer) : Z := writer_index_ b.

(** [std::vector<char>::resize]. *)
Definition vector_resize (v : list Z) (n : Z) : list Z :=
  ztake n v ++ replicate (Z.to_nat (n - zlen v)) 0.

(** [memcpy(p + i, src, len)] into an object holding [dst]. *)
Definition memcpy (dst : list Z) (i : Z) (src : list Z) (len : Z) : result (list Z) :=
  if bool_decide (0 <= i ∧ 0 <= len ∧ i + len <= zlen dst ∧ len <= zlen src)
  then Ret (ztake i dst ++ ztake len src ++ zdrop (i + len) dst)
  else Fault OutOfBounds.

(** [Buffer::Buffer]: a negative size is a length error of the vector. *)
Definition Buffer_new (initialSize : Z) : result Buffer :=
  n ← int_val (kCheapPrepend + initialSize);
  if bool_decide (n < 0) then Fault Aborted
  else
    let b := mk_buffer (replicate (Z.to_nat n) 0) kCheapPrepend kCheapPrepend in
    _ ← cpp_assert (bool_decide (readable_bytes b = 0));
    _ ← cpp_assert (bool_decide (writable_bytes b = initialSize));
    _ ← cpp_assert (bool_decide (prependable_bytes b = kCheapPrepend));
    Ret b.

(** [std::copy] towards the front of the same vector. *)
Definition copy_down (v : list Z) (from to dst : Z) : list Z :=
  ztake dst v ++ ztake (to - from) (zdrop from v) ++ zdrop (dst + (to - from)) v.

Definition MakeSpace (b : Buffer) (len : Z) : result Buffer :=
  room ← int_val (writable_bytes b + prependable_bytes b);
  need ← int_val (len + kCheapPrepend);
  if bool_decide (room < need) then
    n ← int_val (writer_index_ b + len);
    Ret (mk_buffer (vector_resize (buffer_ b) n) (reader_index_ b) (writer_index_ b))
  else
    _ ← cpp_assert (bool_decide (kCheapPrepend < reader_index_ b));
    let readable := readable_bytes b in
    let b' := mk_buffer
      (copy_down (buffer_ b) (reader_index_ b) (writer_index_ b) kCheapPrepend)
      kCheapPrepend (kCheapPrepend + readable) in
    _ ← cpp_assert (bool_decide (readable = readable_bytes b'));
    Ret b'.

Definition EnsureWritableBytes (b : Buffer) (len : Z) : result Buffer :=
  b ← (if bool_decide (writable_bytes b < len) then MakeSpace b len else Ret b);
  _ ← cpp_assert (bool_decide (writable_bytes b >= len));
  Ret b.

(** [Append(const void*, int)]; a negative length is only logged. *)
Definition Append (b : Buffer) (data : list Z) (len : Z) : result Buffer :=
  if bool_decide (len > 0) then
    b ← EnsureWritableBytes b len;
    v ← memcpy (buffer_ b) (write_index b) data len;
    w ← int_val (writer_index_ b + len);
    Ret (mk_buffer v (reader_index_ b) w)
  else Ret b.

Definition Append_piece (b : Buffer) (str : StringPiece) : result Buffer :=
  Append b (AsString str) (sp_size str).
Definition Append_u8 (b : Buffer) (v : Z) : result Buffer := Append b (le_bytes 1 v) 1.
Definition Append_u16 (b : Buffer) (v : Z) : result Buffer := Append b (le_bytes 2 v) 2.
Definition Append_u32 (b : Buffer) (v : Z) : result Buffer := Append b (le_bytes 4 v) 4.
Definition Append_u64 (b : Buffer) (v : Z) : result Buffer := Append b (le_bytes 8 v) 8.

(** [ReadFd]: what [readv] returned is the argument.  The kernel fills the
    writable bytes first and the 64 KiB spill buffer after them. *)
Inductive io_result : Type :=
  | IoErr (errno : Z)
  | IoOk (bytes : list Z).

Definition readv_capacity (b : Buffer) : Z :=
  writable_bytes b + (if bool_decide (writable_bytes b < extrabuf_size) then extrabuf_size else 0).

Definition ReadFd (b : Buffer) (r : io_result) : result (Buffer * Z) :=
  let writable := writable_bytes b in
  match r with
  | IoErr _ => Ret (b, -1)
  | IoOk bytes =>
      let rn := zlen bytes in
      if bool_decide (rn <= writable) then
        v ← memcpy (buffer_ b) (writer_index_ b) bytes rn;
        w ← int_val (writer_index_ b + rn);
        Ret (mk_buffer v (reader_index_ b) w, rn)
      else
        v ← memcpy (buffer_ b) (writer_index_ b) bytes writable;
        let b := mk_buffer v (reader_index_ b) (zlen v) in
        let g_extrabuf := zdrop writable bytes in
        b ← Append b g_extrabuf (rn - writable);
        Ret (b, rn)
  end.

Definition AddReadableLength (b : Buffer) (len : Z) : result Buffer :=
  if bool_decide (len <= 0) then Ret b
  else
    b ← EnsureWritableBytes b len;
    w ← int_val (writer_index_ b + len);
    let b := mk_buffer (buffer_ b) (reader_index_ b) w in
    if bool_decide (writable_bytes b < 1024) then
      if bool_decide (zlen (buffer_ b) < 65536)
      then EnsureWritableBytes b (zlen (buffer_ b))
      else EnsureWritableBytes b 65536
    else Ret b.

Definition TakeAll (b : Buffer) : Buffer := mk_buffer (buffer_ b) kCheapPrepend kCheapPrepend.

Definition Take (b : Buffer) (len : Z) : result Buffer :=
  if bool_decide (len > 0) then
    _ ← cpp_assert (bool_decide (len <= readable_bytes b));
    if bool_decide (len < readable_bytes b)
    then Ret (mk_buffer (buffer_ b) (reader_index_ b + len) (writer_index_ b))
    else Ret (TakeAll b)
  else Ret b.

Definition TakeUntil (b : Buffer) (pos : Z) : result Buffer :=
  _ ← cpp_assert (bool_decide (read_index b <= pos));
  _ ← cpp_assert (bool_decide (pos <= write_index b));
  Take b (pos - read_index b).

Definition slice (b : Buffer) : StringPiece :=
  StringPiece_len (buffer_ b) (read_index b) (readable_bytes b).

Definition Buffer_swap (a b : Buffer) : Buffer * Buffer := (b, a).

(** [set_byte2(buf.read_index(), i, v)]: a patch of the readable bytes. *)
Definition patch2 (b : Buffer) (i v : Z) : result Buffer :=
  data ← set_byte2 (buffer_ b) (read_index b + i) v;
  Ret (mk_buffer data (reader_index_ b) (writer_index_ b)).

(** ** Invariant and content *)
Definition buf_wf (b : Buffer) : Prop :=
  kCheapPrepend <= reader_index_ b ∧ reader_index_ b <= writer_index_ b ∧
  writer_index_ b <= zlen (buffer_ b) ∧ zlen (buffer_ b) <= INT_MAX.

(** The content up to which no index can overflow: making room for [len] bytes
    behind [n] bytes never needs more than [n + 2 len + 8] bytes, since the
    vector is only enlarged when moving the content would not do. *)
Definition max_content : Z := 2 ^ 30 - 8.

Definition content (b : Buffer) : list Z :=
  ztake (readable_bytes b) (zdrop (reader_index_ b) (buffer_ b)).

Ltac buf_unfold :=
  unfold buf_wf, TakeAll, readable_bytes, writable_bytes, prependable_bytes, read_index, write_index,
    kCheapPrepend, extrabuf_size, INT_MAX, max_content in *;
  cbn [buffer_ reader_index_ writer_index_] in *.

Lemma cpp_assert_true (P : Prop) `{Decision P} : P → cpp_assert (bool_decide P) = Ret tt.
Proof. intros. unfold cpp_assert. by rewrite bool_decide_true. Qed.


Section buffer.
Implicit Types b : Buffer.

Lemma zlen_content b : buf_wf b → zlen (content b) = readable_bytes b.
Proof. intros. unfold content. buf_unfold. apply block_length; lia. Qed.

Lemma slice_wf b : buf_wf b → sp_wf (slice b).
Proof. unfold sp_wf, slice, StringPiece_len. buf_unfold. cbn. lia. Qed.
Lemma AsString_slice b : AsString (slice b) = content b.
Proof. done. Qed.

Lemma Buffer_new_ok n :
  0 <= n <= max_content → ∃ b, Buffer_new n = Ret b ∧ buf_wf b ∧ content b = [] ∧ writable_bytes b = n.
Proof.
  intros. unfold Buffer_new. rewrite int_val_ok by (buf_unfold; lia). cbn [mbind result_bind].
  rewrite bool_decide_false by (buf_unfold; lia).
  assert (Hz : zlen (replicate (Z.to_nat (kCheapPrepend + n)) 0) = 8 + n)
    by (rewrite zlen_replicate; buf_unfold; lia).
  rewrite !cpp_assert_true by (buf_unfold; lia). cbn [mbind result_bind].
  eexists. split_and!; [done|buf_unfold; lia|done|buf_unfold; lia].
Qed.

(** Making space keeps the content and gives the room asked for, or overflows. *)
Lemma EnsureWritableBytes_cases b len :
  buf_wf b → 0 <= len →
  (EnsureWritableBytes b len = Fault SignedOverflow ∧ writable_bytes b < len ∧
   INT_MAX < readable_bytes b + 2 * len + kCheapPrepend) ∨
  ∃ b', EnsureWritableBytes b len = Ret b' ∧ buf_wf b' ∧ content b' = content b ∧
    len <= writable_bytes b' ∧
    (len <= writable_bytes b → b' = b).
Proof.
  intros Hb Hlen. unfold EnsureWritableBytes.
  destruct (bool_decide_reflect (writable_bytes b < len)) as [Hlt|Hge].
  2: { cbn [mbind result_bind]. rewrite cpp_assert_true by lia.
       right. exists b. split_and!; done || lia. }
  unfold MakeSpace. rewrite (int_val_ok (_ + prependable_bytes b)) by (buf_unfold; lia). cbn [mbind result_bind].
  unfold int_val. destruct (bool_decide_reflect (- 2 ^ 31 <= len + kCheapPrepend <= INT_MAX)); cbn [mbind result_bind];
    [|left; split; [done|buf_unfold; lia]].
  destruct (bool_decide_reflect (writable_bytes b + prependable_bytes b < len + kCheapPrepend))
    as [Hgrow|Hmove].
  - destruct (bool_decide_reflect (- 2 ^ 31 <= writer_index_ b + len <= INT_MAX)); cbn [mbind result_bind];
      [|left; split; [done|buf_unfold; lia]]. right.
    assert (Hz : zlen (vector_resize (buffer_ b) (writer_index_ b + len)) = writer_index_ b + len).
    { unfold vector_resize. rewrite zlen_app, zlen_replicate, ztake_ge by (buf_unfold; lia).
      buf_unfold. lia. }
    rewrite cpp_assert_true by (buf_unfold; lia). eexists. split; [done|].
    split_and!; [buf_unfold; lia| |buf_unfold; lia|lia].
    unfold content, vector_resize. buf_unfold.
    rewrite (ztake_ge (writer_index_ b + len)) by lia.
    rewrite zdrop_app_le by lia. rewrite ztake_app_le; [done|]. rewrite zlen_zdrop; lia.
  - right. rewrite (cpp_assert_true (kCheapPrepend < reader_index_ b)) by (buf_unfold; lia).
    cbn [mbind result_bind]. rewrite cpp_assert_true by (buf_unfold; lia). cbn [mbind result_bind].
    assert (Hz : zlen (copy_down (buffer_ b) (reader_index_ b) (writer_index_ b) kCheapPrepend)
                 = zlen (buffer_ b)).
    { unfold copy_down. rewrite !zlen_app, block_length, zlen_ztake, zlen_zdrop by (buf_unfold; lia).
      lia. }
    rewrite cpp_assert_true by (buf_unfold; lia). eexists. split; [done|].
    split_and!; [buf_unfold; lia| |buf_unfold; lia|lia].
    unfold content, copy_down. buf_unfold.
    rewrite zdrop_app_all by (rewrite zlen_ztake; lia).
    rewrite ztake_app_all; [done|]. rewrite block_length; lia.
Qed.

(** Writing [src] over the first writable bytes extends the content. *)
Lemma write_back b src n :
  buf_wf b → 0 <= n <= zlen src → n <= writable_bytes b →
  let v := ztake (writer_index_ b) (buffer_ b) ++ ztake n src ++ zdrop (writer_index_ b + n) (buffer_ b) in
  memcpy (buffer_ b) (writer_index_ b) src n = Ret v ∧ zlen v = zlen (buffer_ b) ∧
  content (mk_buffer v (reader_index_ b) (writer_index_ b + n)) = content b ++ ztake n src.
Proof.
  intros Hb Hn Hw v. unfold memcpy. rewrite bool_decide_true by (buf_unfold; lia).
  split; [done|]. split.
  { unfold v. rewrite !zlen_app, !zlen_ztake, zlen_zdrop by (buf_unfold; lia). lia. }
  unfold content, v. buf_unfold.
  rewrite zdrop_app_le by (rewrite zlen_ztake; lia).
  rewrite zdrop_ztake by lia.
  set (A := ztake (writer_index_ b - reader_index_ b) (zdrop (reader_index_ b) (buffer_ b))).
  assert (HA : zlen A = writer_index_ b - reader_index_ b) by (apply block_length; lia).
  rewrite app_assoc. apply ztake_app_all. rewrite zlen_app, HA, zlen_ztake; lia.
Qed.

Lemma EnsureWritableBytes_ok b len :
  buf_wf b → 0 <= len → len <= writable_bytes b ∨ readable_bytes b + 2 * len + kCheapPrepend <= INT_MAX →
  ∃ b', EnsureWritableBytes b len = Ret b' ∧ buf_wf b' ∧ content b' = content b ∧
    len <= writable_bytes b' ∧ (len <= writable_bytes b → b' = b).
Proof. intros Hb Hlen Hfit. destruct (EnsureWritableBytes_cases b len Hb Hlen) as [(_ & ? & ?)|?]; [lia|done]. Qed.

Lemma Append_cases b data len :
  buf_wf b → 0 <= len <= zlen data →
  (Append b data len = Fault SignedOverflow ∧ max_content < zlen (content b) + len) ∨
  ∃ b', Append b data len = Ret b' ∧ buf_wf b' ∧ content b' = content b ++ ztake len data.
Proof.
  intros Hb Hlen. rewrite zlen_content by done. unfold Append. destruct (bool_decide_reflect (len > 0)) as [Hpos|Hz].
  2: { right. exists b. replace len with 0 by lia. by rewrite ztake_0, app_nil_r. }
  destruct (EnsureWritableBytes_cases b len) as [(-> & ? & ?)|(b1 & -> & Hb1 & Hc & Hw & _)]; [done|lia|left|right].
  { split; [done|buf_unfold; lia]. }
  cbn [mbind result_bind]. destruct (write_back b1 data len) as (Hm & Hl & Hcont); [done..|].
  unfold write_index. rewrite Hm. cbn [mbind result_bind]. rewrite int_val_ok by (buf_unfold; lia). eexists. split; [done|].
  rewrite Hcont, Hc. split; [buf_unfold; lia|done].
Qed.
Lemma Append_ok b data len :
  buf_wf b → 0 <= len <= zlen data → zlen (content b) + len <= max_content →
  ∃ b', Append b data len = Ret b' ∧ buf_wf b' ∧ content b' = content b ++ ztake len data.
Proof. intros Hb Hlen Hfit. destruct (Append_cases b data len Hb Hlen) as [(_ & ?)|?]; [lia|done]. Qed.
End buffer.

(** ** The contract: a queue of bytes that can be patched in place, and takes
    up to [max_content] bytes *)
Class ByteQueue (Q : Type) := {
  bq_wf : Q → Prop;
  bq_content : Q → list Z;
  bq_append : Q → list Z → result Q;
  bq_patch2 : Q → Z → Z → result Q;
  bq_slice : Q → StringPiece;
  bq_append_law q data :
    bq_wf q → zlen (bq_content q) + zlen data <= max_content →
    ∃ q', bq_append q data = Ret q' ∧ bq_wf q' ∧ bq_content q' = bq_content q ++ data;
  bq_patch2_law q i v :
    bq_wf q → 0 <= i → i + 2 <= zlen (bq_content q) →
    ∃ q', bq_patch2 q i v = Ret q' ∧ bq_wf q' ∧
      bq_content q' = ztake i (bq_content q) ++ be_bytes 2 v ++ zdrop (i + 2) (bq_content q);
  bq_slice_law q : bq_wf q → sp_wf (bq_slice q) ∧ AsString (bq_slice q) = bq_content q;
}.

(** [Append] of an integer: its bytes as they lie in memory. *)
Definition bq_u8 `{ByteQueue Q} (q : Q) (v : Z) : result Q := bq_append q (le_bytes 1 v).
Definition bq_u16 `{ByteQueue Q} (q : Q) (v : Z) : result Q := bq_append q (le_bytes 2 v).
Definition bq_u32 `{ByteQueue Q} (q : Q) (v : Z) : result Q := bq_append q (le_bytes 4 v).
Definition bq_u64 `{ByteQueue Q} (q : Q) (v : Z) : result Q := bq_append q (le_bytes 8 v).

Lemma Append_all_ok b data :
  buf_wf b → zlen (content b) + zlen data <= max_content →
  ∃ b', Append b data (zlen data) = Ret b' ∧ buf_wf b' ∧ content b' = content b ++ data.
Proof.
  intros Hb Hfit. destruct (Append_ok b data (zlen data)) as (b' & ? & ? & Hc); [done| |done|].
  { pose proof (zlen_nonneg data). lia. }
  rewrite ztake_ge in Hc by lia. eauto.
Qed.

Lemma patch2_ok b i v :
  buf_wf b → 0 <= i → i + 2 <= zlen (content b) →
  ∃ b', patch2 b i v = Ret b' ∧ buf_wf b' ∧
    content b' = ztake i (content b) ++ be_bytes 2 v ++ zdrop (i + 2) (content b).
Proof.
  intros Hb Hi. rewrite zlen_content by done. intros Hr. unfold patch2.
  rewrite set_byte2_val by (buf_unfold; lia). cbn [mbind result_bind].
  pose proof (zlen_written (buffer_ b) (read_index b + i) 2 v ltac:(buf_unfold; lia)
    ltac:(buf_unfold; lia)) as Hz. change (Z.of_nat 2) with 2 in Hz.
  eexists. split; [done|]. split; [buf_unfold; lia|].
  unfold content. buf_unfold. set (r := reader_index_ b) in *. set (w := writer_index_ b) in *.
  rewrite zdrop_app_le by (rewrite zlen_ztake; lia). rewrite zdrop_ztake by lia.
  replace (r + i - r) with i by lia.
  rewrite (ztake_ztake i (w - r)) by lia. rewrite (zdrop_ztake (i + 2) (w - r)) by lia.
  rewrite zdrop_zdrop by lia. rewrite Z.add_assoc.
  rewrite (ztake_split i (w - r)) by lia.
  assert (Hl : zlen (ztake i (zdrop r (buffer_ b))) = i) by (apply block_length; lia).
  rewrite (ztake_app_le i), (ztake_ge i) by lia. f_equal.
  rewrite zdrop_app_all by done.
  rewrite (ztake_split 2) by lia. rewrite ztake_app_all by (by zlen_simp). f_equal.
  rewrite zdrop_app_all by (by zlen_simp). f_equal. lia.
Qed.

#[global] Instance Buffer_queue : ByteQueue Buffer := {|
  bq_wf := buf_wf;
  bq_content := content;
  bq_append b data := Append b data (zlen data);
  bq_patch2 := patch2;
  bq_slice := slice;
  bq_append_law := Append_all_ok;
  bq_patch2_law := patch2_ok;
  bq_slice_law b Hb := conj (slice_wf b Hb) (AsString_slice b);
|}.

(** ** Refinement: any sequence of buffer operations behaves as the queue *)
Inductive buf_op : Type :=
  | OpAppend (data : list Z)
  | OpRead (r : io_result)
  | OpTake (len : Z)
  | OpTakeUntil (off : Z)
  | OpTakeAll.

Definition buf_step (b : Buffer) (op : buf_op) : result Buffer :=
  match op with
  | OpAppend data => Append b data (zlen data)
  | OpRead r => '(b, _) ← ReadFd b r; Ret b
  | OpTake len => Take b len
  | OpTakeUntil off => TakeUntil b (read_index b + off)
  | OpTakeAll => Ret (TakeAll b)
  end.

Definition q_step (q : list Z) (op : buf_op) : result (list Z) :=
  match op with
  | OpAppend data => Ret (q ++ data)
  | OpRead (IoErr _) => Ret q
  | OpRead (IoOk bytes) => Ret (q ++ bytes)
  | OpTake len => if bool_decide (len <= zlen q) then Ret (zdrop len q) else Fault AssertFailed
  | OpTakeUntil off =>
      if bool_decide (0 <= off <= zlen q) then Ret (zdrop off q) else Fault AssertFailed
  | OpTakeAll => Ret []
  end.

Fixpoint run {S O} (step : S → O → result S) (s : S) (ops : list O) : result S :=
  match ops with
  | [] => Ret s
  | op :: ops => s ← step s op; run step s ops
  end.

(** A buffer outcome and a queue outcome agree. *)
Definition agrees (rb : result Buffer) (rq : result (list Z)) : Prop :=
  match rb, rq with
  | Ret b, Ret q => buf_wf b ∧ content b = q
  | Fault f, Fault f' => f = f'
  | _, _ => False
  end.

Lemma Take_agrees b len :
  buf_wf b →
  agrees (Take b len)
    (if bool_decide (len <= zlen (content b)) then Ret (zdrop len (content b)) else Fault AssertFailed).
Proof.
  intros Hb. unfold Take. rewrite zlen_content by done.
  destruct (bool_decide_reflect (len > 0)).
  - unfold cpp_assert. destruct (bool_decide_reflect (len <= readable_bytes b)); [|done].
    cbn [mbind result_bind]. destruct (bool_decide_reflect (len < readable_bytes b)); cbn.
    + split; [buf_unfold; lia|]. unfold content. buf_unfold. rewrite zdrop_ztake, zdrop_zdrop by lia.
      f_equal. lia.
    + split; [buf_unfold; lia|]. rewrite zdrop_ge by (rewrite zlen_content; done || lia).
      unfold content. buf_unfold. by rewrite ztake_neg by lia.
  - pose proof (zlen_nonneg (content b)). rewrite zlen_content in * by done.
    rewrite bool_decide_true by lia. rewrite zdrop_neg by lia. done.
Qed.

Lemma ReadFd_cases b bytes :
  buf_wf b →
  (ReadFd b (IoOk bytes) = Fault SignedOverflow ∧ max_content < zlen (content b) + zlen bytes) ∨
  ∃ b', ReadFd b (IoOk bytes) = Ret (b', zlen bytes) ∧ buf_wf b' ∧ content b' = content b ++ bytes.
Proof.
  intros Hb. unfold ReadFd. pose proof (zlen_nonneg bytes).
  destruct (bool_decide_reflect (zlen bytes <= writable_bytes b)) as [Hfit|Hspill].
  - destruct (write_back b bytes (zlen bytes)) as (-> & Hl & Hc); [done|lia|done|].
    cbn [mbind result_bind]. rewrite int_val_ok by (buf_unfold; lia). right. eexists. split; [done|]. split; [buf_unfold; lia|].
    by rewrite Hc, ztake_ge by lia.
  - assert (0 <= writable_bytes b) by (buf_unfold; lia).
    destruct (write_back b bytes (writable_bytes b)) as (-> & Hl & Hc); [done|lia|lia|].
    cbn [mbind result_bind]. set (v := _ ++ _ ++ _) in *.
    replace (writer_index_ b + writable_bytes b) with (zlen v) in Hc by (buf_unfold; lia).
    destruct (Append_cases (mk_buffer v (reader_index_ b) (zlen v)) (zdrop (writable_bytes b) bytes)
      (zlen bytes - writable_bytes b)) as [(-> & Hbig)|(b' & -> & Hb' & Hc')].
    { buf_unfold. lia. }
    { rewrite zlen_zdrop; lia. }
    { left. split; [done|]. rewrite Hc, zlen_app, zlen_ztake in Hbig; lia. }
    right. cbn [mbind result_bind]. exists b'. split_and!; [done..|].
    rewrite Hc', Hc, <-app_assoc. f_equal.
    rewrite (ztake_ge (_ - _)) by (rewrite zlen_zdrop; lia). apply ztake_zdrop.
Qed.
Lemma ReadFd_ok b bytes :
  buf_wf b → zlen (content b) + zlen bytes <= max_content →
  ∃ b', ReadFd b (IoOk bytes) = Ret (b', zlen bytes) ∧ buf_wf b' ∧ content b' = content b ++ bytes.
Proof. intros Hb Hfit. destruct (ReadFd_cases b bytes Hb) as [(_ & ?)|?]; [lia|done]. Qed.

(** The queue after a step that succeeds has at most [max_content] bytes. *)
Definition q_fits (q : list Z) (op : buf_op) : Prop :=
  match q_step q op with Ret q' => zlen q' <= max_content | _ => True end.

Lemma step_agrees b op : buf_wf b → q_fits (content b) op → agrees (buf_step b op) (q_step (content b) op).
Proof.
  intros Hb. unfold q_fits. destruct op as [data|[e|bytes]|len|off|]; cbn [buf_step q_step]; intros Hfit.
  - rewrite zlen_app in Hfit. destruct (Append_all_ok b data Hb Hfit) as (b' & -> & ? & Hc). by rewrite <-Hc.
  - done.
  - rewrite zlen_app in Hfit. destruct (ReadFd_ok b bytes Hb Hfit) as (b' & -> & ? & Hc). by rewrite <-Hc.
  - by apply Take_agrees.
  - unfold TakeUntil, cpp_assert. rewrite zlen_content by done.
    destruct (bool_decide_reflect (read_index b <= read_index b + off)) as [H1|H1];
      cbn [mbind result_bind].
    2: { rewrite bool_decide_false by lia. done. }
    destruct (bool_decide_reflect (read_index b + off <= write_index b)) as [H2|H2];
      cbn [mbind result_bind].
    2: { rewrite bool_decide_false by (buf_unfold; lia). done. }
    replace (read_index b + off - read_index b) with off by lia.
    pose proof (Take_agrees b off Hb) as Ht. rewrite zlen_content in Ht by done.
    rewrite bool_decide_true in Ht by (buf_unfold; lia).
    rewrite bool_decide_true by (buf_unfold; lia). done.
  - split; [buf_unfold; lia|]. unfold content. buf_unfold. by rewrite ztake_neg by lia.
Qed.

(** Appending or reading past [INT_MAX] overflows, wherever the content lies. *)
Lemma MakeSpace_overflow b len :
  buf_wf b → INT_MAX - kCheapPrepend < readable_bytes b + len → MakeSpace b len = Fault SignedOverflow.
Proof.
  intros Hb Hbig. unfold MakeSpace. rewrite (int_val_ok (_ + prependable_bytes b)) by (buf_unfold; lia). cbn [mbind result_bind].
  unfold int_val. destruct (bool_decide_reflect (- 2 ^ 31 <= len + kCheapPrepend <= INT_MAX)); cbn [mbind result_bind]; [|done].
  rewrite bool_decide_true by (buf_unfold; lia). by rewrite bool_decide_false by (buf_unfold; lia).
Qed.
Lemma Append_overflow b data len :
  buf_wf b → 0 < len → INT_MAX - kCheapPrepend < zlen (content b) + len → Append b data len = Fault SignedOverflow.
Proof.
  intros Hb Hpos Hbig. rewrite zlen_content in Hbig by done. unfold Append, EnsureWritableBytes.
  rewrite (bool_decide_true (len > 0)) by lia. rewrite bool_decide_true by (buf_unfold; lia).
  by rewrite MakeSpace_overflow.
Qed.
Lemma ReadFd_overflow b bytes :
  buf_wf b → 0 < zlen bytes → INT_MAX - kCheapPrepend < zlen (content b) + zlen bytes →
  ReadFd b (IoOk bytes) = Fault SignedOverflow.
Proof.
  intros Hb Hpos Hbig. assert (Hw : writable_bytes b < zlen bytes) by (rewrite zlen_content in Hbig by done; buf_unfold; lia).
  unfold ReadFd. rewrite bool_decide_false by lia. assert (0 <= writable_bytes b) by (buf_unfold; lia).
  destruct (write_back b bytes (writable_bytes b)) as (-> & Hl & Hc); [done|lia|lia|].
  cbn [mbind result_bind]. set (v := _ ++ _ ++ _) in *.
  replace (writer_index_ b + writable_bytes b) with (zlen v) in Hc by (buf_unfold; lia).
  rewrite Append_overflow; [done|buf_unfold; lia|lia|]. rewrite Hc, zlen_app, zlen_ztake; lia.
Qed.

(** Every queue on the way has at most [max_content] bytes. *)
Fixpoint q_within (q : list Z) (ops : list buf_op) : Prop :=
  match ops with
  | [] => True
  | op :: ops => q_fits q op ∧ match q_step q op with Ret q' => q_within q' ops | _ => True end
  end.

(** C3: for every sequence of appends, reads and takes that keeps the content
    within 2^30 - 8 bytes, a well-formed buffer does what a plain byte queue
    does: the readable bytes are the queue, the invariant holds after each
    step, and the only failing steps are a take of more bytes than are
    readable and a take up to a position outside the readable bytes, which
    are failed assertions.  An append or a read that would make the content
    longer than INT_MAX - 8 bytes overflows the [int] index. *)
Theorem Buffer_refines_queue b ops :
  buf_wf b →
  (q_within (content b) ops → agrees (run buf_step b ops) (run q_step (content b) ops)) ∧
  (∀ data, data ≠ [] → INT_MAX - 8 < zlen (content b) + zlen data →
     buf_step b (OpAppend data) = Fault SignedOverflow ∧ buf_step b (OpRead (IoOk data)) = Fault SignedOverflow).
Proof.
  intros Hb0. split.
  - revert b Hb0. induction ops as [|op ops IH]; intros b Hb; cbn [run q_within]; [done|]. intros [Hfit Hrest].
    pose proof (step_agrees b op Hb Hfit) as Hs. unfold agrees in Hs.
    destruct (buf_step b op), (q_step (content b) op); try done.
    destruct Hs as [Hwf <-]. cbn [mbind result_bind]. by apply IH.
  - intros data Hne Hbig. assert (0 < zlen data) by (destruct data; [done|]; rewrite zlen_cons; pose proof (zlen_nonneg data); lia).
    cbn [buf_step]. by rewrite Append_overflow, ReadFd_overflow.
Qed.

Lemma Buffer_refines_queue_witness :
  agrees (run buf_step (mk_buffer (replicate 12 0) 8 8) [OpAppend [1;2;3;4;5;6]; OpTake 4; OpAppend [7]])
         (Ret [5;6;7]).
Proof.
  refine (proj1 (Buffer_refines_queue (mk_buffer (replicate 12 0) 8 8)
    [OpAppend [1;2;3;4;5;6]; OpTake 4; OpAppend [7]] _) _).
  - vm_compute. intuition discriminate.
  - vm_compute. intuition discriminate.
Defined.

(** After [AddReadableLength(len)] for [len] bytes that were stored behind
    the write position, the content is extended by exactly those bytes and at
    least 1024 bytes (for any buffer that is that large) can be stored next. *)
Lemma AddReadableLength_correct b len :
  buf_wf b → 0 < len <= writable_bytes b → 1024 <= zlen (buffer_ b) → zlen (content b) + len <= max_content →
  ∃ b', AddReadableLength b len = Ret b' ∧ buf_wf b' ∧ 1024 <= writable_bytes b' ∧
    content b' = content b ++ ztake len (zdrop (writer_index_ b) (buffer_ b)).
Proof.
  intros Hb Hlen Hsz Hfit. unfold AddReadableLength. rewrite bool_decide_false by lia.
  destruct (EnsureWritableBytes_ok b len) as (b1 & -> & _ & _ & _ & Heq); [done|lia|lia|].
  rewrite (Heq ltac:(lia)). clear b1 Heq. cbn [mbind result_bind].
  rewrite int_val_ok by (buf_unfold; lia). cbn [mbind result_bind]. set (b2 := mk_buffer _ _ _).
  assert (Hb2 : buf_wf b2) by (unfold b2; buf_unfold; lia).
  assert (Hc2 : content b2 = content b ++ ztake len (zdrop (writer_index_ b) (buffer_ b))).
  { unfold content, b2. buf_unfold.
    rewrite (ztake_split (writer_index_ b - reader_index_ b)) by lia. f_equal.
    rewrite zdrop_zdrop by lia. f_equal; [lia|]. f_equal. lia. }
  destruct (bool_decide_reflect (writable_bytes b2 < 1024)) as [Hsmall|].
  2: { exists b2. split_and!; [done..|lia|done]. }
  destruct (bool_decide_reflect (zlen (buffer_ b2) < 65536)).
  - destruct (EnsureWritableBytes_ok b2 (zlen (buffer_ b2))) as (b3 & -> & ? & ? & ? & _);
      [done|apply zlen_nonneg|right; rewrite <-zlen_content, Hc2, zlen_app, block_length by (done || (buf_unfold; lia)); buf_unfold; lia|].
    cbn in *. exists b3. split_and!; [done..|lia|congruence].
  - destruct (EnsureWritableBytes_ok b2 65536) as (b3 & -> & ? & ? & ? & _);
      [done|lia|right; rewrite <-zlen_content, Hc2, zlen_app, block_length by (done || (buf_unfold; lia)); buf_unfold; lia|].
    exists b3. split_and!; [done..|lia|congruence].
Qed.

(** What can be said of the memory behind a buffer from one call to the next:
    it holds bytes, does not shrink, and the content does not move back. *)
Definition grows (b b' : Buffer) : Prop :=
  (bytes_ok (buffer_ b) → bytes_ok (buffer_ b')) ∧ zlen (buffer_ b) <= zlen (buffer_ b') ∧
  reader_index_ b' <= reader_index_ b.

Lemma EnsureWritableBytes_grows b len b' : buf_wf b → EnsureWritableBytes b len = Ret b' → grows b b'.
Proof.
  intros Hb. unfold EnsureWritableBytes, MakeSpace, grows. intros E. inv_bind. subst a. clear Hrun0. revert Hrun.
  case_bool_decide; [|intros [= <-]; split; [done|lia]]. intros E. inv_bind. revert E.
  apply int_val_Ret in Hrun as [-> _], Hrun0 as [-> _].
  case_bool_decide; intros E; inv_bind; [apply int_val_Ret in Hrun as [-> _]; subst b'|rewrite <-E]; cbn [buffer_ reader_index_].
  - unfold vector_resize. split; [|rewrite zlen_app, zlen_replicate, zlen_ztake_min by (buf_unfold; lia); buf_unfold; lia].
    intros Hok. apply bytes_ok_app. split; [auto with baize|]. apply Forall_replicate. unfold_u. lia.
  - unfold copy_down. split; [intros; rewrite !bytes_ok_app; auto with baize|].
    rewrite !zlen_app, block_length, zlen_ztake, zlen_zdrop by (buf_unfold; lia). buf_unfold. lia.
Qed.
Lemma EnsureWritableBytes_bytes b len b' :
  buf_wf b → EnsureWritableBytes b len = Ret b' → bytes_ok (buffer_ b) →
  bytes_ok (buffer_ b') ∧ zlen (buffer_ b) <= zlen (buffer_ b').
Proof. intros Hb E Hok. destruct (EnsureWritableBytes_grows b len b' Hb E) as (? & ? & _). auto. Qed.
Lemma AddReadableLength_bytes b len b' :
  buf_wf b → 0 < len <= writable_bytes b → AddReadableLength b len = Ret b' → bytes_ok (buffer_ b) →
  bytes_ok (buffer_ b') ∧ zlen (buffer_ b) <= zlen (buffer_ b').
Proof.
  intros Hb Hlen. unfold AddReadableLength. rewrite bool_decide_false by lia.
  destruct (EnsureWritableBytes_ok b len) as (b1 & -> & _ & _ & _ & Heq); [done|lia|lia|].
  rewrite (Heq ltac:(lia)). cbn [mbind result_bind]. rewrite int_val_ok by (buf_unfold; lia). cbn [mbind result_bind]. set (b2 := mk_buffer _ _ _).
  assert (Hb2 : buf_wf b2) by (unfold b2; buf_unfold; lia). intros E Hok. revert E.
  case_bool_decide; [case_bool_decide; intros E; exact (EnsureWritableBytes_bytes b2 _ _ Hb2 E Hok)|].
  intros [= <-]. split; [done|cbn; lia].
Qed.

Lemma Buffer_new_memory n b :
  0 <= n → Buffer_new n = Ret b → bytes_ok (buffer_ b) ∧ zlen (buffer_ b) = 8 + n ∧ reader_index_ b = 8.
Proof.
  intros Hn. unfold Buffer_new. intros E. inv_bind. apply int_val_Ret in Hrun as [-> _]. revert E.
  rewrite bool_decide_false by (unfold kCheapPrepend; lia). intros E. inv_bind. subst b.
  cbn [buffer_ reader_index_]. rewrite zlen_replicate. unfold kCheapPrepend. split; [|lia].
  apply Forall_replicate. unfold_u. lia.
Qed.
Lemma memcpy_ok dst i src len v :
  memcpy dst i src len = Ret v → zlen v = zlen dst ∧ (bytes_ok dst → bytes_ok src → bytes_ok v).
Proof.
  unfold memcpy. case_bool_decide as H; [|done]. intros [= <-]. split.
  - rewrite !zlen_app, !zlen_ztake, zlen_zdrop by lia. lia.
  - intros. rewrite !bytes_ok_app. auto with baize.
Qed.
Lemma Append_grows b data len b' : buf_wf b → bytes_ok data → Append b data len = Ret b' → grows b b'.
Proof.
  intros Hb Hd. unfold Append. case_bool_decide; [|intros [= <-]; split; [done|lia]].
  intros E. inv_bind. subst b'. apply int_val_Ret in Hrun1 as [-> _].
  destruct (EnsureWritableBytes_grows _ _ _ Hb Hrun) as (H1 & H2 & H3).
  destruct (memcpy_ok _ _ _ _ _ Hrun0) as [H4 H5]. split; cbn; [auto|lia].
Qed.
Lemma ReadFd_grows b bytes b' rn : buf_wf b → bytes_ok bytes → ReadFd b (IoOk bytes) = Ret (b', rn) → grows b b'.
Proof.
  intros Hb Hd. unfold ReadFd. case_bool_decide; intros E; inv_bind.
  - subst b'. destruct (memcpy_ok _ _ _ _ _ Hrun) as [H4 H5]. split; cbn; [auto|lia].
  - subst a0. destruct (memcpy_ok _ _ _ _ _ Hrun) as [H4 H5].
    assert (Ha : buf_wf (mk_buffer a (reader_index_ b) (zlen a))) by (buf_unfold; lia).
    destruct (Append_grows _ _ _ _ Ha (bytes_ok_zdrop _ _ Hd) Hrun0) as (H1 & H2 & H3). cbn in *.
    split; cbn; [auto|lia].
Qed.

(** Every operation that succeeds keeps the invariant, whatever the sizes. *)
Lemma Take_wf b len b' : buf_wf b → Take b len = Ret b' → buf_wf b'.
Proof.
  intros Hb E. pose proof (Take_agrees b len Hb) as H. rewrite E in H. unfold agrees in H.
  destruct (bool_decide _); [apply H|done].
Qed.
Lemma buf_step_wf b op b' : buf_wf b → buf_step b op = Ret b' → buf_wf b'.
Proof.
  intros Hb. destruct op as [data|[e|bytes]|len|off|]; cbn [buf_step].
  - destruct (Append_cases b data (zlen data) Hb) as [[-> _]|(b2 & -> & ? & _)]; [pose proof (zlen_nonneg data); lia|done|].
    by intros [= <-].
  - by intros [= <-].
  - destruct (ReadFd_cases b bytes Hb) as [[-> _]|(b2 & -> & ? & _)]; [done|]. by intros [= <-].
  - by apply Take_wf.
  - unfold TakeUntil. intros E. inv_bind. by eapply Take_wf.
  - intros [= <-]. buf_unfold. lia.
Qed.

(** ** BufferPool *)
Definition kBufferNum : Z := 1000.

Definition default_buffer : Buffer :=
  mk_buffer (replicate (Z.to_nat (kCheapPrepend + kInitialSize)) 0) kCheapPrepend kCheapPrepend.

(** What a [unique_ptr<Buffer>] holds: the address, which is the identity of
    the buffer, and what is there. *)
Record BufferPtr : Type := mk_bptr {
  bp_addr : nat;
  bp_buf : Buffer;
}.

(** The buffers the pool holds, last one next to be handed out. *)
Definition BufferPool_new (size : Z) : list BufferPtr :=
  (λ a, mk_bptr a default_buffer) <$> seq 0 (Z.to_nat size).

(** [None] is the null [BufferUptr] of an exhausted pool. *)
Definition AllocBuffer (buffers : list BufferPtr) : list BufferPtr * option BufferPtr :=
  match last buffers with
  | Some ptr => (take (length buffers - 1) buffers, Some (mk_bptr (bp_addr ptr) (TakeAll (bp_buf ptr))))
  | None => (buffers, None)
  end.

Definition BufferDelete (buffers : list BufferPtr) (buffer : BufferPtr) : list BufferPtr :=
  buffers ++ [mk_bptr (bp_addr buffer) (TakeAll (bp_buf buffer))].

(** The pool together with the buffers that are handed out: an owner may do
    anything a [Buffer] allows with its buffer before it gives it back. *)
Inductive pool_step : list BufferPtr * list BufferPtr → list BufferPtr * list BufferPtr → Prop :=
  | pool_alloc pool out pool' b :
      AllocBuffer pool = (pool', Some b) → pool_step (pool, out) (pool', b :: out)
  | pool_alloc_null pool out pool' :
      AllocBuffer pool = (pool', None) → pool_step (pool, out) (pool', out)
  | pool_use pool o1 b o2 op b' :
      buf_step (bp_buf b) op = Ret b' → pool_step (pool, o1 ++ b :: o2) (pool, o1 ++ mk_bptr (bp_addr b) b' :: o2)
  | pool_delete pool o1 b o2 :
      pool_step (pool, o1 ++ b :: o2) (BufferDelete pool b, o1 ++ o2).

(** The addresses in the pool and handed out are those the pool was made
    with, each exactly once. *)
Definition pool_inv (n : nat) (s : list BufferPtr * list BufferPtr) : Prop :=
  bp_addr <$> (s.1 ++ s.2) ≡ₚ seq 0 n ∧ Forall (λ b, buf_wf (bp_buf b)) s.2 ∧
  Forall (λ b, buf_wf (bp_buf b) ∧ content (bp_buf b) = []) s.1.

Lemma TakeAll_ok b : buf_wf b → buf_wf (TakeAll b) ∧ content (TakeAll b) = [].
Proof. intros Hb. refine (step_agrees b OpTakeAll Hb _). unfold q_fits. cbn. by vm_compute. Qed.

Lemma AllocBuffer_ok pool pool' r :
  AllocBuffer pool = (pool', r) →
  match r with
  | Some b => ∃ p, pool = pool' ++ [p] ∧ b = mk_bptr (bp_addr p) (TakeAll (bp_buf p))
  | None => pool = [] ∧ pool' = []
  end.
Proof.
  unfold AllocBuffer. destruct pool as [|p pool _] using rev_ind; cbn.
  { by intros [= <- <-]. }
  rewrite last_snoc, length_app, Nat.add_sub, take_app_length. intros [= <- <-]. eauto.
Qed.

Lemma pool_step_inv n s s' : pool_inv n s → pool_step s s' → pool_inv n s'.
Proof.
  intros (Hn & Hout & Hpool) Hstep. unfold pool_inv.
  destruct Hstep as [pool out pool' b Ha|pool out pool' Ha|pool o1 b o2 op b' Hop|pool o1 b o2]; cbn [fst snd] in *.
  - apply AllocBuffer_ok in Ha as (p & -> & ->).
    apply Forall_app in Hpool as [Hp Hl]. apply Forall_singleton in Hl as [Hw _].
    split_and!; [|constructor; [by apply TakeAll_ok|done]|done].
    rewrite <-Hn, <-app_assoc. by rewrite !fmap_app.
  - apply AllocBuffer_ok in Ha as [-> ->]. done.
  - split_and!; [|apply Forall_app in Hout as [H1 H2]; apply Forall_cons_iff in H2 as [Hb H2]|done].
    + rewrite <-Hn. by rewrite !fmap_app.
    + apply Forall_app. split; [done|]. constructor; [|done]. by eapply buf_step_wf.
  - apply Forall_app in Hout as [H1 H2]. apply Forall_cons_iff in H2 as [Hb H2].
    split_and!; [|by apply Forall_app|apply Forall_app; split; [done|]; apply Forall_singleton; by apply TakeAll_ok].
    rewrite <-Hn. unfold BufferDelete. rewrite !fmap_app, !fmap_cons, <-!app_assoc. cbn [fmap list_fmap bp_addr app].
    apply Permutation_app_head, Permutation_middle.
Qed.

Lemma Take_room b n b' : buf_wf b → Take b n = Ret b' → writable_bytes b <= writable_bytes b'.
Proof.
  intros Hb. unfold Take, TakeAll. repeat case_bool_decide; intros [= <-]; buf_unfold; cbn [buffer_ writer_index_]; lia.
Qed.
Lemma default_buffer_wf : buf_wf default_buffer.
Proof.
  unfold buf_wf, default_buffer. cbn [buffer_ reader_index_ writer_index_].
  rewrite zlen_replicate. unfold kCheapPrepend, kInitialSize, INT_MAX. lia.
Qed.
Lemma default_buffer_content : content default_buffer = [].
Proof. done. Qed.

Lemma pool_inv_init n : pool_inv (Z.to_nat n) (BufferPool_new n, []).
Proof.
  unfold pool_inv, BufferPool_new. cbn [fst snd]. rewrite app_nil_r, <-list_fmap_compose. split_and!; [|done|].
  - by rewrite list_fmap_id.
  - apply Forall_fmap, Forall_true. intros. split; [exact default_buffer_wf|done].
Qed.

(** C32: whatever the sequence of allocations, uses and releases, each of the
    [n] buffers a pool was made with, told apart by their addresses, is
    exactly once in the pool or handed out: none is lost, duplicated or
    replaced.  Every buffer in the pool is empty and well formed, and so is
    every buffer it hands out, which is then no longer in the pool; it returns
    a null buffer only when all [n] are handed out. *)
Theorem BufferPool_conserved n s :
  rtc pool_step (BufferPool_new n, []) s →
  pool_inv (Z.to_nat n) s ∧
  (∀ pool' b, AllocBuffer s.1 = (pool', Some b) →
     buf_wf (bp_buf b) ∧ content (bp_buf b) = [] ∧ bp_addr b ∉ bp_addr <$> (pool' ++ s.2)) ∧
  (∀ pool', AllocBuffer s.1 = (pool', None) → length s.2 = Z.to_nat n).
Proof.
  intros Hrun.
  assert (Hinv : pool_inv (Z.to_nat n) s).
  { remember (BufferPool_new n, @nil BufferPtr) as s0 eqn:E.
    assert (H0 : pool_inv (Z.to_nat n) s0) by (subst; apply pool_inv_init). clear E.
    induction Hrun; eauto using pool_step_inv. }
  pose proof Hinv as (Hn & _ & Hp). split_and!; [done| |].
  - intros pool' b (p & E & ->)%AllocBuffer_ok. rewrite E in Hp, Hn.
    apply Forall_app in Hp as [_ Hp]. apply Forall_singleton in Hp as [Hw _].
    destruct (TakeAll_ok _ Hw). split_and!; [done..|].
    pose proof (NoDup_seq 0 (Z.to_nat n)) as Hd. rewrite <-Hn, <-app_assoc, !fmap_app in Hd. cbn in Hd.
    rewrite <-Permutation_middle in Hd. apply NoDup_cons in Hd as [Hd _]. by rewrite fmap_app.
  - intros pool' [E _]%AllocBuffer_ok. rewrite E in Hn. apply Permutation_length in Hn.
    by rewrite length_fmap, length_seq in Hn.
Qed.

Lemma BufferPool_conserved_witness : pool_inv 1 ([], [mk_bptr 0 (TakeAll default_buffer)]).
Proof.
  refine (proj1 (BufferPool_conserved 1 ([], [mk_bptr 0 (TakeAll default_buffer)]) _)).
  apply rtc_once. apply (pool_alloc [mk_bptr 0 default_buffer] [] [] (mk_bptr 0 (TakeAll default_buffer))). reflexivity.
Defined.
