(* ===== verification/FileReader.v ===== *)
(** * Reading a whole file: http/file_reader.{h,cc}

    What [open] and each [read] answer are arguments.  The theorem: the slice
    returned is what was read until the end of the file or the first failure,
    over any way the file comes in pieces; a later call returns the same bytes
    without reading, after a failure, too. *)

From Stdlib Require Import ZArith Lia Bool.
From stdpp Require Import base numbers list.
From S2P Require Import Prelude Types StringPiece Buffer.

Record FileReader : Type := mk_reader { fd_ : Z; buf_ : Buffer }.

Definition FileReader_new (open : Z) : FileReader := mk_reader open default_buffer.

(** [while (1)] over [buf_.ReadFd(fd_)]: the answers of [read] still to come. *)
Fixpoint ReadAll_loop (reads : list io_result) (buf : Buffer) : result (Buffer * list io_result) :=
  match reads with
  | [] => OutOfFuel
  | r :: reads =>
      '(buf, rn) ← ReadFd buf r;
      if bool_decide (rn = 0) then Ret (buf, reads)
      else if bool_decide (rn < 0) then Ret (buf, reads)
      else ReadAll_loop reads buf
  end.

Definition ReadAll (reads : list io_result) (f : FileReader) : result (StringPiece * FileReader * list io_result) :=
  if bool_decide (fd_ f < 0) then Ret (StringPiece_null, f, reads)
  else if negb (sp_empty (slice (buf_ f))) then Ret (slice (buf_ f), f, reads)
  else
    '(buf, reads) ← ReadAll_loop reads (buf_ f);
    Ret (slice buf, mk_reader (fd_ f) buf, reads).

(** ** Reading to the end, or to a failure *)
Definition reader_wf (f : FileReader) : Prop := 0 <= fd_ f ∧ buf_wf (buf_ f).
(** An answer that ends the loop. *)
Definition read_ends (r : io_result) : Prop := match r with IoOk bytes => bytes = [] | IoErr _ => True end.

Lemma ReadAll_loop_ok cs r rest buf :
  Forall (λ c, 0 < zlen c) cs → read_ends r → buf_wf buf →
  zlen (content buf) + zlen (concat cs) <= max_content →
  ∃ buf', ReadAll_loop ((IoOk <$> cs) ++ r :: rest) buf = Ret (buf', rest) ∧
    buf_wf buf' ∧ content buf' = content buf ++ concat cs.
Proof.
  intros Hcs Hr. revert buf. induction Hcs as [|c cs Hc _ IH]; intros buf Hb Hfit; cbn [fmap list_fmap app ReadAll_loop concat] in *.
  - destruct r as [e|bytes]; cbn [read_ends] in Hr.
    + exists buf. cbn [ReadFd mbind result_bind concat]. by rewrite app_nil_r.
    + subst bytes. destruct (ReadFd_ok buf [] Hb Hfit) as (b' & E & Hb' & Hc'). exists b'.
      rewrite (bind_Ret_step _ _ _ E). by split_and!.
  - rewrite zlen_app in Hfit. pose proof (zlen_nonneg (concat cs)).
    destruct (ReadFd_ok buf c Hb) as (b1 & E & Hb1 & Hc1); [lia|].
    rewrite (bind_Ret_step _ _ _ E). cbv beta iota. rewrite !bool_decide_false by lia.
    destruct (IH b1 Hb1) as (b' & E' & Hb' & Hc'); [rewrite Hc1, zlen_app; lia|]. exists b'. split_and!; [done..|].
    by rewrite Hc', Hc1, <-app_assoc.
Qed.

Lemma slice_empty buf : buf_wf buf → sp_empty (slice buf) = bool_decide (content buf = []).
Proof.
  intros Hb. pose proof (zlen_content buf Hb) as E. unfold sp_empty, slice, StringPiece_len. cbn [length_].
  rewrite <-E. apply bool_decide_ext. split; [|by intros ->]. destruct (content buf); [done|].
  rewrite zlen_cons. pose proof (zlen_nonneg l). lia.
Qed.

(** Reading a file of at most 2^30 - 8 bytes that comes in any pieces, on a reader that has read
    nothing yet, returns a slice of exactly these bytes in order, whether the
    reading ended at the end of the file or at a failure; a later call on a
    reader that has got something returns the same bytes without another
    read. *)
Theorem ReadAll_correct f cs r rest :
  reader_wf f → content (buf_ f) = [] → Forall (λ c, 0 < zlen c) cs → read_ends r →
  zlen (concat cs) <= max_content →
  ∃ s f', ReadAll ((IoOk <$> cs) ++ r :: rest) f = Ret (s, f', rest) ∧
    AsString s = concat cs ∧ reader_wf f' ∧
    (concat cs ≠ [] → ∀ reads, ReadAll reads f' = Ret (s, f', reads)).
Proof.
  intros [Hfd Hb] H0 Hcs Hr Hfit. destruct (ReadAll_loop_ok cs r rest _ Hcs Hr Hb) as (b' & E & Hb' & Hc');
    [by rewrite H0|].
  rewrite H0 in Hc'. cbn [app] in Hc'. exists (slice b'), (mk_reader (fd_ f) b').
  unfold ReadAll. cbn [fd_ buf_]. rewrite bool_decide_false by lia. rewrite slice_empty, bool_decide_true by done.
  cbn [negb]. rewrite (bind_Ret_step _ _ _ E). rewrite AsString_slice. split_and!; [done..|].
  intros Hne reads. rewrite slice_empty, bool_decide_false by (done || by rewrite Hc'). done.
Qed.

Lemma ReadAll_correct_witness :
  ∃ s f', ReadAll [IoOk [104; 105]; IoOk [33]; IoErr 5; IoOk [9]] (FileReader_new 3) = Ret (s, f', [IoOk [9]]) ∧
    AsString s = [104; 105; 33] ∧ ReadAll [] f' = Ret (s, f', []).
Proof.
  destruct (ReadAll_correct (FileReader_new 3) [[104; 105]; [33]] (IoErr 5) [IoOk [9]]) as (s & f' & E & Hs & _ & H).
  - split; [cbn; lia|exact default_buffer_wf].
  - exact default_buffer_content.
  - repeat constructor.
  - exact I.
  - vm_compute. discriminate.
  - exists s, f'. split; [exact E|]. split; [exact Hs|]. by apply H.
Defined.
