(* ===== verification/Timestamp.v ===== *)
(** * Timestamps and their texts: kernel/time/time_stamp.{h,cc}

    Microseconds since 1970, [gmtime_r] and [snprintf] of the C library as the
    code uses them, and [date].  The theorems: the broken-down time is a date
    of the Gregorian calendar and determines the second it came from; the text
    of a timestamp has 24 characters up to the year 9999, and the timestamp can
    be read back from it. *)

From Stdlib Require Import ZArith Lia Bool.
From stdpp Require Import base numbers list strings.
From S2P Require Import Prelude Types StringPiece Format.

(** ** The C library *)
Record tm : Type := mk_tm {
  tm_year : Z;
  tm_mon : Z;
  tm_mday : Z;
  tm_hour : Z;
  tm_min : Z;
  tm_sec : Z;
}.

(** The lengths of the months of a year that starts in March; the last one is
    as long as it can be. *)
Definition march_lengths : list Z := [31; 30; 31; 30; 31; 31; 30; 31; 30; 31; 31; 29].

(** Months are taken off while they fit. *)
Fixpoint month_loop (lengths : list Z) (months days : Z) : Z * Z :=
  match lengths with
  | n :: lengths => if bool_decide (n <= days) then month_loop lengths (months + 1) (days - n) else (months, days)
  | [] => (months, days)
  end.

(** [gmtime_r]: the days since 2000-03-01 in cycles of 400, 100, 4 and 1 years,
    the last of each kind being longer by a day. *)
Definition gmtime (t : Z) : tm :=
  let days := t / 86400 - 11017 in
  let rem := t mod 86400 in
  let qc := days / 146097 in
  let d := days mod 146097 in
  let c := Z.min (d / 36524) 3 in
  let d := d - c * 36524 in
  let q := Z.min (d / 1461) 24 in
  let d := d - q * 1461 in
  let y := Z.min (d / 365) 3 in
  let d := d - y * 365 in
  let years := y + 4 * q + 100 * c + 400 * qc in
  let '(months, d) := month_loop march_lengths 0 d in
  let '(years, months) := if bool_decide (10 <= months) then (years + 1, months - 12) else (years, months) in
  mk_tm (years + 100) (months + 2) (d + 1) (rem / 3600) (rem / 60 mod 60) (rem mod 60).

(** "%0<w>d" and "%<w>d". *)
Definition fmt_zero (w v : Z) : list Z :=
  let sign := if bool_decide (v < 0) then [45] else [] in
  let digits := decimal (Z.abs v) in
  sign ++ replicate (Z.to_nat (w - zlen sign - zlen digits)) 48 ++ digits.
Definition fmt_space (w v : Z) : list Z :=
  let text := signed_decimal v in replicate (Z.to_nat (w - zlen text)) 32 ++ text.

(** ** Timestamp *)
Record Timestamp : Type := mk_timestamp { us_ : Z }.
Definition kUsPerSec : Z := 1000000.

Definition Timestamp_new : Timestamp := mk_timestamp 0.
Definition Timestamp_tv (tv_sec tv_usec : Z) : Timestamp := mk_timestamp (tv_sec * kUsPerSec + tv_usec).
(** [Now]: what [gettimeofday] delivers. *)
Definition Now (tv_sec tv_usec : Z) : Timestamp := mk_timestamp (tv_sec * kUsPerSec + tv_usec).
(** They change the timestamp and return a copy. *)
Definition AddUs (us : Z) (t : Timestamp) : Timestamp * Timestamp :=
  let t := mk_timestamp (us_ t + us) in (t, t).
Definition AddMs (ms : Z) (t : Timestamp) : Timestamp * Timestamp :=
  let t := mk_timestamp (us_ t + 1000 * ms) in (t, t).
Definition us (t : Timestamp) : Z := us_ t.
Definition ms (t : Timestamp) : Z := Z.quot (us_ t) 1000.
Definition valid (t : Timestamp) : bool := bool_decide (us_ t > 0).
Definition ts_lt (lhs rhs : Timestamp) : bool := bool_decide (us lhs < us rhs).
Definition ts_eq (lhs rhs : Timestamp) : bool := bool_decide (us lhs = us rhs).

(** "%4d%02d%02d %02d:%02d:%02d" *)
Definition second_text (t : tm) : list Z :=
  fmt_space 4 (tm_year t + 1900) ++ fmt_zero 2 (tm_mon t + 1) ++ fmt_zero 2 (tm_mday t) ++ [32] ++
  fmt_zero 2 (tm_hour t) ++ [58] ++ fmt_zero 2 (tm_min t) ++ [58] ++ fmt_zero 2 (tm_sec t).

(** [date]: 63 characters fit the array. *)
Definition date (t : Timestamp) : list Z :=
  let seconds := Z.quot (us_ t) kUsPerSec in
  let us := Z.rem (us_ t) kUsPerSec in
  ztake 63 (second_text (gmtime seconds) ++ [46] ++ fmt_zero 6 us).

(** ** The calendar *)
Definition leap (y : Z) : bool :=
  bool_decide (y mod 4 = 0) && negb (bool_decide (y mod 100 = 0)) || bool_decide (y mod 400 = 0).
Definition month_length (y m : Z) : Z :=
  if bool_decide (m = 2) then (if leap y then 29 else 28)
  else if bool_decide (m = 4 ∨ m = 6 ∨ m = 9 ∨ m = 11) then 30 else 31.

(** Days since 1970-01-01: whole years with their leap days, whole months, and
    the day of the month. *)
Definition days_before_year (y : Z) : Z :=
  365 * (y - 1970) + ((y - 1) / 4 - (y - 1) / 100 + (y - 1) / 400 - 477).
Fixpoint months_before (y : Z) (n : nat) : Z :=
  match n with O => 0 | S n => months_before y n + month_length y (Z.of_nat n + 1) end.
Definition days_of (y m d : Z) : Z := days_before_year y + months_before y (Z.to_nat (m - 1)) + (d - 1).

(** The second a broken-down time stands for. *)
Definition timegm (t : tm) : Z :=
  86400 * days_of (tm_year t + 1900) (tm_mon t + 1) (tm_mday t) + 3600 * tm_hour t + 60 * tm_min t + tm_sec t.

Record tm_wf (t : tm) : Prop := {
  tw_mon : 0 <= tm_mon t <= 11;
  tw_mday : 1 <= tm_mday t <= month_length (tm_year t + 1900) (tm_mon t + 1);
  tw_hour : 0 <= tm_hour t <= 23;
  tw_min : 0 <= tm_min t <= 59;
  tw_sec : 0 <= tm_sec t <= 59;
}.

(** A year is 365 days and its leap day. *)
Lemma div_step y n : 0 < n → y / n - (y - 1) / n = if bool_decide (y mod n = 0) then 1 else 0.
Proof.
  intros Hn. pose proof (Z.div_mod y n ltac:(lia)) as E. pose proof (Z.mod_pos_bound y n Hn).
  case_bool_decide as Hz.
  - rewrite <-(Z.div_unique_pos (y - 1) n (y / n - 1) (n - 1)); [lia|lia|rewrite Z.mul_sub_distr_l; lia].
  - rewrite <-(Z.div_unique_pos (y - 1) n (y / n) (y mod n - 1)); lia.
Qed.
Definition leap_day (y : Z) : Z := if leap y then 1 else 0.
Lemma leap_count y : y / 4 - y / 100 + y / 400 = (y - 1) / 4 - (y - 1) / 100 + (y - 1) / 400 + leap_day y.
Proof.
  pose proof (div_step y 4 eq_refl) as H4. pose proof (div_step y 100 eq_refl) as H100.
  pose proof (div_step y 400 eq_refl) as H400. unfold leap_day, leap.
  assert (y mod 400 = 0 → y mod 100 = 0) by (intros; Z.to_euclidean_division_equations; lia).
  assert (y mod 100 = 0 → y mod 4 = 0) by (intros; Z.to_euclidean_division_equations; lia).
  do 3 case_bool_decide; cbn; try tauto; lia.
Qed.
Lemma next_year y : days_before_year (y + 1) = days_before_year y + 365 + leap_day y.
Proof. unfold days_before_year. rewrite Z.add_simpl_r. pose proof (leap_count y). lia. Qed.
Lemma march_first y :
  days_before_year y + 59 + leap_day y = 365 * (y - 2000) + ((y / 4 - 500) - (y / 100 - 20) + (y / 400 - 5)) + 11017.
Proof. unfold days_before_year. pose proof (leap_count y). lia. Qed.

(** The month of a day of the year that starts in March. *)
Lemma month_loop_split ls k d :
  Forall (λ n, 0 < n) ls → 0 <= d < foldr Z.add 0 ls →
  ∃ i n, ls !! i = Some n ∧ month_loop ls k d = (k + Z.of_nat i, d - foldr Z.add 0 (take i ls)) ∧
    0 <= d - foldr Z.add 0 (take i ls) < n.
Proof.
  intros Hl. revert k d. induction Hl as [|n ls Hn Hl IH]; intros k d Hd; cbn [foldr] in Hd; [lia|]. cbn [month_loop].
  case_bool_decide as Hfit.
  - destruct (IH (k + 1) (d - n)) as (i & m & E & -> & Hr); [lia|]. exists (S i), m. cbn [lookup list_lookup take foldr].
    split; [done|]. split; [f_equal; lia|lia].
  - exists 0%nat, n. cbn [take foldr]. split; [done|]. split; [f_equal; lia|lia].
Qed.

Lemma month_lengths y :
  month_length y 1 = 31 ∧ month_length y 2 = 28 + leap_day y ∧ month_length y 3 = 31 ∧ month_length y 4 = 30 ∧
  month_length y 5 = 31 ∧ month_length y 6 = 30 ∧ month_length y 7 = 31 ∧ month_length y 8 = 31 ∧
  month_length y 9 = 30 ∧ month_length y 10 = 31 ∧ month_length y 11 = 30 ∧ month_length y 12 = 31.
Proof. unfold leap_day, month_length. cbn. by destruct (leap y). Qed.
Lemma month_offsets y :
  months_before y 0 = 0 ∧ months_before y 1 = 31 ∧ months_before y 2 = 59 + leap_day y ∧ months_before y 3 = 90 + leap_day y ∧
  months_before y 4 = 120 + leap_day y ∧ months_before y 5 = 151 + leap_day y ∧ months_before y 6 = 181 + leap_day y ∧ months_before y 7 = 212 + leap_day y ∧
  months_before y 8 = 243 + leap_day y ∧ months_before y 9 = 273 + leap_day y ∧ months_before y 10 = 304 + leap_day y ∧ months_before y 11 = 334 + leap_day y.
Proof.
  destruct (month_lengths y) as (M1 & M2 & M3 & M4 & M5 & M6 & M7 & M8 & M9 & M10 & M11 & M12).
  cbn [months_before].
  repeat match goal with |- context [Z.of_nat ?k + 1] =>
    let m := eval vm_compute in (Z.of_nat k + 1) in change (Z.of_nat k + 1) with m end.
  lia.
Qed.

(** One month: everything but the year and the day is a number. *)
Ltac march_case y E :=
  injection E as <-;
  match goal with |- context [0 + Z.of_nat ?k] => let m := eval vm_compute in (0 + Z.of_nat k) in change (0 + Z.of_nat k) with m end;
  match goal with |- context [bool_decide (10 <= ?m)] =>
    let b := eval vm_compute in (bool_decide (10 <= m)) in change (bool_decide (10 <= m)) with b end;
  cbv beta iota;
  match goal with |- context [month_length ?y' ?m] =>
    let m' := eval vm_compute in m in change m with m';
    pose proof (month_lengths y') as (? & ? & ? & ? & ? & ? & ? & ? & ? & ? & ? & ?);
    pose proof (month_offsets y') as (? & ? & ? & ? & ? & ? & ? & ? & ? & ? & ? & ?) end;
  match goal with |- context [Z.to_nat ?m] =>
    let k := eval vm_compute in (Z.to_nat m) in change (Z.to_nat m) with k end;
  cbn [take foldr march_lengths] in *; lia.

Lemma march_day y d :
  0 <= d <= 365 → (d = 365 → leap (y + 1) = true) →
  let '(months, r) := month_loop march_lengths 0 d in
  let '(y', months) := if bool_decide (10 <= months) then (y + 1, months - 12) else (y, months) in
  0 <= months + 2 <= 11 ∧ 1 <= r + 1 <= month_length y' (months + 2 + 1) ∧
  days_of y' (months + 2 + 1) (r + 1) = days_before_year y + 59 + leap_day y + d.
Proof.
  intros Hd Hlast. destruct (month_loop_split march_lengths 0 d) as (i & n & E & -> & Hr);
    [repeat constructor|cbn; lia|].
  assert (Hfeb : d = 365 → leap_day (y + 1) = 1) by (unfold leap_day; intros H; by rewrite Hlast).
  assert (0 <= leap_day (y + 1) <= 1) by (unfold leap_day; destruct (leap (y + 1)); lia).
  pose proof (next_year y) as Hy. pose proof (lookup_lt_Some _ _ _ E) as Hi. change (length march_lengths) with 12%nat in Hi.
  unfold days_of.
  do 12 (destruct i as [|i]; [march_case y E|]). lia.
Qed.

(** The cycles of years, and that the long day at the end is a leap day. *)
Lemma cycles D :
  let qc := D / 146097 in let d0 := D mod 146097 in
  let c := Z.min (d0 / 36524) 3 in let d1 := d0 - c * 36524 in
  let q := Z.min (d1 / 1461) 24 in let d2 := d1 - q * 1461 in
  let y := Z.min (d2 / 365) 3 in let d3 := d2 - y * 365 in
  D = 146097 * qc + 36524 * c + 1461 * q + 365 * y + d3 ∧ 0 <= c <= 3 ∧ 0 <= q <= 24 ∧ 0 <= y <= 3 ∧
  0 <= d3 <= 365 ∧ (d3 = 365 → y = 3 ∧ (q = 24 → c = 3)).
Proof.
  cbv zeta. set (qc := D / 146097). set (d0 := D mod 146097).
  assert (E0 : D = 146097 * qc + d0 ∧ 0 <= d0 < 146097) by (unfold qc, d0; Z.to_euclidean_division_equations; lia).
  clearbody qc d0. set (c := Z.min (d0 / 36524) 3). set (d1 := d0 - c * 36524).
  assert (E1 : 0 <= c <= 3 ∧ 0 <= d1 <= 36524 ∧ (d1 = 36524 → c = 3))
    by (unfold d1, c; Z.to_euclidean_division_equations; lia).
  assert (F1 : d0 = c * 36524 + d1) by (unfold d1; lia). clearbody c d1.
  set (q := Z.min (d1 / 1461) 24). set (d2 := d1 - q * 1461).
  assert (E2 : 0 <= q <= 24 ∧ 0 <= d2 <= 1460 ∧ (d2 = 1460 → q = 24 → d1 = 36524))
    by (unfold d2, q; Z.to_euclidean_division_equations; lia).
  assert (F2 : d1 = q * 1461 + d2) by (unfold d2; lia). clearbody q d2.
  set (y := Z.min (d2 / 365) 3). set (d3 := d2 - y * 365).
  assert (E3 : 0 <= y <= 3 ∧ 0 <= d3 <= 365 ∧ (d3 = 365 → d2 = 1460 ∧ y = 3))
    by (unfold d3, y; Z.to_euclidean_division_equations; lia).
  unfold d3 in *. lia.
Qed.

Section year.
Context (qc c q y : Z) (Hc : 0 <= c <= 3) (Hq : 0 <= q <= 24) (Hy : 0 <= y <= 3).
Let years := y + 4 * q + 100 * c + 400 * qc.

Lemma year_cycles :
  (2000 + years) / 4 = 500 + q + 25 * c + 100 * qc ∧ (2000 + years) / 100 = 20 + c + 4 * qc ∧ (2000 + years) / 400 = 5 + qc.
Proof using Hc Hq Hy. unfold years. Z.to_euclidean_division_equations. lia. Qed.
Lemma leap_cycle : y = 3 → (q = 24 → c = 3) → leap (2000 + years + 1) = true.
Proof using Hc Hq Hy.
  intros -> Hl. unfold leap, years. destruct (decide (q = 24)) as [->|Hne].
  - rewrite (Hl eq_refl). rewrite (bool_decide_true (_ mod 400 = 0)) by (Z.to_euclidean_division_equations; lia).
    apply orb_true_r.
  - set (n := 2000 + _ + 1). assert (Hn : n = 4 * (q + 1) + 100 * (20 + c + 4 * qc)) by (unfold n; lia). clearbody n.
    rewrite (bool_decide_true (n mod 4 = 0)) by (Z.to_euclidean_division_equations; lia).
    rewrite (bool_decide_false (n mod 100 = 0)); [done|].
    rewrite <-(Z.mod_unique n 100 (20 + c + 4 * qc) (4 * (q + 1))); lia.
Qed.
End year.

Lemma gmtime_ok t : tm_wf (gmtime t) ∧ timegm (gmtime t) = t.
Proof.
  unfold gmtime. cbv zeta. set (D := t / 86400 - 11017). set (rem := t mod 86400).
  assert (Et : t = 86400 * (D + 11017) + rem ∧ 0 <= rem < 86400) by (unfold D, rem; Z.to_euclidean_division_equations; lia).
  destruct (cycles D) as (ED & Hc & Hq & Hy & Hd & Hlast). clearbody D rem.
  set (qc := D / 146097) in *. set (c := Z.min _ 3) in *. set (q := Z.min _ 24) in *.
  set (y := Z.min (_ / 365) 3) in *. set (d := _ - y * 365) in *. clearbody qc c q y d.
  set (years := y + 4 * q + 100 * c + 400 * qc).
  assert (Hleap : d = 365 → leap (2000 + years + 1) = true)
    by (intros E; destruct (Hlast E); by apply leap_cycle).
  pose proof (march_day (2000 + years) d Hd Hleap) as Hm.
  pose proof (march_first (2000 + years)) as Hf.
  destruct (year_cycles qc c q y Hc Hq Hy) as (Y4 & Y100 & Y400). fold years in Y4, Y100, Y400.
  rewrite Y4, Y100, Y400 in Hf.
  assert (Hh : 0 <= rem / 3600 <= 23 ∧ 0 <= rem / 60 mod 60 <= 59 ∧ 0 <= rem mod 60 <= 59 ∧
    3600 * (rem / 3600) + 60 * (rem / 60 mod 60) + rem mod 60 = rem) by (Z.to_euclidean_division_equations; lia).
  destruct (month_loop march_lengths 0 d) as [months r].
  assert (Hyear : ∀ k, years + k + 100 + 1900 = 2000 + years + k) by lia.
  case_bool_decide; destruct Hm as (H1 & H2 & H3); unfold timegm; cbn [tm_year tm_mon tm_mday tm_hour tm_min tm_sec].
  - rewrite Hyear, H3, Hf. split; [split; cbn [tm_year tm_mon tm_mday tm_hour tm_min tm_sec]; rewrite ?Hyear; lia|unfold years; lia].
  - replace (years + 100 + 1900) with (2000 + years) by lia. rewrite H3, Hf.
    split; [split; cbn [tm_year tm_mon tm_mday tm_hour tm_min tm_sec]; rewrite ?(Z.add_assoc _ 100 1900); try lia|unfold years; lia].
    by replace (years + 100 + 1900) with (2000 + years) by lia.
Qed.

(** The broken-down time of a second, before or after 1970, is a valid date and
    time of day of the Gregorian calendar, and the second is the one that
    date and time stand for. *)
Theorem gmtime_valid t : tm_wf (gmtime t) ∧ timegm (gmtime t) = t.
Proof. apply gmtime_ok. Qed.

(** ** The range of the years *)
Lemma days_before_mono y y' : y <= y' → days_before_year y <= days_before_year y'.
Proof. intros. unfold days_before_year. Z.to_euclidean_division_equations. lia. Qed.

Lemma days_of_range y m d :
  1 <= m <= 12 → 1 <= d <= month_length y m → days_before_year y <= days_of y m d < days_before_year (y + 1).
Proof.
  intros Hm Hd. rewrite next_year. unfold days_of.
  assert (0 <= leap_day y <= 1) by (unfold leap_day; destruct (leap y); lia).
  pose proof (month_lengths y) as (? & ? & ? & ? & ? & ? & ? & ? & ? & ? & ? & ?).
  pose proof (month_offsets y) as (? & ? & ? & ? & ? & ? & ? & ? & ? & ? & ? & ?).
  assert (m = 1 ∨ m = 2 ∨ m = 3 ∨ m = 4 ∨ m = 5 ∨ m = 6 ∨ m = 7 ∨ m = 8 ∨ m = 9 ∨ m = 10 ∨ m = 11 ∨ m = 12) as Hor by lia.
  destruct_or! Hor; subst m;
    match goal with |- context [Z.to_nat ?m] => let k := eval vm_compute in (Z.to_nat m) in change (Z.to_nat m) with k end; lia.
Qed.

(** The first second of the year 10000. *)
Definition year_10000 : Z := 253402300800.
Lemma dby_1970 : days_before_year 1970 = 0.
Proof. reflexivity. Qed.
Lemma dby_10000 : days_before_year 10000 = 2932897.
Proof. reflexivity. Qed.
Lemma year_range g t : tm_wf g → timegm g = t → 0 <= t < year_10000 → 70 <= tm_year g <= 8099.
Proof.
  intros [Hmo Hmd Hh Hmi Hs] E Ht. unfold timegm in E. unfold year_10000 in Ht.
  pose proof (days_of_range (tm_year g + 1900) (tm_mon g + 1) (tm_mday g) ltac:(lia) Hmd) as Hr.
  set (days := days_of _ _ _) in *. clearbody days.
  pose proof (days_before_mono (tm_year g + 1900 + 1) 1970) as M1. rewrite dby_1970 in M1.
  pose proof (days_before_mono 10000 (tm_year g + 1900)) as M2. rewrite dby_10000 in M2. lia.
Qed.
Lemma gmtime_year t : 0 <= t < year_10000 → 70 <= tm_year (gmtime t) <= 8099.
Proof. destruct (gmtime_ok t) as [Hw E]. by apply year_range. Qed.

(** ** Numbers of a fixed width *)
Definition field (w v : Z) (l : list Z) : Prop := zlen l = w ∧ dec_val l = v.

Lemma dec_val_range ds : is_digits ds → 0 <= dec_val ds < 10 ^ zlen ds.
Proof.
  induction 1 as [|c ds Hc _ IH]; [done|]. rewrite dec_val_cons, zlen_cons, Z.pow_add_r by (pose proof (zlen_nonneg ds); lia).
  change (10 ^ 1) with 10. nia.
Qed.
Lemma dec_val_zeros n ds : dec_val (replicate n 48 ++ ds) = dec_val ds.
Proof. induction n as [|n IH]; [done|]. cbn [replicate app]. rewrite dec_val_cons, IH. lia. Qed.

Lemma fmt_zero_field w v : 0 < w → 0 <= v < 10 ^ w → field w v (fmt_zero w v).
Proof.
  intros Hw Hv. unfold fmt_zero, field. rewrite bool_decide_false, Z.abs_eq by lia. cbn [app]. rewrite zlen_nil.
  destruct (decimal_ok v) as (_ & Hval & _); [lia|].
  pose proof (decimal_length (Z.to_nat w) v) as Hl. rewrite Z2Nat.id in Hl by lia. specialize (Hl ltac:(lia) ltac:(lia)).
  rewrite zlen_app, zlen_replicate, dec_val_zeros. split; [lia|done].
Qed.
Lemma fmt_space_field v : 1000 <= v <= 9999 → field 4 v (fmt_space 4 v).
Proof.
  intros Hv. unfold fmt_space, field, signed_decimal. rewrite bool_decide_false by lia.
  destruct (decimal_ok v) as (Hd & Hval & _); [lia|]. pose proof (decimal_length 4 v ltac:(cbn; lia) ltac:(lia)) as Hl.
  pose proof (dec_val_range _ Hd) as Hr. rewrite Hval in Hr.
  assert (Hz : zlen (decimal v) = 4).
  { destruct (decide (zlen (decimal v) <= 3)) as [Hs|]; [|lia].
    pose proof (Z.pow_le_mono_r 10 (zlen (decimal v)) 3 ltac:(lia) Hs). lia. }
  rewrite Hz. change (Z.to_nat (4 - 4)) with 0%nat. by cbn [replicate app].
Qed.

(** ** Reading a text back *)
Definition cut (i n : Z) (l : list Z) : Z := dec_val (ztake n (zdrop i l)).
Definition read_tm (l : list Z) : tm :=
  mk_tm (cut 0 4 l - 1900) (cut 4 2 l - 1) (cut 6 2 l) (cut 9 2 l) (cut 12 2 l) (cut 15 2 l).
Definition read_date (l : list Z) : Z := timegm (read_tm l) * kUsPerSec + cut 18 6 l.

Lemma cut_here n v b c : field n v b → cut 0 n (b ++ c) = v.
Proof. intros [Hb Hv]. unfold cut. by rewrite zdrop_0, ztake_app_all. Qed.
Lemma cut_skip i n a l : zlen a <= i → cut i n (a ++ l) = cut (i - zlen a) n l.
Proof. intros. unfold cut. by rewrite zdrop_app_ge. Qed.
(** The field at the position of a concatenation that is asked for. *)
Ltac cut_at :=
  first [by apply cut_here
        | rewrite cut_skip by (first [match goal with F : field _ _ ?a |- zlen ?a <= _ => rewrite (proj1 F); lia end | rewrite zlen_cons, zlen_nil; lia]);
          match goal with
          | F : field _ _ ?a |- context [zlen ?a] => rewrite (proj1 F)
          | |- context [zlen [?c]] => change (zlen [c]) with 1
          end;
          match goal with |- cut ?i _ _ = _ => let i' := eval vm_compute in i in change i with i' end; cut_at].

Lemma second_text_fields g :
  tm_wf g → 70 <= tm_year g <= 8099 →
  ∃ y m d h i s, second_text g = y ++ m ++ d ++ [32] ++ h ++ [58] ++ i ++ [58] ++ s ∧
    field 4 (tm_year g + 1900) y ∧ field 2 (tm_mon g + 1) m ∧ field 2 (tm_mday g) d ∧
    field 2 (tm_hour g) h ∧ field 2 (tm_min g) i ∧ field 2 (tm_sec g) s.
Proof.
  intros [Hmo Hmd Hh Hmi Hs] Hy. eexists _, _, _, _, _, _. split; [reflexivity|].
  assert (month_length (tm_year g + 1900) (tm_mon g + 1) <= 31).
  { unfold month_length. destruct (leap _); repeat case_bool_decide; lia. }
  split_and!; first [apply fmt_space_field; lia | apply fmt_zero_field; cbn; lia].
Qed.

(** The seven fields of a text are where they are read. *)
Lemma second_text_read g rest :
  tm_wf g → 70 <= tm_year g <= 8099 → zlen (second_text g) = 17 ∧ read_tm (second_text g ++ rest) = g.
Proof.
  intros Hg Hy. destruct (second_text_fields g Hg Hy) as (y & m & d & h & i & s & -> & Fy & Fm & Fd & Fh & Fi & Fs).
  split.
  { rewrite !zlen_app. destruct Fy as [-> _], Fm as [-> _], Fd as [-> _], Fh as [-> _], Fi as [-> _], Fs as [-> _]. done. }
  unfold read_tm. rewrite <-!app_assoc. set (l := y ++ _).
  assert (cut 0 4 l = tm_year g + 1900) as -> by (unfold l; cut_at).
  assert (cut 4 2 l = tm_mon g + 1) as -> by (unfold l; cut_at).
  assert (cut 6 2 l = tm_mday g) as -> by (unfold l; cut_at).
  assert (cut 9 2 l = tm_hour g) as -> by (unfold l; cut_at).
  assert (cut 12 2 l = tm_min g) as -> by (unfold l; cut_at).
  assert (cut 15 2 l = tm_sec g) as -> by (unfold l; cut_at).
  rewrite !Z.add_simpl_r. by destruct g.
Qed.

Lemma date_ok t :
  0 <= us_ t < year_10000 * kUsPerSec →
  date t = second_text (gmtime (us_ t / kUsPerSec)) ++ [46] ++ fmt_zero 6 (us_ t mod kUsPerSec) ∧
  zlen (date t) = 24 ∧ read_date (date t) = us_ t.
Proof.
  intros Ht. unfold date. rewrite Z.quot_div_nonneg, Z.rem_mod_nonneg by (unfold kUsPerSec; lia).
  set (seconds := us_ t / kUsPerSec). set (u := us_ t mod kUsPerSec).
  assert (Hu : us_ t = seconds * kUsPerSec + u ∧ 0 <= u < 10 ^ 6 ∧ 0 <= seconds < year_10000)
    by (unfold seconds, u, kUsPerSec in *; change (10 ^ 6) with 1000000; Z.to_euclidean_division_equations; lia).
  destruct Hu as (Et & Hu & Hs). destruct (gmtime_ok seconds) as [Hw Eg].
  destruct (second_text_read (gmtime seconds) ([46] ++ fmt_zero 6 u) Hw (gmtime_year _ Hs)) as [Hl Hread].
  pose proof (fmt_zero_field 6 u ltac:(lia) Hu) as Fu.
  set (text := second_text (gmtime seconds) ++ [46] ++ fmt_zero 6 u) in *.
  assert (Hz : zlen text = 24) by (unfold text; rewrite !zlen_app, Hl, (proj1 Fu); done).
  rewrite ztake_ge by lia. split; [done|]. split; [done|].
  unfold read_date. rewrite Hread, Eg. assert (cut 18 6 text = u) as ->; [|done].
  unfold text. rewrite cut_skip, Hl by lia. rewrite cut_skip by (rewrite zlen_cons, zlen_nil; lia). change (zlen [46]) with 1.
  change (18 - 17 - 1) with 0. rewrite <-(app_nil_r (fmt_zero 6 u)). by apply cut_here.
Qed.

(** The text of a timestamp from 1970 up to the year 9999 has 24 characters and
    the microsecond can be read back from it, so different timestamps have
    different texts. *)
Theorem date_roundtrip t :
  0 <= us_ t < year_10000 * kUsPerSec → zlen (date t) = 24 ∧ read_date (date t) = us_ t.
Proof. intros Ht. apply (date_ok t Ht). Qed.

(** 2024-02-29 12:34:56.000789 *)
Lemma date_roundtrip_witness :
  date (mk_timestamp 1709210096000789) = bytes_of "20240229 12:34:56.000789" ∧
  read_date (bytes_of "20240229 12:34:56.000789") = 1709210096000789.
Proof.
  assert (E : date (mk_timestamp 1709210096000789) = bytes_of "20240229 12:34:56.000789") by (vm_compute; reflexivity).
  split; [exact E|]. rewrite <-E. apply (date_roundtrip (mk_timestamp 1709210096000789)).
  unfold year_10000, kUsPerSec. cbn [us_]. lia.
Defined.
