(* ===== verification/LogStream.v ===== *)
(** * Log text: kernel/log/log_stream.{h,cc}

    A [LogStream] writes into a thread-local array of 65536 bytes.  Text is
    appended only when it fits; numbers are printed with [snprintf], which
    cuts its output at the end of the array but returns the length it would
    have needed, and that length is added to the write position.  The hex
    dumps print into a second such array.  [float] and [double] are printed by
    "%g", whose text is a parameter. *)

From Stdlib Require Import ZArith Lia Bool.
From stdpp Require Import base numbers list.
From S2P Require Import Prelude Types StringPiece Format Buffer.

Definition klogBufferLen : Z := 65536.

(** The array and the distance of [cur_] from its start. *)
Record LogStream : Type := mk_log {
  g_logbuffer : list Z;
  cur_ : Z;
}.
(** A new stream starts over in the array of its thread. *)
Definition LogStream_new (g : list Z) : LogStream := mk_log g 0.

Definition log_length (s : LogStream) : Z := cur_ s.
Definition log_buffer (s : LogStream) : list Z := g_logbuffer s.

(** [snprintf(mem + p, n, ...)] whose whole output is [text]: the size is a
    [size_t]; at most [n - 1] characters and a zero are stored. *)
Definition snprintf (mem : list Z) (p n : Z) (text : list Z) : result (list Z) :=
  let n := u64 n in
  if bool_decide (n = 0) then Ret mem
  else let out := ztake (n - 1) text ++ [0] in memcpy mem p out (zlen out).

Definition log_Append (buf : list Z) (len : Z) (s : LogStream) : result LogStream :=
  if bool_decide (cur_ s + len <= klogBufferLen) then
    g ← memcpy (g_logbuffer s) (cur_ s) buf len;
    Ret (mk_log g (cur_ s + len))
  else Ret s.

(** [len = snprintf(cur_, klogBufferLen - length(), fmt, v); cur_ += len] *)
Definition put_fmt (text : list Z) (s : LogStream) : result LogStream :=
  g ← snprintf (g_logbuffer s) (cur_ s) (klogBufferLen - log_length s) text;
  Ret (mk_log g (cur_ s + zlen text)).

(** "true", "false", "(null)" *)
Definition TRUE : list Z := [116; 114; 117; 101].
Definition FALSE : list Z := [102; 97; 108; 115; 101].
Definition NULL : list Z := [40; 110; 117; 108; 108; 41].

Definition put_bool (v : bool) (s : LogStream) : result LogStream :=
  if v then log_Append TRUE 4 s else log_Append FALSE 5 s.
Definition put_char (v : Z) (s : LogStream) : result LogStream := log_Append [v] 1 s.
Definition put_short (v : Z) (s : LogStream) : result LogStream := put_fmt (signed_decimal v) s.
Definition put_ushort (v : Z) (s : LogStream) : result LogStream := put_fmt (decimal v) s.
Definition put_signed (v : Z) (s : LogStream) : result LogStream := put_fmt (signed_decimal v) s.
Definition put_unsigned (v : Z) (s : LogStream) : result LogStream := put_fmt (decimal v) s.
Definition put_long (v : Z) (s : LogStream) : result LogStream := put_fmt (signed_decimal v) s.
Definition put_ulong (v : Z) (s : LogStream) : result LogStream := put_fmt (decimal v) s.
Definition put_llong (v : Z) (s : LogStream) : result LogStream := put_fmt (signed_decimal v) s.
Definition put_ullong (v : Z) (s : LogStream) : result LogStream := put_fmt (decimal v) s.
(** [g] is the text of "%g". *)
Definition put_float {F} (g : F → list Z) (v : F) (s : LogStream) : result LogStream := put_fmt (g v) s.
Definition put_double {F} (g : F → list Z) (v : F) (s : LogStream) : result LogStream := put_fmt (g v) s.
Definition put_cstr (v : option (list Z)) (s : LogStream) : result LogStream :=
  match v with
  | Some mem => log_Append mem (strlen mem) s
  | None => log_Append NULL 6 s
  end.
Definition put_string (v : list Z) (s : LogStream) : result LogStream := log_Append v (zlen v) s.
Definition put_piece (v : StringPiece) (s : LogStream) : result LogStream :=
  log_Append (zdrop (ptr_ v) (sp_mem v)) (sp_size v) s.

(** ** Hex dumps, into the array [ext] *)
Fixpoint dump_hex_loop (n : nat) (i : Z) (s : StringPiece) (ext : list Z) : result (list Z) :=
  match n with
  | O => Ret ext
  | S n =>
      b ← rd (sp_mem s) (ptr_ s + i);
      ext ← snprintf ext (i * 2) 3 (hex2 b);
      dump_hex_loop n (i + 1) s ext
  end.
Definition DumpHex (s : StringPiece) (ext : list Z) : result (list Z * list Z) :=
  ext ← dump_hex_loop (Z.to_nat (sp_size s)) 0 s ext;
  Ret (ext, ztake (strlen ext) ext).

Fixpoint dump_format_loop (n : nat) (i pos : Z) (s : StringPiece) (ext : list Z) : result (list Z * Z) :=
  match n with
  | O => Ret (ext, pos)
  | S n =>
      '(ext, pos) ← (if bool_decide (i mod 16 = 0) then ext ← wr ext pos 10; Ret (ext, pos + 1)
                     else if bool_decide (i mod 8 = 0) then ext ← wr ext pos 32; Ret (ext, pos + 1)
                     else Ret (ext, pos));
      b ← rd (sp_mem s) (ptr_ s + i);
      ext ← snprintf ext pos 4 (hex2 b ++ [32]);
      dump_format_loop n (i + 1) (pos + 3) s ext
  end.
Definition DumpHexFormat (s : StringPiece) (ext : list Z) : result (list Z * list Z) :=
  '(ext, pos) ← dump_format_loop (Z.to_nat (sp_size s)) 0 0 s ext;
  ext ← wr ext pos 0;
  Ret (ext, ztake (strlen ext) ext).

(** ** The stream *)

(** What is streamed: text, which must fit, or the output of a conversion. *)
Inductive item : Type :=
  | Bool (v : bool)
  | Char (v : Z)
  | Short (v : Z)
  | UShort (v : Z)
  | Signed (v : Z)
  | Unsigned (v : Z)
  | Long (v : Z)
  | ULong (v : Z)
  | LLong (v : Z)
  | ULLong (v : Z)
  | Float (text : list Z)
  | Double (text : list Z)
  | Cstr (v : option (list Z))
  | Str (v : list Z)
  | Piece (v : StringPiece).

Definition put (it : item) (s : LogStream) : result LogStream :=
  match it with
  | Bool v => put_bool v s
  | Char v => put_char v s
  | Short v => put_short v s
  | UShort v => put_ushort v s
  | Signed v => put_signed v s
  | Unsigned v => put_unsigned v s
  | Long v => put_long v s
  | ULong v => put_ulong v s
  | LLong v => put_llong v s
  | ULLong v => put_ullong v s
  | Float text => put_float id text s
  | Double text => put_double id text s
  | Cstr v => put_cstr v s
  | Str v => put_string v s
  | Piece v => put_piece v s
  end.
Fixpoint put_all (its : list item) (s : LogStream) : result LogStream :=
  match its with
  | [] => Ret s
  | it :: its => s ← put it s; put_all its s
  end.

Definition item_text (it : item) : list Z :=
  match it with
  | Bool v => if v then TRUE else FALSE
  | Char v => [v]
  | Short v | Signed v | Long v | LLong v => signed_decimal v
  | UShort v | Unsigned v | ULong v | ULLong v => decimal v
  | Float text | Double text => text
  | Cstr (Some mem) => ztake (strlen mem) mem
  | Cstr None => NULL
  | Str v => v
  | Piece v => AsString v
  end.
Definition is_number (it : item) : bool :=
  match it with Bool _ | Char _ | Cstr _ | Str _ | Piece _ => false | _ => true end.
Definition item_wf (it : item) : Prop := match it with Piece v => sp_wf v | _ => True end.

(** The reference: the text so far; [None] once a number did not fit. *)
Definition emit (out : list Z) (it : item) : option (list Z) :=
  let t := item_text it in
  if is_number it then if bool_decide (zlen out + zlen t < klogBufferLen) then Some (out ++ t) else None
  else Some (if bool_decide (zlen out + zlen t <= klogBufferLen) then out ++ t else out).
Fixpoint emit_all (out : list Z) (its : list item) : option (list Z) :=
  match its with
  | [] => Some out
  | it :: its => out ← emit out it; emit_all out its
  end.

(** The stream has written [out]. *)
Record wrote (s : LogStream) (out : list Z) : Prop := {
  wr_array : zlen (g_logbuffer s) = klogBufferLen;
  wr_cur : cur_ s = zlen out;
  wr_fits : zlen out <= klogBufferLen;
  wr_text : ztake (zlen out) (g_logbuffer s) = out;
}.

(** A copy behind the written text. *)
Lemma memcpy_behind g out src len :
  ztake (zlen out) g = out → 0 <= len <= zlen src → zlen out + len <= zlen g →
  ∃ g', memcpy g (zlen out) src len = Ret g' ∧ zlen g' = zlen g ∧
    g' = out ++ ztake len src ++ zdrop (zlen out + len) g.
Proof.
  intros Hout Hlen Hfit. pose proof (zlen_nonneg out). unfold memcpy. rewrite bool_decide_true by lia.
  eexists. split; [done|]. rewrite Hout. split; [|done]. zlen_simp. rewrite zlen_ztake, zlen_zdrop; lia.
Qed.
Lemma ztake_out (out t r : list Z) : ztake (zlen (out ++ t)) (out ++ t ++ r) = out ++ t.
Proof. rewrite app_assoc. by apply ztake_app_all. Qed.

Lemma wrote_Append s out buf len :
  wrote s out → 0 <= len <= zlen buf →
  ∃ s', log_Append buf len s = Ret s' ∧
    wrote s' (if bool_decide (zlen out + len <= klogBufferLen) then out ++ ztake len buf else out).
Proof.
  intros [Ha Hc Hf Ht] Hlen. unfold log_Append. rewrite Hc. case_bool_decide as Hfit; [|by eexists].
  destruct (memcpy_behind (g_logbuffer s) out buf len) as (g' & -> & Hg & Eg); [done..|lia|].
  cbn [mbind result_bind]. eexists. split; [done|].
  assert (Hz : zlen (out ++ ztake len buf) = zlen out + len) by (rewrite zlen_app, zlen_ztake; lia).
  constructor; cbn [g_logbuffer cur_]; [congruence|lia|lia|]. rewrite Eg. apply ztake_out.
Qed.

Lemma wrote_put_fmt s out t :
  wrote s out → zlen out + zlen t < klogBufferLen →
  ∃ s', put_fmt t s = Ret s' ∧ wrote s' (out ++ t).
Proof.
  intros [Ha Hc Hf Ht] Hfit. pose proof (zlen_nonneg out). pose proof (zlen_nonneg t).
  unfold put_fmt, snprintf, log_length, klogBufferLen in *. rewrite Hc, u64_small by (unfold is_u64; lia).
  rewrite bool_decide_false by lia. rewrite ztake_ge by lia.
  destruct (memcpy_behind (g_logbuffer s) out (t ++ [0]) (zlen (t ++ [0]))) as (g' & -> & Hg & Eg);
    [done|zlen_simp; lia..|].
  cbn [mbind result_bind]. eexists. split; [done|].
  assert (Ht' : ztake (zlen (out ++ t)) g' = out ++ t).
  { rewrite Eg, (ztake_ge (zlen (t ++ [0]))), <-(app_assoc t) by lia. apply ztake_out. }
  constructor; [cbn; unfold klogBufferLen; congruence|cbn; zlen_simp; lia|unfold klogBufferLen; zlen_simp; lia|done].
Qed.

(** Every insertion is the append or the conversion of its text. *)
Lemma put_emit s out it out' :
  wrote s out → item_wf it → emit out it = Some out' → ∃ s', put it s = Ret s' ∧ wrote s' out'.
Proof.
  intros Hs Hwf. unfold emit.
  assert (Happ : ∀ buf len, 0 <= len <= zlen buf → ztake len buf = item_text it →
    Some (if bool_decide (zlen out + zlen (item_text it) <= klogBufferLen) then out ++ item_text it else out)
      = Some out' → ∃ s', log_Append buf len s = Ret s' ∧ wrote s' out').
  { intros buf len Hlen Et [= <-]. destruct (wrote_Append s out buf len Hs Hlen) as (s' & E & Hw).
    exists s'. split; [done|]. rewrite <-Et, zlen_ztake by lia. done. }
  assert (Hnum : ∀ t, (if bool_decide (zlen out + zlen t < klogBufferLen) then Some (out ++ t) else None) = Some out' →
    ∃ s', put_fmt t s = Ret s' ∧ wrote s' out').
  { intros t. destruct (bool_decide_reflect (zlen out + zlen t < klogBufferLen)); [|done].
    intros [= <-]. by apply wrote_put_fmt. }
  destruct it as [[]|v|v|v|v|v|v|v|v|v|t|t|[mem|]|v|v]; cbn [put is_number item_text] in *; try apply Hnum.
  all: apply Happ; try done.
  - unfold strlen. pose proof (std_find_range mem 0). lia.
  - split; [apply zlen_nonneg|done].
  - by apply ztake_ge.
  - unfold item_wf, sp_wf in Hwf. rewrite zlen_zdrop; unfold sp_size; lia.
Qed.

Lemma put_all_emit its s out out' :
  wrote s out → Forall item_wf its → emit_all out its = Some out' →
  ∃ s', put_all its s = Ret s' ∧ wrote s' out'.
Proof.
  revert s out. induction its as [|it its IH]; intros s out Hs Hwf; cbn [put_all emit_all].
  { intros [= <-]. eauto. }
  apply Forall_cons in Hwf as [Hi Hwf]. intros (out1 & E1 & E2)%bind_Some.
  destruct (put_emit s out it out1 Hs Hi E1) as (s1 & -> & H1). cbn [mbind result_bind]. by eapply IH.
Qed.

(** Whatever is streamed, as long as no number passes the end of the
    array, every insertion returns, and the line is the concatenation of the
    texts in order, without those texts that did not fit when their turn came;
    the length never exceeds the array. *)
Theorem LogStream_correct its g out :
  zlen g = klogBufferLen → Forall item_wf its → emit_all [] its = Some out →
  ∃ s, put_all its (LogStream_new g) = Ret s ∧ log_length s = zlen out ∧ zlen out <= klogBufferLen ∧
    ztake (log_length s) (log_buffer s) = out.
Proof.
  intros Hg Hwf E. destruct (put_all_emit its (LogStream_new g) [] out) as (s & Es & []); [|done..|].
  - by constructor.
  - exists s. unfold log_length, log_buffer. rewrite wr_cur0. done.
Qed.

(** "a=-12 true" *)
Lemma LogStream_correct_witness :
  ∃ s, put_all [Str [97; 61]; Signed (-12); Char 32; Bool true] (LogStream_new (replicate (Z.to_nat klogBufferLen) 7)) = Ret s ∧
    ztake (log_length s) (log_buffer s) = [97; 61; 45; 49; 50; 32; 116; 114; 117; 101].
Proof.
  destruct (LogStream_correct [Str [97; 61]; Signed (-12); Char 32; Bool true]
    (replicate (Z.to_nat klogBufferLen) 7) [97; 61; 45; 49; 50; 32; 116; 114; 117; 101]) as (s & E & _ & _ & Ht).
  - rewrite zlen_replicate. reflexivity.
  - repeat constructor.
  - vm_compute. reflexivity.
  - exists s. by split.
Defined.

(** A number that does not fit into the rest of the array still moves the
    write position past its end: the reported length is then larger than the
    array, every further text is dropped, and the next number is written
    outside of it. *)
Theorem number_overflow s out v :
  wrote s out → is_u64 v → zlen out + zlen (decimal v) > klogBufferLen →
  ∃ s', put_unsigned v s = Ret s' ∧ log_length s' > zlen (log_buffer s') ∧
    (∀ buf len, 0 <= len → log_Append buf len s' = Ret s') ∧
    (∀ v', put_unsigned v' s' = Fault OutOfBounds).
Proof.
  intros [Ha Hc Hf Ht] Hv Hbig. pose proof (zlen_nonneg out). unfold put_unsigned, put_fmt, log_length, klogBufferLen in *.
  assert (Hg : ∃ g', snprintf (g_logbuffer s) (cur_ s) (65536 - cur_ s) (decimal v) = Ret g' ∧ zlen g' = 65536).
  { unfold snprintf. rewrite u64_small by (unfold is_u64; lia). case_bool_decide; [by eexists|].
    destruct (memcpy_behind (g_logbuffer s) out (ztake (65536 - cur_ s - 1) (decimal v) ++ [0]) (65536 - cur_ s))
      as (g' & E & Hz & _); [done|zlen_simp; rewrite zlen_ztake by lia; lia|lia|].
    exists g'. split; [|lia]. rewrite <-E, Hc. f_equal. zlen_simp. rewrite zlen_ztake by lia. lia. }
  destruct Hg as (g' & -> & Hg'). cbn [mbind result_bind]. eexists. split; [done|]. split_and!.
  - unfold log_buffer. cbn [cur_ g_logbuffer]. lia.
  - intros buf len Hlen. unfold log_Append, klogBufferLen. cbn [cur_]. by rewrite bool_decide_false by lia.
  - intros v'. cbn [cur_ g_logbuffer]. unfold snprintf, memcpy.
    pose proof (decimal_length 20 v ltac:(unfold is_u64 in Hv; lia) ltac:(lia)) as Hl.
    assert (Hu : u64 (65536 - (cur_ s + zlen (decimal v))) ≠ 0) by (unfold u64; Z.to_euclidean_division_equations; lia).
    rewrite bool_decide_false by done.
    rewrite bool_decide_false; [done|]. zlen_simp.
    pose proof (zlen_nonneg (ztake (u64 (65536 - (cur_ s + zlen (decimal v))) - 1) (decimal v'))). lia.
Qed.

(** A line of [n] times the same character. *)
Lemma wrote_replicate n m c :
  zlen (replicate m c) = klogBufferLen → 0 <= n <= klogBufferLen →
  wrote (mk_log (replicate m c) n) (replicate (Z.to_nat n) c).
Proof.
  intros Hm Hn. constructor; cbn [g_logbuffer cur_]; rewrite ?zlen_replicate in *; [done|lia..|].
  unfold ztake. rewrite take_replicate. f_equal. lia.
Qed.

Lemma number_overflow_witness :
  ∃ s', put_unsigned 120 (mk_log (replicate (Z.to_nat klogBufferLen) 65) 65534) = Ret s' ∧
    log_length s' > zlen (log_buffer s') ∧ put_unsigned 7 s' = Fault OutOfBounds.
Proof.
  destruct (number_overflow (mk_log (replicate (Z.to_nat klogBufferLen) 65) 65534) (replicate (Z.to_nat 65534) 65) 120)
    as (s' & E & Hl & _ & Hn).
  - apply wrote_replicate; [rewrite zlen_replicate; reflexivity|]. split; vm_compute; discriminate.
  - vm_compute. split; [discriminate|reflexivity].
  - rewrite zlen_replicate. vm_compute. reflexivity.
  - exists s'. split_and!; [exact E|exact Hl|apply Hn].
Defined.

(** ** The dumps *)

(** A conversion whose output fits exactly. *)
Lemma snprintf_behind out t r n :
  n = zlen t + 1 → n < 2 ^ 64 → n <= zlen r → snprintf (out ++ r) (zlen out) n t = Ret (out ++ t ++ [0] ++ zdrop n r).
Proof.
  intros -> Hn Hr. pose proof (zlen_nonneg t). pose proof (zlen_nonneg out). unfold snprintf. rewrite u64_small by (unfold is_u64; lia).
  rewrite bool_decide_false, (ztake_ge (zlen t + 1 - 1)) by lia.
  destruct (memcpy_behind (out ++ r) out (t ++ [0]) (zlen (t ++ [0]))) as (g & -> & _ & ->);
    [by apply ztake_app_all|zlen_simp; lia..|].
  rewrite (ztake_ge (zlen (t ++ [0]))), <-(app_assoc t) by lia. do 4 f_equal. zlen_simp.
  rewrite zdrop_app_ge by lia. f_equal. lia.
Qed.

Section dumps.
Context (s : StringPiece) (Hwf : sp_wf s).

Lemma read_data l1 b l2 : AsString s = l1 ++ b :: l2 → rd (sp_mem s) (ptr_ s + zlen l1) = Ret b.
Proof using Hwf.
  intros E. pose proof (packet_index s Hwf (zlen l1)) as H. unfold sp_index in H. rewrite H.
  - rewrite E, rd_app_r, Z.sub_diag by lia. apply rd_cons_0.
  - rewrite <-(packet_len s Hwf), E. zlen_simp. pose proof (zlen_nonneg l1). pose proof (zlen_nonneg l2). lia.
Qed.

(** [l1] is dumped; behind it is what the array holds. *)
Lemma dump_hex_loop_ok l2 l1 r :
  AsString s = l1 ++ l2 → l2 ≠ [] → 2 * zlen l2 + 1 <= zlen r →
  ∃ r', dump_hex_loop (length l2) (zlen l1) s (concat (hex2 <$> l1) ++ r) =
    Ret (concat (hex2 <$> (l1 ++ l2)) ++ [0] ++ r').
Proof using Hwf.
  revert l1 r. induction l2 as [|b l2 IH]; intros l1 r El Hne Hr; [done|].
  cbn [length dump_hex_loop]. rewrite (read_data l1 b l2 El). cbn [mbind result_bind].
  rewrite zlen_cons in Hr. pose proof (zlen_nonneg l2).
  rewrite <-(zlen_hex l1), snprintf_behind by (done || lia). cbn [mbind result_bind].
  assert (Ehex : concat (hex2 <$> l1) ++ hex2 b ++ [0] ++ zdrop 3 r = concat (hex2 <$> (l1 ++ [b])) ++ [0] ++ zdrop 3 r)
    by (rewrite fmap_app, concat_app; cbn; by rewrite <-app_assoc).
  rewrite Ehex. replace (zlen l1 + 1) with (zlen (l1 ++ [b])) by (zlen_simp; lia).
  destruct l2 as [|b' l2]; [by eexists|].
  destruct (IH (l1 ++ [b]) ([0] ++ zdrop 3 r)) as (r' & ->).
  - by rewrite <-app_assoc.
  - done.
  - rewrite zlen_app, zlen_zdrop; zlen_simp; lia.
  - exists r'. by rewrite <-app_assoc.
Qed.

Lemma DumpHex_ok ext :
  bytes_ok (AsString s) → 0 < sp_size s → 2 * sp_size s + 1 <= zlen ext →
  ∃ ext', DumpHex s ext = Ret (ext', concat (hex2 <$> AsString s)).
Proof using Hwf.
  intros Hok Hs He. pose proof (packet_len s Hwf) as Hl. unfold DumpHex.
  replace (Z.to_nat (sp_size s)) with (length (AsString s)) by (unfold zlen in Hl; lia).
  destruct (dump_hex_loop_ok (AsString s) [] ext) as (r' & E); [done| |lia|].
  { intros E. rewrite E in Hl. zlen_simp. lia. }
  cbn [app fmap list_fmap concat] in E. change (zlen (@nil Z)) with 0 in E. rewrite E. cbn [mbind result_bind].
  eexists. do 3 f_equal. unfold strlen. rewrite std_find_app by (apply hex_no; [done|lia..]).
  by apply ztake_app_all.
Qed.

(** An array that is too short is overrun. *)
Lemma dump_hex_loop_overrun l2 l1 r :
  AsString s = l1 ++ l2 → l2 ≠ [] → zlen r < 2 * zlen l2 + 1 →
  dump_hex_loop (length l2) (zlen l1) s (concat (hex2 <$> l1) ++ r) = Fault OutOfBounds.
Proof using Hwf.
  revert l1 r. induction l2 as [|b l2 IH]; intros l1 r El Hne Hr; [done|].
  cbn [length dump_hex_loop]. rewrite (read_data l1 b l2 El). cbn [mbind result_bind].
  rewrite zlen_cons in Hr. rewrite <-(zlen_hex l1). destruct (decide (3 <= zlen r)) as [H3|H3].
  - rewrite snprintf_behind by (done || lia). cbn [mbind result_bind].
    replace (concat (hex2 <$> l1) ++ hex2 b ++ [0] ++ zdrop 3 r)
      with (concat (hex2 <$> (l1 ++ [b])) ++ [0] ++ zdrop 3 r)
      by (rewrite fmap_app, concat_app; cbn; by rewrite <-app_assoc).
    replace (zlen l1 + 1) with (zlen (l1 ++ [b])) by (zlen_simp; lia).
    apply IH; [by rewrite <-app_assoc| |].
    + intros ->. zlen_simp. lia.
    + rewrite zlen_app, zlen_zdrop; zlen_simp; lia.
  - unfold snprintf, memcpy. rewrite u64_small by (unfold is_u64; lia). rewrite bool_decide_false by lia.
    rewrite bool_decide_false; [done|]. rewrite (ztake_ge (3 - 1)) by done. zlen_simp.
    change (zlen (hex2 b)) with 2. lia.
Qed.

(** What the formatted dump prints for the bytes from number [i] on. *)
Definition separator (i : Z) : list Z :=
  if bool_decide (i mod 16 = 0) then [10] else if bool_decide (i mod 8 = 0) then [32] else [].
Fixpoint dump_text (i : Z) (l : list Z) : list Z :=
  match l with
  | [] => []
  | b :: l => separator i ++ (hex2 b ++ [32]) ++ dump_text (i + 1) l
  end.

Lemma wr_behind (txt r : list Z) v : 0 < zlen r → wr (txt ++ r) (zlen txt) v = Ret (txt ++ [v] ++ zdrop 1 r).
Proof.
  intros Hr. destruct r as [|x r]; [zlen_simp; lia|]. apply wr_Ret. split.
  - zlen_simp. pose proof (zlen_nonneg txt). pose proof (zlen_nonneg r). lia.
  - unfold zlen. rewrite Nat2Z.id. rewrite insert_app_r_alt, Nat.sub_diag by lia. done.
Qed.

Lemma write_separator i txt r :
  0 < zlen r →
  (if bool_decide (i mod 16 = 0) then ext ← wr (txt ++ r) (zlen txt) 10; Ret (ext, zlen txt + 1)
   else if bool_decide (i mod 8 = 0) then ext ← wr (txt ++ r) (zlen txt) 32; Ret (ext, zlen txt + 1)
   else Ret (txt ++ r, zlen txt)) =
  Ret ((txt ++ separator i) ++ zdrop (zlen (separator i)) r, zlen (txt ++ separator i)).
Proof.
  intros Hr. unfold separator. rewrite wr_behind, wr_behind by done. cbn [mbind result_bind].
  repeat case_bool_decide.
  1, 2: by rewrite <-app_assoc, zlen_app.
  rewrite app_nil_r. change (zlen (@nil Z)) with 0. by rewrite zdrop_0.
Qed.

Lemma dump_format_loop_ok l2 l1 txt r :
  AsString s = l1 ++ l2 → zlen (dump_text (zlen l1) l2) + 1 <= zlen r →
  ∃ r', dump_format_loop (length l2) (zlen l1) (zlen txt) s (txt ++ r) =
    Ret ((txt ++ dump_text (zlen l1) l2) ++ r', zlen (txt ++ dump_text (zlen l1) l2)) ∧ 0 < zlen r'.
Proof using Hwf.
  revert l1 txt r. induction l2 as [|b l2 IH]; intros l1 txt r El Hr; cbn [length dump_format_loop dump_text] in *.
  { exists r. rewrite app_nil_r. split; [done|]. zlen_simp. lia. }
  set (sep := separator (zlen l1)) in *. rewrite !zlen_app in Hr.
  pose proof (zlen_nonneg sep). pose proof (zlen_nonneg (dump_text (zlen l1 + 1) l2)).
  change (zlen (hex2 b)) with 2 in Hr. change (zlen [32]) with 1 in Hr.
  rewrite write_separator by lia. fold sep. cbn [mbind result_bind].
  rewrite (read_data l1 b l2 El). cbn [mbind result_bind].
  rewrite snprintf_behind by (done || (rewrite zlen_zdrop; lia)). cbn [mbind result_bind].
  set (r1 := [0] ++ zdrop 4 (zdrop (zlen sep) r)).
  assert (Hr1 : zlen r1 = zlen r - zlen sep - 3) by (unfold r1; rewrite zlen_app, !zlen_zdrop; change (zlen [0]) with 1;
    rewrite ?zlen_zdrop; lia).
  specialize (IH (l1 ++ [b]) ((txt ++ sep) ++ hex2 b ++ [32]) r1).
  replace (zlen (l1 ++ [b])) with (zlen l1 + 1) in IH by (zlen_simp; lia).
  destruct IH as (r' & E & Hr'); [by rewrite <-app_assoc|lia|].
  exists r'. split; [|done]. rewrite <-!app_assoc in *.
  replace (zlen (txt ++ sep) + 3) with (zlen (txt ++ sep ++ hex2 b ++ [32]))
    by (rewrite !zlen_app; change (zlen (hex2 b)) with 2; change (zlen [32]) with 1; lia).
  exact E.
Qed.
End dumps.

Lemma zlen_dump_text i l : zlen (dump_text i l) <= 4 * zlen l.
Proof.
  revert i. induction l as [|b l IH]; intros i; [done|]. cbn [dump_text]. zlen_simp.
  specialize (IH (i + 1)). change (zlen (hex2 b)) with 2.
  enough (zlen (separator i) <= 1) by lia. unfold separator. by repeat case_bool_decide.
Qed.
Lemma dump_text_no_zero i l : bytes_ok l → 0 ∉ dump_text i l.
Proof.
  intros Hl. revert i. induction Hl as [|b l Hb Hl IH]; intros i; cbn [dump_text]; [by intros ?%elem_of_nil|].
  rewrite !elem_of_app. intros [H|[[H|H]|H]].
  - unfold separator in H. repeat case_bool_decide.
    1, 2: by apply list_elem_of_singleton in H.
    by apply elem_of_nil in H.
  - by apply hex2_no in H; [|done|lia..].
  - by apply list_elem_of_singleton in H.
  - by apply IH in H.
Qed.

Lemma DumpHexFormat_ok s ext :
  sp_wf s → bytes_ok (AsString s) → 4 * sp_size s + 1 <= zlen ext →
  ∃ ext', DumpHexFormat s ext = Ret (ext', dump_text 0 (AsString s)).
Proof.
  intros Hwf Hok He. pose proof (packet_len s Hwf) as Hl. pose proof (zlen_dump_text 0 (AsString s)). unfold DumpHexFormat.
  replace (Z.to_nat (sp_size s)) with (length (AsString s)) by (unfold zlen in Hl; lia).
  destruct (dump_format_loop_ok s Hwf (AsString s) [] [] ext) as (r & E & Hr);
    [done|change (zlen (@nil Z)) with 0; lia|].
  change (zlen (@nil Z)) with 0 in E. cbn [app] in E. rewrite E. cbn [mbind result_bind].
  rewrite wr_behind by done. cbn [mbind result_bind]. eexists. do 3 f_equal. unfold strlen. cbn [app].
  rewrite std_find_app by (by apply dump_text_no_zero). by apply ztake_app_all.
Qed.

(** The hex dump of 1 to 32767 bytes is two digits per byte, which read
    back as the bytes; an empty slice yields whatever text the array held; a
    longer slice overruns the array.  The formatted dump of up to 16383 bytes
    is the digits with their separators, and is empty for an empty slice. *)
Theorem DumpHex_correct s ext :
  sp_wf s → bytes_ok (AsString s) → zlen ext = klogBufferLen →
  (0 < sp_size s <= 32767 → ∃ ext' t, DumpHex s ext = Ret (ext', t) ∧ read_hex t = AsString s) ∧
  (sp_size s = 0 → DumpHex s ext = Ret (ext, ztake (strlen ext) ext)) ∧
  (32767 < sp_size s → DumpHex s ext = Fault OutOfBounds) ∧
  (sp_size s <= 16383 → ∃ ext', DumpHexFormat s ext = Ret (ext', dump_text 0 (AsString s))).
Proof.
  intros Hwf Hok He. unfold klogBufferLen in He. split_and!.
  - intros Hs. destruct (DumpHex_ok s Hwf ext Hok) as (ext' & E); [lia..|]. do 2 eexists. split; [exact E|].
    by apply read_hex_hex2.
  - intros Hs. unfold DumpHex. by rewrite Hs.
  - intros Hs. pose proof (packet_len s Hwf) as Hl. unfold DumpHex.
    replace (Z.to_nat (sp_size s)) with (length (AsString s)) by (unfold zlen in Hl; lia).
    pose proof (dump_hex_loop_overrun s Hwf (AsString s) [] ext) as E. change (zlen (@nil Z)) with 0 in E.
    cbn [app fmap list_fmap concat] in E. rewrite E; [done|done| |lia]. intros Hn. rewrite Hn in Hl. zlen_simp. lia.
  - intros Hs. apply DumpHexFormat_ok; [done..|lia].
Qed.

Lemma DumpHex_correct_witness :
  (∃ ext' t, DumpHex (StringPiece_string [18; 171]) (replicate (Z.to_nat klogBufferLen) 88) = Ret (ext', t) ∧
     read_hex t = [18; 171]) ∧
  ∃ ext', DumpHexFormat (StringPiece_string [18; 171]) (replicate (Z.to_nat klogBufferLen) 88) =
    Ret (ext', [10; 49; 50; 32; 97; 98; 32]).
Proof.
  destruct (DumpHex_correct (StringPiece_string [18; 171]) (replicate (Z.to_nat klogBufferLen) 88)) as (H1 & _ & _ & H2).
  - apply sp_wf_string.
  - apply (bool_decide_unpack _). vm_compute. exact I.
  - rewrite zlen_replicate. reflexivity.
  - split; [apply H1|apply H2]; vm_compute; intuition discriminate.
Defined.
