(* ===== verification/Logger.v ===== *)
(** * The logger: kernel/log/logger.{h,cc}

    A log statement creates a [Logger], which writes the time, the level and
    the text of [errno] to the thread's stream, streams the operands, and on
    destruction adds the place, the routine and the thread, hands the line to
    the output and, for a fatal one, flushes and aborts.  The text of the
    current second is cached per thread.  The theorems: any sequence of
    statements hands over exactly the lines of the reference, in order, and
    ends at the first fatal one; a statement one of whose operands logs itself
    prints the other line's beginning.  [LOG_INFO] is the statement as the other
    components use it: it does not fail when its texts have at most 63000
    bytes. *)

From Stdlib Require Import ZArith Lia Bool.
From stdpp Require Import base numbers list strings.
From S2P Require Import Prelude Types StringPiece Format Buffer Timestamp LogStream.

Inductive LogLevel : Type := TRACE | DEBUG | INFO | WARN | ERROR | FATAL.
#[global] Instance LogLevel_eq_dec : EqDecision LogLevel.
Proof. solve_decision. Defined.
Definition level_value (l : LogLevel) : Z :=
  match l with TRACE => 0 | DEBUG => 1 | INFO => 2 | WARN => 3 | ERROR => 4 | FATAL => 5 end.
Definition log_level_name (l : LogLevel) : list Z :=
  match l with
  | TRACE => bytes_of "TRACE "
  | DEBUG => bytes_of "DEBUG "
  | INFO => bytes_of "INFO  "
  | WARN => bytes_of "WARN  "
  | ERROR => bytes_of "ERROR "
  | FATAL => bytes_of "FATAL "
  end.

(** A string literal or a [const char*]. *)
Definition cstr (s : list Z) : item := Cstr (Some (s ++ [0])).

(** ** The variables of a thread *)
Record ThreadLog : Type := mk_thread {
  t_time : list Z;
  t_last_second : Z;
  (** the array of the log stream *)
  t_buffer : list Z;
}.
Definition ThreadLog_new : ThreadLog := mk_thread (replicate 64 0) 0 (replicate (Z.to_nat klogBufferLen) 0).

(** [Fmt]: the text must be shorter than the array of 32 bytes. *)
Definition Fmt (text : list Z) : result (list Z) :=
  _ ← cpp_assert (bool_decide (zlen text < 32));
  Ret text.

(** The cache for a second: the text is made only when the second has changed. *)
Definition cached_time (seconds : Z) (th : ThreadLog) : result (list Z * Z) :=
  if bool_decide (seconds ≠ t_last_second th) then
    let text := second_text (gmtime seconds) in
    time ← snprintf (t_time th) 0 64 text;
    _ ← cpp_assert (bool_decide (zlen text = 17));
    Ret (time, seconds)
  else Ret (t_time th, t_last_second th).

(** The parts of the cache and the stream after the time has been written. *)
Definition FormatTime (now : Timestamp) (th : ThreadLog) (stream : LogStream) : result (list Z * Z * LogStream) :=
  let now_us := us now in
  let seconds := Z.quot now_us kUsPerSec in
  let us := Z.rem now_us kUsPerSec in
  '(time, last) ← cached_time seconds th;
  fmt_us ← Fmt ([46] ++ fmt_zero 6 us ++ [32]);
  _ ← cpp_assert (bool_decide (zlen fmt_us = 8));
  stream ← put_all [Piece (mk_sp time 0 17); Piece (mk_sp fmt_us 0 8)] stream;
  Ret (time, last, stream).

(** ** Logger *)
Record Logger : Type := mk_logger {
  filename_ : list Z;
  line_ : Z;
  func_ : list Z;
  level_ : LogLevel;
  stream_ : LogStream;
}.

(** What the runtime and the thread report about themselves. *)
Record Place : Type := mk_place {
  routine_name : list Z;
  routineid : Z;
  threadname : list Z;
  tidstring : list Z;
}.

Section logger.
(** [strerror_r] *)
Context (strerror_tl : Z → list Z).

Definition Logger_new (filename : list Z) (line : Z) (func : list Z) (level : LogLevel) (savedErrno : Z)
    (now : Timestamp) (th : ThreadLog) : result (Logger * ThreadLog) :=
  '(time, last, stream) ← FormatTime now th (LogStream_new (t_buffer th));
  stream ← put_all [cstr (log_level_name level)] stream;
  stream ←
    (if bool_decide (savedErrno ≠ 0)
     then put_all [cstr (strerror_tl savedErrno); cstr (bytes_of " (errno="); Signed savedErrno; cstr (bytes_of ") ")] stream
     else Ret stream);
  Ret (mk_logger filename line func level stream, mk_thread time last (g_logbuffer stream)).

(** The destructor: the line that is handed to the output, and whether the
    program is flushed and aborted. *)
Definition Logger_delete (pl : Place) (l : Logger) : result (list Z * bool * list Z) :=
  s ← put_all [cstr (bytes_of " - "); cstr (filename_ l); cstr (bytes_of ":"); Signed (line_ l); cstr (bytes_of ":");
               cstr (func_ l); cstr (bytes_of " - "); Str (routine_name pl); cstr (bytes_of ":"); ULong (routineid pl);
               cstr (bytes_of " - "); Str (threadname pl); cstr (bytes_of ":"); Str (tidstring pl); cstr [10]] (stream_ l);
  Ret (ztake (log_length s) (log_buffer s), bool_decide (level_ l = FATAL), g_logbuffer s).

(** ** Statements: [LOG_INFO << a << b;] *)
Record statement : Type := mk_statement {
  st_level : LogLevel;
  st_errno : Z;
  st_now : Timestamp;
  st_file : list Z;
  st_line : Z;
  st_func : list Z;
  st_place : Place;
  st_items : list item;
}.

(** The macros of the three lowest levels look at [loglevel()]. *)
Definition enabled (loglevel level : LogLevel) : bool :=
  match level with
  | TRACE | DEBUG | INFO => bool_decide (level_value level >= level_value loglevel)
  | _ => true
  end.

(** A statement hands over a line or is disabled. *)
Definition log_statement (loglevel : LogLevel) (st : statement) (th : ThreadLog)
    : result (ThreadLog * option (list Z * bool)) :=
  if enabled loglevel (st_level st) then
    '(l, th) ← Logger_new (st_file st) (st_line st) (st_func st) (st_level st) (st_errno st) (st_now st) th;
    s ← put_all (st_items st) (stream_ l);
    '(line, aborts, g) ←
      Logger_delete (st_place st) (mk_logger (filename_ l) (line_ l) (func_ l) (level_ l) s);
    Ret (mk_thread (t_time th) (t_last_second th) g, Some (line, aborts))
  else Ret (th, None).

(** Statements in turn: the lines, and whether the program was aborted. *)
Fixpoint log_statements (loglevel : LogLevel) (sts : list statement) (th : ThreadLog)
    : result (ThreadLog * list (list Z) * bool) :=
  match sts with
  | [] => Ret (th, [], false)
  | st :: sts =>
      '(th, r) ← log_statement loglevel st th;
      match r with
      | None => log_statements loglevel sts th
      | Some (line, true) => Ret (th, [line], true)
      | Some (line, false) =>
          '(th, lines, aborted) ← log_statements loglevel sts th;
          Ret (th, line :: lines, aborted)
      end
  end.

(** ** The reference *)
Definition errno_items (e : Z) : list item :=
  if bool_decide (e ≠ 0)
  then [cstr (strerror_tl e); cstr (bytes_of " (errno="); Signed e; cstr (bytes_of ") ")] else [].
Definition tail_items (st : statement) : list item :=
  [cstr (bytes_of " - "); cstr (st_file st); cstr (bytes_of ":"); Signed (st_line st); cstr (bytes_of ":");
   cstr (st_func st); cstr (bytes_of " - "); Str (routine_name (st_place st)); cstr (bytes_of ":");
   ULong (routineid (st_place st)); cstr (bytes_of " - "); Str (threadname (st_place st)); cstr (bytes_of ":");
   Str (tidstring (st_place st)); cstr [10]].
Definition texts (its : list item) : list Z := concat (item_text <$> its).
(** The time with its microseconds, uncached, and everything that is streamed. *)
Definition log_line (st : statement) : list Z :=
  date (st_now st) ++ [32] ++
  texts (cstr (log_level_name (st_level st)) :: errno_items (st_errno st) ++ st_items st ++ tail_items st).

Fixpoint log_lines (loglevel : LogLevel) (sts : list statement) : list (list Z) * bool :=
  match sts with
  | [] => ([], false)
  | st :: sts =>
      if enabled loglevel (st_level st) then
        if bool_decide (st_level st = FATAL) then ([log_line st], true)
        else let '(lines, aborted) := log_lines loglevel sts in (log_line st :: lines, aborted)
      else log_lines loglevel sts
  end.

(** A statement the logger can print: after the first second of 1970 and before
    the year 10000, and short enough for the array. *)
Record printable (st : statement) : Prop := {
  pr_time : kUsPerSec <= us_ (st_now st) < year_10000 * kUsPerSec;
  pr_items : Forall item_wf (st_items st);
  pr_fits : zlen (log_line st) < klogBufferLen;
}.

(** The cache holds nothing yet, or the text of its second. *)
Record cache_ok (th : ThreadLog) : Prop := {
  co_time : zlen (t_time th) = 64;
  co_buffer : zlen (t_buffer th) = klogBufferLen;
  co_text : t_last_second th = 0 ∨
    (0 <= t_last_second th < year_10000 ∧ ztake 17 (t_time th) = second_text (gmtime (t_last_second th)));
}.

Lemma emit_all_fits its out :
  zlen out + zlen (texts its) < klogBufferLen → emit_all out its = Some (out ++ texts its).
Proof using.
  revert out. unfold texts. induction its as [|it its IH]; intros out Hz; cbn [fmap list_fmap concat emit_all] in *.
  { by rewrite app_nil_r. }
  rewrite zlen_app in Hz. pose proof (zlen_nonneg (item_text it)). pose proof (zlen_nonneg (concat (item_text <$> its))).
  assert (emit out it = Some (out ++ item_text it)) as ->.
  { unfold emit. destruct (is_number it); by rewrite bool_decide_true by lia. }
  cbn [mbind option_bind]. rewrite IH by (rewrite zlen_app; lia). by rewrite <-app_assoc.
Qed.
Lemma put_all_fits its s out :
  wrote s out → Forall item_wf its → zlen out + zlen (texts its) < klogBufferLen →
  ∃ s', put_all its s = Ret s' ∧ wrote s' (out ++ texts its).
Proof using. intros. apply (put_all_emit its s out); auto using emit_all_fits. Qed.
End logger.

(** ** The cached time *)
Lemma snprintf_start mem n text :
  zlen mem = n → 0 < n < 2 ^ 64 → zlen text < n →
  ∃ mem', snprintf mem 0 n text = Ret mem' ∧ zlen mem' = n ∧ ztake (zlen text) mem' = text.
Proof.
  intros Hm Hn Ht. unfold snprintf. rewrite u64_small by (unfold is_u64; lia).
  rewrite bool_decide_false by lia. rewrite (ztake_ge (n - 1)) by lia.
  pose proof (zlen_nonneg text). assert (Hz : zlen (text ++ [0]) = zlen text + 1) by (rewrite zlen_app; done).
  unfold memcpy. rewrite bool_decide_true by lia. eexists. split; [done|].
  rewrite ztake_0, (ztake_ge (zlen (text ++ [0]))) by lia. cbn [app].
  split; [rewrite zlen_app, zlen_zdrop by lia; lia|]. rewrite <-app_assoc. by apply ztake_app_all.
Qed.

Lemma cached_time_ok seconds th :
  cache_ok th → 1 <= seconds < year_10000 →
  ∃ time, cached_time seconds th = Ret (time, seconds) ∧ zlen time = 64 ∧ ztake 17 time = second_text (gmtime seconds).
Proof.
  intros [Ht Hb Hc] Hs. unfold cached_time. cbv zeta.
  destruct (second_text_read (gmtime seconds) []) as [Hl _]; [apply gmtime_ok|apply gmtime_year; lia|].
  case_bool_decide as Hne.
  - destruct (snprintf_start (t_time th) 64 (second_text (gmtime seconds))) as (time & E & Hlen & Htext); [done|lia|lia|].
    exists time. rewrite Hl in Htext. rewrite (bind_Ret_step _ _ _ E), (bind_Ret_step _ _ _ (cpp_assert_true _ Hl)). done.
  - exists (t_time th). rewrite Hne. destruct Hc as [E|[_ E]]; [lia|done].
Qed.

(** The two pieces of the time. *)
Lemma time_pieces time fus stream text :
  wrote stream [] → zlen time = 64 → ztake 17 time = text → zlen text = 17 → zlen fus = 8 →
  ∃ s, put_all [Piece (mk_sp time 0 17); Piece (mk_sp fus 0 8)] stream = Ret s ∧ wrote s (text ++ fus).
Proof.
  intros Hw Hlen Htext Hl Hf.
  assert (E : texts [Piece (mk_sp time 0 17); Piece (mk_sp fus 0 8)] = text ++ fus).
  { unfold texts. cbn [fmap list_fmap concat item_text]. unfold AsString. cbn [length_ ptr_ sp_mem].
    by rewrite !zdrop_0, app_nil_r, Htext, ztake_ge by lia. }
  rewrite <-E. apply (put_all_fits _ stream []); [done| |].
  - rewrite !Forall_cons. unfold item_wf, sp_wf. cbn [length_ ptr_ sp_mem]. split_and!; (lia || constructor).
  - rewrite E, zlen_app, zlen_nil, Hl, Hf. done.
Qed.

Lemma FormatTime_ok now th stream :
  cache_ok th → kUsPerSec <= us_ now < year_10000 * kUsPerSec → wrote stream [] →
  ∃ time last s, FormatTime now th stream = Ret (time, last, s) ∧ zlen time = 64 ∧
    0 <= last < year_10000 ∧ ztake 17 time = second_text (gmtime last) ∧ wrote s (date now ++ [32]).
Proof.
  intros Hc Hr Hw. destruct (date_ok now) as (Ed & _); [unfold kUsPerSec in *; lia|].
  unfold FormatTime, us. cbv zeta. rewrite Z.quot_div_nonneg, Z.rem_mod_nonneg by (unfold kUsPerSec in *; lia).
  assert (Hs : 1 <= us_ now / kUsPerSec < year_10000) by (unfold kUsPerSec in *; Z.to_euclidean_division_equations; lia).
  assert (Hu : 0 <= us_ now mod kUsPerSec < 10 ^ 6) by (apply Z.mod_pos_bound; done).
  revert Ed Hs Hu. generalize (us_ now / kUsPerSec) (us_ now mod kUsPerSec). intros seconds u Ed Hs Hu.
  destruct (cached_time_ok seconds th Hc Hs) as (time & -> & Hlen & Htext). cbn [mbind result_bind].
  destruct (second_text_read (gmtime seconds) []) as [Hl _]; [apply gmtime_ok|apply gmtime_year; lia|].
  destruct (fmt_zero_field 6 u) as [Fl _]; [lia|done|].
  assert (Hf : zlen ([46] ++ fmt_zero 6 u ++ [32]) = 8) by (rewrite !zlen_app, Fl; done).
  assert (Hfmt : Fmt ([46] ++ fmt_zero 6 u ++ [32]) = Ret ([46] ++ fmt_zero 6 u ++ [32]))
    by (unfold Fmt; by rewrite cpp_assert_true by lia).
  rewrite (bind_Ret_step _ _ _ Hfmt), (bind_Ret_step _ _ _ (cpp_assert_true _ Hf)).
  destruct (time_pieces time _ stream _ Hw Hlen Htext Hl Hf) as (s & -> & Hws). cbn [mbind result_bind].
  exists time, seconds, s. split_and!; [done|done|lia|lia|done|]. rewrite Ed, <-!app_assoc. exact Hws.
Qed.

Lemma line_texts_app a b : texts (a ++ b) = texts a ++ texts b.
Proof. unfold texts. by rewrite fmap_app, concat_app. Qed.

Section lines.
Context (strerror_tl : Z → list Z).

Lemma log_statement_ok loglevel st th :
  cache_ok th → printable strerror_tl st →
  ∃ th', log_statement strerror_tl loglevel st th =
      Ret (th', if enabled loglevel (st_level st)
                then Some (log_line strerror_tl st, bool_decide (st_level st = FATAL)) else None) ∧ cache_ok th'.
Proof.
  intros Hc [Hr Hi Hfit]. unfold log_statement. destruct (enabled loglevel (st_level st)); [|by exists th].
  set (L := log_line strerror_tl st) in Hfit.
  assert (EL : L = date (st_now st) ++ [32] ++ texts [cstr (log_level_name (st_level st))] ++
    texts (errno_items strerror_tl (st_errno st)) ++ texts (st_items st) ++ texts (tail_items st)).
  { unfold L, log_line. rewrite (line_texts_app [_] (_ ++ _) : texts (_ :: _) = _), !line_texts_app. done. }
  assert (HL := Hfit). rewrite EL, !zlen_app in HL.
  pose proof (zlen_nonneg (texts (errno_items strerror_tl (st_errno st)))) as Z1.
  pose proof (zlen_nonneg (texts (st_items st))) as Z2. pose proof (zlen_nonneg (texts (tail_items st))) as Z3.
  unfold Logger_new.
  destruct (FormatTime_ok (st_now st) th (LogStream_new (t_buffer th)) Hc Hr) as (time & last & s & -> & Ht & Hlast & Htext & Hw).
  { split; [apply Hc|done|discriminate|apply ztake_0]. }
  cbn [mbind result_bind].
  destruct (put_all_fits _ s _ Hw (proj2 (Forall_singleton item_wf (cstr (log_level_name (st_level st)))) I)) as (s1 & -> & Hw1);
    [rewrite zlen_app; lia|]. cbn [mbind result_bind].
  assert (∃ s2, (if bool_decide (st_errno st ≠ 0)
     then put_all [cstr (strerror_tl (st_errno st)); cstr (bytes_of " (errno="); Signed (st_errno st); cstr (bytes_of ") ")] s1
     else Ret s1) = Ret s2 ∧ wrote s2 (((date (st_now st) ++ [32]) ++ texts [cstr (log_level_name (st_level st))]) ++
       texts (errno_items strerror_tl (st_errno st)))) as (s2 & -> & Hw2).
  { unfold errno_items in *. case_bool_decide; [|exists s1; split; [done|]; by rewrite app_nil_r].
    apply put_all_fits; [done|repeat constructor|]. rewrite !zlen_app in *. lia. }
  cbn [mbind result_bind stream_ filename_ line_ func_ level_].
  destruct (put_all_fits (st_items st) s2 _ Hw2 Hi) as (s3 & -> & Hw3); [rewrite !zlen_app; lia|].
  cbn [mbind result_bind]. unfold Logger_delete. cbn [stream_ filename_ line_ func_ level_].
  destruct (put_all_fits (tail_items st) s3 _ Hw3) as (s4 & Hput & Hw4); [repeat constructor|rewrite !zlen_app; lia|].
  unfold tail_items in Hput. rewrite Hput. cbn [mbind result_bind].
  exists (mk_thread time last (g_logbuffer s4)). split; [|split; cbn [t_time t_buffer t_last_second]; [done|apply Hw4|right; done]].
  assert (Eline : ztake (log_length s4) (log_buffer s4) = L).
  { unfold log_length, log_buffer. rewrite (wr_cur _ _ Hw4), (wr_text _ _ Hw4), EL. by rewrite <-!app_assoc. }
  by rewrite Eline.
Qed.

Lemma log_statements_ok loglevel sts th :
  cache_ok th → Forall (printable strerror_tl) sts →
  ∃ th', log_statements strerror_tl loglevel sts th =
    Ret (th', (log_lines strerror_tl loglevel sts).1, (log_lines strerror_tl loglevel sts).2) ∧ cache_ok th'.
Proof.
  intros Hc Hp. revert th Hc. induction Hp as [|st sts Hst _ IH]; intros th Hc; cbn [log_statements log_lines]; [by exists th|].
  destruct (log_statement_ok loglevel st th Hc Hst) as (th1 & -> & Hc1). cbn [mbind result_bind].
  destruct (enabled loglevel (st_level st)); [|by apply IH].
  destruct (bool_decide (st_level st = FATAL)); [by exists th1|].
  destruct (IH th1 Hc1) as (th2 & -> & Hc2). cbn [mbind result_bind]. exists th2.
  destruct (log_lines strerror_tl loglevel sts) as [lines aborted]. done.
Qed.
End lines.

(** C25: any sequence of [printable] log statements, at times in any order, on
    a new thread hands to the output exactly the reference lines of the
    enabled statements, in order: the date with microseconds, the level, the
    error text, the operands, the place, the routine and the thread.  The
    cached second makes no difference, and the first fatal statement is the
    last: after its line the program is flushed and aborted.  Printable means
    that the time lies after the first second of 1970 and before the year
    10000, that the slices among the operands are well-formed, and that the
    whole line has less than 65536 bytes: beyond that text is dropped, and a
    number that does not fit moves the write position past the array
    ([number_overflow]). *)
Theorem logger_refines strerror_tl loglevel sts :
  Forall (printable strerror_tl) sts →
  ∃ th, log_statements strerror_tl loglevel sts ThreadLog_new =
    Ret (th, (log_lines strerror_tl loglevel sts).1, (log_lines strerror_tl loglevel sts).2).
Proof.
  intros Hp. destruct (log_statements_ok strerror_tl loglevel sts ThreadLog_new) as (th & E & _); [|done|by exists th].
  split; [done|apply zlen_replicate|by left].
Qed.

Definition sample_place : Place := mk_place (bytes_of "main_routine") 1 (bytes_of "main_thread") (bytes_of "77").
Definition sample_statement (level : LogLevel) (errno us : Z) (text : list Z) : statement :=
  mk_statement level errno (mk_timestamp us) (bytes_of "a.cc") 12 (bytes_of "f") sample_place [Str text; Signed (-3)].
Definition sample_statements : list statement :=
  [sample_statement DEBUG 0 1709210096000789 (bytes_of "off"); sample_statement INFO 0 1709210096000789 (bytes_of "one ");
   sample_statement FATAL 2 1709210096999999 (bytes_of "two "); sample_statement WARN 0 1709210096000001 (bytes_of "never")].

Lemma logger_refines_witness :
  ∃ th, log_statements (λ _, bytes_of "No such file") INFO sample_statements ThreadLog_new =
    Ret (th, [bytes_of "20240229 12:34:56.000789 INFO  one -3 - a.cc:12:f - main_routine:1 - main_thread:77" ++ [10];
              bytes_of "20240229 12:34:56.999999 FATAL No such file (errno=2) two -3 - a.cc:12:f - main_routine:1 - main_thread:77" ++ [10]],
         true).
Proof.
  destruct (logger_refines (λ _, bytes_of "No such file") INFO sample_statements) as (th & E).
  - unfold sample_statements. rewrite !Forall_cons, Forall_nil.
    split_and!; [split..|done]; first [split; [vm_compute; discriminate|vm_compute; reflexivity] | vm_compute; reflexivity | repeat constructor].
  - exists th. rewrite E. vm_compute. reflexivity.
Defined.

(** ** Statements of the program *)

(** What a statement of a routine finds: the level, the variables of the
    thread, the array the dumps of the thread share, the clock, where the
    statement stands and who runs it. *)
Record LogCtx : Type := mk_ctx {
  lc_level : LogLevel;
  lc_thread : ThreadLog;
  lc_ext : list Z;
  lc_now : Timestamp;
  lc_file : list Z;
  lc_line : Z;
  lc_func : list Z;
  lc_place : Place;
}.
(** [LOG_INFO << items]: the line goes to the output; what is left is that the
    statement came to its end. *)
Definition LOG_INFO (lc : LogCtx) (items : list item) : result unit :=
  _ ← log_statement (λ _, [])
        (lc_level lc) (mk_statement INFO 0 (lc_now lc) (lc_file lc) (lc_line lc) (lc_func lc) (lc_place lc) items)
        (lc_thread lc);
  Ret tt.
(** The clock is in the range of the date, the arrays have their size, and the
    names of the place have at most 2000 bytes. *)
Record lc_ok (lc : LogCtx) : Prop := {
  lk_thread : cache_ok (lc_thread lc);
  lk_ext : zlen (lc_ext lc) = klogBufferLen;
  lk_now : kUsPerSec <= us_ (lc_now lc) < year_10000 * kUsPerSec;
  lk_line : 0 <= lc_line lc < 10 ^ 9;
  lk_id : is_u64 (routineid (lc_place lc));
  lk_names : zlen (lc_file lc) + zlen (lc_func lc) + zlen (routine_name (lc_place lc)) +
    zlen (threadname (lc_place lc)) + zlen (tidstring (lc_place lc)) <= 2000;
}.
(** How much text a statement can print on top of time, level and place. *)
Definition max_log : Z := 63000.

Lemma zlen_cstr s : zlen (item_text (cstr s)) <= zlen s.
Proof.
  cbn [item_text cstr]. rewrite zlen_ztake_min by (apply std_find_range). unfold strlen.
  assert (std_find (s ++ [0]) 0 < zlen (s ++ [0])) by (apply std_find_in, elem_of_app; right; by left).
  rewrite zlen_app in *. change (zlen [0]) with 1 in *. lia.
Qed.

Lemma LOG_INFO_ok lc items :
  lc_ok lc → Forall item_wf items → zlen (texts items) <= max_log → LOG_INFO lc items = Ret tt.
Proof.
  intros [Hc _ Hn Hl Hi Hp] Hw Hz. unfold LOG_INFO. set (st := mk_statement _ _ _ _ _ _ _ _).
  destruct (log_statement_ok (λ _, []) (lc_level lc) st (lc_thread lc) Hc) as (th & -> & _); [|done].
  split; [exact Hn|exact Hw|]. destruct (date_ok (lc_now lc)) as (_ & Hd & _); [unfold kUsPerSec in *; lia|].
  unfold log_line, tail_items, errno_items. cbn [st st_now st_items st_level st_errno st_file st_line st_func st_place].
  rewrite bool_decide_false by (intros Hx; by apply Hx). cbn [app].
  unfold max_log, klogBufferLen in *. unfold texts in *.
  cbn [fmap list_fmap concat]. rewrite fmap_app, concat_app. cbn [fmap list_fmap concat].
  rewrite !zlen_app.
  pose proof (zlen_cstr (lc_file lc)). pose proof (zlen_cstr (lc_func lc)). unfold is_u64 in Hi.
  assert (zlen (decimal (lc_line lc)) <= 9) by (apply (decimal_length 9); lia).
  assert (zlen (decimal (routineid (lc_place lc))) <= 20) by (apply (decimal_length 20); lia).
  cbn [item_text]. unfold signed_decimal. rewrite bool_decide_false by lia.
  rewrite zlen_cons, !zlen_app, zlen_nil, Hd.
  change (zlen (item_text (cstr (log_level_name INFO)))) with 6. change (zlen (item_text (cstr (bytes_of " - ")))) with 3.
  change (zlen (item_text (cstr (bytes_of ":")))) with 1. change (zlen (item_text (cstr [10]))) with 1.
  lia.
Qed.

Definition sample_ctx : LogCtx :=
  mk_ctx INFO ThreadLog_new (replicate (Z.to_nat klogBufferLen) 0) (mk_timestamp 1709210096000789)
    (bytes_of "a.cc") 12 (bytes_of "f") sample_place.
Lemma sample_ctx_ok : lc_ok sample_ctx.
Proof.
  split.
  - split; [done|apply zlen_replicate|by left].
  - apply zlen_replicate.
  - by split.
  - by split.
  - by split.
  - done.
Qed.

(** ** A statement inside a statement *)

(** All streams of a thread share one array: when an operand of a statement is
    computed by a call that logs a line of its own, the outer line starts with
    the beginning of the inner one instead of its own. *)
Theorem nested_line g its1 inner its2 :
  zlen g = klogBufferLen → Forall item_wf its1 → Forall item_wf inner → Forall item_wf its2 →
  zlen (texts its1) <= zlen (texts inner) → zlen (texts inner) < klogBufferLen →
  zlen (texts its1) + zlen (texts its2) < klogBufferLen →
  ∃ s1 s2 s3, put_all its1 (LogStream_new g) = Ret s1 ∧
    put_all inner (LogStream_new (g_logbuffer s1)) = Ret s2 ∧
    put_all its2 (mk_log (g_logbuffer s2) (cur_ s1)) = Ret s3 ∧
    ztake (log_length s3) (log_buffer s3) = ztake (zlen (texts its1)) (texts inner) ++ texts its2.
Proof.
  intros Hg Hw1 Hwi Hw2 Hle Hi Hsum. pose proof (zlen_nonneg (texts its1)). pose proof (zlen_nonneg (texts its2)).
  assert (Hnew : ∀ g, zlen g = klogBufferLen → wrote (LogStream_new g) []) by (split; [done|done|discriminate|apply ztake_0]).
  destruct (put_all_fits its1 _ [] (Hnew g Hg) Hw1) as (s1 & E1 & [A1 C1 F1 T1]); [rewrite zlen_nil; lia|].
  destruct (put_all_fits inner _ [] (Hnew _ A1) Hwi) as (s2 & E2 & [A2 C2 F2 T2]); [rewrite zlen_nil; lia|]. cbn [app] in *.
  assert (Hp : zlen (ztake (zlen (texts its1)) (texts inner)) = zlen (texts its1)) by (apply zlen_ztake; lia).
  assert (Hmid : wrote (mk_log (g_logbuffer s2) (cur_ s1)) (ztake (zlen (texts its1)) (texts inner))).
  { split; cbn [g_logbuffer cur_]; [done|lia|lia|]. rewrite Hp.
    apply (f_equal (ztake (zlen (texts its1)))) in T2. by rewrite ztake_ztake in T2 by lia. }
  destruct (put_all_fits its2 _ _ Hmid Hw2) as (s3 & E3 & Hw3); [lia|]. exists s1, s2, s3. split_and!; [done..|].
  unfold log_length, log_buffer. by rewrite (wr_cur _ _ Hw3), (wr_text _ _ Hw3).
Qed.

Lemma nested_line_witness :
  ∃ s1 s2 s3, put_all [Str [79; 85; 84]] (LogStream_new (replicate (Z.to_nat klogBufferLen) 0)) = Ret s1 ∧
    put_all [Str [105; 110; 110; 101; 114]] (LogStream_new (g_logbuffer s1)) = Ret s2 ∧
    put_all [Signed 7] (mk_log (g_logbuffer s2) (cur_ s1)) = Ret s3 ∧
    ztake (log_length s3) (log_buffer s3) = [105; 110; 110] ++ [55].
Proof.
  apply (nested_line (replicate (Z.to_nat klogBufferLen) 0) [Str [79; 85; 84]] [Str [105; 110; 110; 101; 114]] [Signed 7]).
  - apply zlen_replicate.
  - repeat constructor.
  - repeat constructor.
  - repeat constructor.
  - vm_compute. discriminate.
  - vm_compute. reflexivity.
  - vm_compute. reflexivity.
Defined.
