(* ===== verification/LogFile.v ===== *)
(** * Log files: kernel/log/{append_file,log_file}.{h,cc}

    [AppendFile] writes with [fwrite] until everything is taken or the stream
    has an error; [LogFile] starts a new file when the current one is too long
    or the day is over.  A file is the text its stream has taken and the part
    of it that has been flushed; closing flushes.  What [fwrite] takes, what
    [fopen] can open and the clock are parameters; the counter [calls] numbers
    the uses of the clock and of [fwrite].  File names are the second in which
    the file was opened: the other parts of a name never change, and names of
    different seconds differ ([log_file_name_inj]).

    The theorem: the files, read in order, are the lines that were appended,
    whatever the rolls; no two files have the same name; and [Flush] leaves
    nothing unwritten. *)

From Stdlib Require Import ZArith Lia Bool.
From stdpp Require Import base numbers relations list sorting strings.
From S2P Require Import Prelude Types Format Timestamp.

(** ** The contract of a log output *)
Class LogOutput (O : Type) := {
  lo_ok : O → Prop;
  lo_text : O → list Z;
  lo_disk : O → list Z;
  lo_append : O → list Z → result O;
  lo_flush : O → result O;
  lo_append_law o l :
    lo_ok o → ∃ o', lo_append o l = Ret o' ∧ lo_ok o' ∧ lo_text o' = lo_text o ++ l;
  lo_flush_law o :
    lo_ok o → ∃ o', lo_flush o = Ret o' ∧ lo_ok o' ∧ lo_text o' = lo_text o ∧ lo_disk o' = lo_text o;
}.

(** ** AppendFile *)
Record AppendFile : Type := mk_append {
  opened : Z;
  taken : list Z;
  flushed : list Z;
  written_ : Z;
}.

(** One [fwrite]: how many bytes there is room for, and [ferror] after it. *)
Record fwrite_result : Type := mk_fwrite {
  fw_room : Z;
  fw_error : bool;
}.
Definition fw_count (r : fwrite_result) (remain : Z) : Z := Z.max 0 (Z.min (fw_room r) remain).

Definition AppendFile_new (filename : Z) (fopen : Z → bool) : result AppendFile :=
  _ ← cpp_assert (fopen filename);
  Ret (mk_append filename [] [] 0).

(** [while (wn != len)]; the file gets what an unsuccessful call took. *)
Fixpoint append_loop (answers : list fwrite_result) (logline : list Z) (wn : Z) (file : list Z)
    : result (list Z * Z) :=
  if bool_decide (wn = zlen logline) then Ret (file, wn)
  else
    match answers with
    | [] => OutOfFuel
    | r :: answers =>
        let remain := zlen logline - wn in
        let n := fw_count r remain in
        let file := file ++ ztake n (zdrop wn logline) in
        if bool_decide (n ≠ remain) && fw_error r then Ret (file, wn)
        else append_loop answers logline (wn + n) file
    end.
Definition file_Append (answers : list fwrite_result) (logline : list Z) (f : AppendFile) : result AppendFile :=
  '(file, wn) ← append_loop answers logline 0 (taken f);
  Ret (mk_append (opened f) file (flushed f) (written_ f + wn)).
Definition file_Flush (f : AppendFile) : AppendFile := mk_append (opened f) (taken f) (taken f) (written_ f).

(** ** LogFile *)
Definition kRollPerSeconds_ : Z := 60 * 60 * 24.
Definition period (now : Z) : Z := Z.quot now kRollPerSeconds_ * kRollPerSeconds_.

Section log_file.
Context (rollSize_ flushInterval_ checkEveryN_ : Z).
Context (clock : nat → Z) (fopen : Z → bool) (fwrite : nat → Z → list fwrite_result).

(** [closed]: the files before the current one, oldest first. *)
Record LogFile : Type := mk_log {
  closed : list AppendFile;
  file_ : option AppendFile;
  count_ : Z;
  startOfPeriod_ : Z;
  lastRoll_ : Z;
  lastFlush_ : Z;
  calls : nat;
}.

Definition open_files (file : option AppendFile) : list AppendFile :=
  match file with Some x => [x] | None => [] end.

(** The old file is closed when the new one takes its place. *)
Definition RollFile (f : LogFile) : result (LogFile * bool) :=
  let now := clock (calls f) in
  let start := period now in
  if bool_decide (now > lastRoll_ f) then
    new ← AppendFile_new now fopen;
    Ret (mk_log (closed f ++ (file_Flush <$> open_files (file_ f))) (Some new) (count_ f) start now now (S (calls f)), true)
  else
    Ret (mk_log (closed f) (file_ f) (count_ f) (startOfPeriod_ f) (lastRoll_ f) (lastFlush_ f) (S (calls f)), false).
Definition LogFile_new : result LogFile :=
  '(f, _) ← RollFile (mk_log [] None 0 0 0 0 0);
  Ret f.

Definition with_file (file : AppendFile) (count lastFlush : Z) (calls : nat) (f : LogFile) : LogFile :=
  mk_log (closed f) (Some file) count (startOfPeriod_ f) (lastRoll_ f) lastFlush calls.

Definition Flush (f : LogFile) : result LogFile :=
  match file_ f with
  | None => Fault NullDeref
  | Some file => Ret (with_file (file_Flush file) (count_ f) (lastFlush_ f) (calls f) f)
  end.

Definition LogFile_Append (logline : list Z) (f : LogFile) : result LogFile :=
  match file_ f with
  | None => Fault NullDeref
  | Some file =>
      file ← file_Append (fwrite (calls f) (zlen logline)) logline file;
      let f := with_file file (count_ f) (lastFlush_ f) (S (calls f)) f in
      if bool_decide (written_ file > rollSize_) then '(f, _) ← RollFile f; Ret f
      else
        let count := count_ f + 1 in
        if bool_decide (count >= checkEveryN_) then
          let now := clock (calls f) in
          let f := with_file file 0 (lastFlush_ f) (S (calls f)) f in
          if bool_decide (period now ≠ startOfPeriod_ f) then '(f, _) ← RollFile f; Ret f
          else if bool_decide (now - lastFlush_ f > flushInterval_) then
            Ret (with_file (file_Flush file) 0 now (calls f) f)
          else Ret f
        else Ret (with_file file count (lastFlush_ f) (calls f) f)
  end.

(** ** What the files hold *)
Definition all_files (f : LogFile) : list AppendFile := closed f ++ open_files (file_ f).
Definition log_text (f : LogFile) : list Z := concat (taken <$> all_files f).
Definition log_disk (f : LogFile) : list Z := concat (flushed <$> all_files f).

Fixpoint total (answers : list fwrite_result) : Z :=
  match answers with
  | [] => 0
  | r :: answers => Z.max 0 (fw_room r) + total answers
  end.
(** The streams never have an error and take what they are given, in however
    many calls. *)
Definition fwrite_ok : Prop :=
  ∀ k len, Forall (λ r, fw_error r = false) (fwrite k len) ∧ len <= total (fwrite k len).
Definition fopen_ok : Prop := ∀ name, fopen name = true.

Lemma append_loop_ok answers logline wn file :
  0 <= wn <= zlen logline → Forall (λ r, fw_error r = false) answers → zlen logline - wn <= total answers →
  append_loop answers logline wn file = Ret (file ++ zdrop wn logline, zlen logline).
Proof.
  revert wn file. induction answers as [|r answers IH]; intros wn file Hwn Hok Ht; cbn [append_loop total] in *.
  - assert (wn = zlen logline) as -> by lia. rewrite bool_decide_true by done.
    by rewrite zdrop_ge, app_nil_r by lia.
  - apply Forall_cons in Hok as [Hr Hok]. case_bool_decide as E.
    { subst wn. by rewrite zdrop_ge, app_nil_r by lia. }
    rewrite Hr, andb_false_r. set (n := fw_count r (zlen logline - wn)).
    assert (Hn : 0 <= n <= zlen logline - wn ∧ zlen logline - wn - n <= total answers).
    { unfold n, fw_count. assert (0 <= total answers) by (clear; induction answers; cbn; lia). lia. }
    rewrite IH by (done || lia). rewrite <-app_assoc, <-(zdrop_zdrop n wn) by lia. by rewrite ztake_zdrop.
Qed.

(** A well-formed log: a file is open, files are named by increasing times,
    and the closed ones are on disk. *)
Record log_ok (f : LogFile) : Prop := {
  lk_open : is_Some (file_ f);
  lk_names : StronglySorted Z.lt (opened <$> all_files f);
  lk_last : Forall (λ x, opened x <= lastRoll_ f) (all_files f);
  lk_closed : Forall (λ x, flushed x = taken x) (closed f);
}.

Lemma RollFile_ok f :
  fopen_ok → log_ok f →
  ∃ f' b, RollFile f = Ret (f', b) ∧ log_ok f' ∧ log_text f' = log_text f ∧
    (b = true → lastRoll_ f < clock (calls f)).
Proof.
  intros Hopen [[file Ef] Hn Hl Hc]. unfold RollFile. case_bool_decide as Hnow; cycle 1.
  { do 2 eexists. split; [done|]. split_and!; [by constructor; cbn; eauto|done|done]. }
  unfold AppendFile_new. rewrite Hopen. cbn [cpp_assert mbind result_bind]. do 2 eexists. split; [done|].
  unfold all_files in *. rewrite Ef in *. cbn [open_files] in *.
  change (file_Flush <$> [file]) with [file_Flush file].
  assert (Hmap : opened <$> (closed f ++ [file_Flush file]) = opened <$> (closed f ++ [file])) by (by rewrite !fmap_app).
  split_and!; [|unfold log_text, all_files; rewrite Ef; cbn; by rewrite !fmap_app, !concat_app, app_nil_r|lia].
  constructor; cbn [closed file_ lastRoll_ open_files all_files]; [done| | |].
  - unfold all_files. cbn [closed file_ open_files]. rewrite fmap_app, Hmap. apply StronglySorted_app_2; [|done|by repeat constructor].
    intros x y Hx Hy. apply list_elem_of_fmap in Hx as (z & -> & Hz). apply list_elem_of_singleton in Hy as ->.
    rewrite Forall_forall in Hl. specialize (Hl z Hz). cbn. lia.
  - unfold all_files. cbn [closed file_ open_files]. rewrite !Forall_app, Forall_singleton in *. destruct Hl as [Hl1 Hl2].
    rewrite Forall_singleton in *. cbn. split_and!; [|lia|lia].
    eapply Forall_impl; [exact Hl1|]. cbn. lia.
  - apply Forall_app. split; [done|]. by rewrite Forall_singleton.
Qed.

(** Storing a line or a counter keeps what matters. *)
Lemma log_ok_file f file file' count lastFlush n :
  log_ok f → file_ f = Some file → opened file' = opened file → log_ok (with_file file' count lastFlush n f).
Proof.
  intros [_ Hn Hl Hc] Ef Eo. unfold all_files in *. rewrite Ef in *. cbn [open_files] in *.
  constructor; unfold all_files; cbn [with_file closed file_ lastRoll_ open_files]; [done| | |done].
  - rewrite fmap_app in *. cbn in *. by rewrite Eo.
  - rewrite Forall_app, Forall_singleton in *. by rewrite Eo.
Qed.
Lemma log_text_file f file file' count lastFlush n l :
  file_ f = Some file → taken file' = taken file ++ l → log_text (with_file file' count lastFlush n f) = log_text f ++ l.
Proof.
  intros Ef Et. unfold log_text, all_files. rewrite Ef. cbn [with_file closed file_ open_files].
  rewrite !fmap_app, !concat_app. cbn. by rewrite Et, !app_nil_r, app_assoc.
Qed.

Lemma file_Append_ok k logline f :
  fwrite_ok → file_Append (fwrite k (zlen logline)) logline f =
  Ret (mk_append (opened f) (taken f ++ logline) (flushed f) (written_ f + zlen logline)).
Proof.
  intros H. destruct (H k (zlen logline)) as [Hok Ht]. unfold file_Append. pose proof (zlen_nonneg logline).
  rewrite append_loop_ok by (done || lia). by rewrite zdrop_0.
Qed.

Lemma LogFile_Append_ok logline f :
  fopen_ok → fwrite_ok → log_ok f →
  ∃ f', LogFile_Append logline f = Ret f' ∧ log_ok f' ∧ log_text f' = log_text f ++ logline.
Proof.
  intros Hopen Hfw Hf. destruct (lk_open _ Hf) as [file Ef]. unfold LogFile_Append. rewrite Ef.
  rewrite file_Append_ok by done. cbn [mbind result_bind]. set (file' := mk_append _ _ _ _).
  assert (Hok : ∀ c lf n, log_ok (with_file file' c lf n f)) by (intros; by eapply log_ok_file).
  assert (Ht : ∀ c lf n, log_text (with_file file' c lf n f) = log_text f ++ logline) by (intros; by eapply log_text_file).
  assert (Hroll : ∀ c lf n, ∃ f', ('(f, _) ← RollFile (with_file file' c lf n f); Ret f) = Ret f' ∧ log_ok f' ∧
    log_text f' = log_text f ++ logline).
  { intros c lf n. destruct (RollFile_ok (with_file file' c lf n f) Hopen (Hok c lf n)) as (f' & b & -> & ? & E & _).
    eexists. split_and!; [done..|]. by rewrite E. }
  case_bool_decide; [apply Hroll|]. case_bool_decide; [|eexists; split_and!; [done|apply Hok|apply Ht]].
  case_bool_decide; [apply Hroll|]. case_bool_decide; (eexists; split_and!; [done|try apply Hok|try apply Ht]).
  - by eapply (log_ok_file f).
  - by eapply (log_text_file f).
Qed.
Lemma Flush_ok f :
  log_ok f → ∃ f', Flush f = Ret f' ∧ log_ok f' ∧ log_text f' = log_text f ∧ log_disk f' = log_text f.
Proof.
  intros Hf. destruct (lk_open _ Hf) as [file Ef]. unfold Flush. rewrite Ef. eexists. split; [done|].
  split_and!; [by eapply log_ok_file| |].
  - erewrite log_text_file; [apply app_nil_r|done|]. by rewrite app_nil_r.
  - unfold log_disk, log_text, all_files. rewrite Ef. cbn [with_file closed file_ open_files].
    rewrite !fmap_app, !concat_app. cbn. f_equal. f_equal. apply list_fmap_ext.
    intros i x Hx. by apply (Forall_lookup_1 _ _ _ _ (lk_closed _ Hf) Hx).
Qed.
Lemma LogFile_new_ok :
  fopen_ok → 0 < clock 0 → ∃ f, LogFile_new = Ret f ∧ log_ok f ∧ log_text f = [].
Proof.
  intros Hopen Hc. unfold LogFile_new, RollFile. cbn [calls lastRoll_]. rewrite bool_decide_true by lia.
  unfold AppendFile_new. rewrite Hopen. cbn. eexists. split; [done|]. split; [|done].
  constructor; cbn; [done|by repeat constructor| |done]. rewrite Forall_singleton. cbn. lia.
Qed.

(** Lines, and flushes between them. *)
Inductive log_op : Type :=
  | OpLine (line : list Z)
  | OpFlush.
Fixpoint run_log (ops : list log_op) (f : LogFile) : result LogFile :=
  match ops with
  | [] => Ret f
  | OpLine line :: ops => f ← LogFile_Append line f; run_log ops f
  | OpFlush :: ops => f ← Flush f; run_log ops f
  end.
Definition lines (ops : list log_op) : list Z :=
  concat ((λ o, match o with OpLine line => line | OpFlush => [] end) <$> ops).

Lemma run_log_ok ops f :
  fopen_ok → fwrite_ok → log_ok f →
  ∃ f', run_log ops f = Ret f' ∧ log_ok f' ∧ log_text f' = log_text f ++ lines ops.
Proof.
  intros Hopen Hfw. revert f. induction ops as [|[line|] ops IH]; intros f Hf; cbn [run_log].
  - exists f. split_and!; [done..|]. cbn. by rewrite app_nil_r.
  - destruct (LogFile_Append_ok line f Hopen Hfw Hf) as (f1 & -> & H1 & E1). cbn [mbind result_bind].
    destruct (IH f1 H1) as (f2 & -> & H2 & E2). eexists. split_and!; [done..|].
    by rewrite E2, E1, <-app_assoc.
  - destruct (Flush_ok f Hf) as (f1 & -> & H1 & E1 & _). cbn [mbind result_bind].
    destruct (IH f1 H1) as (f2 & -> & H2 & E2). eexists. split_and!; [done..|]. by rewrite E2, E1.
Qed.
End log_file.

(** C24: whatever lines and flushes a log is given and whenever it rolls, with
    opens that succeed, streams that take what they are given and a clock that
    is positive at first: nothing fails, the texts of its
    files in order are the lines in order, no two files were opened in the same
    second, so no name is used twice, and after [Flush] all of it is on disk. *)
Theorem log_files_keep_lines rollSize flushInterval checkEveryN clock fopen fwrite ops :
  fopen_ok fopen → fwrite_ok fwrite → 0 < clock 0%nat →
  ∃ f0 f f', LogFile_new clock fopen = Ret f0 ∧
    run_log rollSize flushInterval checkEveryN clock fopen fwrite ops f0 = Ret f ∧
    log_text f = lines ops ∧ StronglySorted Z.lt (opened <$> all_files f) ∧
    Flush f = Ret f' ∧ log_disk f' = lines ops.
Proof.
  intros Hopen Hfw Hc. destruct (LogFile_new_ok clock fopen Hopen Hc) as (f0 & E0 & H0 & T0).
  destruct (run_log_ok rollSize flushInterval checkEveryN clock fopen fwrite ops f0 Hopen Hfw H0) as (f & E & H & Tx).
  destruct (Flush_ok f H) as (f' & E' & _ & _ & D). exists f0, f, f'. rewrite T0 in Tx.
  split_and!; [done|done|done|apply H|done|by rewrite D].
Qed.

(** A clock that advances a second with every use, and streams that take one
    byte less than asked first. *)
Definition sample_clock (n : nat) : Z := 1000 + Z.of_nat n.
Definition sample_fwrite (n : nat) (len : Z) : list fwrite_result := [mk_fwrite (len - 1) false; mk_fwrite len false].
Lemma sample_fwrite_ok : fwrite_ok sample_fwrite.
Proof. intros k len. split; [by repeat constructor|]. cbn. lia. Qed.

Lemma log_files_keep_lines_witness :
  ∃ f0 f, LogFile_new sample_clock (λ _, true) = Ret f0 ∧
    run_log 3 3 1024 sample_clock (λ _, true) sample_fwrite [OpLine [1; 2; 3; 4]; OpFlush; OpLine [5]] f0 = Ret f ∧
    log_text f = [1; 2; 3; 4; 5] ∧ length (all_files f) = 2%nat.
Proof.
  destruct (log_files_keep_lines 3 3 1024 sample_clock (λ _, true) sample_fwrite
    [OpLine [1; 2; 3; 4]; OpFlush; OpLine [5]]) as (f0 & f & f' & E0 & E & Tx & _).
  - intros name. reflexivity.
  - apply sample_fwrite_ok.
  - by vm_compute.
  - exists f0, f. split_and!; [exact E0|exact E|exact Tx|].
    vm_compute in E0. injection E0 as <-. vm_compute in E. by injection E as <-.
Defined.

(** Log files meet the contract. *)
Definition LogFile_output rollSize flushInterval checkEveryN clock fopen fwrite
    (Hopen : fopen_ok fopen) (Hfw : fwrite_ok fwrite) : LogOutput LogFile := {|
  lo_ok := log_ok;
  lo_text := log_text;
  lo_disk := log_disk;
  lo_append f l := LogFile_Append rollSize flushInterval checkEveryN clock fopen fwrite l f;
  lo_flush := Flush;
  lo_append_law f l := LogFile_Append_ok rollSize flushInterval checkEveryN clock fopen fwrite l f Hopen Hfw;
  lo_flush_law := Flush_ok;
|}.

(** ** The name of a file *)

(** ".%Y%m%d-%H%M%S." *)
Definition name_time (t : tm) : list Z :=
  [46] ++ fmt_zero 4 (tm_year t + 1900) ++ fmt_zero 2 (tm_mon t + 1) ++ fmt_zero 2 (tm_mday t) ++ [45] ++
  fmt_zero 2 (tm_hour t) ++ fmt_zero 2 (tm_min t) ++ fmt_zero 2 (tm_sec t) ++ [46].

(** [gethostname] may fail; [pid] is the number of the process. *)
Definition log_file_name (basename : list Z) (hostname : option (list Z)) (pid now : Z) : list Z :=
  basename ++ name_time (gmtime now) ++ default (bytes_of "unknownhost") hostname ++
  ([46] ++ decimal pid) ++ bytes_of ".log".

Definition read_name_time (l : list Z) : tm :=
  mk_tm (cut 1 4 l - 1900) (cut 5 2 l - 1) (cut 7 2 l) (cut 10 2 l) (cut 12 2 l) (cut 14 2 l).

Lemma name_time_read g rest :
  tm_wf g → 70 <= tm_year g <= 8099 → read_name_time (name_time g ++ rest) = g.
Proof.
  intros [Hmo Hmd Hh Hmi Hs] Hy.
  assert (month_length (tm_year g + 1900) (tm_mon g + 1) <= 31).
  { unfold month_length. destruct (leap _); repeat case_bool_decide; lia. }
  unfold name_time, read_name_time.
  pose proof (fmt_zero_field 4 (tm_year g + 1900) ltac:(lia) ltac:(lia)) as Fy.
  pose proof (fmt_zero_field 2 (tm_mon g + 1) ltac:(lia) ltac:(lia)) as Fm.
  pose proof (fmt_zero_field 2 (tm_mday g) ltac:(lia) ltac:(lia)) as Fd.
  pose proof (fmt_zero_field 2 (tm_hour g) ltac:(lia) ltac:(lia)) as Fh.
  pose proof (fmt_zero_field 2 (tm_min g) ltac:(lia) ltac:(lia)) as Fi.
  pose proof (fmt_zero_field 2 (tm_sec g) ltac:(lia) ltac:(lia)) as Fs.
  rewrite <-!app_assoc. set (l := [46] ++ _).
  assert (cut 1 4 l = tm_year g + 1900) as -> by (unfold l; cut_at).
  assert (cut 5 2 l = tm_mon g + 1) as -> by (unfold l; cut_at).
  assert (cut 7 2 l = tm_mday g) as -> by (unfold l; cut_at).
  assert (cut 10 2 l = tm_hour g) as -> by (unfold l; cut_at).
  assert (cut 12 2 l = tm_min g) as -> by (unfold l; cut_at).
  assert (cut 14 2 l = tm_sec g) as -> by (unfold l; cut_at).
  rewrite !Z.add_simpl_r. by destruct g.
Qed.

(** Files opened in different seconds have different names, which is why a file
    stands for its second above. *)
Lemma log_file_name_inj basename hostname pid t t' :
  0 <= t < year_10000 → 0 <= t' < year_10000 →
  log_file_name basename hostname pid t = log_file_name basename hostname pid t' → t = t'.
Proof.
  intros Ht Ht' E. unfold log_file_name in E. apply app_inv_head in E.
  destruct (gmtime_ok t) as [Hw Eg], (gmtime_ok t') as [Hw' Eg'].
  apply (f_equal read_name_time) in E. rewrite !name_time_read in E by auto using gmtime_year.
  by rewrite <-Eg, <-Eg', E.
Qed.
