(* ===== verification/AsyncLogging.v ===== *)
(** * Asynchronous logging: kernel/log/async_logging.{h,cc}, kernel/util/fixed_buffer.h

    Threads append lines to a shared buffer under a mutex; a writer thread
    takes the full buffers and the current one and writes them to a log output.
    The writer is a state machine whose steps are what it does between two
    points where other threads may run: taking the buffers, which is one
    critical section unless it waits for the condition in it, and writing them.
    The thread object with its assertions is that of Threads.
    The capacity of a buffer is the parameter of its template.  The output is
    any that meets the contract [LogOutput]; the text about dropped buffers,
    which has the time in it, is a parameter.

    The theorems: the writer's assertions hold and nothing fails, over any
    interleaving in which the log is stopped once and after [Start] has
    returned; while no buffer is dropped and lines fit a buffer, what was
    written followed by what is buffered is exactly what was appended; but what
    is appended while the writer writes its last round is never written. *)

From Stdlib Require Import ZArith Lia Bool.
From stdpp Require Import base numbers relations list.
From S2P Require Import Prelude Threads Types Buffer LogFile.

(** ** FixedBuffer *)
Record FixedBuffer : Type := mk_fixed {
  data_ : list Z;
  cur_ : Z;
}.

Definition FixedBuffer_new (SIZE : Z) : FixedBuffer := mk_fixed (replicate (Z.to_nat SIZE) 0) 0.
Definition avail (b : FixedBuffer) : Z := zlen (data_ b) - cur_ b.
Definition fixed_length (b : FixedBuffer) : Z := cur_ b.
Definition fixed_append (b : FixedBuffer) (buf : list Z) : result FixedBuffer :=
  if bool_decide (u64 (avail b) > zlen buf) then
    data ← memcpy (data_ b) (cur_ b) buf (zlen buf);
    Ret (mk_fixed data (cur_ b + zlen buf))
  else Ret b.
Definition reset (b : FixedBuffer) : FixedBuffer := mk_fixed (data_ b) 0.
Definition fixed_AsString (b : FixedBuffer) : list Z := ztake (cur_ b) (data_ b).

(** A buffer of the given capacity. *)
Definition fixed_wf (SIZE : Z) (b : FixedBuffer) : Prop := zlen (data_ b) = SIZE ∧ 0 <= cur_ b <= SIZE.

Lemma FixedBuffer_new_ok SIZE : 0 <= SIZE → fixed_wf SIZE (FixedBuffer_new SIZE) ∧ cur_ (FixedBuffer_new SIZE) = 0.
Proof. intros. unfold fixed_wf, FixedBuffer_new. cbn. rewrite zlen_replicate. lia. Qed.
Lemma fixed_append_ok SIZE b buf :
  0 <= SIZE < 2 ^ 64 → fixed_wf SIZE b →
  ∃ b', fixed_append b buf = Ret b' ∧ fixed_wf SIZE b' ∧
    fixed_AsString b' = fixed_AsString b ++ (if bool_decide (avail b > zlen buf) then buf else []).
Proof.
  intros HS [Hz Hc]. unfold fixed_append, avail in *. rewrite u64_small by (unfold is_u64; lia).
  pose proof (zlen_nonneg buf). case_bool_decide as Ha; [|exists b; by rewrite app_nil_r].
  unfold memcpy. rewrite bool_decide_true by lia. cbn [mbind result_bind]. eexists. split; [done|].
  unfold fixed_wf, fixed_AsString. cbn [data_ cur_]. rewrite (ztake_ge (zlen buf) buf) by lia. split.
  - rewrite !zlen_app, zlen_ztake, zlen_zdrop by lia. lia.
  - rewrite app_assoc, ztake_app_all; [done|]. rewrite zlen_app, zlen_ztake by lia. done.
Qed.
Lemma reset_ok SIZE b : fixed_wf SIZE b → fixed_wf SIZE (reset b) ∧ cur_ (reset b) = 0.
Proof. intros [? ?]. unfold fixed_wf. cbn. lia. Qed.

(** ** AsyncLogging *)
(** Where the writer is: [Entering] from its creation to the first assertion of
    [ThreadFunc]. *)
Inductive phase : Type := NotStarted | Entering | AtLoop | Waiting | Writing | Exited.

Section async.
Context {O : Type} {HO : LogOutput O}.
Context (SIZE : Z) (notice : nat → list Z).

(** A [BufferPtr] may be null.  [appended] and [dropped] record what happened:
    the lines, and whether buffers were dropped. *)
Record AsyncLogging : Type := mk_async {
  running_ : bool;
  thread_ : Thread;
  currentBuffer_ : option FixedBuffer;
  nextBuffer_ : option FixedBuffer;
  buffers_ : list (option FixedBuffer);
  output_ : O;
  writer : phase;
  newBuffer1 : option FixedBuffer;
  newBuffer2 : option FixedBuffer;
  buffersToWrite : list (option FixedBuffer);
  appended : list (list Z);
  dropped : bool;
}.

Definition AsyncLogging_new (output : O) : AsyncLogging :=
  mk_async false Thread_new (Some (FixedBuffer_new SIZE)) (Some (FixedBuffer_new SIZE)) [] output NotStarted None None [] [] false.

(** [Append], under the mutex; [Notify] only lets the writer go on. *)
Definition async_Append (logline : list Z) (s : AsyncLogging) : result AsyncLogging :=
  match currentBuffer_ s with
  | None => Fault NullDeref
  | Some current =>
      let '(buffers, current, next) :=
        if bool_decide (avail current > zlen logline) then (buffers_ s, current, nextBuffer_ s)
        else
          (buffers_ s ++ [Some current],
           match nextBuffer_ s with Some next => next | None => FixedBuffer_new SIZE end, None) in
      current ← fixed_append current logline;
      Ret (mk_async (running_ s) (thread_ s) (Some current) next buffers (output_ s) (writer s)
             (newBuffer1 s) (newBuffer2 s) (buffersToWrite s) (appended s ++ [logline]) (dropped s))
  end.

(** [Start], up to [wg_.Wait()], and what [ThreadFunc] does before its loop;
    [Start] returns after its [wg_.Done()]. *)
Definition async_Start (s : AsyncLogging) : result AsyncLogging :=
  thread ← thread_Start true (thread_ s);
  Ret (mk_async true thread (currentBuffer_ s) (nextBuffer_ s) (buffers_ s) (output_ s) Entering
         (newBuffer1 s) (newBuffer2 s) (buffersToWrite s) (appended s) (dropped s)).
Definition ThreadFunc_begin (s : AsyncLogging) : result AsyncLogging :=
  _ ← cpp_assert (running_ s);
  Ret (mk_async (running_ s) (thread_ s) (currentBuffer_ s) (nextBuffer_ s) (buffers_ s) (output_ s) AtLoop
         (Some (FixedBuffer_new SIZE)) (Some (FixedBuffer_new SIZE)) [] (appended s) (dropped s)).
(** [Stop], up to [pthread_join], which returns when the writer has ended. *)
Definition async_Stop (s : AsyncLogging) : result AsyncLogging :=
  thread ← thread_Join (thread_ s);
  Ret (mk_async false thread (currentBuffer_ s) (nextBuffer_ s) (buffers_ s) (output_ s) (writer s)
         (newBuffer1 s) (newBuffer2 s) (buffersToWrite s) (appended s) (dropped s)).

Definition with_writer (p : phase) (output : O) (s : AsyncLogging) : AsyncLogging :=
  mk_async (running_ s) (thread_ s) (currentBuffer_ s) (nextBuffer_ s) (buffers_ s) output p
    (newBuffer1 s) (newBuffer2 s) (buffersToWrite s) (appended s) (dropped s).

(** The critical section after the wait. *)
Definition collect (s : AsyncLogging) : AsyncLogging :=
  let buffers := buffers_ s ++ [currentBuffer_ s] in
  let '(next, new2) := match nextBuffer_ s with
                       | Some next => (Some next, newBuffer2 s)
                       | None => (newBuffer2 s, None)
                       end in
  mk_async (running_ s) (thread_ s) (newBuffer1 s) next (buffersToWrite s) (output_ s) Writing None new2 buffers
    (appended s) (dropped s).

(** [assert(newBuffer && newBuffer->length() == 0)] *)
Definition assert_empty (b : option FixedBuffer) : result unit :=
  cpp_assert (match b with Some b => bool_decide (fixed_length b = 0) | None => false end).

(** The loop's condition, up to the wait or through the critical section. *)
Definition loop_begin (s : AsyncLogging) : result AsyncLogging :=
  if running_ s then
    _ ← assert_empty (newBuffer1 s);
    _ ← assert_empty (newBuffer2 s);
    _ ← cpp_assert (bool_decide (length (buffersToWrite s) = 0%nat));
    Ret (if bool_decide (length (buffers_ s) = 0%nat) then with_writer Waiting (output_ s) s else collect s)
  else
    output ← lo_flush (output_ s);
    Ret (with_writer Exited output s).

Fixpoint write_loop (buffers : list (option FixedBuffer)) (output : O) : result O :=
  match buffers with
  | [] => Ret output
  | None :: _ => Fault NullDeref
  | Some b :: buffers => output ← lo_append output (fixed_AsString b); write_loop buffers output
  end.

(** [if (!newBuffer)]: the last of the written buffers is used again. *)
Definition refill (new : option FixedBuffer) (buffers : list (option FixedBuffer))
    : result (option FixedBuffer * list (option FixedBuffer)) :=
  match new with
  | Some b => Ret (Some b, buffers)
  | None =>
      match last buffers with
      | None => Fault AssertFailed
      | Some None => Fault NullDeref
      | Some (Some b) => Ret (Some (reset b), take (length buffers - 1) buffers)
      end
  end.

(** The rest of the round. *)
Definition write_round (s : AsyncLogging) : result AsyncLogging :=
  let buffers := buffersToWrite s in
  _ ← cpp_assert (negb (bool_decide (length buffers = 0%nat)));
  let drop := bool_decide (25 < length buffers)%nat in
  output ← (if drop then lo_append (output_ s) (notice (length buffers - 2)) else Ret (output_ s));
  let buffers := if drop then take 2 buffers else buffers in
  output ← write_loop buffers output;
  let buffers := if bool_decide (2 < length buffers)%nat then take 2 buffers else buffers in
  '(new1, buffers) ← refill (newBuffer1 s) buffers;
  '(new2, buffers) ← refill (newBuffer2 s) buffers;
  output ← lo_flush output;
  Ret (mk_async (running_ s) (thread_ s) (currentBuffer_ s) (nextBuffer_ s) (buffers_ s) output AtLoop new1 new2 []
         (appended s) (dropped s || drop)).

(** ** Interleavings *)

(** [Stop] is called after [Start] has returned. *)
Inductive async_step (s : AsyncLogging) : AsyncLogging → Prop :=
  | as_append logline s' : async_Append logline s = Ret s' → async_step s s'
  | as_start s' : async_Start s = Ret s' → async_step s s'
  | as_enter s' : writer s = Entering → ThreadFunc_begin s = Ret s' → async_step s s'
  | as_stop s' : writer s ≠ Entering → async_Stop s = Ret s' → async_step s s'
  | as_loop s' : writer s = AtLoop → loop_begin s = Ret s' → async_step s s'
  | as_wake : writer s = Waiting → async_step s (collect s)
  | as_write s' : writer s = Writing → write_round s = Ret s' → async_step s s'.
End async.
Arguments AsyncLogging : clear implicits.

(** ** Invariant *)
Section inv.
Context {O : Type} {HO : LogOutput O}.
Context (SIZE : Z) (notice : nat → list Z) (HS : 0 <= SIZE < 2 ^ 64) (t0 : list Z).
Implicit Types s : AsyncLogging O.

Definition text (b : option FixedBuffer) : list Z := from_option fixed_AsString [] b.
Definition texts (l : list (option FixedBuffer)) : list Z := concat (text <$> l).
#[local] Arguments texts l : simpl never.
Definition full (b : option FixedBuffer) : Prop := ∃ x, b = Some x ∧ fixed_wf SIZE x.
Definition empty (b : option FixedBuffer) : Prop := ∃ x, b = Some x ∧ fixed_wf SIZE x ∧ cur_ x = 0.

Lemma texts_app l k : texts (l ++ k) = texts l ++ texts k.
Proof. unfold texts. by rewrite fmap_app, concat_app. Qed.
Lemma texts_one b : texts [b] = text b.
Proof. unfold texts. cbn. apply app_nil_r. Qed.
Lemma empty_new : empty (Some (FixedBuffer_new SIZE)).
Proof. destruct (FixedBuffer_new_ok SIZE) as [? ?]; [lia|]. by eexists. Qed.
Lemma empty_full b : empty b → full b.
Proof. intros (x & ? & ? & _). by exists x. Qed.
Lemma empty_no_text b : empty b → text b = [].
Proof. intros (x & -> & _ & E). cbn. unfold fixed_AsString. by rewrite E. Qed.

(** What is not yet with the output. *)
Definition pending s : list Z := texts (buffersToWrite s) ++ texts (buffers_ s) ++ text (currentBuffer_ s).

Record async_inv s : Prop := {
  ai_current : full (currentBuffer_ s);
  ai_next : match nextBuffer_ s with Some _ => empty (nextBuffer_ s) | None => buffers_ s ≠ [] end;
  ai_buffers : Forall full (buffers_ s);
  ai_output : lo_ok (output_ s);
  ai_writer : match writer s with
              | NotStarted | Entering | Exited => buffersToWrite s = []
              | AtLoop | Waiting => empty (newBuffer1 s) ∧ empty (newBuffer2 s) ∧ buffersToWrite s = []
              | Writing => newBuffer1 s = None ∧ buffersToWrite s ≠ [] ∧ Forall full (buffersToWrite s) ∧
                  (empty (newBuffer2 s) ∨ newBuffer2 s = None ∧ (2 <= length (buffersToWrite s))%nat)
              end;
  ai_started : started_ (thread_ s) = true ↔ writer s ≠ NotStarted;
  ai_entering : writer s = Entering → running_ s = true ∧ joined_ (thread_ s) = false;
  ai_joined : joined_ (thread_ s) = true → started_ (thread_ s) = true ∧ running_ s = false;
  ai_text : dropped s = false → Forall (λ l, zlen l < SIZE) (appended s) →
    t0 ++ concat (appended s) = lo_text (output_ s) ++ pending s;
}.

Lemma async_inv_new o : lo_ok o → lo_text o = t0 → async_inv (AsyncLogging_new SIZE o).
Proof using HS.
  intros Ho Ht. pose proof empty_new. constructor; cbn; try done; [by apply empty_full|].
  intros _ _. by rewrite Ht.
Qed.

(** [Append] always succeeds. *)
Lemma async_Append_ok logline s :
  async_inv s → ∃ s', async_Append SIZE logline s = Ret s' ∧ async_inv s' ∧
    output_ s' = output_ s ∧ writer s' = writer s ∧ running_ s' = running_ s ∧ thread_ s' = thread_ s ∧ dropped s' = dropped s ∧
    buffersToWrite s' = buffersToWrite s ∧ appended s' = appended s ++ [logline].
Proof using HS.
  intros [(cur & Ec & Wc) Hn Hb Ho Hw Hst Hen Hjo Ht]. unfold async_Append. rewrite Ec. case_bool_decide as Ha.
  - destruct (fixed_append_ok SIZE cur logline HS Wc) as (b & -> & Wb & Eb). rewrite bool_decide_true in Eb by done.
    cbn [mbind result_bind]. eexists. split; [done|]. split_and!; try done. constructor; cbn; try done; [by eexists|].
    intros Hd Hl. rewrite Forall_app in Hl. specialize (Ht Hd (proj1 Hl)).
    unfold pending in *. rewrite concat_app. cbn in *. rewrite Ec in Ht. cbn in Ht.
    rewrite Eb, app_nil_r, (app_assoc t0), Ht. by rewrite <-!app_assoc.
  - set (next := match nextBuffer_ s with Some next => next | None => FixedBuffer_new SIZE end).
    assert (Hnext : empty (Some next)).
    { unfold next. destruct (nextBuffer_ s); [done|apply empty_new]. }
    pose proof (empty_no_text _ Hnext) as Tn. destruct Hnext as (x & [= <-] & Wn & Cn).
    destruct (fixed_append_ok SIZE next logline HS Wn) as (b & -> & Wb & Eb).
    cbn [mbind result_bind]. eexists. split; [done|]. split_and!; try done. constructor; cbn; try done; [by eexists|by destruct (buffers_ s)| |].
    + apply Forall_app. split; [done|]. rewrite Forall_singleton. by exists cur.
    + intros Hd Hl. rewrite Forall_app, Forall_singleton in Hl. destruct Hl as [Hl Hlen]. specialize (Ht Hd Hl).
      unfold avail in Eb. destruct Wn as [Zn _]. rewrite Zn, Cn, bool_decide_true in Eb by lia.
      unfold pending in *. cbn [buffersToWrite buffers_ currentBuffer_ appended output_] in *.
      rewrite concat_app, texts_app, texts_one. rewrite Ec in Ht. cbn in *.
      rewrite Eb, Tn, app_nil_r, (app_assoc t0), Ht. by rewrite <-!app_assoc.
Qed.

Lemma collect_ok s :
  async_inv s → writer s = AtLoop ∨ writer s = Waiting → async_inv (collect s).
Proof using HS.
  intros [Hc Hn Hb Ho Hw Hst Hen Hjo Ht] Hp. assert (Hw' : empty (newBuffer1 s) ∧ empty (newBuffer2 s) ∧ buffersToWrite s = []).
  { destruct Hp as [E|E]; by rewrite E in Hw. }
  destruct Hw' as (H1 & H2 & H3). unfold collect.
  assert (Hall : Forall full (buffers_ s ++ [currentBuffer_ s])).
  { apply Forall_app. split; [done|]. by rewrite Forall_singleton. }
  assert (Htext : dropped s = false → Forall (λ l, zlen l < SIZE) (appended s) →
    t0 ++ concat (appended s) = lo_text (output_ s) ++ texts (buffers_ s ++ [currentBuffer_ s]) ++ texts (buffersToWrite s) ++ text (newBuffer1 s)).
  { intros Hd Hl. rewrite (Ht Hd Hl). unfold pending. rewrite H3, texts_app, texts_one, (empty_no_text _ H1). cbn. by rewrite !app_nil_r. }
  assert (Hs : started_ (thread_ s) = true ↔ Writing ≠ NotStarted).
  { split; [done|]. intros _. apply Hst. by destruct Hp as [-> | ->]. }
  destruct (nextBuffer_ s) as [next|] eqn:En.
  - constructor; cbn; try done; [by apply empty_full|by rewrite H3|]. split_and!; [done|by destruct (buffers_ s)|done|by left].
  - destruct H2 as (y & Ey & Wy). rewrite Ey. constructor; cbn; try done; [by apply empty_full|by exists y|by rewrite H3|].
    split_and!; [done|by destruct (buffers_ s)|done|]. right. split; [done|]. rewrite length_app. cbn.
    destruct (buffers_ s); [done|cbn; lia].
Qed.

Lemma loop_begin_ok s :
  async_inv s → writer s = AtLoop →
  ∃ s', loop_begin s = Ret s' ∧ async_inv s' ∧ (running_ s = false → writer s' = Exited ∧
    lo_text (output_ s') = lo_text (output_ s) ∧ pending s' = pending s ∧ appended s' = appended s).
Proof using HS.
  intros Hs E. pose proof (ai_writer _ Hs) as Hw. rewrite E in Hw. destruct Hw as ((x & E1 & W1 & C1) & (y & E2 & W2 & C2) & E3).
  unfold loop_begin. destruct (running_ s) eqn:Er.
  - unfold assert_empty, fixed_length. rewrite E1, E2, E3, C1, C2. cbn [cpp_assert bool_decide mbind result_bind length].
    rewrite !(bool_decide_true (0 = 0)) by done. cbn [mbind result_bind]. eexists. split; [done|]. split; [|done].
    case_bool_decide; [|apply collect_ok; auto]. destruct Hs as [Hc Hn Hb Ho Hw Hst Hen Hjo Ht]. rewrite E in Hw.
    constructor; try done. cbn. split; [done|]. intros _. apply Hst. by rewrite E.
  - destruct (lo_flush_law (output_ s) (ai_output _ Hs)) as (o & -> & Ho' & Ht' & _). cbn [mbind result_bind].
    eexists. split; [done|]. split; [|done]. destruct Hs as [Hc Hn Hb Ho Hw Hst Hen Hjo Ht]. constructor; cbn; try done.
    + split; [done|]. intros _. apply Hst. by rewrite E.
    + intros. by rewrite Ht', Ht.
Qed.

(** ** Writing *)
Lemma write_loop_ok l o :
  lo_ok o → Forall full l → ∃ o', write_loop l o = Ret o' ∧ lo_ok o' ∧ lo_text o' = lo_text o ++ texts l.
Proof.
  intros Ho Hl. revert o Ho. induction Hl as [|b l (x & -> & _) _ IH]; intros o Ho; cbn [write_loop].
  { exists o. by rewrite app_nil_r. }
  destruct (lo_append_law o (fixed_AsString x) Ho) as (o1 & -> & H1 & E1). cbn [mbind result_bind].
  destruct (IH o1 H1) as (o2 & -> & H2 & E2). exists o2. split_and!; [done..|]. by rewrite E2, E1, <-app_assoc.
Qed.
Lemma refill_kept b l : empty b → refill b l = Ret (b, l).
Proof. by intros (x & -> & _). Qed.
Lemma refill_last l b : full b → ∃ b', refill None (l ++ [b]) = Ret (b', l) ∧ empty b'.
Proof.
  intros (x & -> & Wx). cbn [refill]. rewrite last_snoc, length_app, Nat.add_sub, take_app_length.
  eexists. split; [done|]. destruct (reset_ok SIZE x Wx). by eexists.
Qed.

(** The two buffers of the next round come from what was written. *)
Lemma refill_both b2 l :
  Forall full l → l ≠ [] → empty b2 ∨ b2 = None ∧ (2 <= length l)%nat →
  ∃ n1 n2 l1 l2, refill None l = Ret (n1, l1) ∧ refill b2 l1 = Ret (n2, l2) ∧ empty n1 ∧ empty n2.
Proof.
  intros Hl Hne H2. destruct l as [|b l _] using rev_ind; [done|].
  apply Forall_app in Hl as [Hl Hb]. rewrite Forall_singleton in Hb. destruct (refill_last l b Hb) as (n1 & E1 & Hn1).
  destruct H2 as [H2|[-> H2]].
  - exists n1, b2, l, l. split_and!; [done|by apply refill_kept|done..].
  - rewrite length_app in H2. cbn in H2. destruct l as [|c l _] using rev_ind; [cbn in H2; lia|].
    apply Forall_app in Hl as [_ Hc]. rewrite Forall_singleton in Hc. destruct (refill_last l c Hc) as (n2 & E2 & Hn2).
    by exists n1, n2, (l ++ [c]), l.
Qed.

Lemma writer_round_ok s :
  async_inv s → writer s = Writing →
  ∃ s', write_round notice s = Ret s' ∧ async_inv s' ∧ lo_disk (output_ s') = lo_text (output_ s') ∧
    writer s' = AtLoop ∧ running_ s' = running_ s ∧ appended s' = appended s ∧
    dropped s' = dropped s || bool_decide (25 < length (buffersToWrite s))%nat ∧
    pending s' = texts (buffers_ s) ++ text (currentBuffer_ s).
Proof using HS.
  intros [Hc Hn Hb Ho Hw Hst Hen Hjo Ht] E. rewrite E in Hw. destruct Hw as (E1 & Hne & Hall & H2).
  unfold write_round. rewrite E1. set (l := buffersToWrite s) in *. rewrite (bool_decide_false (length l = 0%nat)) by (by destruct l).
  cbn [negb cpp_assert mbind result_bind]. set (drop := bool_decide (25 < length l)%nat).
  assert (∃ o1, (if drop then lo_append (output_ s) (notice (length l - 2)) else Ret (output_ s)) = Ret o1 ∧ lo_ok o1 ∧
    (drop = false → o1 = output_ s)) as (o1 & -> & Ho1 & Eo1).
  { destruct drop; [|eauto]. destruct (lo_append_law (output_ s) (notice (length l - 2)) Ho) as (o1 & -> & ? & _). by exists o1. }
  cbn [mbind result_bind]. set (l1 := if drop then take 2 l else l).
  assert (H1 : Forall full l1 ∧ l1 ≠ [] ∧ (2 <= length l → 2 <= length l1)%nat).
  { unfold l1. destruct drop; [|done]. split_and!; [by apply Forall_take|by destruct l|rewrite length_take; lia]. }
  destruct H1 as (F1 & N1 & L1). destruct (write_loop_ok l1 o1 Ho1 F1) as (o2 & -> & Ho2 & Eo2). cbn [mbind result_bind].
  set (l2 := if bool_decide (2 < length l1)%nat then take 2 l1 else l1).
  assert (Hl2 : Forall full l2 ∧ l2 ≠ [] ∧ (2 <= length l1 → 2 <= length l2)%nat).
  { unfold l2. case_bool_decide; [|done]. split_and!; [by apply Forall_take|by destruct l1|rewrite length_take; lia]. }
  destruct Hl2 as (F2 & N2 & L2). destruct (refill_both (newBuffer2 s) l2) as (n1 & n2 & l3 & l4 & -> & R2 & Hn1 & Hn2);
    [done..|destruct H2 as [?|[? ?]]; [by left|right; split; [done|lia]]|].
  cbn [mbind result_bind]. rewrite R2. cbn [mbind result_bind].
  destruct (lo_flush_law o2 Ho2) as (o3 & -> & Ho3 & Eo3 & Ed). cbn [mbind result_bind].
  eexists. split; [done|]. split_and!; try done; [|by cbn; congruence].
  constructor; cbn; try done. { split; [done|]. intros _. apply Hst. by rewrite E. }
  intros [Hd Hdrop]%orb_false_iff Hlen. rewrite (Ht Hd Hlen), Eo3, Eo2, (Eo1 Hdrop).
  unfold pending. cbn. unfold l1. rewrite Hdrop. fold l. by rewrite <-!app_assoc.
Qed.

(** ** Starting and stopping *)
Lemma async_Start_ok s :
  async_inv s →
  if started_ (thread_ s) then async_Start s = Fault AssertFailed
  else ∃ s', async_Start s = Ret s' ∧ async_inv s' ∧ writer s' = Entering.
Proof.
  intros [Hc Hn Hb Ho Hw Hst Hen Hjo Ht]. unfold async_Start, thread_Start. destruct (started_ (thread_ s)) eqn:Es; [done|].
  assert (Ew : writer s = NotStarted) by (destruct (writer s); try done; by discriminate (proj2 Hst)).
  cbn [negb cpp_assert mbind result_bind]. eexists. split; [done|]. split; [|done]. rewrite Ew in Hw.
  assert (Ej : joined_ (thread_ s) = false) by (destruct (joined_ (thread_ s)); [by destruct Hjo|done]).
  constructor; cbn; try done. by rewrite Ej.
Qed.
Lemma ThreadFunc_begin_ok s :
  async_inv s → writer s = Entering → ∃ s', ThreadFunc_begin SIZE s = Ret s' ∧ async_inv s'.
Proof using HS.
  intros [Hc Hn Hb Ho Hw Hst Hen Hjo Ht] E. rewrite E in Hw. unfold ThreadFunc_begin. destruct (Hen E) as [-> Hj].
  cbn [cpp_assert mbind result_bind]. eexists. split; [done|]. pose proof empty_new. constructor; cbn; try done.
  - split; [done|]. intros _. apply Hst. by rewrite E.
  - by rewrite Hj.
  - intros Hd Hl. rewrite (Ht Hd Hl). unfold pending. cbn. by rewrite Hw.
Qed.
(** Stopping leaves everything else as it is. *)
Lemma async_Stop_ok s :
  if started_ (thread_ s) && negb (joined_ (thread_ s)) then
    ∃ s', async_Stop s = Ret s' ∧ running_ s' = false ∧ writer s' = writer s ∧ output_ s' = output_ s ∧
      buffersToWrite s' = buffersToWrite s ∧ buffers_ s' = buffers_ s ∧ currentBuffer_ s' = currentBuffer_ s ∧
      appended s' = appended s ∧ dropped s' = dropped s ∧ (async_inv s → writer s ≠ Entering → async_inv s')
  else async_Stop s = Fault AssertFailed.
Proof.
  unfold async_Stop, thread_Join. destruct (started_ (thread_ s)) eqn:Es; [|done]. destruct (joined_ (thread_ s)); [done|].
  cbn [andb negb cpp_assert mbind result_bind]. eexists. split; [done|]. split_and!; try done.
  intros [Hc Hn Hb Ho Hw Hst Hen Hjo Ht] Hne. constructor; cbn; try done. by rewrite Es in Hst.
Qed.

Lemma async_step_inv s s' : async_inv s → async_step SIZE notice s s' → async_inv s'.
Proof using HS.
  intros Hs [line s1 E|s1 E|s1 E1 E|s1 E1 E|s1 E1 E|E|s1 E1 E].
  - destruct (async_Append_ok line s Hs) as (s2 & E2 & H & _). congruence.
  - pose proof (async_Start_ok s Hs) as H. destruct (started_ (thread_ s)); [congruence|].
    destruct H as (s2 & E2 & H & _). congruence.
  - destruct (ThreadFunc_begin_ok s Hs E1) as (s2 & E2 & H). congruence.
  - pose proof (async_Stop_ok s) as H. destruct (_ && _); [|congruence].
    destruct H as (s2 & E2 & _ & _ & _ & _ & _ & _ & _ & _ & H). rewrite E in E2. injection E2 as <-. auto.
  - destruct (loop_begin_ok s Hs E1) as (s2 & E2 & H & _). congruence.
  - apply collect_ok; auto.
  - destruct (writer_round_ok s Hs E1) as (s2 & E2 & H & _). congruence.
Qed.
(** [Stop], unless the log is stopped already. *)
Lemma stopped_ok s :
  async_inv s → writer s ≠ NotStarted → writer s ≠ Entering →
  ∃ s', rtc (async_step SIZE notice) s s' ∧ async_inv s' ∧ running_ s' = false ∧ writer s' = writer s ∧ output_ s' = output_ s ∧
    buffersToWrite s' = buffersToWrite s ∧ buffers_ s' = buffers_ s ∧ currentBuffer_ s' = currentBuffer_ s ∧
    appended s' = appended s ∧ dropped s' = dropped s.
Proof.
  intros Hs Hn He. pose proof (async_Stop_ok s) as H. rewrite (proj2 (ai_started _ Hs) Hn) in H.
  destruct (joined_ (thread_ s)) eqn:Ej; cbn [andb negb] in H.
  - exists s. split; [done|]. destruct (ai_joined _ Hs Ej). by split_and!.
  - destruct H as (s' & E & H1 & H2 & H3 & H4 & H5 & H6 & H7 & H8 & H9). exists s'.
    split; [apply rtc_once; by apply as_stop|]. split_and!; auto.
Qed.
Lemma async_reachable_inv o s :
  lo_ok o → lo_text o = t0 → rtc (async_step SIZE notice) (AsyncLogging_new SIZE o) s → async_inv s.
Proof using HS.
  intros Ho Ht H. pose proof (async_inv_new o Ho Ht) as H0.
  induction H as [|x y z Hxy _ IH]; [done|]. apply IH. by eapply async_step_inv.
Qed.
End inv.


(** ** Stopping *)
Lemma async_Append_output {O} SIZE line (s s' : AsyncLogging O) :
  async_Append SIZE line s = Ret s' → writer s' = writer s ∧ output_ s' = output_ s ∧ thread_ s' = thread_ s.
Proof.
  unfold async_Append. destruct (currentBuffer_ s) as [cur|]; [|done]. case_bool_decide;
    intros (b & _ & [= <-])%bind_Ret; done.
Qed.
Lemma exited_output {O} `{!LogOutput O} SIZE notice (s s' : AsyncLogging O) :
  rtc (async_step SIZE notice) s s' → writer s = Exited → started_ (thread_ s) = true → output_ s' = output_ s.
Proof.
  induction 1 as [|x y z Hxy _ IH]; intros E Es; [done|].
  assert (Hy : writer y = Exited ∧ output_ y = output_ x ∧ started_ (thread_ y) = true).
  { destruct Hxy as [line y H|y H|y H _|y _ H|y H _|H|y H _]; [| |congruence| |congruence..].
    - destruct (async_Append_output _ _ _ _ H) as (? & ? & ?). split_and!; congruence.
    - unfold async_Start, thread_Start in H. by rewrite Es in H.
    - unfold async_Stop, thread_Join in H. rewrite Es in H. destruct (joined_ (thread_ x)); [done|]. by injection H as <-. }
  destruct Hy as (Hy1 & Hy2 & Hy3). by rewrite IH.
Qed.

(** A line that is appended while the writer writes, before the program
    stops the log, is lost: there is a run from every such state in which the
    writer ends, the text written is a beginning of what was appended before
    the line, and nothing that happens later writes any more. *)
Theorem stop_loses_lines {O} `{!LogOutput O} SIZE notice o (s : AsyncLogging O) logline :
  0 <= SIZE < 2 ^ 64 → lo_ok o → rtc (async_step SIZE notice) (AsyncLogging_new SIZE o) s →
  writer s = Writing → dropped s = false → (length (buffersToWrite s) <= 25)%nat →
  Forall (λ l, zlen l < SIZE) (appended s ++ [logline]) →
  ∃ s' rest, rtc (async_step SIZE notice) s s' ∧ writer s' = Exited ∧ appended s' = appended s ++ [logline] ∧
    lo_text o ++ concat (appended s) = lo_text (output_ s') ++ rest ∧
    (∀ s'', rtc (async_step SIZE notice) s' s'' → output_ s'' = output_ s').
Proof.
  intros HS Ho Hrun Hw Hd Hb Hl. pose proof (async_reachable_inv SIZE notice HS (lo_text o) o s Ho eq_refl Hrun) as Hs.
  destruct (async_Append_ok SIZE HS (lo_text o) logline s Hs) as (s1 & E1 & H1 & O1 & W1 & _ & _ & D1 & T1 & A1).
  destruct (stopped_ok SIZE notice (lo_text o) s1 H1) as (s2 & Hrun2 & H2 & R2 & W2 & O2 & T2 & B2 & C2 & A2 & D2); [congruence..|].
  destruct (writer_round_ok SIZE notice HS (lo_text o) s2 H2) as (s3 & E3 & H3 & _ & W3 & R3 & A3 & D3 & P3); [congruence|].
  destruct (loop_begin_ok SIZE HS (lo_text o) s3 H3 W3) as (s4 & E4 & H4 & X4). destruct X4 as (X4 & T4 & P4 & A4); [by rewrite R3|].
  rewrite A2 in A3. rewrite D2, T2 in D3. rewrite B2, C2 in P3.
  rewrite T1, D1, Hd, bool_decide_false in D3 by lia. cbn [orb] in D3.
  exists s4, (texts (buffers_ s) ++ text (currentBuffer_ s)). split_and!; [|done|congruence| |].
  - eapply rtc_l; [by eapply as_append|]. etrans; [exact Hrun2|].
    eapply rtc_l; [by apply as_write; [congruence|]|]. apply rtc_once. by apply as_loop.
  - rewrite T4. pose proof (ai_text _ _ _ Hs Hd (proj1 (proj1 (Forall_app _ _ _) Hl))) as Es.
    pose proof (ai_text _ _ _ H1) as Et. rewrite A1, D1 in Et. specialize (Et Hd Hl).
    pose proof (ai_text _ _ _ H3) as Eu. rewrite A3, A1, D3, P3 in Eu. specialize (Eu eq_refl Hl).
    rewrite concat_app in Et, Eu. cbn [concat] in Et, Eu. rewrite app_nil_r in Et, Eu. unfold pending in Es, Et.
    rewrite O1, T1, app_assoc, Es in Et. rewrite <-!app_assoc in Et. apply app_inv_head, app_inv_head in Et.
    rewrite <-Et, !app_assoc in Eu. apply app_inv_tail in Eu. by rewrite Eu, <-!app_assoc.
  - intros s'' H. eapply exited_output; [exact H|done|]. apply (ai_started _ _ _ H4). by rewrite X4.
Qed.

(** ** A log in files of at most three bytes, with buffers of eight *)
Definition sample_output : LogOutput LogFile :=
  LogFile_output 3 3 1024 sample_clock (λ _, true) sample_fwrite (λ _, eq_refl) sample_fwrite_ok.
Definition sample_log : LogFile := mk_log [] (Some (mk_append 1000 [] [] 0)) 0 (period 1000) 1000 1000 1.
Lemma sample_log_ok : log_ok sample_log.
Proof. constructor; cbn; [done|by repeat constructor|by repeat constructor|done]. Qed.

Section sample.
#[local] Existing Instance sample_output.
Definition sample_collected : AsyncLogging LogFile :=
  collect (mk_async true (mk_threadobj true false 0 false false Created)
    (Some (mk_fixed [1; 2; 0; 0; 0; 0; 0; 0] 2)) (Some (FixedBuffer_new 8)) [] sample_log Waiting
    (Some (FixedBuffer_new 8)) (Some (FixedBuffer_new 8)) [] [[1; 2]] false).

Lemma sample_collected_reachable : rtc (async_step 8 (λ _, [])) (AsyncLogging_new 8 sample_log) sample_collected.
Proof.
  eapply rtc_l; [by apply (as_append _ _ _ [1; 2])|]. eapply rtc_l; [by apply as_start|].
  eapply rtc_l; [by apply as_enter|].
  eapply rtc_l; [by apply as_loop|]. apply rtc_once. by apply as_wake.
Qed.


Lemma stop_loses_lines_witness :
  ∃ s' rest, writer s' = Exited ∧ appended s' = [[1; 2]; [3]] ∧ [1; 2] = lo_text (output_ s') ++ rest.
Proof.
  destruct (stop_loses_lines 8 (λ _, []) sample_log sample_collected [3]) as (s' & rest & _ & H1 & H2 & H3 & _).
  - lia.
  - apply sample_log_ok.
  - apply sample_collected_reachable.
  - reflexivity.
  - reflexivity.
  - cbn. lia.
  - by repeat constructor.
  - exists s', rest. split_and!; [exact H1|exact H2|exact H3].
Defined.
End sample.
