(* ===== verification/Crc32.v ===== *)
(** * CRC-32: kernel/crypto/util.{h,cc}

    The table of the source, the byte-wise loop of [CRC32], and two theorems:
    the table-driven loop computes the bit-wise reflected CRC-32 with
    polynomial 0xEDB88320, and it detects every corruption confined to one
    byte, which is what the STUN fingerprint check relies on.  [HmacSha1] is a
    call into OpenSSL and a parameter where it is used. *)

From Stdlib Require Import ZArith Lia Bool.
From stdpp Require Import base numbers list.
From S2P Require Import Prelude Types StringPiece.

Definition g_crc32_table : list Z :=
  [0x00000000; 0x77073096; 0xee0e612c; 0x990951ba; 0x076dc419; 0x706af48f;
   0xe963a535; 0x9e6495a3; 0x0edb8832; 0x79dcb8a4; 0xe0d5e91e; 0x97d2d988;
   0x09b64c2b; 0x7eb17cbd; 0xe7b82d07; 0x90bf1d91; 0x1db71064; 0x6ab020f2;
   0xf3b97148; 0x84be41de; 0x1adad47d; 0x6ddde4eb; 0xf4d4b551; 0x83d385c7;
   0x136c9856; 0x646ba8c0; 0xfd62f97a; 0x8a65c9ec; 0x14015c4f; 0x63066cd9;
   0xfa0f3d63; 0x8d080df5; 0x3b6e20c8; 0x4c69105e; 0xd56041e4; 0xa2677172;
   0x3c03e4d1; 0x4b04d447; 0xd20d85fd; 0xa50ab56b; 0x35b5a8fa; 0x42b2986c;
   0xdbbbc9d6; 0xacbcf940; 0x32d86ce3; 0x45df5c75; 0xdcd60dcf; 0xabd13d59;
   0x26d930ac; 0x51de003a; 0xc8d75180; 0xbfd06116; 0x21b4f4b5; 0x56b3c423;
   0xcfba9599; 0xb8bda50f; 0x2802b89e; 0x5f058808; 0xc60cd9b2; 0xb10be924;
   0x2f6f7c87; 0x58684c11; 0xc1611dab; 0xb6662d3d; 0x76dc4190; 0x01db7106;
   0x98d220bc; 0xefd5102a; 0x71b18589; 0x06b6b51f; 0x9fbfe4a5; 0xe8b8d433;
   0x7807c9a2; 0x0f00f934; 0x9609a88e; 0xe10e9818; 0x7f6a0dbb; 0x086d3d2d;
   0x91646c97; 0xe6635c01; 0x6b6b51f4; 0x1c6c6162; 0x856530d8; 0xf262004e;
   0x6c0695ed; 0x1b01a57b; 0x8208f4c1; 0xf50fc457; 0x65b0d9c6; 0x12b7e950;
   0x8bbeb8ea; 0xfcb9887c; 0x62dd1ddf; 0x15da2d49; 0x8cd37cf3; 0xfbd44c65;
   0x4db26158; 0x3ab551ce; 0xa3bc0074; 0xd4bb30e2; 0x4adfa541; 0x3dd895d7;
   0xa4d1c46d; 0xd3d6f4fb; 0x4369e96a; 0x346ed9fc; 0xad678846; 0xda60b8d0;
   0x44042d73; 0x33031de5; 0xaa0a4c5f; 0xdd0d7cc9; 0x5005713c; 0x270241aa;
   0xbe0b1010; 0xc90c2086; 0x5768b525; 0x206f85b3; 0xb966d409; 0xce61e49f;
   0x5edef90e; 0x29d9c998; 0xb0d09822; 0xc7d7a8b4; 0x59b33d17; 0x2eb40d81;
   0xb7bd5c3b; 0xc0ba6cad; 0xedb88320; 0x9abfb3b6; 0x03b6e20c; 0x74b1d29a;
   0xead54739; 0x9dd277af; 0x04db2615; 0x73dc1683; 0xe3630b12; 0x94643b84;
   0x0d6d6a3e; 0x7a6a5aa8; 0xe40ecf0b; 0x9309ff9d; 0x0a00ae27; 0x7d079eb1;
   0xf00f9344; 0x8708a3d2; 0x1e01f268; 0x6906c2fe; 0xf762575d; 0x806567cb;
   0x196c3671; 0x6e6b06e7; 0xfed41b76; 0x89d32be0; 0x10da7a5a; 0x67dd4acc;
   0xf9b9df6f; 0x8ebeeff9; 0x17b7be43; 0x60b08ed5; 0xd6d6a3e8; 0xa1d1937e;
   0x38d8c2c4; 0x4fdff252; 0xd1bb67f1; 0xa6bc5767; 0x3fb506dd; 0x48b2364b;
   0xd80d2bda; 0xaf0a1b4c; 0x36034af6; 0x41047a60; 0xdf60efc3; 0xa867df55;
   0x316e8eef; 0x4669be79; 0xcb61b38c; 0xbc66831a; 0x256fd2a0; 0x5268e236;
   0xcc0c7795; 0xbb0b4703; 0x220216b9; 0x5505262f; 0xc5ba3bbe; 0xb2bd0b28;
   0x2bb45a92; 0x5cb36a04; 0xc2d7ffa7; 0xb5d0cf31; 0x2cd99e8b; 0x5bdeae1d;
   0x9b64c2b0; 0xec63f226; 0x756aa39c; 0x026d930a; 0x9c0906a9; 0xeb0e363f;
   0x72076785; 0x05005713; 0x95bf4a82; 0xe2b87a14; 0x7bb12bae; 0x0cb61b38;
   0x92d28e9b; 0xe5d5be0d; 0x7cdcefb7; 0x0bdbdf21; 0x86d3d2d4; 0xf1d4e242;
   0x68ddb3f8; 0x1fda836e; 0x81be16cd; 0xf6b9265b; 0x6fb077e1; 0x18b74777;
   0x88085ae6; 0xff0f6a70; 0x66063bca; 0x11010b5c; 0x8f659eff; 0xf862ae69;
   0x616bffd3; 0x166ccf45; 0xa00ae278; 0xd70dd2ee; 0x4e048354; 0x3903b3c2;
   0xa7672661; 0xd06016f7; 0x4969474d; 0x3e6e77db; 0xaed16a4a; 0xd9d65adc;
   0x40df0b66; 0x37d83bf0; 0xa9bcae53; 0xdebb9ec5; 0x47b2cf7f; 0x30b5ffe9;
   0xbdbdf21c; 0xcabac28a; 0x53b39330; 0x24b4a3a6; 0xbad03605; 0xcdd70693;
   0x54de5729; 0x23d967bf; 0xb3667a2e; 0xc4614ab8; 0x5d681b02; 0x2a6f2b94;
   0xb40bbe37; 0xc30c8ea1; 0x5a05df1b; 0x2d02ef8d].

(** [n] rounds of [crc = table[(crc ^ *p++) & 0xFF] ^ (crc >> 8)]. *)
Fixpoint crc_loop (n : nat) (mem : list Z) (p crc : Z) : result Z :=
  match n with
  | O => Ret crc
  | S n =>
      b ← rd mem p;
      t ← rd g_crc32_table (Z.land (Z.lxor crc b) 0xFF);
      crc_loop n mem (p + 1) (Z.lxor t (Z.shiftr crc 8))
  end.

(** [while (size--)]: a negative [int] is counted down to the smallest one,
    whose decrement overflows. *)
Definition CRC32 (s : StringPiece) : result Z :=
  let size := sp_size s in
  if bool_decide (size < 0) then
    _ ← crc_loop (Z.to_nat (size + 2 ^ 31)) (sp_mem s) (ptr_ s) 0xFFFFFFFF;
    Fault SignedOverflow
  else
    crc ← crc_loop (Z.to_nat size) (sp_mem s) (ptr_ s) 0xFFFFFFFF;
    Ret (Z.lxor crc 0xFFFFFFFF).

(** ** The bit-wise reference *)
Definition crc_poly : Z := 0xEDB88320.
Definition bit_step (x : Z) : Z := Z.lxor (Z.shiftr x 1) (if Z.testbit x 0 then crc_poly else 0).
Definition byte_step (x : Z) : Z :=
  bit_step (bit_step (bit_step (bit_step (bit_step (bit_step (bit_step (bit_step x))))))).
Definition crc32_spec (bytes : list Z) : Z :=
  Z.lxor (foldl (λ crc b, byte_step (Z.lxor crc b)) 0xFFFFFFFF bytes) 0xFFFFFFFF.

(** ** Linearity *)
Lemma bit_step_lxor x y : bit_step (Z.lxor x y) = Z.lxor (bit_step x) (bit_step y).
Proof.
  unfold bit_step. rewrite Z.shiftr_lxor, Z.lxor_spec.
  destruct (Z.testbit x 0), (Z.testbit y 0); cbn [xorb];
    rewrite ?Z.lxor_0_r; apply Z.bits_inj'; intros i _; rewrite ?Z.lxor_spec;
    repeat match goal with |- context [Z.testbit ?a i] => destruct (Z.testbit a i) end; done.
Qed.

Lemma byte_step_lxor x y : byte_step (Z.lxor x y) = Z.lxor (byte_step x) (byte_step y).
Proof. unfold byte_step. by rewrite !bit_step_lxor. Qed.

(** Eight steps on a value without its low byte shift it down. *)
Lemma bit_step_even x : bit_step (2 * x) = x.
Proof.
  unfold bit_step. rewrite Z.testbit_even_0, Z.lxor_0_r.
  rewrite Z.shiftr_div_pow2 by lia. change (2 ^ 1) with 2. rewrite Z.mul_comm. by apply Z.div_mul.
Qed.
Lemma byte_step_high x : byte_step (Z.shiftl x 8) = x.
Proof.
  rewrite Z.shiftl_mul_pow2 by lia. unfold byte_step.
  replace (x * 2 ^ 8) with (2 * (2 * (2 * (2 * (2 * (2 * (2 * (2 * x)))))))) by lia.
  by rewrite !bit_step_even.
Qed.

(** The table holds the eight steps of every byte. *)
Lemma table_ok : g_crc32_table = byte_step <$> seqZ 0 256.
Proof. vm_compute. reflexivity. Qed.

Lemma table_lookup i : 0 <= i < 256 → rd g_crc32_table i = Ret (byte_step i).
Proof.
  intros Hi. apply rd_Ret. split; [lia|]. rewrite table_ok, list_lookup_fmap, lookup_seqZ_lt by lia.
  cbn. do 2 f_equal. lia.
Qed.

Lemma land_255 x : Z.land x 255 = x mod 256.
Proof. change 255 with (Z.ones 8). by rewrite Z.land_ones. Qed.

Lemma split_low_byte x : x = Z.lxor (Z.land x 255) (Z.shiftl (Z.shiftr x 8) 8).
Proof.
  apply Z.bits_inj'. intros i Hi. rewrite Z.lxor_spec, Z.land_spec.
  change 255 with (Z.ones 8). destruct (decide (i < 8)).
  - rewrite Z.ones_spec_low, Z.shiftl_spec_low, andb_true_r, xorb_false_r by lia. done.
  - rewrite Z.ones_spec_high, andb_false_r, xorb_false_l by lia.
    rewrite Z.shiftl_spec, Z.shiftr_spec by lia. f_equal. lia.
Qed.

Lemma byte_step_table x : byte_step x = Z.lxor (byte_step (Z.land x 255)) (Z.shiftr x 8).
Proof. rewrite (split_low_byte x) at 1. by rewrite byte_step_lxor, byte_step_high. Qed.

Lemma shiftr_small b n : 0 <= n → 0 <= b < 2 ^ n → Z.shiftr b n = 0.
Proof. intros. rewrite Z.shiftr_div_pow2 by lia. by apply Z.div_small. Qed.

Lemma table_read x : rd g_crc32_table (Z.land x 255) = Ret (byte_step (Z.land x 255)).
Proof. apply table_lookup. rewrite land_255. apply Z.mod_pos_bound. lia. Qed.

Lemma crc_loop_ok n mem p crc :
  0 <= p → p + Z.of_nat n <= zlen mem → bytes_ok (ztake (Z.of_nat n) (zdrop p mem)) →
  crc_loop n mem p crc = Ret (foldl (λ crc b, byte_step (Z.lxor crc b)) crc (ztake (Z.of_nat n) (zdrop p mem))).
Proof.
  revert p crc. induction n as [|n IH]; intros p crc Hp Hn Hb; [done|].
  destruct (lookup_lt_is_Some_2 mem (Z.to_nat p)) as [b Eb]; [unfold zlen in Hn; lia|].
  assert (E : ztake (Z.of_nat (S n)) (zdrop p mem) = b :: ztake (Z.of_nat n) (zdrop (p + 1) mem)).
  { unfold ztake, zdrop. rewrite (drop_S _ _ _ Eb), !Nat2Z.id. cbn [take].
    by replace (Z.to_nat (p + 1)) with (S (Z.to_nat p)) by lia. }
  rewrite E in *. apply bytes_ok_cons in Hb as [Hb Hrest]. cbn [crc_loop foldl].
  rewrite (proj2 (rd_Ret mem p b)) by done. cbn [mbind result_bind]. rewrite table_read.
  cbn [mbind result_bind]. rewrite IH by (done || lia). do 2 f_equal.
  rewrite (byte_step_table (Z.lxor crc b)), Z.shiftr_lxor, (shiftr_small b 8) by (unfold_u; lia).
  by rewrite Z.lxor_0_r.
Qed.

(** A round that reads outside the memory is a fault. *)
Lemma crc_loop_outside n mem p crc :
  (0 < n)%nat → ¬ (0 <= p ∧ p + Z.of_nat n <= zlen mem) → crc_loop n mem p crc = Fault OutOfBounds.
Proof.
  revert p crc. induction n as [|n IH]; intros p crc Hpos Hout; [lia|]. cbn [crc_loop].
  destruct (decide (0 <= p < zlen mem)) as [Hin|Hno].
  - destruct (lookup_lt_is_Some_2 mem (Z.to_nat p)) as [b Eb]; [unfold zlen in Hin; lia|].
    rewrite (proj2 (rd_Ret mem p b)) by (split; [lia|done]). cbn [mbind result_bind]. rewrite table_read.
    cbn [mbind result_bind]. apply IH; lia.
  - by rewrite rd_oob.
Qed.
Lemma crc_loop_total n mem p crc : (∃ r, crc_loop n mem p crc = Ret r) ∨ crc_loop n mem p crc = Fault OutOfBounds.
Proof.
  revert p crc. induction n as [|n IH]; intros p crc; [left; by exists crc|]. cbn [crc_loop].
  destruct (decide (0 <= p < zlen mem)) as [Hin|Hno]; [|right; by rewrite rd_oob].
  destruct (rd_in_bounds mem p Hin) as (b & ->). cbn [mbind result_bind]. rewrite table_read. cbn [mbind result_bind]. apply IH.
Qed.

Lemma CRC32_ok s :
  sp_wf s → bytes_ok (AsString s) → CRC32 s = Ret (crc32_spec (AsString s)).
Proof.
  intros (Hp & Hl & Hin) Hb. unfold CRC32, sp_size, AsString in *. rewrite bool_decide_false by lia.
  rewrite crc_loop_ok; rewrite ?Z2Nat.id by done; done.
Qed.

(** C33: on every slice inside its memory the table-driven [CRC32] reads only
    the slice, never indexes outside its table, and equals the bit-by-bit
    CRC-32 of the text; on a non-empty slice that is not inside its memory, or
    one of negative length, it is undefined. *)
Theorem CRC32_correct s :
  bytes_ok (AsString s) →
  (sp_wf s → CRC32 s = Ret (crc32_spec (AsString s))) ∧
  (¬ sp_wf s → length_ s ≠ 0 → ∃ f, CRC32 s = Fault f).
Proof.
  intros Hb. split; [intros Hs; by apply CRC32_ok|]. intros Hs Hl. unfold CRC32, sp_size. case_bool_decide as Hn.
  - destruct (crc_loop_total (Z.to_nat (length_ s + 2 ^ 31)) (sp_mem s) (ptr_ s) 4294967295) as [(r & ->)| ->]; eauto.
  - rewrite crc_loop_outside; [by eexists|lia|]. rewrite Z2Nat.id by lia. intros [??]. apply Hs. unfold sp_wf. lia.
Qed.

(** The check value of CRC-32: the text 123456789. *)
Lemma CRC32_correct_witness :
  CRC32 (StringPiece_string [49;50;51;52;53;54;55;56;57]) = Ret 0xCBF43926.
Proof.
  rewrite (proj1 (CRC32_correct (StringPiece_string [49;50;51;52;53;54;55;56;57])
    ltac:(rewrite AsString_string; bytes_tac)) (sp_wf_string _)).
  reflexivity.
Defined.

(** ** Range and error detection *)
Lemma lxor_range n a b : 0 < n → 0 <= a < 2 ^ n → 0 <= b < 2 ^ n → 0 <= Z.lxor a b < 2 ^ n.
Proof.
  intros Hn Ha Hb. split; [apply Z.lxor_nonneg; lia|].
  destruct (decide (Z.lxor a b = 0)) as [->|Hne]; [lia|].
  apply Z.log2_lt_pow2; [assert (0 <= Z.lxor a b) by (apply Z.lxor_nonneg; lia); lia|].
  eapply Z.le_lt_trans; [apply Z.log2_lxor; lia|].
  apply Z.max_lub_lt; [destruct (decide (a = 0)) as [->|]|destruct (decide (b = 0)) as [->|]];
    cbn [Z.log2]; try lia; apply Z.log2_lt_pow2; lia.
Qed.
Lemma lxor_u32 a b : is_u32 a → is_u32 b → is_u32 (Z.lxor a b).
Proof. apply lxor_range. lia. Qed.
Lemma lxor_u8 a b : is_u8 a → is_u8 b → is_u8 (Z.lxor a b).
Proof. apply lxor_range. lia. Qed.

Lemma bit_step_u32 x : is_u32 x → is_u32 (bit_step x).
Proof.
  intros Hx. unfold bit_step. apply lxor_u32.
  - unfold_u. rewrite Z.shiftr_div_pow2 by lia. split; [apply Z.div_pos; lia|].
    apply Z.div_lt_upper_bound; lia.
  - unfold_u. unfold crc_poly. destruct (Z.testbit x 0); lia.
Qed.

Lemma bit_step_top x : is_u32 x → Z.testbit (bit_step x) 31 = Z.testbit x 0.
Proof.
  intros Hx. unfold bit_step. rewrite Z.lxor_spec, Z.shiftr_spec by lia.
  rewrite (Z.bits_above_log2 x (31 + 1)).
  - cbn [xorb]. by destruct (Z.testbit x 0).
  - unfold_u. lia.
  - unfold_u. destruct (decide (x = 0)) as [->|]; [cbn; lia|]. apply Z.log2_lt_pow2; lia.
Qed.

(** A step loses no information: the bit shifted out is the new top bit. *)
Lemma bit_step_inj x y : is_u32 x → is_u32 y → bit_step x = bit_step y → x = y.
Proof.
  intros Hx Hy E.
  assert (E0 : Z.testbit x 0 = Z.testbit y 0) by (rewrite <-!bit_step_top by done; by rewrite E).
  unfold bit_step in E. rewrite E0 in E.
  assert (Es : Z.shiftr x 1 = Z.shiftr y 1).
  { apply (f_equal (λ z, Z.lxor z (if Z.testbit y 0 then crc_poly else 0))) in E.
    by rewrite !Z.lxor_assoc, !Z.lxor_nilpotent, !Z.lxor_0_r in E. }
  rewrite (Z.div_mod x 2), (Z.div_mod y 2) by lia.
  rewrite !Z.shiftr_div_pow2 in Es by lia. change (2 ^ 1) with 2 in Es. rewrite Es. f_equal.
  rewrite !Zmod_odd, <-!Z.bit0_odd. by rewrite E0.
Qed.

Lemma byte_step_u32 x : is_u32 x → is_u32 (byte_step x).
Proof. intros. unfold byte_step. by repeat apply bit_step_u32. Qed.
Lemma byte_step_inj x y : is_u32 x → is_u32 y → byte_step x = byte_step y → x = y.
Proof.
  intros Hx Hy. unfold byte_step.
  intros E. repeat (apply bit_step_inj in E; [|by repeat apply bit_step_u32..]). done.
Qed.

Lemma lxor_byte_u32 crc b : is_u32 crc → is_u8 b → is_u32 (Z.lxor crc b).
Proof. intros. apply lxor_u32; [done|]. unfold_u. lia. Qed.

Lemma crc_fold_u32 bytes crc :
  bytes_ok bytes → is_u32 crc → is_u32 (foldl (λ crc b, byte_step (Z.lxor crc b)) crc bytes).
Proof.
  intros Hb. revert crc. induction Hb; intros crc Hc; cbn; [done|].
  apply IHHb. by apply byte_step_u32, lxor_byte_u32.
Qed.

Lemma lxor_inj_l a x y : Z.lxor a x = Z.lxor a y → x = y.
Proof.
  intros E. apply (f_equal (Z.lxor a)) in E.
  by rewrite <-!Z.lxor_assoc, !Z.lxor_nilpotent, !Z.lxor_0_l in E.
Qed.

Lemma crc_fold_inj bytes c1 c2 :
  bytes_ok bytes → is_u32 c1 → is_u32 c2 →
  foldl (λ crc b, byte_step (Z.lxor crc b)) c1 bytes =
  foldl (λ crc b, byte_step (Z.lxor crc b)) c2 bytes → c1 = c2.
Proof.
  intros Hb. revert c1 c2. induction Hb as [|b bytes Hb _ IH]; intros c1 c2 H1 H2 E; [done|].
  cbn in E. apply IH in E; [|by apply byte_step_u32, lxor_byte_u32..].
  apply byte_step_inj in E; [|by apply lxor_byte_u32..].
  rewrite !(Z.lxor_comm _ b) in E. by apply lxor_inj_l in E.
Qed.

Lemma crc32_spec_u32 l : bytes_ok l → is_u32 (crc32_spec l).
Proof. intros. unfold crc32_spec. apply lxor_u32; [apply crc_fold_u32; [done|]|]; unfold_u; lia. Qed.

Lemma crc32_spec_byte pre b1 b2 post :
  bytes_ok pre → bytes_ok post → is_u8 b1 → is_u8 b2 →
  crc32_spec (pre ++ b1 :: post) = crc32_spec (pre ++ b2 :: post) → b1 = b2.
Proof.
  intros Hpre Hpost Hb1 Hb2 E. unfold crc32_spec in E.
  rewrite !(Z.lxor_comm _ 0xFFFFFFFF) in E. apply lxor_inj_l in E.
  rewrite !foldl_app in E. cbn [foldl] in E.
  assert (Hc : is_u32 (foldl (λ crc b, byte_step (Z.lxor crc b)) 0xFFFFFFFF pre)).
  { apply crc_fold_u32; [done|]. unfold_u. lia. }
  apply crc_fold_inj in E; [|done|by apply byte_step_u32, lxor_byte_u32..].
  apply byte_step_inj in E; [|by apply lxor_byte_u32..].
  by apply lxor_inj_l in E.
Qed.

(** Two texts of which one byte differs have different checksums, so a
    corruption confined to one byte is always detected. *)
Theorem CRC32_detects_byte_error pre b1 b2 post c1 c2 :
  bytes_ok pre → bytes_ok post → is_u8 b1 → is_u8 b2 → b1 ≠ b2 →
  CRC32 (StringPiece_string (pre ++ b1 :: post)) = Ret c1 →
  CRC32 (StringPiece_string (pre ++ b2 :: post)) = Ret c2 → c1 ≠ c2.
Proof.
  intros Hpre Hpost Hb1 Hb2 Hne.
  assert (∀ b, is_u8 b → bytes_ok (AsString (StringPiece_string (pre ++ b :: post)))).
  { intros. rewrite AsString_string, bytes_ok_app, bytes_ok_cons. done. }
  rewrite !CRC32_ok, !AsString_string by auto with baize.
  intros [= <-] [= <-] E. by apply crc32_spec_byte in E.
Qed.

Lemma CRC32_detects_byte_error_witness : 0xCBF43926 ≠ 2988999042.
Proof.
  apply (CRC32_detects_byte_error [49;50;51;52;53;54;55;56] 57 48 []);
    [bytes_tac|bytes_tac|unfold_u; lia|unfold_u; lia|lia|by vm_compute|by vm_compute].
Defined.
