(* ===== verification/InetAddress.v ===== *)
(** * Socket addresses: kernel/net/inet_address.{h,cc}

    The union of [sockaddr_in] and [sockaddr_in6] is its 28 bytes of storage:
    family at 0, port at 2, then the IPv4 address at 4, or flow information
    at 4, the IPv6 address at 8 and the scope id at 24.  Family and port lie
    at the same offsets in both members, which is what the accessors rely on.
    [inet_pton] and [inet_ntop] are calls into the C library. *)

From Stdlib Require Import ZArith Lia Bool.
From stdpp Require Import base numbers list.
From S2P Require Import Prelude Types StringPiece Format.

Definition InetAddress : Type := list Z.

Definition AF_INET : Z := 2.
Definition AF_INET6 : Z := 10.
Definition INADDR_ANY : Z := 0.
Definition INADDR_LOOPBACK : Z := 0x7F000001.
Definition sizeof_sockaddr_in : Z := 16.
Definition sizeof_sockaddr_in6 : Z := 28.
Definition in6addr_any : list Z := replicate 16 0.
Definition in6addr_loopback : list Z := replicate 15 0 ++ [1].

(** ** The members of the union, as the bytes they occupy *)
Definition sin_family (a : InetAddress) : Z := le_val (ztake 2 a).
Definition sin_port_mem (a : InetAddress) : list Z := ztake 2 (zdrop 2 a).
Definition sin_port (a : InetAddress) : Z := le_val (sin_port_mem a).
Definition sin_addr_mem (a : InetAddress) : list Z := ztake 4 (zdrop 4 a).
Definition sin6_addr_mem (a : InetAddress) : list Z := ztake 16 (zdrop 8 a).

Definition store (a : InetAddress) (off : Z) (bytes : list Z) : InetAddress :=
  ztake off a ++ bytes ++ zdrop (off + zlen bytes) a.

(** [MemoryZero] of either member. *)
Definition zero_addr6 : InetAddress := replicate 28 0.
Definition zero_addr (a : InetAddress) : InetAddress := store a 0 (replicate 16 0).

(** ** Constructors; the storage before them is arbitrary *)
Definition InetAddress_default : InetAddress := zero_addr6.

Section ip.
(** [inet_pton family ip]: the address bytes, or a failure. *)
Context (inet_pton : Z → list Z → option (list Z)).

Definition pton_into (a : InetAddress) (family off : Z) (ip : list Z) : InetAddress :=
  match inet_pton family ip with
  | Some bytes => store a off bytes
  | None => a
  end.

Definition InetAddress_ip (raw : InetAddress) (ip : list Z) (port : Z) (ipv6 : bool) : InetAddress :=
  if ipv6 || bool_decide (std_find ip 58 < zlen ip) then
    let a := zero_addr6 in
    let a := store a 0 (le_bytes 2 AF_INET6) in
    let a := store a 2 (le_bytes 2 (HostToNetwork16 port)) in
    pton_into a AF_INET6 8 ip
  else
    let a := zero_addr raw in
    let a := store a 0 (le_bytes 2 AF_INET) in
    let a := store a 2 (le_bytes 2 (HostToNetwork16 port)) in
    pton_into a AF_INET 4 ip.
End ip.

Definition InetAddress_port (raw : InetAddress) (port : Z) (loopback ipv6 : bool) : InetAddress :=
  if ipv6 then
    let a := zero_addr6 in
    let a := store a 0 (le_bytes 2 AF_INET6) in
    let ip := if loopback then in6addr_loopback else in6addr_any in
    let a := store a 8 ip in
    store a 2 (le_bytes 2 (HostToNetwork16 port))
  else
    let a := zero_addr raw in
    let a := store a 0 (le_bytes 2 AF_INET) in
    let ip := if loopback then INADDR_LOOPBACK else INADDR_ANY in
    let a := store a 4 (le_bytes 4 (HostToNetwork32 ip)) in
    store a 2 (le_bytes 2 (HostToNetwork16 port)).

(** From a [sockaddr_in], which fills the smaller member, or a [sockaddr_in6]. *)
Definition InetAddress_in (raw : InetAddress) (addr : list Z) : InetAddress := store raw 0 addr.
Definition InetAddress_in6 (addr6 : list Z) : InetAddress := store zero_addr6 0 addr6.

(** ** Accessors *)
Definition family (a : InetAddress) : Z := sin_family a.
Definition port (a : InetAddress) : Z := NetworkToHost16 (sin_port a).

(** [socklen_t] is 32 bits wide: [return -1] is its largest value. *)
Definition socklen (a : InetAddress) : Z :=
  if bool_decide (sin_family a = AF_INET) then sizeof_sockaddr_in
  else if bool_decide (sin_family a = AF_INET6) then sizeof_sockaddr_in6
  else u32 (-1).

(** [ip] and [ip_port]: 63 characters fit the buffers they print into. *)
Section text.
(** [inet_ntop family address]: the text, or a failure. *)
Context (inet_ntop : Z → list Z → option (list Z)).

Definition ip (a : InetAddress) : list Z :=
  if bool_decide (sin_family a = AF_INET) then default [] (inet_ntop AF_INET (sin_addr_mem a))
  else if bool_decide (sin_family a = AF_INET6) then default [] (inet_ntop AF_INET6 (sin6_addr_mem a))
  else [].

Definition ip_port (a : InetAddress) : list Z :=
  ztake 63
    (if bool_decide (sin_family a = AF_INET6) then [91] ++ ip a ++ [93; 58] ++ decimal (port a)
     else if bool_decide (sin_family a = AF_INET) then ip a ++ [58] ++ decimal (port a)
     else []).
End text.

Definition addr_wf (a : InetAddress) : Prop := zlen a = 28.

(** ** Stores into the union *)
Lemma zlen_store a off bytes :
  0 <= off → off + zlen bytes <= zlen a → zlen (store a off bytes) = zlen a.
Proof.
  intros. unfold store. pose proof (zlen_nonneg bytes).
  zlen_simp. rewrite zlen_ztake, zlen_zdrop; lia.
Qed.

(** The block just stored, and a block beside it. *)
Lemma block_store a off bytes n :
  0 <= off → off + zlen bytes <= zlen a → n = zlen bytes →
  ztake n (zdrop off (store a off bytes)) = bytes.
Proof.
  intros ?? ->. pose proof (zlen_nonneg bytes). unfold store.
  rewrite zdrop_app_all by (rewrite zlen_ztake; lia). by rewrite ztake_app_all.
Qed.

Lemma block_store_ne a off bytes i n :
  0 <= off → off + zlen bytes <= zlen a → 0 <= i → 0 <= n →
  i + n <= off ∨ off + zlen bytes <= i →
  ztake n (zdrop i (store a off bytes)) = ztake n (zdrop i a).
Proof.
  intros ?? ?? Hd. pose proof (zlen_nonneg bytes). unfold store. destruct Hd.
  - rewrite zdrop_app_le by (rewrite zlen_ztake; lia).
    rewrite zdrop_ztake by lia. rewrite ztake_app_le.
    + rewrite ztake_ztake by lia. done.
    + rewrite block_length; lia.
  - rewrite zdrop_app_ge by (rewrite zlen_ztake; lia). rewrite zlen_ztake by lia.
    rewrite zdrop_app_ge by lia. rewrite zdrop_zdrop by lia. do 2 f_equal. lia.
Qed.

Ltac store_len := repeat rewrite zlen_store; zlen_eval; (done || lia).

Lemma sin_family_block a : sin_family a = le_val (ztake 2 (zdrop 0 a)).
Proof. done. Qed.

Lemma zlen_zero_addr raw : addr_wf raw → zlen (zero_addr raw) = 28.
Proof. intros. unfold zero_addr. rewrite zlen_store; [done|lia|]. unfold addr_wf in *. zlen_eval. lia. Qed.

Lemma port_stored a p :
  sin_port_mem a = le_bytes 2 (HostToNetwork16 p) → port a = p mod 2 ^ 16.
Proof.
  intros E. unfold port, sin_port. rewrite E, le_val_le_bytes.
  unfold NetworkToHost16, HostToNetwork16. rewrite Z.mod_small by (apply le_val_range; auto with baize).
  apply (swap_swap 2).
Qed.

(** [inet_pton] writes 4 bytes for IPv4 and 16 for IPv6. *)
Definition pton_ok (inet_pton : Z → list Z → option (list Z)) : Prop :=
  ∀ fam ip bytes, inet_pton fam ip = Some bytes →
    zlen bytes = if bool_decide (fam = AF_INET) then 4 else 16.

Section constructors.
Context (inet_pton : Z → list Z → option (list Z)) (Hpton : pton_ok inet_pton).
Context (raw : InetAddress) (Hraw : addr_wf raw).

(** Family and port of an address whose last store was outside of them. *)
Lemma pton_into_block a fam off ip i n :
  zlen a = 28 → (fam = AF_INET ∧ off = 4) ∨ (fam = AF_INET6 ∧ off = 8) →
  0 <= i → 0 <= n → i + n <= 4 →
  zlen (pton_into inet_pton a fam off ip) = 28 ∧
  ztake n (zdrop i (pton_into inet_pton a fam off ip)) = ztake n (zdrop i a).
Proof using Hpton.
  intros Ha Hf Hi Hn Hin. unfold pton_into. destruct (inet_pton fam ip) as [bytes|] eqn:E; [|done].
  apply Hpton in E. destruct Hf as [[-> ->]|[-> ->]];
    first [rewrite bool_decide_true in E by done|rewrite bool_decide_false in E by (by vm_compute)];
    (split; [rewrite zlen_store; lia|apply block_store_ne; lia]).
Qed.

(** What the family of an address says of its size. *)
Lemma socklen_family a :
  socklen a = if bool_decide (family a = AF_INET) then 16 else if bool_decide (family a = AF_INET6) then 28 else 2 ^ 32 - 1.
Proof using. done. Qed.

(** The members the two constructors with a port store. *)
Lemma port_constructor p loopback (ipv6 : bool) :
  let a := InetAddress_port raw p loopback ipv6 in
  addr_wf a ∧ sin_port_mem a = le_bytes 2 (HostToNetwork16 p) ∧
  ztake 2 (zdrop 0 a) = le_bytes 2 (if ipv6 then AF_INET6 else AF_INET) ∧
  (if ipv6 then sin6_addr_mem a = if loopback then in6addr_loopback else in6addr_any
   else sin_addr_mem a = if loopback then [127; 0; 0; 1] else [0; 0; 0; 0]).
Proof using Hraw.
  pose proof (zlen_zero_addr raw Hraw) as Hz. pose proof (eq_refl : zlen zero_addr6 = 28) as Hz6.
  pose proof (zlen_le_bytes 2 (HostToNetwork16 p)) as Hp2.
  unfold InetAddress_port, addr_wf, sin_port_mem, sin6_addr_mem, sin_addr_mem. destruct ipv6, loopback; cbn zeta.
  all: rewrite !zlen_store by store_len.
  all: split_and!; [done|by apply block_store; [lia|store_len|]| |].
  all: rewrite !block_store_ne by store_len.
  all: rewrite block_store; try done; store_len.
Qed.
Lemma ip_constructor ip p (ipv6 : bool) :
  let v6 := ipv6 || bool_decide (58 ∈ ip) in
  let b := InetAddress_ip inet_pton raw ip p ipv6 in
  addr_wf b ∧ sin_port_mem b = le_bytes 2 (HostToNetwork16 p) ∧
  ztake 2 (zdrop 0 b) = le_bytes 2 (if v6 then AF_INET6 else AF_INET) ∧
  (if v6 then sin6_addr_mem b = default (replicate 16 0) (inet_pton AF_INET6 ip)
   else sin_addr_mem b = default (replicate 4 0) (inet_pton AF_INET ip)).
Proof using Hpton Hraw.
  cbn zeta. pose proof (zlen_zero_addr raw Hraw) as Hz. pose proof (eq_refl : zlen zero_addr6 = 28) as Hz6.
  pose proof (zlen_le_bytes 2 (HostToNetwork16 p)) as Hp2. unfold InetAddress_ip, addr_wf, sin_port_mem, sin6_addr_mem, sin_addr_mem.
  rewrite (bool_decide_ext (std_find ip 58 < zlen ip) (58 ∈ ip)) by apply std_find_in.
  destruct (ipv6 || bool_decide (58 ∈ ip)); cbn zeta.
  all: match goal with |- context [pton_into _ ?x ?f ?o ?i] =>
    assert (Hx : zlen x = 28) by store_len;
    destruct (pton_into_block x f o i 0 2) as [_ ->]; [done|auto|lia..|];
    destruct (pton_into_block x f o i 2 2) as [-> ->]; [done|auto|lia..|] end.
  all: split_and!; [done|by apply block_store; [lia|store_len|]| |].
  1, 3: rewrite block_store_ne, block_store; try done; store_len.
  all: unfold pton_into; destruct (inet_pton _ ip) as [bytes|] eqn:E; cbn [default from_option id].
  1, 3: apply Hpton in E;
    first [rewrite bool_decide_true in E by done|rewrite bool_decide_false in E by (by vm_compute)];
    apply block_store; [lia|rewrite Hx; lia|lia].
  all: rewrite !block_store_ne by store_len.
  - done.
  - unfold zero_addr, store. unfold ztake, zdrop. by rewrite take_0.
Qed.
(** Any bytes that fill one of the members. *)
Lemma in_constructor sa : zlen sa = 16 → addr_wf (InetAddress_in raw sa) ∧ ztake 16 (InetAddress_in raw sa) = sa.
Proof using Hraw.
  intros H. unfold InetAddress_in, addr_wf. split; [rewrite zlen_store; unfold addr_wf in *; lia|].
  pose proof (block_store raw 0 sa 16) as E. rewrite zdrop_0 in E. apply E; unfold addr_wf in *; lia.
Qed.
Lemma in6_constructor sa6 : zlen sa6 = 28 → InetAddress_in6 sa6 = sa6.
Proof using.
  intros H. pose proof (eq_refl : zlen zero_addr6 = 28) as Hz. pose proof (block_store zero_addr6 0 sa6 28) as E.
  rewrite zdrop_0, ztake_ge in E by (rewrite zlen_store; lia). apply E; lia.
Qed.

(** C34: what the constructors give.  With a port: the family that was asked
    for (or IPv6 when the text of the address has a colon), the port that reads
    back, [socklen] the size of the member of that family, and as address the
    wildcard or the loopback in network order, or what [inet_pton] gives for the
    text, zero when it fails.  From a [sockaddr_in] or a [sockaddr_in6]: exactly
    its bytes, and [socklen] the size of the member when its family is the one
    of the member.  The default constructor: no family, port 0, and the largest
    [socklen_t].  Assumed is that [inet_pton] writes 4 or 16 bytes. *)
Theorem InetAddress_constructed ip p loopback ipv6 sa sa6 :
  is_u16 p → zlen sa = 16 → zlen sa6 = 28 →
  let a := InetAddress_port raw p loopback ipv6 in
  let b := InetAddress_ip inet_pton raw ip p ipv6 in
  let v6 := ipv6 || bool_decide (58 ∈ ip) in
  (addr_wf a ∧ port a = p ∧ family a = (if ipv6 then AF_INET6 else AF_INET) ∧ socklen a = (if ipv6 then 28 else 16) ∧
   (if ipv6 then sin6_addr_mem a = if loopback then in6addr_loopback else in6addr_any
    else sin_addr_mem a = if loopback then [127; 0; 0; 1] else [0; 0; 0; 0])) ∧
  (addr_wf b ∧ port b = p ∧ family b = (if v6 then AF_INET6 else AF_INET) ∧ socklen b = (if v6 then 28 else 16) ∧
   (if v6 then sin6_addr_mem b = default (replicate 16 0) (inet_pton AF_INET6 ip)
    else sin_addr_mem b = default (replicate 4 0) (inet_pton AF_INET ip))) ∧
  (let c := InetAddress_in raw sa in
   addr_wf c ∧ ztake 16 c = sa ∧ (family c = AF_INET → socklen c = 16)) ∧
  (let d := InetAddress_in6 sa6 in addr_wf d ∧ d = sa6 ∧ (family d = AF_INET6 → socklen d = 28)) ∧
  (let e := InetAddress_default in addr_wf e ∧ family e = 0 ∧ port e = 0 ∧ socklen e = 2 ^ 32 - 1).
Proof using Hpton Hraw.
  intros Hp Hsa Hsa6 a b v6. rewrite <-(u16_small p) by done. unfold u16.
  assert (Hfam : ∀ (v : bool) (x : InetAddress),
    ztake 2 (zdrop 0 x) = le_bytes 2 (if v then AF_INET6 else AF_INET) →
    family x = (if v then AF_INET6 else AF_INET) ∧ socklen x = if v then 28 else 16).
  { intros v x E. rewrite socklen_family. unfold family. rewrite sin_family_block, E. by destruct v. }
  destruct (port_constructor p loopback ipv6) as (Ha1 & Ha2%port_stored & [Ha3 Ha4]%Hfam & Ha5).
  destruct (ip_constructor ip p ipv6) as (Hb1 & Hb2%port_stored & [Hb3 Hb4]%Hfam & Hb5).
  destruct (in_constructor sa Hsa) as [Hc1 Hc2]. rewrite in6_constructor by done. cbn zeta.
  split_and!; try done; intros E; by rewrite socklen_family, E.
Qed.
End constructors.

(** An [inet_pton] that knows one text address. *)
Definition pton_one (fam : Z) (ip : list Z) : option (list Z) :=
  if bool_decide (fam = AF_INET ∧ ip = [49; 46; 50; 46; 51; 46; 52]) then Some [1; 2; 3; 4] else None.

Lemma InetAddress_constructed_witness :
  port (InetAddress_ip pton_one zero_addr6 [49; 46; 50; 46; 51; 46; 52] 8080 false) = 8080.
Proof.
  refine (proj1 (proj2 (proj1 (proj2 (InetAddress_constructed pton_one _ zero_addr6 _
    [49; 46; 50; 46; 51; 46; 52] 8080 true false (replicate 16 0) zero_addr6 _ _ _))))).
  - intros fam ip bytes. unfold pton_one. case_bool_decide as H; [|discriminate].
    intros [= <-]. destruct H as [-> _]. reflexivity.
  - reflexivity.
  - unfold_u. lia.
  - reflexivity.
  - reflexivity.
Defined.

(** ** The text of an address *)

(** What [inet_ntop] documents: it succeeds for the two families, with at most
    [INET6_ADDRSTRLEN - 1] characters, none a bracket, and distinct addresses
    have distinct texts. *)
Record ntop_ok (inet_ntop : Z → list Z → option (list Z)) : Prop := {
  nt_text : ∀ (v6 : bool) mem, bytes_ok mem → zlen mem = (if v6 then 16 else 4) →
    ∃ t, inet_ntop (if v6 then AF_INET6 else AF_INET) mem = Some t ∧ zlen t <= 45 ∧ 91 ∉ t;
  nt_inj : ∀ f mem mem' t, inet_ntop f mem = Some t → inet_ntop f mem' = Some t → mem = mem';
}.

(** The address the socket layer compares. *)
Definition endpoint (a : InetAddress) : Z * Z * list Z :=
  (sin_family a, port a, if bool_decide (sin_family a = AF_INET6) then sin6_addr_mem a else sin_addr_mem a).

Lemma port_range a : addr_wf a → bytes_ok a → is_u16 (port a).
Proof.
  intros Ha Hb. unfold port, sin_port, sin_port_mem. rewrite NetworkToHost16_block by (done || unfold addr_wf in Ha; lia).
  apply (be_val_block_range 2 2 a); [done|unfold addr_wf in Ha; lia..].
Qed.

Section text_ok.
Context (inet_ntop : Z → list Z → option (list Z)) (Hnt : ntop_ok inet_ntop).

(** What [ip_port] prints for an address of either family. *)
Lemma ip_port_ok a :
  addr_wf a → bytes_ok a → sin_family a = AF_INET ∨ sin_family a = AF_INET6 →
  ∃ t, inet_ntop (sin_family a) (snd (endpoint a)) = Some t ∧ 91 ∉ t ∧
    ip_port inet_ntop a =
      (if bool_decide (sin_family a = AF_INET6) then [91] ++ t ++ [93] else t) ++ [58] ++ decimal (port a).
Proof using Hnt.
  intros Ha Hb Hf. assert (Hmem : ∀ n i, bytes_ok (ztake n (zdrop i a))) by auto with baize.
  pose proof (port_range a Ha Hb) as Hp. pose proof (decimal_length 5 (port a)) as Hl.
  unfold ip_port, ip, endpoint. cbn [snd]. unfold addr_wf in Ha.
  destruct (nt_text _ Hnt true (sin6_addr_mem a)) as (t6 & E6 & H6 & N6); [apply Hmem|apply block_length; lia|].
  destruct (nt_text _ Hnt false (sin_addr_mem a)) as (t4 & E4 & H4 & N4); [apply Hmem|apply block_length; lia|].
  unfold is_u16 in Hp. specialize (Hl ltac:(lia) ltac:(lia)).
  destruct Hf as [Hf|Hf]; rewrite Hf.
  - exists t4. split_and!; [done..|]. change (bool_decide (AF_INET = AF_INET6)) with false. cbn match.
    change (bool_decide (AF_INET = AF_INET)) with true. cbn match.
    rewrite E4. cbn [default from_option id]. apply ztake_ge. zlen_simp. lia.
  - exists t6. split_and!; [done..|]. change (bool_decide (AF_INET6 = AF_INET6)) with true. cbn match.
    change (bool_decide (AF_INET6 = AF_INET)) with false. cbn match.
    rewrite E6. cbn [default from_option id]. rewrite ztake_ge; [by rewrite <-!app_assoc|]. zlen_simp. lia.
Qed.

Lemma ip_port_inj a b :
  addr_wf a → bytes_ok a → sin_family a = AF_INET ∨ sin_family a = AF_INET6 →
  addr_wf b → bytes_ok b → sin_family b = AF_INET ∨ sin_family b = AF_INET6 →
  ip_port inet_ntop a = ip_port inet_ntop b → endpoint a = endpoint b.
Proof using Hnt.
  intros Ha Hab Hfa Hb Hbb Hfb. destruct (ip_port_ok a Ha Hab Hfa) as (t & Et & Nt & ->).
  destruct (ip_port_ok b Hb Hbb Hfb) as (u & Eu & Nu & ->).
  destruct (port_range a Ha Hab), (port_range b Hb Hbb).
  intros [E Ep]%decimal_suffix; [|lia..]. revert E Et Eu. unfold endpoint. cbn [snd]. rewrite Ep.
  repeat case_bool_decide; intros E Et Eu.
  - assert (t = u) as <- by (injection E; apply app_inj_2; done).
    assert (sin_family a = sin_family b) as Ef by congruence. rewrite <-Ef in *.
    by rewrite (nt_inj _ Hnt _ _ _ _ Et Eu).
  - destruct Nu. rewrite <-E. by left.
  - destruct Nt. rewrite E. by left.
  - subst u. assert (sin_family a = sin_family b) as Ef by (destruct Hfa, Hfb; congruence).
    rewrite <-Ef in *.
    by rewrite (nt_inj _ Hnt _ _ _ _ Et Eu).
Qed.
End text_ok.

(** An [inet_ntop] that prints the bytes in hexadecimal. *)
Definition ntop_hex (fam : Z) (mem : list Z) : option (list Z) :=
  if bool_decide (bytes_ok mem) then Some (concat (hex2 <$> mem)) else None.

Lemma ntop_hex_ok : ntop_ok ntop_hex.
Proof.
  unfold ntop_hex. split.
  - intros v6 mem Hok Hlen. rewrite bool_decide_true by done. eexists. split; [done|].
    rewrite zlen_hex, Hlen. split; [destruct v6; lia|]. apply hex_no; [done|lia..].
  - intros _ mem mem' t. case_bool_decide as H1; [|done]. case_bool_decide as H2; [|done].
    intros [= E1] [= E2]. rewrite <-(read_hex_hex2 mem), <-(read_hex_hex2 mem') by done. congruence.
Qed.

Lemma ip_port_iff inet_ntop a b :
  ntop_ok inet_ntop → addr_wf a → bytes_ok a → addr_wf b → bytes_ok b →
  sin_family a = AF_INET ∨ sin_family a = AF_INET6 → sin_family b = AF_INET ∨ sin_family b = AF_INET6 →
  ip_port inet_ntop a = ip_port inet_ntop b ↔ endpoint a = endpoint b.
Proof.
  intros Hnt ???? Ha Hb. split; [by apply ip_port_inj|]. intros [= Ef Ep Em].
  destruct (ip_port_ok inet_ntop Hnt a) as (t & Et & _ & ->); [done..|].
  destruct (ip_port_ok inet_ntop Hnt b) as (u & Eu & _ & ->); [done..|].
  assert (t = u) as -> by (unfold endpoint in *; cbn [snd] in *; congruence).
  by rewrite Ef, Ep.
Qed.

(** Addresses of the two families that differ in family, port or IP address
    have different texts, so [ip_port] identifies a remote end; addresses that
    agree in the three have the same. *)
Theorem ip_port_identifies inet_ntop a b :
  ntop_ok inet_ntop → addr_wf a → bytes_ok a → addr_wf b → bytes_ok b →
  sin_family a = AF_INET ∨ sin_family a = AF_INET6 → sin_family b = AF_INET ∨ sin_family b = AF_INET6 →
  ip_port inet_ntop a = ip_port inet_ntop b ↔ endpoint a = endpoint b.
Proof. apply ip_port_iff. Qed.

Lemma ip_port_identifies_witness :
  ip_port ntop_hex (InetAddress_port zero_addr6 5000 true false) ≠
  ip_port ntop_hex (InetAddress_port zero_addr6 5001 true false).
Proof.
  intros E. apply (ip_port_identifies ntop_hex (InetAddress_port zero_addr6 5000 true false)
    (InetAddress_port zero_addr6 5001 true false)) in E.
  - vm_compute in E. discriminate E.
  - apply ntop_hex_ok.
  - reflexivity.
  - apply (bool_decide_unpack _). vm_compute. exact I.
  - reflexivity.
  - apply (bool_decide_unpack _). vm_compute. exact I.
  - left. reflexivity.
  - left. reflexivity.
Defined.
