(* ===== verification/Stream.v ===== *)
(** * Streams: kernel/net/{tcp,udp}_stream.cc, kernel/crypto/tls_stream.cc

    The read and write loops of the three streams.  What the kernel (or
    OpenSSL) answers, and whether a wait ends by timeout, is a trace that the
    loop consumes; a loop that has used up its trace is still parked, which is
    [OutOfFuel].  [CheckTicks] and the waits give up the processor and change
    nothing else here. *)

From Stdlib Require Import ZArith Lia Bool.
From stdpp Require Import base numbers list.
From S2P Require Import Prelude Types StringPiece Buffer InetAddress.

Definition EINTR : Z := 4.
Definition EAGAIN : Z := 11.

(** One round: the answer of the call and, should it be [EAGAIN], whether the
    wait that follows times out. *)
Record attempt (R : Type) : Type := mk_attempt {
  answer : R;
  timed_out : bool;
}.
Arguments mk_attempt {R}.
Arguments answer {R}.
Arguments timed_out {R}.

(** ** Reading *)

Section retry.
(** [call] makes the system call on the state [S]: the new state and what is
    returned; [errno] is read after a negative result. *)
Context {S R : Type} (call : S → R → result (S * Z)) (errno : R → Z).

(** [while (1)] around a call without and with a timeout; the result is the
    state, the returned value, the timeout flag and the rest of the trace. *)
Fixpoint retry (limited : bool) (trace : list (attempt R)) (s : S)
    : result (S * Z * bool * list (attempt R)) :=
  match trace with
  | [] => OutOfFuel
  | a :: trace =>
      '(s, rn) ← call s (answer a);
      if bool_decide (rn < 0) then
        if bool_decide (errno (answer a) = EINTR) then retry limited trace s
        else if bool_decide (errno (answer a) = EAGAIN) then
          if limited && timed_out a then Ret (s, rn, true, trace) else retry limited trace s
        else Ret (s, rn, false, trace)
      else Ret (s, rn, false, trace)
  end.
End retry.

Definition io_errno (r : io_result) : Z := match r with IoErr e => e | IoOk _ => 0 end.

(** [read(fd, buf, count)], [SSL_read]: the destination is the memory from
    offset [p] on.  [IoOk bytes] is what has arrived (the bytes in the socket,
    the plain text of a TLS record): at most [count] of them are delivered. *)
Definition Read (p count : Z) (mem : list Z) (r : io_result) : result (list Z * Z) :=
  match r with
  | IoErr _ => Ret (mem, -1)
  | IoOk bytes =>
      let bytes := ztake count bytes in
      mem ← memcpy mem p bytes (zlen bytes);
      Ret (mem, zlen bytes)
  end.

(** What a read leaves for the next one. *)
Definition left_over (count : Z) (a : attempt io_result) : list (attempt io_result) :=
  match answer a with
  | IoErr _ => []
  | IoOk bytes => if bool_decide (count < zlen bytes) then [mk_attempt (IoOk (zdrop count bytes)) (timed_out a)] else []
  end.
(** The same loop around such a read. *)
Fixpoint retry_read (p count : Z) (limited : bool) (trace : list (attempt io_result)) (mem : list Z)
    : result (list Z * Z * bool * list (attempt io_result)) :=
  match trace with
  | [] => OutOfFuel
  | a :: trace =>
      '(mem, rn) ← Read p count mem (answer a);
      if bool_decide (rn < 0) then
        if bool_decide (io_errno (answer a) = EINTR) then retry_read p count limited trace mem
        else if bool_decide (io_errno (answer a) = EAGAIN) then
          if limited && timed_out a then Ret (mem, rn, true, trace) else retry_read p count limited trace mem
        else Ret (mem, rn, false, trace)
      else Ret (mem, rn, false, left_over count a ++ trace)
  end.

Definition tcp_AsyncRead (p count : Z) (trace : list (attempt io_result)) (mem : list Z) :=
  retry_read p count false trace mem.
Definition tcp_AsyncRead_ms (p count : Z) (trace : list (attempt io_result)) (mem : list Z) :=
  retry_read p count true trace mem.
Definition tcp_AsyncRead_buf (trace : list (attempt io_result)) (buf : Buffer) :=
  retry ReadFd io_errno false trace buf.
Definition tcp_AsyncRead_buf_ms (trace : list (attempt io_result)) (buf : Buffer) :=
  retry ReadFd io_errno true trace buf.
Definition tls_AsyncRead (p count : Z) (trace : list (attempt io_result)) (mem : list Z) :=
  retry_read p count false trace mem.
Definition tls_AsyncRead_ms (p count : Z) (trace : list (attempt io_result)) (mem : list Z) :=
  retry_read p count true trace mem.

(** [recvfrom]: a datagram, cut at the size of the destination.  The address
    is stored only for a datagram that is not empty. *)
Inductive datagram : Type :=
  | RecvErr (errno : Z)
  | Recv (from : InetAddress) (bytes : list Z).
Definition recv_errno (r : datagram) : Z := match r with RecvErr e => e | Recv _ _ => 0 end.

Definition RecvFrom (p count : Z) (s : list Z * InetAddress) (r : datagram)
    : result (list Z * InetAddress * Z) :=
  let '(mem, addr) := s in
  match r with
  | RecvErr _ => Ret (mem, addr, -1)
  | Recv from bytes =>
      let bytes := ztake count bytes in
      mem ← memcpy mem p bytes (zlen bytes);
      Ret (mem, if bool_decide (zlen bytes > 0) then from else addr, zlen bytes)
  end.

(** [MemoryZero(addr, sizeof(InetAddress))] comes first. *)
Definition AsyncRecvFrom (p count : Z) (trace : list (attempt datagram)) (mem : list Z) :=
  retry (RecvFrom p count) recv_errno false trace (mem, zero_addr6).
Definition AsyncRecvFrom_ms (p count : Z) (trace : list (attempt datagram)) (mem : list Z) :=
  retry (RecvFrom p count) recv_errno true trace (mem, zero_addr6).

(** ** Writing *)

(** What one [write] or [SSL_write] does: fail, or take as many bytes as there
    is room for, at most what it is given.  A count of zero may come with an
    [errno]. *)
Inductive write_result : Type :=
  | WriteErr (errno : Z)
  | WriteOk (room errno : Z).

(** The state is what the peer has been sent. *)
Fixpoint tcp_AsyncWrite (trace : list write_result) (buf : list Z) (count ret : Z) (wire : list Z)
    : result (Z * list Z) :=
  match trace with
  | [] => OutOfFuel
  | WriteErr errno :: trace =>
      if bool_decide (errno = EINTR) then tcp_AsyncWrite trace buf count ret wire
      else if bool_decide (errno = EAGAIN) then tcp_AsyncWrite trace buf count ret wire
      else Ret (ret, wire)
  | WriteOk room errno :: trace =>
      let wn := Z.max 0 (Z.min room count) in
      if bool_decide (wn = 0) && bool_decide (errno ≠ 0) then Ret (ret, wire)
      else if bool_decide (wn < count) then
        tcp_AsyncWrite trace (zdrop wn buf) (count - wn) (ret + wn) (wire ++ ztake wn buf)
      else Ret (ret + wn, wire ++ ztake wn buf)
  end.

(** [SSL_write] reports zero as a failure, too. *)
Fixpoint tls_AsyncWrite (trace : list write_result) (buf : list Z) (count ret : Z) (wire : list Z)
    : result (Z * list Z) :=
  match trace with
  | [] => OutOfFuel
  | w :: trace =>
      let '(wn, errno) := match w with
                          | WriteErr e => (-1, e)
                          | WriteOk room e => (Z.max 0 (Z.min room count), e)
                          end in
      if bool_decide (wn <= 0) then
        if bool_decide (errno = EINTR) then tls_AsyncWrite trace buf count ret wire
        else if bool_decide (errno = EAGAIN) then tls_AsyncWrite trace buf count ret wire
        else Ret (ret, wire)
      else if bool_decide (wn < count) then
        tls_AsyncWrite trace (zdrop wn buf) (count - wn) (ret + wn) (wire ++ ztake wn buf)
      else Ret (ret + wn, wire ++ ztake wn buf)
  end.

(** [sendto] takes a whole datagram or fails: the returned count, or [-1] with
    an [errno]. *)
Record send_result : Type := mk_send {
  send_wn : Z;
  send_errno : Z;
}.
Fixpoint AsyncSendto (trace : list send_result) : result (Z * list send_result) :=
  match trace with
  | [] => OutOfFuel
  | r :: trace =>
      if bool_decide (send_wn r < 0) then
        if bool_decide (send_errno r = EINTR) then AsyncSendto trace
        else if bool_decide (send_errno r = EAGAIN) then AsyncSendto trace
        else Ret (send_wn r, trace)
      else Ret (send_wn r, trace)
  end.

(** One [SSL_accept] or [SSL_connect]; [errno] is cleared before it. *)
Record handshake_result : Type := mk_handshake {
  hs_err : Z;
  hs_errno : Z;
}.
Fixpoint handshake_loop (trace : list handshake_result) : result bool :=
  match trace with
  | [] => OutOfFuel
  | r :: trace =>
      if bool_decide (hs_err r <= 0) then
        if bool_decide (hs_errno r = EINTR) then handshake_loop trace
        else if bool_decide (hs_errno r = EAGAIN) then handshake_loop trace
        else Ret false
      else Ret true
  end.
(** Whether there is a stream, a context and an SSL object; the result is
    whether a stream is returned.  Only the server checks its stream. *)
Definition tls_AsServer (stream ctx ssl : bool) (trace : list handshake_result) : result bool :=
  if negb stream then Ret false
  else if negb ctx || negb ssl then Ret false
  else handshake_loop trace.
Definition tls_AsClient (stream ctx ssl : bool) (trace : list handshake_result) : result bool :=
  if negb ctx || negb ssl then Ret false
  else if negb stream then Fault NullDeref
  else handshake_loop trace.

(** ** The read loops *)

(** An answer after which the loop goes round again. *)
Definition again (limited : bool) (errno : Z) (timeout : bool) : bool :=
  bool_decide (errno = EINTR) || (bool_decide (errno = EAGAIN) && negb (limited && timeout)).
Definition waits (limited : bool) (a : attempt io_result) : Prop :=
  ∃ e, answer a = IoErr e ∧ again limited e (timed_out a) = true.

Section read_loops.
Context {S R : Type} (call : S → R → result (S * Z)) (errno : R → Z).

Lemma retry_again limited a trace s s' rn :
  call s (answer a) = Ret (s', rn) → rn < 0 → again limited (errno (answer a)) (timed_out a) = true →
  retry call errno limited (a :: trace) s = retry call errno limited trace s'.
Proof.
  intros E Hrn Hag. cbn [retry]. rewrite E. cbn [mbind result_bind]. rewrite bool_decide_true by done.
  unfold again in Hag. destruct (bool_decide (errno (answer a) = EINTR)); [done|]. cbn [orb] in Hag.
  destruct (bool_decide (errno (answer a) = EAGAIN)); [|done]. cbn [andb] in Hag.
  by destruct (limited && timed_out a).
Qed.
Lemma retry_done limited a trace s s' rn :
  call s (answer a) = Ret (s', rn) → 0 <= rn →
  retry call errno limited (a :: trace) s = Ret (s', rn, false, trace).
Proof.
  intros E Hrn. cbn [retry]. rewrite E. cbn [mbind result_bind]. by rewrite bool_decide_false by lia.
Qed.
End read_loops.

(** Rounds that wait leave a buffer as it is. *)
Lemma retry_waits limited pre trace buf :
  Forall (waits limited) pre →
  retry ReadFd io_errno limited (pre ++ trace) buf = retry ReadFd io_errno limited trace buf.
Proof.
  induction 1 as [|a pre (e & Ea & Hag) _ IH]; [done|]. cbn [app].
  erewrite (retry_again ReadFd io_errno limited a (pre ++ trace) buf buf (-1)); [done| |lia|]; by rewrite Ea.
Qed.
Lemma retry_waits_mem p count limited pre trace mem :
  Forall (waits limited) pre →
  retry_read p count limited (pre ++ trace) mem = retry_read p count limited trace mem.
Proof.
  induction 1 as [|a pre (e & Ea & Hag) _ IH]; [done|]. cbn [app retry_read]. rewrite Ea.
  cbn [Read mbind result_bind io_errno]. rewrite (bool_decide_true (-1 < 0)) by lia. unfold again in Hag.
  destruct (bool_decide (e = EINTR)); [done|]. destruct (bool_decide (e = EAGAIN)); [|done].
  by destruct (limited && timed_out a).
Qed.
Lemma retry_read_done p count limited bytes t trace mem mem' :
  0 <= count → memcpy mem p (ztake count bytes) (zlen (ztake count bytes)) = Ret mem' →
  retry_read p count limited (mk_attempt (IoOk bytes) t :: trace) mem =
  Ret (mem', zlen (ztake count bytes), false, left_over count (mk_attempt (IoOk bytes) t) ++ trace).
Proof.
  intros Hc E. cbn [retry_read answer Read]. rewrite E. cbn [mbind result_bind].
  pose proof (zlen_nonneg (ztake count bytes)). by rewrite bool_decide_false by lia.
Qed.

(** ** What arrives, piece by piece *)

(** The trace delivers the pieces, with any waiting in between. *)
Inductive delivers (limited : bool) : list (attempt io_result) → list (list Z) → Prop :=
  | delivers_nil : delivers limited [] []
  | delivers_wait a trace cs :
      waits limited a → delivers limited trace cs → delivers limited (a :: trace) cs
  | delivers_piece t c trace cs :
      0 < zlen c → delivers limited trace cs →
      delivers limited (mk_attempt (IoOk c) t :: trace) (c :: cs).

Lemma delivers_cons limited trace c cs :
  delivers limited trace (c :: cs) →
  ∃ pre t trace', trace = pre ++ mk_attempt (IoOk c) t :: trace' ∧ Forall (waits limited) pre ∧
    0 < zlen c ∧ delivers limited trace' cs.
Proof.
  remember (c :: cs) as l eqn:E. induction 1 as [|a trace cs' Hw Hd IH|t c' trace cs' Hc Hd IH]; [done| |].
  - destruct (IH E) as (pre & t & trace' & -> & Hpre & H). exists (a :: pre), t, trace'.
    split; [done|]. split; [by constructor|done].
  - injection E as -> ->. by exists [], t, trace.
Qed.
Lemma delivers_done limited trace : delivers limited trace [] → Forall (waits limited) trace.
Proof. remember [] as l eqn:E. induction 1; [constructor|constructor; auto|done]. Qed.

(** A read of a TCP stream appends the next piece; at the end it reads nothing. *)
Lemma tcp_read_piece limited trace c cs rest buf :
  delivers limited trace (c :: cs) → buf_wf buf → zlen (content buf) + zlen c <= max_content →
  ∃ buf' trace', retry ReadFd io_errno limited (trace ++ rest) buf = Ret (buf', zlen c, false, trace' ++ rest) ∧
    buf_wf buf' ∧ content buf' = content buf ++ c ∧ delivers limited trace' cs ∧
    (length trace' < length trace)%nat ∧ 0 < zlen c.
Proof.
  intros (pre & t & trace' & -> & Hpre & Hc & Hd)%delivers_cons Hb Hfit.
  destruct (ReadFd_ok buf c Hb Hfit) as (b' & Hr & Hb' & Hc'). exists b', trace'.
  rewrite <-app_assoc, retry_waits by done. cbn [app].
  erewrite retry_done by (done || lia). rewrite length_app. cbn [length]. split_and!; (done || lia).
Qed.
Lemma tcp_read_end limited trace t rest buf :
  delivers limited trace [] → buf_wf buf → zlen (content buf) <= max_content →
  ∃ buf', retry ReadFd io_errno limited (trace ++ mk_attempt (IoOk []) t :: rest) buf = Ret (buf', 0, false, rest) ∧
    buf_wf buf' ∧ content buf' = content buf.
Proof.
  intros Hd%delivers_done Hb Hfit. destruct (ReadFd_ok buf [] Hb) as (b' & Hr & Hb' & Hc'); [by rewrite Z.add_0_r|].
  rewrite app_nil_r in Hc'. exists b'. rewrite retry_waits by done.
  erewrite retry_done by (done || lia). done.
Qed.

(** ** The write loops *)
Definition AsyncWrite (tls : bool) := if tls then tls_AsyncWrite else tcp_AsyncWrite.

(** An answer that ends the loop early. *)
Definition hard (errno : Z) : Prop := errno ≠ EINTR ∧ errno ≠ EAGAIN.
Definition refused (tls : bool) (w : write_result) : Prop :=
  match w with
  | WriteErr e => hard e
  | WriteOk room e => room <= 0 ∧ if tls then hard e else e ≠ 0
  end.
Definition room_of (w : write_result) : Z := match w with WriteErr _ => 0 | WriteOk room _ => Z.max 0 room end.
Fixpoint total_room (trace : list write_result) : Z :=
  match trace with [] => 0 | w :: trace => room_of w + total_room trace end.

(** What a round does: go round again, end, or take bytes. *)
Inductive write_round : Type :=
  | RoundAgain
  | RoundEnd
  | RoundTake (wn : Z).
Definition write_round_of (tls : bool) (w : write_result) (count : Z) : write_round :=
  let failed e := if bool_decide (e = EINTR) || bool_decide (e = EAGAIN) then RoundAgain else RoundEnd in
  match w with
  | WriteErr e => failed e
  | WriteOk room e =>
      let wn := Z.max 0 (Z.min room count) in
      if bool_decide (wn <= 0) then
        if tls then failed e else if bool_decide (e ≠ 0) then RoundEnd else RoundTake wn
      else RoundTake wn
  end.

Lemma AsyncWrite_cons tls w trace buf count ret wire :
  AsyncWrite tls (w :: trace) buf count ret wire =
  match write_round_of tls w count with
  | RoundAgain => AsyncWrite tls trace buf count ret wire
  | RoundEnd => Ret (ret, wire)
  | RoundTake wn =>
      if bool_decide (wn < count)
      then AsyncWrite tls trace (zdrop wn buf) (count - wn) (ret + wn) (wire ++ ztake wn buf)
      else Ret (ret + wn, wire ++ ztake wn buf)
  end.
Proof.
  unfold write_round_of. destruct tls; cbn [AsyncWrite tls_AsyncWrite tcp_AsyncWrite].
  - destruct w as [e|room e]; cbn [tls_AsyncWrite].
    + rewrite (bool_decide_true (-1 <= 0)) by lia. by repeat case_bool_decide.
    + cbn zeta. destruct (bool_decide (Z.max 0 (Z.min room count) <= 0)); [|done]. by repeat case_bool_decide.
  - destruct w as [e|room e]; cbn [tcp_AsyncWrite]; [by repeat case_bool_decide|]. cbn zeta.
    set (wn := Z.max 0 (Z.min room count)).
    rewrite (bool_decide_ext (wn <= 0) (wn = 0)) by lia.
    destruct (bool_decide (wn = 0)); cbn [andb]; [|done]. by destruct (bool_decide (e ≠ 0)).
Qed.

Lemma write_round_ok tls w count :
  0 <= count →
  match write_round_of tls w count with
  | RoundAgain => room_of w = 0 ∨ count = 0
  | RoundEnd => count = 0 ∨ refused tls w
  | RoundTake wn => 0 <= wn <= count ∧ wn = Z.min (room_of w) count
  end.
Proof.
  intros Hc. unfold write_round_of, refused, hard, room_of.
  destruct w as [e|room e]; [repeat case_bool_decide; cbn; auto; lia|].
  cbn zeta. destruct (bool_decide_reflect (Z.max 0 (Z.min room count) <= 0)) as [Hz|Hz]; [|lia].
  destruct tls; repeat case_bool_decide; cbn; try lia.
  all: destruct (decide (count = 0)); auto; right; split; [lia|tauto].
Qed.

(** The bytes sent are a prefix of the buffer, as long as is reported. *)
Lemma AsyncWrite_sent tls trace buf ret wire ret' wire' :
  AsyncWrite tls trace buf (zlen buf) ret wire = Ret (ret', wire') →
  ∃ n, 0 <= n <= zlen buf ∧ ret' = ret + n ∧ wire' = wire ++ ztake n buf ∧
    (n < zlen buf → Exists (refused tls) trace).
Proof.
  revert buf ret wire. induction trace as [|w trace IH]; intros buf ret wire; [by destruct tls|].
  rewrite AsyncWrite_cons. pose proof (zlen_nonneg buf) as Hz. pose proof (write_round_ok tls w (zlen buf) Hz) as Hw.
  destruct (write_round_of tls w (zlen buf)) as [| |wn].
  - intros (n & ? & ? & ? & He)%IH. exists n. split_and!; [lia..|done|]. intros. right. auto.
  - intros [= <- <-]. exists 0. rewrite ztake_0, app_nil_r. split_and!; [lia..|done|]. intros. left. destruct Hw; [lia|done].
  - destruct Hw as [Hw _]. case_bool_decide as Hlt.
    + rewrite <-zlen_zdrop by lia. intros (n & Hn & -> & -> & He)%IH. rewrite zlen_zdrop in Hn, He by lia.
      exists (wn + n). split_and!; [lia..| |].
      * by rewrite <-app_assoc, (ztake_split wn (wn + n)), Z.add_simpl_l by lia.
      * intros. right. apply He. lia.
    + intros [= <- <-]. exists wn. split_and!; [lia..|done|lia].
Qed.

(** With room for everything and no failure, everything is sent. *)
Lemma AsyncWrite_all tls trace buf ret wire :
  Forall (λ w, ¬ refused tls w) trace → 0 < zlen buf <= total_room trace →
  AsyncWrite tls trace buf (zlen buf) ret wire = Ret (ret + zlen buf, wire ++ buf).
Proof.
  intros Hf. revert buf ret wire. induction Hf as [|w trace Hw Hf IH]; intros buf ret wire [H0 Hr]; cbn [total_room] in Hr.
  { lia. }
  rewrite AsyncWrite_cons. pose proof (write_round_ok tls w (zlen buf)) as Ho.
  destruct (write_round_of tls w (zlen buf)) as [| |wn].
  - apply IH. lia.
  - destruct Ho; [lia|lia|done].
  - case_bool_decide as Hlt.
    + rewrite <-zlen_zdrop by lia. rewrite IH by (rewrite zlen_zdrop by lia; lia).
      rewrite zlen_zdrop, <-app_assoc, ztake_zdrop by lia. do 2 f_equal. lia.
    + assert (wn = zlen buf) as -> by lia. by rewrite ztake_ge by lia.
Qed.

(** Over any answers of the kernel or of OpenSSL, a write loop that returns
    has sent exactly the prefix of the buffer whose length it returns, and it
    returns less than the whole only after a failure; without a failure, and
    with room for the whole in the answers, it returns and the whole has been
    sent, in order and once. *)
Theorem AsyncWrite_correct tls trace data :
  (∀ ret wire, AsyncWrite tls trace data (zlen data) 0 [] = Ret (ret, wire) →
     0 <= ret <= zlen data ∧ wire = ztake ret data ∧ (ret < zlen data → Exists (refused tls) trace)) ∧
  (Forall (λ w, ¬ refused tls w) trace → 0 < zlen data <= total_room trace →
     AsyncWrite tls trace data (zlen data) 0 [] = Ret (zlen data, data)).
Proof.
  split; [|intros; by rewrite AsyncWrite_all].
  intros ret wire (n & Hn & -> & -> & He)%AsyncWrite_sent. by rewrite Z.add_0_l.
Qed.

Lemma AsyncWrite_correct_witness :
  AsyncWrite true [WriteOk 2 0; WriteErr EAGAIN; WriteOk 7 0] [1; 2; 3] (zlen [1; 2; 3]) 0 [] = Ret (3, [1; 2; 3]).
Proof.
  apply (AsyncWrite_correct true [WriteOk 2 0; WriteErr EAGAIN; WriteOk 7 0] [1; 2; 3]).
  - repeat constructor; cbn; unfold hard, EAGAIN; lia.
  - vm_compute. split; [reflexivity|discriminate].
Defined.
