(* ===== verification/Sockets.v ===== *)
(** * Sockets, listeners and connecting: kernel/net/{socket,tcp_listener,tcp_stream,udp_stream}.cc

    The descriptors that are open are a set; what each system call answers is
    an argument.  The theorems: what accepting returns for every sequence of
    answers; that connecting hands out a stream exactly when the connection
    stands, and leaves no descriptor open otherwise; what a connection to
    oneself is. *)

From Stdlib Require Import ZArith Lia Bool.
From stdpp Require Import base numbers list gmap.
From S2P Require Import Prelude Types StringPiece Buffer InetAddress Stream.

(** ** errno *)
Definition EPERM : Z := 1.
Definition EMFILE : Z := 24.
Definition EPROTO : Z := 71.
Definition ECONNABORTED : Z := 103.
Definition EINPROGRESS : Z := 115.

(** ** Socket *)
Record Socket : Type := mk_socket { sockfd_ : Z }.

(** [close] may fail, and then the descriptor is kept. *)
Definition Close (closes : bool) (s : Socket) (fds : gset Z) : Socket * gset Z :=
  if bool_decide (sockfd_ s < 0) then (s, fds)
  else if closes then (mk_socket (-1), fds ∖ {[sockfd_ s]}) else (s, fds).
(** The destructor. *)
Definition Socket_delete (closes : bool) (s : Socket) (fds : gset Z) : gset Z := (Close closes s fds).2.

(** [socket()] gives a new descriptor or fails, which is fatal. *)
Definition CreateTcpSocket (fd : option Z) (fds : gset Z) : result (Z * gset Z) :=
  match fd with Some fd => Ret (fd, {[fd]} ∪ fds) | None => Fault Aborted end.
Definition CreateUdpSocket (fd : option Z) (fds : gset Z) : result (Z * gset Z) :=
  match fd with Some fd => Ret (fd, {[fd]} ∪ fds) | None => Fault Aborted end.
Definition NewTcp (fd : option Z) (fds : gset Z) : result (Socket * gset Z) :=
  '(fd, fds) ← CreateTcpSocket fd fds; Ret (mk_socket fd, fds).
Definition NewUdp (fd : option Z) (fds : gset Z) : result (Socket * gset Z) :=
  '(fd, fds) ← CreateUdpSocket fd fds; Ret (mk_socket fd, fds).

(** [getsockname] and [getpeername] write the address; if they fail it stays zero. *)
Definition localaddr (r : option InetAddress) : InetAddress := default zero_addr6 r.
Definition peeraddr (r : option InetAddress) : InetAddress := default zero_addr6 r.

(** [getsockopt(SO_ERROR)]: a failure's [errno], or the value. *)
Definition socket_error (r : Z + Z) : Z := match r with inl errno => errno | inr optval => optval end.

Definition is_self_connect (rl rp : option InetAddress) : bool :=
  let laddr := localaddr rl in
  let paddr := peeraddr rp in
  if bool_decide (sin_family laddr = AF_INET) then
    bool_decide (sin_port laddr = sin_port paddr) &&
    bool_decide (le_val (sin_addr_mem laddr) = le_val (sin_addr_mem paddr))
  else if bool_decide (sin_family laddr = AF_INET6) then
    bool_decide (sin_port laddr = sin_port paddr) && bool_decide (sin6_addr_mem laddr = sin6_addr_mem paddr)
  else false.

(** ** Accepting *)
Inductive accept_result : Type :=
  | Accepted (connfd : Z) (addr : InetAddress)
  | AcceptErr (errno : Z).
Definition accept_errno (r : accept_result) : Z := match r with AcceptErr e => e | Accepted _ _ => 0 end.

(** The errors after which the caller goes on; every other one is fatal. *)
Definition soft_errors : list Z := [EAGAIN; ECONNABORTED; EINTR; EPROTO; EPERM; EMFILE].
(** The state is [*peeraddr] and the open descriptors. *)
Definition Accept (s : InetAddress * gset Z) (r : accept_result) : result (InetAddress * gset Z * Z) :=
  let '(peer, fds) := s in
  match r with
  | Accepted connfd addr => Ret (addr, {[connfd]} ∪ fds, connfd)
  | AcceptErr e => if bool_decide (e ∈ soft_errors) then Ret (peer, fds, -1) else Fault Aborted
  end.

Record TcpStream : Type := mk_tcp { conn_ : Socket; peeraddr_ : InetAddress }.
Definition TcpStream_new (fd : Z) (peeraddr : InetAddress) : TcpStream := mk_tcp (mk_socket fd) peeraddr.

(** A null pointer is [None]. *)
Definition accept_loop (limited : bool) (trace : list (attempt accept_result)) (fds : gset Z)
    : result (option TcpStream * gset Z * list (attempt accept_result)) :=
  '(s, connfd, _, trace) ← retry Accept accept_errno limited trace (InetAddress_default, fds);
  let '(peer, fds) := s in
  Ret (if bool_decide (connfd < 0) then None else Some (TcpStream_new connfd peer), fds, trace).
Definition AsyncAccept := accept_loop false.
Definition AsyncAccept_ms := accept_loop true.

(** ** Listening and UDP sockets *)
Section servers.
(** [bind(fd, address)], given the address bytes it is passed; [listen(fd)]. *)
Context (bind : Z → list Z → Z) (listen : Z → Z).

Definition BindAddress (s : Socket) (localaddr : InetAddress) : result unit :=
  if bool_decide (bind (sockfd_ s) (ztake (socklen localaddr) localaddr) < 0) then Fault Aborted else Ret tt.
Definition Listen (s : Socket) : result unit :=
  if bool_decide (listen (sockfd_ s) < 0) then Fault Aborted else Ret tt.

(** The outcome of [setsockopt] is only logged.  [raw] is the storage the
    address is built in. *)
Record TcpListener : Type := mk_listener { listenaddr_ : InetAddress; sock_ : Socket }.
Definition TcpListener_new (raw : InetAddress) (port : Z) (fd : option Z) (fds : gset Z)
    : result (TcpListener * gset Z) :=
  let listenaddr := InetAddress_port raw port false false in
  '(sock, fds) ← NewTcp fd fds;
  _ ← BindAddress sock listenaddr;
  _ ← Listen sock;
  Ret (mk_listener listenaddr sock, fds).

Record UdpStream : Type := mk_udp { bindaddr_ : InetAddress; udp_conn_ : Socket }.
Definition UdpStream_client (fd : option Z) (fds : gset Z) : result (UdpStream * gset Z) :=
  '(sock, fds) ← NewUdp fd fds; Ret (mk_udp InetAddress_default sock, fds).
Definition UdpStream_server (raw : InetAddress) (port : Z) (fd : option Z) (fds : gset Z)
    : result (UdpStream * gset Z) :=
  let bindaddr := InetAddress_port raw port false false in
  '(sock, fds) ← NewUdp fd fds;
  _ ← BindAddress sock bindaddr;
  Ret (mk_udp bindaddr sock, fds).
End servers.

(** ** Connecting *)

(** What the system answers: the descriptor, the [errno] of [connect] if it
    fails, [SO_ERROR], the two addresses of the socket, and whether [close]
    succeeds. *)
Record connect_answers : Type := mk_connect {
  ca_fd : option Z;
  ca_connect : option Z;
  ca_error : Z + Z;
  ca_local : option InetAddress;
  ca_peer : option InetAddress;
  ca_close : bool;
}.
(** A stream that is not returned is destroyed, and its socket with it. *)
Section connect.
Context (inet_pton : Z → list Z → option (list Z)).
Definition AsyncConnect (raw : InetAddress) (ip : list Z) (port : Z) (k : connect_answers) (fds : gset Z)
    : result (option TcpStream * gset Z) :=
  let serveraddr := InetAddress_ip inet_pton raw ip port false in
  '(fd, fds) ← CreateTcpSocket (ca_fd k) fds;
  let stream := TcpStream_new fd serveraddr in
  let drop := (None, Socket_delete (ca_close k) (conn_ stream) fds) in
  match ca_connect k with
  | Some errno =>
      if bool_decide (errno = EINPROGRESS) then
        if bool_decide (socket_error (ca_error k) ≠ 0) then Ret drop
        else if is_self_connect (ca_local k) (ca_peer k) then Ret drop
        else Ret (Some stream, fds)
      else Ret drop
  | None => Ret (Some stream, fds)
  end.
End connect.

(** ** Accepting: every sequence of answers *)
Definition accept_waits (limited : bool) (a : attempt accept_result) : Prop :=
  ∃ e, answer a = AcceptErr e ∧ again limited e (timed_out a) = true.
(** What the answer that ends the waiting leads to. *)
Definition accept_outcome (limited : bool) (a : attempt accept_result) (fds : gset Z)
    : result (option TcpStream * gset Z) :=
  match answer a with
  | Accepted connfd addr => Ret (Some (TcpStream_new connfd addr), {[connfd]} ∪ fds)
  | AcceptErr e =>
      if bool_decide (e ∈ [ECONNABORTED; EPROTO; EPERM; EMFILE]) || bool_decide (limited = true ∧ e = EAGAIN ∧ timed_out a = true)
      then Ret (None, fds) else Fault Aborted
  end.

Lemma Accept_waits limited pre trace s :
  Forall (accept_waits limited) pre →
  retry Accept accept_errno limited (pre ++ trace) s = retry Accept accept_errno limited trace s.
Proof.
  induction 1 as [|a pre (e & Ea & Hag) _ IH]; [done|]. cbn [app]. destruct s as [peer fds].
  erewrite (retry_again Accept accept_errno limited a (pre ++ trace) (peer, fds) (peer, fds) (-1)); [done| |lia|].
  - rewrite Ea. cbn [Accept]. rewrite bool_decide_true; [done|].
    unfold again in Hag. unfold soft_errors.
    destruct (bool_decide_reflect (e = EINTR)) as [->|]; [set_solver|].
    destruct (bool_decide_reflect (e = EAGAIN)) as [->|]; [set_solver|done].
  - by rewrite Ea.
Qed.

Lemma Accept_decides limited a rest fds :
  ¬ accept_waits limited a → (∀ fd addr, answer a = Accepted fd addr → 0 <= fd) →
  accept_loop limited (a :: rest) fds = o ← accept_outcome limited a fds; Ret (o.1, o.2, rest).
Proof.
  intros Hw Hfd. unfold accept_loop, accept_outcome. destruct a as [[fd addr|e] t]; cbn [answer timed_out] in *.
  - specialize (Hfd fd addr eq_refl). cbn [retry answer Accept mbind result_bind].
    rewrite bool_decide_false by lia. cbn [mbind result_bind]. by rewrite bool_decide_false by lia.
  - assert (Hag : again limited e t = false).
    { apply not_true_is_false. intros E. apply Hw. by exists e. }
    unfold again in Hag. cbn [retry answer Accept mbind result_bind accept_errno timed_out].
    destruct (bool_decide_reflect (e = EINTR)) as [|Hi]; [done|]. cbn [orb] in Hag.
    destruct (bool_decide_reflect (e = EAGAIN)) as [->|Ha]; cbn [andb] in Hag.
    + rewrite bool_decide_true by (unfold soft_errors; set_solver). cbn [mbind result_bind].
      apply negb_false_iff in Hag. rewrite Hag. apply andb_true_iff in Hag as [-> ->]. reflexivity.
    + rewrite (bool_decide_ext (e ∈ soft_errors) (e ∈ [ECONNABORTED; EPROTO; EPERM; EMFILE])) by
        (unfold soft_errors; set_solver).
      rewrite (bool_decide_false (_ ∧ _)), orb_false_r by naive_solver.
      destruct (bool_decide (e ∈ _)); [|done]. reflexivity.
Qed.

(** What accepting gives, with and without a time limit, for every
    sequence of answers of the system: interruptions and empty queues are
    waited out; then a connection becomes a stream on the new descriptor with
    the peer's address, a transient error or the time limit gives a null
    stream and opens nothing, and any other error is fatal. *)
Theorem accept_correct limited pre a rest fds :
  Forall (accept_waits limited) pre → ¬ accept_waits limited a →
  (∀ fd addr, answer a = Accepted fd addr → 0 <= fd) →
  accept_loop limited (pre ++ a :: rest) fds = o ← accept_outcome limited a fds; Ret (o.1, o.2, rest).
Proof.
  intros Hpre Ha Hfd. rewrite <-(Accept_decides limited a rest fds Ha Hfd).
  unfold accept_loop. by rewrite Accept_waits.
Qed.

(** ** Connecting: the connection stands, or nothing is left *)
Definition same_endpoint (a b : InetAddress) : Prop :=
  sin_port_mem a = sin_port_mem b ∧
  ((sin_family a = AF_INET ∧ sin_addr_mem a = sin_addr_mem b) ∨
   (sin_family a = AF_INET6 ∧ sin6_addr_mem a = sin6_addr_mem b)).
Definition established (k : connect_answers) : Prop :=
  ca_connect k = None ∨
  (ca_connect k = Some EINPROGRESS ∧ socket_error (ca_error k) = 0 ∧
   ¬ same_endpoint (localaddr (ca_local k)) (peeraddr (ca_peer k))).

Lemma le_val_inj a b : bytes_ok a → bytes_ok b → zlen a = zlen b → le_val a = le_val b ↔ a = b.
Proof.
  intros Ha Hb Hl. split; [|by intros ->]. intros E.
  rewrite <-(le_bytes_le_val a Ha), <-(le_bytes_le_val b Hb), E. unfold zlen in Hl. f_equal. lia.
Qed.

Definition stored (r : option InetAddress) : Prop := ∀ a, r = Some a → zlen a = 28 ∧ bytes_ok a.
Lemma stored_wf r : stored r → zlen (default zero_addr6 r) = 28 ∧ bytes_ok (default zero_addr6 r).
Proof. destruct r as [a|]; [by intros H; apply H|]. intros _. split; [done|]. by apply Forall_replicate. Qed.

Lemma blocks_inj a b i n :
  zlen a = 28 → zlen b = 28 → bytes_ok a → bytes_ok b → 0 <= i → 0 <= n → i + n <= 28 →
  le_val (ztake n (zdrop i a)) = le_val (ztake n (zdrop i b)) ↔ ztake n (zdrop i a) = ztake n (zdrop i b).
Proof.
  intros. apply le_val_inj; [by apply Forall_take, Forall_drop..|]. rewrite !block_length by lia. done.
Qed.

Lemma is_self_connect_correct rl rp :
  stored rl → stored rp → is_self_connect rl rp = true ↔ same_endpoint (localaddr rl) (peeraddr rp).
Proof.
  intros [Hl Bl]%stored_wf [Hp Bp]%stored_wf. unfold is_self_connect, same_endpoint, localaddr, peeraddr.
  set (a := default zero_addr6 rl) in *. set (b := default zero_addr6 rp) in *.
  unfold sin_port, sin_port_mem, sin_addr_mem.
  destruct (bool_decide_reflect (sin_family a = AF_INET)) as [E|N4];
    [|destruct (bool_decide_reflect (sin_family a = AF_INET6)) as [E|N6]].
  - rewrite andb_true_iff, !bool_decide_eq_true, !blocks_inj by (done || lia).
    split; [naive_solver|]. intros [? [?|[E6 _]]]; [naive_solver|]. rewrite E6 in E. done.
  - rewrite andb_true_iff, !bool_decide_eq_true, !blocks_inj by (done || lia). naive_solver.
  - naive_solver.
Qed.

Lemma Socket_delete_fresh closes fd fds :
  0 <= fd → fd ∉ fds →
  Socket_delete closes (mk_socket fd) ({[fd]} ∪ fds) = if closes then fds else {[fd]} ∪ fds.
Proof.
  intros. unfold Socket_delete, Close. cbn [sockfd_]. rewrite bool_decide_false by lia.
  destruct closes; cbn [snd]; [set_solver|done].
Qed.

Section connecting.
Context (inet_pton : Z → list Z → option (list Z)) (raw : InetAddress) (ip : list Z) (port : Z).
Context (k : connect_answers) (fd : Z) (fds : gset Z).
Hypothesis Hk : ca_fd k = Some fd.
Hypothesis Hfd : 0 <= fd.
Hypothesis Hnew : fd ∉ fds.
Hypothesis Hl : stored (ca_local k).
Hypothesis Hp : stored (ca_peer k).

(** C23: connecting gives a stream on the new descriptor, with the server's
    address, exactly when the connection stands: at once, or after waiting
    with no pending error and with two different endpoints.  Otherwise the
    caller gets a null stream, and the descriptor is closed again unless
    [close] itself fails. *)
Theorem connect_correct :
  (established k →
     AsyncConnect inet_pton raw ip port k fds =
       Ret (Some (TcpStream_new fd (InetAddress_ip inet_pton raw ip port false)), {[fd]} ∪ fds)) ∧
  (¬ established k →
     AsyncConnect inet_pton raw ip port k fds =
       Ret (None, if ca_close k then fds else {[fd]} ∪ fds)).
Proof.
  unfold AsyncConnect, established. rewrite Hk. cbn [CreateTcpSocket mbind result_bind].
  cbn [conn_ TcpStream_new]. rewrite Socket_delete_fresh by done. rewrite <-is_self_connect_correct by done.
  destruct (ca_connect k) as [e|]; [|naive_solver].
  destruct (bool_decide_reflect (e = EINPROGRESS)) as [->|Ne]; [|naive_solver].
  destruct (bool_decide_reflect (socket_error (ca_error k) ≠ 0)); [naive_solver|].
  destruct (is_self_connect (ca_local k) (ca_peer k)); naive_solver.
Qed.
End connecting.

(** Two addresses 127.0.0.1, ports 40000 and 8080. *)
Definition loop_addr (port : Z) : InetAddress :=
  le_bytes 2 AF_INET ++ be_bytes 2 port ++ [127; 0; 0; 1] ++ replicate 20 0.
Definition slow_connect : connect_answers :=
  mk_connect (Some 7) (Some EINPROGRESS) (inr 0) (Some (loop_addr 40000)) (Some (loop_addr 8080)) true.
Definition self_connect : connect_answers :=
  mk_connect (Some 7) (Some EINPROGRESS) (inr 0) (Some (loop_addr 8080)) (Some (loop_addr 8080)) true.

Lemma loop_addr_stored p : stored (Some (loop_addr p)).
Proof.
  intros a [= <-]. split; [done|]. unfold loop_addr. rewrite !bytes_ok_app. split_and!.
  1, 2: auto with baize.
  - repeat (apply bytes_ok_cons; split; [done|]). constructor.
  - by apply Forall_replicate.
Qed.

Lemma connect_correct_witness :
  AsyncConnect (λ _ _, None) zero_addr6 [] 8080 slow_connect {[3]} =
    Ret (Some (TcpStream_new 7 (InetAddress_ip (λ _ _, None) zero_addr6 [] 8080 false)), {[7]} ∪ {[3]}) ∧
  AsyncConnect (λ _ _, None) zero_addr6 [] 8080 self_connect {[3]} = Ret (None, {[3]}).
Proof.
  split.
  - apply (connect_correct (λ _ _, None) zero_addr6 [] 8080 slow_connect 7 {[3]});
      [done|lia|set_solver|apply loop_addr_stored..|].
    right. split; [done|]. split; [done|]. intros [E _]. vm_compute in E. discriminate E.
  - apply (connect_correct (λ _ _, None) zero_addr6 [] 8080 self_connect 7 {[3]});
      [done|lia|set_solver|apply loop_addr_stored..|].
    intros [E|(_ & _ & N)]; [discriminate E|]. apply N. split; [done|]. left. by split.
Defined.

Lemma accept_correct_witness :
  accept_loop true [mk_attempt (AcceptErr EINTR) true; mk_attempt (AcceptErr EAGAIN) false;
                    mk_attempt (Accepted 7 (loop_addr 40000)) false] {[3]} =
    Ret (Some (TcpStream_new 7 (loop_addr 40000)), {[7]} ∪ {[3]}, []) ∧
  accept_loop false [mk_attempt (AcceptErr EAGAIN) true; mk_attempt (AcceptErr EMFILE) false] {[3]} =
    Ret (None, {[3]}, []) ∧
  accept_loop false [mk_attempt (AcceptErr 9) false] {[3]} = Fault Aborted.
Proof.
  split_and!.
  - apply (accept_correct true [mk_attempt (AcceptErr EINTR) true; mk_attempt (AcceptErr EAGAIN) false]).
    + repeat constructor; eexists; by split.
    + by intros (e & E & _).
    + intros fd addr [= <- _]. lia.
  - apply (accept_correct false [mk_attempt (AcceptErr EAGAIN) true]); [|by intros (e & [= <-] & E)|done].
    repeat constructor. eexists. by split.
  - apply (accept_correct false []); [constructor|by intros (e & [= <-] & E)|done].
Defined.

(** ** A listener is bound to every address on its port *)
Lemma wildcard_addr raw port :
  InetAddress_port raw port false false =
  le_bytes 2 AF_INET ++ be_bytes 2 port ++ replicate 12 0 ++ zdrop 16 raw.
Proof.
  unfold InetAddress_port. rewrite mem_HostToNetwork16.
  change (zero_addr raw) with (replicate 16 0 ++ zdrop 16 raw).
  pose proof (zlen_be_bytes 2 port) as Hl. destruct (be_bytes 2 port) as [|x [|y [|]]]; [done..| |].
  - generalize (zdrop 16 raw) as r. intros r. reflexivity.
  - rewrite !zlen_cons in Hl. pose proof (zlen_nonneg l). lia.
Qed.

Lemma listener_ready bind listen raw port fd fds :
  TcpListener_new bind listen raw port (Some fd) fds =
    if bool_decide (bind fd (le_bytes 2 AF_INET ++ be_bytes 2 port ++ replicate 12 0) < 0) then Fault Aborted
    else if bool_decide (listen fd < 0) then Fault Aborted
    else Ret (mk_listener (InetAddress_port raw port false false) (mk_socket fd), {[fd]} ∪ fds).
Proof.
  unfold TcpListener_new, NewTcp, BindAddress, Listen. cbn [CreateTcpSocket mbind result_bind sockfd_].
  rewrite wildcard_addr. set (a := le_bytes 2 AF_INET ++ be_bytes 2 port ++ replicate 12 0).
  replace (le_bytes 2 AF_INET ++ be_bytes 2 port ++ replicate 12 0 ++ zdrop 16 raw) with (a ++ zdrop 16 raw)
    by (unfold a; by rewrite <-!app_assoc).
  assert (Ha : zlen a = 16) by (unfold a; by rewrite !zlen_app, zlen_be_bytes).
  replace (socklen (a ++ zdrop 16 raw)) with 16 by done.
  rewrite ztake_app_all by done.
  destruct (bool_decide (bind _ _ < 0)); [done|]. cbn [mbind result_bind]. by destruct (bool_decide (listen _ < 0)).
Qed.
