(* ===== verification/SocketCalls.v ===== *)
(** * The system calls of sockets: kernel/net/{socket,tcp_listener,tcp_stream,udp_stream}.cc

    Every call a socket makes, with its arguments, in the order in which it is
    made.  What the system answers may depend on all the calls before and is a
    parameter.  The theorems: a listener asks for its options before it binds
    and binds before it listens, whatever is answered; it stops at the first
    answer that is fatal; and the outcome is that of the model of the
    descriptors in Sockets. *)

From Stdlib Require Import ZArith Lia Bool.
From stdpp Require Import base numbers list gmap.
From S2P Require Import Prelude Types InetAddress Sockets.

Definition SOCK_STREAM : Z := 1.
Definition SOCK_DGRAM : Z := 2.
Definition SOCK_NONBLOCK : Z := 2048.
Definition SOCK_CLOEXEC : Z := 524288.
Definition IPPROTO_TCP : Z := 6.
Definition IPPROTO_UDP : Z := 17.
Definition SOL_SOCKET : Z := 1.
Definition TCP_NODELAY : Z := 1.
Definition SO_REUSEADDR : Z := 2.
Definition SO_KEEPALIVE : Z := 9.
Definition SO_REUSEPORT : Z := 15.
Definition SHUT_WR : Z := 1.

Inductive call : Type :=
  | SysSocket (family type protocol : Z)
  | SysConnect (fd : Z) (addr : list Z)
  | SysBind (fd : Z) (addr : list Z)
  | SysListen (fd backlog : Z)
  | SysShutdown (fd how : Z)
  | SysClose (fd : Z)
  | SysWrite (fd : Z) (buf : list Z)
  | SysSendto (fd : Z) (buf : list Z) (flags : Z) (addr : list Z)
  | SysSetsockopt (fd level name : Z) (optval : list Z).

Section calls.
(** The answer to a call after the calls made so far. *)
Context (answer : list call → call → Z).
(** The backlog limit of the system's headers. *)
Context (SOMAXCONN : Z).

(** A computation appends its calls to those made before. *)
Definition sysm (A : Type) : Type := list call → result (A * list call).
Definition sys_ret {A} (a : A) : sysm A := λ log, Ret (a, log).
Definition sys_fatal {A} : sysm A := λ _, Fault Aborted.
Definition sys_bind {A B} (c : sysm A) (f : A → sysm B) : sysm B := λ log, '(a, log) ← c log; f a log.
Definition sys (c : call) : sysm Z := λ log, Ret (answer log c, log ++ [c]).
Local Notation "x <- c ; d" := (sys_bind c (λ x, d)) (at level 60, c at next level, right associativity).

(** What [sockaddr()] and [socklen()] pass. *)
Definition addr_bytes (a : InetAddress) : list Z := ztake (socklen a) a.

(** ** Socket *)
Definition Connect (s : Socket) (peer : InetAddress) : sysm Z := sys (SysConnect (sockfd_ s) (addr_bytes peer)).
Definition Bind (s : Socket) (local : InetAddress) : sysm unit :=
  ret <- sys (SysBind (sockfd_ s) (addr_bytes local)); if bool_decide (ret < 0) then sys_fatal else sys_ret tt.
Definition Listen (s : Socket) : sysm unit :=
  ret <- sys (SysListen (sockfd_ s) SOMAXCONN); if bool_decide (ret < 0) then sys_fatal else sys_ret tt.
Definition ShutdownWrite (s : Socket) : sysm unit := _ <- sys (SysShutdown (sockfd_ s) SHUT_WR); sys_ret tt.
Definition Close (s : Socket) : sysm Socket :=
  if bool_decide (sockfd_ s < 0) then sys_ret s
  else ret <- sys (SysClose (sockfd_ s)); sys_ret (if bool_decide (ret < 0) then s else mk_socket (-1)).
Definition Write (s : Socket) (buf : list Z) : sysm Z := wn <- sys (SysWrite (sockfd_ s) buf); sys_ret (s32 wn).
Definition SendTo (s : Socket) (buf : list Z) (addr : InetAddress) : sysm Z :=
  wn <- sys (SysSendto (sockfd_ s) buf 0 (addr_bytes addr)); sys_ret (s32 wn).

(** [int optval = on ? 1 : 0]; a failure is only logged. *)
Definition optval (on : bool) : list Z := le_bytes 4 (if on then 1 else 0).
Definition set_option (level name : Z) (s : Socket) (on : bool) : sysm unit :=
  _ <- sys (SysSetsockopt (sockfd_ s) level name (optval on)); sys_ret tt.
Definition set_tcp_nodelay := set_option IPPROTO_TCP TCP_NODELAY.
Definition set_reuse_addr := set_option SOL_SOCKET SO_REUSEADDR.
Definition set_reuse_port := set_option SOL_SOCKET SO_REUSEPORT.
Definition set_keep_alive := set_option SOL_SOCKET SO_KEEPALIVE.

Definition create (type protocol family : Z) : sysm Z :=
  fd <- sys (SysSocket family (Z.lor type (Z.lor SOCK_NONBLOCK SOCK_CLOEXEC)) protocol);
  if bool_decide (fd < 0) then sys_fatal else sys_ret fd.
Definition CreateTcpSocket := create SOCK_STREAM IPPROTO_TCP.
Definition CreateUdpSocket := create SOCK_DGRAM IPPROTO_UDP.
Definition NewTcp (family : Z) : sysm Socket := fd <- CreateTcpSocket family; sys_ret (mk_socket fd).
Definition NewUdp (family : Z) : sysm Socket := fd <- CreateUdpSocket family; sys_ret (mk_socket fd).

(** ** TcpListener, TcpStream, UdpStream *)
Definition TcpListener_calls (raw : InetAddress) (port : Z) : sysm TcpListener :=
  let listenaddr := InetAddress_port raw port false false in
  sock <- NewTcp (family listenaddr);
  _ <- set_reuse_addr sock true;
  _ <- Bind sock listenaddr;
  _ <- Listen sock;
  sys_ret (mk_listener listenaddr sock).
Definition TcpStream_ShutdownWrite (t : TcpStream) : sysm unit := ShutdownWrite (conn_ t).
Definition TcpStream_set_tcp_nodelay (t : TcpStream) : sysm unit := set_tcp_nodelay (conn_ t) true.
Definition AsClient (ipv6 : bool) : sysm UdpStream :=
  sock <- NewUdp (if ipv6 then AF_INET6 else AF_INET); sys_ret (mk_udp InetAddress_default sock).
Definition AsServer (raw : InetAddress) (port : Z) : sysm UdpStream :=
  let bindaddr := InetAddress_port raw port false false in
  sock <- NewUdp (family bindaddr);
  _ <- Bind sock bindaddr;
  sys_ret (mk_udp bindaddr sock).
End calls.

(** ** What is asked, in which order *)
Section listener.
Context (answer : list call → call → Z) (SOMAXCONN : Z) (raw : InetAddress) (port : Z) (log : list call).
Let ask_socket : call := SysSocket AF_INET (Z.lor SOCK_STREAM (Z.lor SOCK_NONBLOCK SOCK_CLOEXEC)) IPPROTO_TCP.
Let fd : Z := answer log ask_socket.
Let ask_reuse : call := SysSetsockopt fd SOL_SOCKET SO_REUSEADDR [1; 0; 0; 0].
Let ask_bind : call := SysBind fd (le_bytes 2 AF_INET ++ be_bytes 2 port ++ replicate 12 0).
Let ask_listen : call := SysListen fd SOMAXCONN.

Lemma wildcard_bytes : addr_bytes (InetAddress_port raw port false false) = le_bytes 2 AF_INET ++ be_bytes 2 port ++ replicate 12 0.
Proof.
  unfold addr_bytes. rewrite wildcard_addr. set (a := le_bytes 2 AF_INET ++ be_bytes 2 port ++ replicate 12 0).
  replace (le_bytes 2 AF_INET ++ be_bytes 2 port ++ replicate 12 0 ++ zdrop 16 raw) with (a ++ zdrop 16 raw)
    by (unfold a; by rewrite <-!app_assoc).
  assert (Ha : zlen a = 16) by (unfold a; by rewrite !zlen_app, zlen_be_bytes).
  replace (socklen (a ++ zdrop 16 raw)) with 16 by done. by rewrite ztake_app_all.
Qed.
Lemma wildcard_family : family (InetAddress_port raw port false false) = AF_INET.
Proof. rewrite wildcard_addr. done. Qed.

(** A listener asks for a socket, the reuse of its address, the wildcard
    address with its port in network order and to listen, in this order and
    nothing else; the answer to the option does not matter, any other failure
    is fatal before the next call. *)
Theorem listener_protocol :
  TcpListener_calls answer SOMAXCONN raw port log =
    if bool_decide (fd < 0) then Fault Aborted
    else if bool_decide (answer (log ++ [ask_socket; ask_reuse]) ask_bind < 0) then Fault Aborted
    else if bool_decide (answer (log ++ [ask_socket; ask_reuse; ask_bind]) ask_listen < 0) then Fault Aborted
    else Ret (mk_listener (InetAddress_port raw port false false) (mk_socket fd),
              log ++ [ask_socket; ask_reuse; ask_bind; ask_listen]).
Proof.
  unfold TcpListener_calls, NewTcp, CreateTcpSocket, create, sys_bind, sys. rewrite wildcard_family.
  cbn [mbind result_bind]. fold ask_socket. fold fd.
  destruct (bool_decide (fd < 0)); [done|]. cbn [mbind result_bind sys_ret].
  unfold set_reuse_addr, set_option, Bind, Listen, sys_bind, sys. cbn [mbind result_bind sys_ret sockfd_].
  rewrite wildcard_bytes, <-!app_assoc. cbn [app]. change (optval true) with [1; 0; 0; 0]. fold ask_reuse. fold ask_bind.
  destruct (bool_decide (answer _ ask_bind < 0)); [done|]. cbn [mbind result_bind sys_ret]. rewrite <-!app_assoc. cbn [app].
  fold ask_listen. by destruct (bool_decide (answer _ ask_listen < 0)).
Qed.

(** The outcome is that of the model without calls. *)
Theorem listener_agrees fds :
  (r ← TcpListener_calls answer SOMAXCONN raw port log; Ret r.1) =
  (r ← TcpListener_new (λ _ _, answer (log ++ [ask_socket; ask_reuse]) ask_bind)
             (λ _, answer (log ++ [ask_socket; ask_reuse; ask_bind]) ask_listen) raw port
             (if bool_decide (fd < 0) then None else Some fd) fds; Ret r.1).
Proof.
  unfold TcpListener_new, Sockets.NewTcp, Sockets.BindAddress, Sockets.Listen. rewrite listener_protocol.
  destruct (bool_decide (fd < 0)); [done|]. cbn [Sockets.CreateTcpSocket mbind result_bind].
  destruct (bool_decide (answer _ ask_bind < 0)); [done|]. cbn [mbind result_bind].
  by destruct (bool_decide (answer _ ask_listen < 0)).
Qed.
End listener.

(** A descriptor that was closed is not closed again, however often [Close]
    and the destructor run. *)
Fixpoint closes (answer : list call → call → Z) (n : nat) (s : Socket) (log : list call) : result (Socket * list call) :=
  match n with
  | O => Ret (s, log)
  | S n => '(s, log) ← Close answer s log; closes answer n s log
  end.
Theorem closed_once answer n fd log :
  0 <= fd → 0 <= answer log (SysClose fd) → closes answer (S n) (mk_socket fd) log = Ret (mk_socket (-1), log ++ [SysClose fd]).
Proof.
  intros Hfd Ha. cbn [closes]. unfold Close, sys_bind, sys. cbn [sockfd_].
  rewrite bool_decide_false by lia. cbn [mbind result_bind sys_ret]. rewrite bool_decide_false by lia.
  cbn [mbind result_bind]. induction n as [|n IH]; [done|]. cbn [closes]. unfold Close at 1. cbn [sockfd_].
  rewrite bool_decide_true by lia. apply IH.
Qed.
