(* ===== verification/Examples.v ===== *)
(** * Example servers: example/{tcp_echo,tcp_discard,udp_discard}.cc

    Each connection handler is a loop over what its stream answers; the
    answers of one call are one trace.  The theorems: the echo handler sends
    back what it receives, and nothing else, however reads and writes are
    fragmented; the counters of the discard programs add up over every
    interleaving with the reporting timer; an accept that returns a null
    stream faults the servers. *)

From Stdlib Require Import ZArith Lia Bool.
From stdpp Require Import base numbers list gmap.
From S2P Require Import Prelude Types StringPiece Buffer InetAddress Stream Sockets.

(** ** tcp_echo.cc *)

(** [writes]: for each round the answers its [AsyncWrite] gets; [wire] is what
    the peer has been sent. *)
Fixpoint echo_loop (writes : list (list write_result)) (reads : list (attempt io_result))
    (read_buf : Buffer) (wire : list Z) : result (list Z) :=
  '(read_buf, rn, _, reads) ← tcp_AsyncRead_buf reads read_buf;
  if bool_decide (rn <= 0) then Ret wire
  else
    match writes with
    | [] => OutOfFuel
    | w :: writes =>
        '(wn, wire) ← tcp_AsyncWrite w (AsString (slice read_buf)) (readable_bytes read_buf) 0 wire;
        if bool_decide (wn ≠ readable_bytes read_buf) then Ret wire
        else echo_loop writes reads (TakeAll read_buf) wire
    end.
Definition echo_connection (writes : list (list write_result)) (reads : list (attempt io_result)) : result (list Z) :=
  echo_loop writes reads default_buffer [].

(** [stream->...] on what [AsyncAccept] returned. *)
Definition deref (stream : option TcpStream) : result TcpStream :=
  match stream with Some s => Ret s | None => Fault NullDeref end.
(** [while (1)] of a server: the streams handed to a new routine, in order;
    [fuel] counts the rounds. *)
Fixpoint accept_rounds (fuel : nat) (trace : list (attempt accept_result)) (fds : gset Z) (tasks : list TcpStream)
    : result (list TcpStream) :=
  match fuel with
  | O => OutOfFuel
  | S fuel =>
      '(stream, fds, trace) ← AsyncAccept trace fds;
      stream ← deref stream;
      accept_rounds fuel trace fds (tasks ++ [stream])
  end.
Section servers.
Context (bind : Z → list Z → Z) (listen : Z → Z).
Definition echo_server (raw : InetAddress) (fd : option Z) (fuel : nat) (trace : list (attempt accept_result)) (fds : gset Z)
    : result (list TcpStream) :=
  '(listener, fds) ← TcpListener_new bind listen raw 6060 fd fds;
  accept_rounds fuel trace fds [].
(** [set_tcp_nodelay] and [peer_ip_port] both dereference the stream. *)
Definition discard_server (raw : InetAddress) (fd : option Z) (fuel : nat) (trace : list (attempt accept_result)) (fds : gset Z)
    : result (list TcpStream) :=
  '(listener, fds) ← TcpListener_new bind listen raw 6070 fd fds;
  accept_rounds fuel trace fds [].
End servers.

(** ** tcp_discard.cc, udp_discard.cc: the counters *)

(** [int64_t] counters: [g_readbytes] or [g_sendbytes], the value at the last
    report, the messages since then, and the time of the last report. *)
Record counters : Type := mk_counters {
  g_bytes : Z;
  g_bytes_last : Z;
  g_msg : Z;
  g_last_time : Z;
}.
Definition counters_init : counters := mk_counters 0 0 0 0.

Definition int64_add (a b : Z) : result Z :=
  if bool_decide (- 2 ^ 63 <= a + b < 2 ^ 63) then Ret (a + b) else Fault SignedOverflow.
(** [g_msg++; g_readbytes += rn;], which the UDP client does in the other
    order, and with [g_sendbytes]. *)
Definition count (rn : Z) (c : counters) : result counters :=
  msg ← int64_add (g_msg c) 1;
  bytes ← int64_add (g_bytes c) rn;
  Ret (mk_counters bytes (g_bytes_last c) msg (g_last_time c)).
(** [server_print]: the bytes and messages it reports, before they become
    floating-point rates; the UDP [client_print] is the same. *)
Definition server_print (now : Z) (c : counters) : result (counters * (Z * Z)) :=
  bytes ← int64_add (g_bytes c) (- g_bytes_last c);
  Ret (mk_counters (g_bytes c) (g_bytes c) 0 now, (bytes, g_msg c)).

(** Prints that run while the handler waits, in order. *)
Fixpoint prints (times : list Z) (c : counters) (reports : list (Z * Z)) : result (counters * list (Z * Z)) :=
  match times with
  | [] => Ret (c, reports)
  | now :: times => '(c, r) ← server_print now c; prints times c (reports ++ [r])
  end.

(** What happens during one call of the stream: the timer's prints, and the
    answers the call gets. *)
Definition round (R : Type) : Type := list Z * list (attempt R).
Fixpoint discard_loop (rounds : list (round io_result)) (buf : list Z) (c : counters) (reports : list (Z * Z))
    : result (counters * list (Z * Z)) :=
  match rounds with
  | [] => OutOfFuel
  | (times, trace) :: rounds =>
      '(c, reports) ← prints times c reports;
      '(buf, rn, _, _) ← tcp_AsyncRead 0 65536 trace buf;
      if bool_decide (rn <= 0) then Ret (c, reports)
      else c ← count rn c; discard_loop rounds buf c reports
  end.
(** [char buf[65536]] is not initialised; [now] is [Timestamp::Now()]. *)
Definition discard_connection (now : Z) (buf : list Z) (rounds : list (round io_result)) (c : counters) :=
  discard_loop rounds buf (mk_counters (g_bytes c) (g_bytes_last c) (g_msg c) now) [].

Fixpoint udp_discard_loop (rounds : list (round datagram)) (buf : list Z) (c : counters) (reports : list (Z * Z))
    : result (counters * list (Z * Z)) :=
  match rounds with
  | [] => OutOfFuel
  | (times, trace) :: rounds =>
      '(c, reports) ← prints times c reports;
      '(s, rn, _, _) ← AsyncRecvFrom 0 4096 trace buf;
      if bool_decide (rn < 0) then Ret (c, reports)
      else c ← count rn c; udp_discard_loop rounds s.1 c reports
  end.

(** The clients send 1024 times ['z'] over and over; the TCP client does not
    count messages, and its [client_print] reports bytes only. *)
Definition message : list Z := replicate 1024 122.
Definition client_print (now : Z) (c : counters) : result (counters * (Z * Z)) :=
  bytes ← int64_add (g_bytes c) (- g_bytes_last c);
  Ret (mk_counters (g_bytes c) (g_bytes c) (g_msg c) now, (bytes, 0)).
Fixpoint client_prints (times : list Z) (c : counters) (reports : list (Z * Z)) : result (counters * list (Z * Z)) :=
  match times with
  | [] => Ret (c, reports)
  | now :: times => '(c, r) ← client_print now c; client_prints times c (reports ++ [r])
  end.
Fixpoint discard_client_loop (rounds : list (list Z * list write_result)) (c : counters) (reports : list (Z * Z))
    (wire : list Z) : result (counters * list (Z * Z) * list Z) :=
  match rounds with
  | [] => OutOfFuel
  | (times, trace) :: rounds =>
      '(c, reports) ← client_prints times c reports;
      '(wn, wire) ← tcp_AsyncWrite trace message (zlen message) 0 wire;
      if bool_decide (wn ≠ zlen message) then Ret (c, reports, wire)
      else
        bytes ← int64_add (g_bytes c) wn;
        discard_client_loop rounds (mk_counters bytes (g_bytes_last c) (g_msg c) (g_last_time c)) reports wire
  end.
Definition discard_client (stream : option TcpStream) (now : Z) (rounds : list (list Z * list write_result)) (c : counters)
    : result (counters * list (Z * Z) * list Z) :=
  match stream with
  | None => Ret (c, [], [])
  | Some _ => discard_client_loop rounds (mk_counters (g_bytes c) (g_bytes_last c) (g_msg c) now) [] []
  end.

(** The UDP client; the datagrams sent are only counted. *)
Fixpoint udp_client_loop (rounds : list (list Z * list send_result)) (c : counters) (reports : list (Z * Z))
    : result (counters * list (Z * Z)) :=
  match rounds with
  | [] => OutOfFuel
  | (times, trace) :: rounds =>
      '(c, reports) ← prints times c reports;
      '(wn, _) ← AsyncSendto trace;
      if bool_decide (wn ≠ zlen message) then Ret (c, reports)
      else c ← count wn c; udp_client_loop rounds c reports
  end.

(** [main] of the discard programs: [Idle] is a loop with nothing to run,
    which never ends. *)
Inductive discard_role : Type := RunServer | RunClient | Idle | Exit.
Definition discard_main (argv : list (list Z)) : discard_role :=
  match argv with
  | [_; flag] =>
      if bool_decide (flag = [45; 115]) then RunServer
      else if bool_decide (flag = [45; 99]) then RunClient
      else Idle
  | _ => Exit
  end.

(** ** Echo: what comes back *)
(** One round that reads the piece [c] on an empty buffer. *)
Lemma echo_round w writes reads c cs rest buf wire :
  delivers false reads (c :: cs) → buf_wf buf → content buf = [] → zlen c <= max_content →
  ∃ buf' reads', delivers false reads' cs ∧ buf_wf (TakeAll buf') ∧ content (TakeAll buf') = [] ∧
    echo_loop (w :: writes) (reads ++ rest) buf wire =
      ('(wn, wire) ← tcp_AsyncWrite w c (zlen c) 0 wire;
       if bool_decide (wn ≠ zlen c) then Ret wire else echo_loop writes (reads' ++ rest) (TakeAll buf') wire).
Proof.
  intros Hd Hb H0 Hfit. destruct (tcp_read_piece false reads c cs rest buf Hd Hb)
    as (buf' & reads' & E & Hb' & Hc & Hd' & _ & Hpos); [by rewrite H0|].
  rewrite H0 in Hc. cbn [app] in Hc. destruct (TakeAll_ok buf' Hb') as [Hw Hk].
  exists buf', reads'. split_and!; [done..|]. cbn [echo_loop]. unfold tcp_AsyncRead_buf.
  rewrite (bind_Ret_step _ _ _ E). cbv beta iota. rewrite bool_decide_false by lia.
  by rewrite AsString_slice, <-zlen_content, Hc by done.
Qed.
Lemma echo_end writes reads t rest buf wire :
  delivers false reads [] → buf_wf buf → content buf = [] →
  echo_loop writes (reads ++ mk_attempt (IoOk []) t :: rest) buf wire = Ret wire.
Proof.
  intros Hd Hb H0. destruct (tcp_read_end false reads t rest buf Hd Hb) as (buf' & E & _ & _); [by rewrite H0|].
  destruct writes; cbn [echo_loop]; unfold tcp_AsyncRead_buf; by rewrite (bind_Ret_step _ _ _ E).
Qed.

Section echo.
Context (t : bool) (rest : list (attempt io_result)).
Local Notation fin := (mk_attempt (IoOk []) t :: rest).

Lemma echo_sound writes reads cs buf wire wire' :
  delivers false reads cs → buf_wf buf → content buf = [] → Forall (λ c, zlen c <= max_content) cs →
  echo_loop writes (reads ++ fin) buf wire = Ret wire' →
  ∃ k, 0 <= k <= zlen (concat cs) ∧ wire' = wire ++ ztake k (concat cs) ∧
    (k < zlen (concat cs) → Exists (Exists (refused false)) writes).
Proof.
  revert writes reads buf wire. induction cs as [|c cs IH]; intros writes reads buf wire Hd Hb H0 Hfit.
  - rewrite echo_end by done. intros [= <-]. exists 0. rewrite ztake_0, app_nil_r. change (zlen (concat [])) with 0. split_and!; (done || lia).
  - apply Forall_cons in Hfit as [Hfc Hfit]. destruct writes as [|w writes].
    { destruct (tcp_read_piece false reads c cs fin buf Hd Hb) as (buf' & reads' & E & _ & _ & _ & _ & Hpos); [by rewrite H0|].
      cbn [echo_loop]. unfold tcp_AsyncRead_buf. rewrite (bind_Ret_step _ _ _ E). cbv beta iota.
      by rewrite bool_decide_false by lia. }
    destruct (echo_round w writes reads c cs fin buf wire Hd Hb H0 Hfc) as (buf' & reads' & Hd' & Hw & Hk & ->).
    destruct (tcp_AsyncWrite w c (zlen c) 0 wire) as [[wn wire1]| |] eqn:E; [|done..]. cbn [mbind result_bind concat].
    apply (AsyncWrite_sent false) in E as (n & Hn & -> & -> & Hr). rewrite Z.add_0_l, zlen_app.
    pose proof (zlen_nonneg (concat cs)) as Hz.
    destruct (bool_decide_reflect (n ≠ zlen c)) as [Hne|He].
    + intros [= <-]. exists n. rewrite ztake_app_le by lia. split_and!; [lia..|done|]. intros _. left. apply Hr. lia.
    + intros (k & Hk2 & -> & Hex)%IH; [|done..]. exists (zlen c + k).
      assert (n = zlen c) as -> by lia. rewrite (ztake_split (zlen c) (zlen c + k)) by lia.
      rewrite ztake_app_all, zdrop_app_all, (ztake_ge (zlen c) c), <-app_assoc, Z.add_simpl_l by (done || lia).
      split_and!; [lia..|done|]. intros. right. apply Hex. lia.
Qed.

Lemma echo_all writes reads cs buf wire :
  delivers false reads cs → buf_wf buf → content buf = [] → Forall (λ c, zlen c <= max_content) cs →
  Forall2 (λ w c, Forall (λ a, ¬ refused false a) w ∧ zlen c <= total_room w) writes cs →
  echo_loop writes (reads ++ fin) buf wire = Ret (wire ++ concat cs).
Proof.
  intros Hd Hb H0 Hfit Hw. revert reads buf wire Hd Hb H0 Hfit.
  induction Hw as [|w c writes cs [Hf Hroom] _ IH]; intros reads buf wire Hd Hb H0 Hfit.
  - rewrite echo_end by done. cbn. by rewrite app_nil_r.
  - apply Forall_cons in Hfit as [Hfc Hfit]. destruct (echo_round w writes reads c cs fin buf wire Hd Hb H0 Hfc) as (buf' & reads' & Hd' & Hw & Hk & ->).
    apply delivers_cons in Hd as (_ & _ & _ & _ & _ & Hpos & _).
    rewrite (bind_Ret_step _ _ _ (AsyncWrite_all false w c 0 wire Hf (conj Hpos Hroom))). cbv beta iota.
    rewrite bool_decide_false by lia. rewrite IH by done. cbn [concat]. by rewrite app_assoc.
Qed.
End echo.

(** The echo server's handler, over a peer that sends the pieces [cs] and
    closes, with any waits, interruptions and fragmentation: whatever it has
    sent when it ends is a prefix of what the peer sent, shorter only if a
    write failed; and when no write fails it does end, and the peer has got
    back exactly its own bytes in order. *)
Theorem echo_correct writes reads cs t rest :
  delivers false reads cs → Forall (λ c, zlen c <= max_content) cs →
  (∀ wire, echo_connection writes (reads ++ mk_attempt (IoOk []) t :: rest) = Ret wire →
     ∃ k, 0 <= k <= zlen (concat cs) ∧ wire = ztake k (concat cs) ∧
       (k < zlen (concat cs) → Exists (Exists (refused false)) writes)) ∧
  (Forall2 (λ w c, Forall (λ a, ¬ refused false a) w ∧ zlen c <= total_room w) writes cs →
     echo_connection writes (reads ++ mk_attempt (IoOk []) t :: rest) = Ret (concat cs)).
Proof.
  intros Hd Hfit. unfold echo_connection. split.
  - intros wire. apply (echo_sound t rest writes reads cs default_buffer []);
      [done|exact default_buffer_wf|exact default_buffer_content|done].
  - intros Hw. apply (echo_all t rest writes reads cs default_buffer []); [done|exact default_buffer_wf|exact default_buffer_content|done..].
Qed.

Lemma echo_correct_witness :
  echo_connection [[WriteOk 1 0; WriteErr EAGAIN; WriteOk 9 0]; [WriteOk 5 0]]
    [mk_attempt (IoErr EAGAIN) true; mk_attempt (IoOk [1; 2]) false; mk_attempt (IoOk [3]) false;
     mk_attempt (IoOk []) false] = Ret [1; 2; 3].
Proof.
  apply (echo_correct [[WriteOk 1 0; WriteErr EAGAIN; WriteOk 9 0]; [WriteOk 5 0]]
    [mk_attempt (IoErr EAGAIN) true; mk_attempt (IoOk [1; 2]) false; mk_attempt (IoOk [3]) false]
    [[1; 2]; [3]] false []).
  - apply delivers_wait; [by exists EAGAIN|].
    apply delivers_piece; [done|]. apply delivers_piece; [done|]. constructor.
  - repeat (constructor; [vm_compute; discriminate|]). constructor.
  - repeat apply Forall2_cons_2; [..|apply Forall2_nil_2];
      (split; [rewrite !Forall_cons; unfold refused, hard, EAGAIN, EINTR; split_and!; try lia; by apply Forall_nil
              |vm_compute; discriminate]).
Defined.

(** ** A null stream *)

(** A connection: the waits before it, its descriptor and its peer. *)
Record arrival : Type := mk_arrival {
  ar_waits : list (attempt accept_result);
  ar_fd : Z;
  ar_peer : InetAddress;
}.
Definition arrival_ok (a : arrival) : Prop := Forall (accept_waits false) (ar_waits a) ∧ 0 <= ar_fd a.
Definition arrival_trace (a : arrival) : list (attempt accept_result) :=
  ar_waits a ++ [mk_attempt (Accepted (ar_fd a) (ar_peer a)) false].
(** The errors [Accept] tolerates and [AsyncAccept] turns into a null stream. *)
Definition aborts_accept (e : Z) : Prop := e ∈ [ECONNABORTED; EPROTO; EPERM; EMFILE].

Lemma AsyncAccept_arrival a trace fds :
  arrival_ok a →
  AsyncAccept (arrival_trace a ++ trace) fds =
    Ret (Some (TcpStream_new (ar_fd a) (ar_peer a)), {[ar_fd a]} ∪ fds, trace).
Proof.
  intros [Hw Hfd]. unfold AsyncAccept, accept_loop, arrival_trace. rewrite <-app_assoc, Accept_waits by done.
  cbn [app retry answer Accept mbind result_bind]. rewrite bool_decide_false by lia. cbn [mbind result_bind].
  by rewrite bool_decide_false by lia.
Qed.
Lemma AsyncAccept_null pre e t trace fds :
  Forall (accept_waits false) pre → aborts_accept e →
  AsyncAccept (pre ++ mk_attempt (AcceptErr e) t :: trace) fds = Ret (None, fds, trace).
Proof.
  intros Hw He. unfold AsyncAccept, accept_loop. rewrite Accept_waits by done.
  unfold aborts_accept in He. rewrite !elem_of_cons, elem_of_nil in He.
  by destruct He as [->|[->|[->|[->|[]]]]].
Qed.

(** The streams of the arrivals are handed out, in order. *)
Lemma accept_rounds_arrivals arrivals fuel trace fds tasks :
  Forall arrival_ok arrivals →
  ∃ fds', accept_rounds (length arrivals + fuel) (concat (arrival_trace <$> arrivals) ++ trace) fds tasks =
    accept_rounds fuel trace fds' (tasks ++ ((λ a, TcpStream_new (ar_fd a) (ar_peer a)) <$> arrivals)).
Proof.
  intros Ha. revert fds tasks. induction Ha as [|a arrivals Ha _ IH]; intros fds tasks.
  { exists fds. by rewrite app_nil_r. }
  destruct (IH ({[ar_fd a]} ∪ fds) (tasks ++ [TcpStream_new (ar_fd a) (ar_peer a)])) as [fds' E]. exists fds'.
  cbn [length Nat.add accept_rounds fmap list_fmap concat]. rewrite <-app_assoc.
  rewrite (bind_Ret_step _ _ _ (AsyncAccept_arrival a _ fds Ha)). cbn [deref mbind result_bind].
  rewrite E, <-app_assoc. done.
Qed.

(** A peer that aborts its connection before it is accepted, or a moment
    without free descriptors, takes the echo server down: after any number of
    served connections, such an answer makes [AsyncAccept] return a null
    stream, and the loop dereferences it.  Without one the loop runs on. *)
Theorem null_stream_faults bind listen raw fd fds arrivals pre e t rest fuel :
  0 <= bind fd (le_bytes 2 AF_INET ++ be_bytes 2 6060 ++ replicate 12 0) → 0 <= listen fd →
  Forall arrival_ok arrivals → Forall (accept_waits false) pre → aborts_accept e →
  (length arrivals < fuel)%nat →
  echo_server bind listen raw (Some fd) fuel
    (concat (arrival_trace <$> arrivals) ++ pre ++ mk_attempt (AcceptErr e) t :: rest) fds = Fault NullDeref ∧
  echo_server bind listen raw (Some fd) (length arrivals)
    (concat (arrival_trace <$> arrivals) ++ pre ++ mk_attempt (AcceptErr e) t :: rest) fds = OutOfFuel.
Proof.
  intros Hbind Hlisten Ha Hp He Hf. unfold echo_server. rewrite listener_ready.
  rewrite !bool_decide_false by lia. cbn [mbind result_bind]. set (trace := pre ++ _). split.
  - replace fuel with (length arrivals + S (fuel - length arrivals - 1))%nat by lia.
    destruct (accept_rounds_arrivals arrivals (S (fuel - length arrivals - 1)) trace ({[fd]} ∪ fds) [] Ha)
      as [fds' ->]. cbn [accept_rounds]. unfold trace.
    by rewrite (bind_Ret_step _ _ _ (AsyncAccept_null pre e t rest fds' Hp He)).
  - rewrite <-(Nat.add_0_r (length arrivals)).
    destruct (accept_rounds_arrivals arrivals 0 trace ({[fd]} ∪ fds) [] Ha) as [fds' ->]. done.
Qed.

Lemma null_stream_faults_witness :
  echo_server (λ _ _, 0) (λ _, 0) zero_addr6 (Some 3) 5
    [mk_attempt (Accepted 7 zero_addr6) false; mk_attempt (AcceptErr EAGAIN) false;
     mk_attempt (AcceptErr ECONNABORTED) false] ∅ = Fault NullDeref.
Proof.
  apply (null_stream_faults (λ _ _, 0) (λ _, 0) zero_addr6 3 ∅ [mk_arrival [] 7 zero_addr6]
    [mk_attempt (AcceptErr EAGAIN) false] ECONNABORTED false [] 5).
  - lia.
  - lia.
  - repeat constructor. cbn. lia.
  - repeat constructor. eexists. by split.
  - unfold aborts_accept. by left.
  - cbn. lia.
Defined.

(** ** The discard counters *)
Definition total (l : list Z) : Z := foldr Z.add 0 l.
Lemma total_snoc l z : total (l ++ [z]) = total l + z.
Proof. unfold total. induction l as [|x l IH]; cbn [app foldr] in *; lia. Qed.

(** Everything counted, reported or not yet: bytes and messages. *)
Definition balance (s : counters * list (Z * Z)) : Z * Z :=
  (total (fst <$> s.2) + (g_bytes s.1 - g_bytes_last s.1), total (snd <$> s.2) + g_msg s.1).
Definition counters_wf (c : counters) : Prop := 0 <= g_bytes_last c <= g_bytes c ∧ 0 <= g_msg c.

Lemma prints_ok times c reports :
  counters_wf c → g_bytes c < 2 ^ 63 →
  ∃ s, prints times c reports = Ret s ∧ counters_wf s.1 ∧ g_bytes s.1 = g_bytes c ∧ g_msg s.1 <= g_msg c ∧
    balance s = balance (c, reports).
Proof.
  revert c reports. induction times as [|now times IH]; intros c reports Hc Hb; cbn [prints].
  { exists (c, reports). by split_and!. }
  destruct Hc as [Hl Hm]. unfold server_print, int64_add. rewrite bool_decide_true by lia. cbn [mbind result_bind].
  destruct (IH (mk_counters (g_bytes c) (g_bytes c) 0 now)
              (reports ++ [(g_bytes c + - g_bytes_last c, g_msg c)])) as (s & E & Hw & H1 & H2 & H3).
  - unfold counters_wf. cbn. lia.
  - cbn. lia.
  - exists s. cbn [g_bytes g_msg] in *. split_and!; [done..|lia|]. rewrite H3. unfold balance.
    cbn [fst snd g_bytes g_bytes_last g_msg]. rewrite !fmap_app. cbn [fmap list_fmap fst snd]. rewrite !total_snoc.
    f_equal; lia.
Qed.

Lemma count_ok rn c reports :
  counters_wf c → 0 <= rn → g_bytes c + rn < 2 ^ 63 → g_msg c < 2 ^ 63 - 1 →
  ∃ c', count rn c = Ret c' ∧ counters_wf c' ∧ g_bytes c' = g_bytes c + rn ∧ g_msg c' = g_msg c + 1 ∧
    balance (c', reports) = ((balance (c, reports)).1 + rn, (balance (c, reports)).2 + 1).
Proof.
  intros [Hl Hm] ???. unfold count, int64_add. rewrite !bool_decide_true by lia. cbn [mbind result_bind].
  eexists. split; [done|].
  unfold counters_wf, balance. cbn. split_and!; try lia. f_equal; lia.
Qed.

(** Rounds that receive the pieces and then end: at the end of the stream, or
    with an error. *)
Inductive receives : list (round io_result) → list (list Z) → Prop :=
  | receives_end times pre r t rest rounds :
      Forall (waits false) pre → (r = IoOk [] ∨ ∃ e, r = IoErr e ∧ hard e) →
      receives ((times, pre ++ mk_attempt r t :: rest) :: rounds) []
  | receives_piece times pre c t rest rounds cs :
      Forall (waits false) pre → 0 < zlen c <= 65536 → receives rounds cs →
      receives ((times, pre ++ mk_attempt (IoOk c) t :: rest) :: rounds) (c :: cs).

Lemma tcp_read_into pre c t rest mem :
  Forall (waits false) pre → zlen c <= 65536 → zlen mem = 65536 →
  ∃ mem', tcp_AsyncRead 0 65536 (pre ++ mk_attempt (IoOk c) t :: rest) mem = Ret (mem', zlen c, false, rest) ∧
    zlen mem' = 65536.
Proof.
  intros Hp Hc Hm. pose proof (zlen_nonneg c). unfold tcp_AsyncRead. rewrite retry_waits_mem by done.
  destruct (memcpy mem 0 c (zlen c)) as [mem'| |] eqn:E;
    [|exfalso; unfold memcpy in E; rewrite bool_decide_true in E by lia; done..].
  exists mem'. split; [|by destruct (memcpy_ok _ _ _ _ _ E) as [-> _]].
  rewrite (retry_read_done _ _ _ _ _ _ _ mem') by (rewrite ?(ztake_ge 65536 c) by lia; done).
  unfold left_over. cbn [answer]. by rewrite bool_decide_false, (ztake_ge 65536 c) by lia.
Qed.
Lemma tcp_read_stops pre r t rest mem :
  Forall (waits false) pre → (r = IoOk [] ∨ ∃ e, r = IoErr e ∧ hard e) → zlen mem = 65536 →
  ∃ mem' rn, tcp_AsyncRead 0 65536 (pre ++ mk_attempt r t :: rest) mem = Ret (mem', rn, false, rest) ∧ rn <= 0.
Proof.
  intros Hp [->|(e & -> & Hi & Ha)] Hm.
  - destruct (tcp_read_into pre [] t rest mem Hp) as (mem' & E & _); [done..|]. by exists mem', 0.
  - exists mem, (-1). split; [|lia]. unfold tcp_AsyncRead. rewrite retry_waits_mem by done.
    cbn [retry_read answer Read mbind result_bind io_errno]. rewrite bool_decide_true by lia.
    by rewrite !bool_decide_false by done.
Qed.

Lemma discard_loop_ok rounds cs mem c reports :
  receives rounds cs → zlen mem = 65536 → counters_wf c →
  g_bytes c + zlen (concat cs) < 2 ^ 63 → g_msg c + zlen cs < 2 ^ 63 →
  ∃ s, discard_loop rounds mem c reports = Ret s ∧ g_bytes s.1 = g_bytes c + zlen (concat cs) ∧
    balance s = ((balance (c, reports)).1 + zlen (concat cs), (balance (c, reports)).2 + zlen cs).
Proof.
  intros Hr. revert mem c reports.
  induction Hr as [times pre r t rest rounds Hp Hr|times pre p t rest rounds cs Hp Hl Hr IH];
    intros mem c reports Hm Hc Hb Hn; cbn [discard_loop].
  - change (zlen (concat [])) with 0 in *. change (zlen []) with 0 in *.
    destruct (prints_ok times c reports Hc) as ([c1 r1] & E & Hw & H1 & _ & H3); [lia|].
    rewrite (bind_Ret_step _ _ _ E). cbv beta iota.
    destruct (tcp_read_stops pre r t rest mem Hp Hr Hm) as (mem' & rn & E' & Hrn).
    rewrite (bind_Ret_step _ _ _ E'). cbv beta iota. rewrite bool_decide_true by lia.
    exists (c1, r1). rewrite !Z.add_0_r. cbn [fst] in *. split_and!; [done..|]. rewrite H3. by destruct (balance _).
  - cbn [concat] in *. rewrite zlen_app, zlen_cons in *. pose proof (zlen_nonneg (concat cs)). pose proof (zlen_nonneg cs).
    destruct (prints_ok times c reports Hc) as ([c1 r1] & E & Hw & H1 & H2 & H3); [lia|].
    rewrite (bind_Ret_step _ _ _ E). cbv beta iota. cbn [fst] in *.
    destruct (tcp_read_into pre p t rest mem Hp) as (mem' & E' & Hm'); [lia|done|].
    rewrite (bind_Ret_step _ _ _ E'). cbv beta iota. rewrite bool_decide_false by lia.
    destruct (count_ok (zlen p) c1 r1 Hw) as (c2 & E2 & Hw2 & H4 & H5 & H6); [lia..|].
    rewrite (bind_Ret_step _ _ _ E2).
    destruct (IH mem' c2 r1 Hm' Hw2) as (s & E3 & H7 & H8); [lia..|].
    exists s. split; [done|]. split; [lia|]. rewrite H8, H6, H3. cbn [fst snd]. f_equal; lia.
Qed.

(** Over any interleaving of reads with the reporting timer, and until the
    peer closes or the connection fails, the TCP discard server has counted
    exactly the bytes and reads it received: what its reports add up to,
    together with what is not reported yet, is the total. *)
Theorem discard_counts now rounds cs mem c :
  receives rounds cs → zlen mem = 65536 → counters_wf c →
  g_bytes c + zlen (concat cs) < 2 ^ 63 → g_msg c + zlen cs < 2 ^ 63 →
  ∃ c' reports, discard_connection now mem rounds c = Ret (c', reports) ∧
    g_bytes c' = g_bytes c + zlen (concat cs) ∧
    total (fst <$> reports) + (g_bytes c' - g_bytes_last c') = g_bytes c - g_bytes_last c + zlen (concat cs) ∧
    total (snd <$> reports) + g_msg c' = g_msg c + zlen cs.
Proof.
  intros Hr Hm Hc Hb Hn. unfold discard_connection.
  set (c0 := mk_counters (g_bytes c) (g_bytes_last c) (g_msg c) now).
  destruct (discard_loop_ok rounds cs mem c0 [] Hr Hm Hc Hb Hn) as ([c' reports] & E & H1 & H2).
  exists c', reports. injection H2 as H2 H3. split_and!; [done..| |]; cbn in *; lia.
Qed.

Lemma discard_counts_witness :
  ∃ c' reports,
    discard_connection 5 (replicate (Z.to_nat 65536) 0)
      [([], [mk_attempt (IoOk [1; 2]) false]); ([9], [mk_attempt (IoErr EAGAIN) false; mk_attempt (IoOk [3]) false]);
       ([], [mk_attempt (IoOk []) false])] counters_init = Ret (c', reports) ∧
    g_bytes c' = 3.
Proof.
  destruct (discard_counts 5 [([], [] ++ [mk_attempt (IoOk [1; 2]) false]);
      ([9], [mk_attempt (IoErr EAGAIN) false] ++ [mk_attempt (IoOk [3]) false]);
      ([], [] ++ [mk_attempt (IoOk []) false])] [[1; 2]; [3]] (replicate (Z.to_nat 65536) 0) counters_init)
    as (c' & reports & E & Hb & _).
  - apply receives_piece; [constructor|vm_compute; split; [reflexivity|discriminate]|].
    apply receives_piece; [repeat constructor; by exists EAGAIN|vm_compute; split; [reflexivity|discriminate]|].
    apply receives_end; [constructor|by left].
  - by rewrite zlen_replicate.
  - unfold counters_wf. cbn. lia.
  - reflexivity.
  - reflexivity.
  - exists c', reports. split; [exact E|exact Hb].
Defined.

(** The TCP client has counted its complete messages, all of which were sent. *)
Lemma client_prints_bytes times c reports s :
  client_prints times c reports = Ret s → g_bytes s.1 = g_bytes c.
Proof.
  revert c reports. induction times as [|now times IH]; intros c reports E; cbn [client_prints] in E.
  - by injection E as <-.
  - unfold client_print in E. inv_bind. subst. by apply IH in E as ->.
Qed.
Lemma discard_client_sent rounds c reports wire c' reports' wire' :
  discard_client_loop rounds c reports wire = Ret (c', reports', wire') →
  ∃ k n, g_bytes c' = g_bytes c + zlen message * Z.of_nat k ∧ 0 <= n < zlen message ∧
    wire' = wire ++ concat (replicate k message) ++ ztake n message.
Proof.
  revert c reports wire. induction rounds as [|[times trace] rounds IH]; intros c reports wire E; [done|].
  cbn [discard_client_loop] in E.
  destruct (client_prints times c reports) as [[c1 r1]| |] eqn:Ep; [|done..]. cbn [mbind result_bind] in E.
  apply client_prints_bytes in Ep. cbn [fst] in Ep.
  destruct (tcp_AsyncWrite trace message (zlen message) 0 wire) as [[wn wire1]| |] eqn:Ew; [|done..].
  cbn [mbind result_bind] in E. apply (AsyncWrite_sent false) in Ew as (n & Hn & -> & -> & _).
  rewrite Z.add_0_l in E. destruct (bool_decide_reflect (n ≠ zlen message)) as [Hne|He].
  - injection E as <- <- <-. exists 0%nat, n. split_and!; [lia..|done].
  - unfold int64_add in E. destruct (bool_decide (_ <= _ < _)); [|done]. cbn [mbind result_bind] in E.
    apply IH in E as (k & m & Hb & Hm & ->). exists (S k), m. cbn [g_bytes] in Hb. split_and!; [lia..|].
    cbn [replicate concat]. rewrite (ztake_ge n message), <-!app_assoc by lia. done.
Qed.
