(* ===== verification/FileTransfer.v ===== *)
(** * The file transfer program: example/file_transfer.cc

    The server sends a header and the bytes of a file over a TCP stream; the
    client collects the header, creates the file and writes what follows.  The
    file system is a map from paths to contents; what the system calls answer
    is an argument.  The theorems: the server sends the header and the file,
    in order and once, and fails an assertion on an empty file; the client's
    file holds the bytes received after the read that completed the header,
    joined with what that read brought only when another read follows. *)

From Stdlib Require Import ZArith Lia Bool.
From stdpp Require Import base numbers list strings gmap.
From S2P Require Import Prelude Types StringPiece Buffer InetAddress Stream.

Definition kHead : list Z := bytes_of "bzfthead".
Definition kBody : list Z := bytes_of "bzftbody".

(** ** What both ends count *)
Record Stat : Type := mk_stat {
  total_bytes : Z;
  last_bytes : Z;
  last_time : Z;
}.
Definition Stat_new : Stat := mk_stat 0 0 0.
(** [PrintStat]: the bytes and the milliseconds since the last report, from
    which the printed line is computed. *)
Definition PrintStat (now : Z) (s : Stat) : Stat * (Z * Z) :=
  (mk_stat (total_bytes s) (total_bytes s) now,
   (u64 (total_bytes s - last_bytes s), now - last_time s)).
Definition count_bytes (n : Z) (s : Stat) : Stat :=
  mk_stat (u64 (total_bytes s + n)) (last_bytes s) (last_time s).
Definition start_clock (now : Z) (s : Stat) : Stat := mk_stat (total_bytes s) (last_bytes s) now.

(** ** The server *)
Record BigFileReader : Type := mk_reader { file_size_ : Z }.

(** [opened]: whether [open] succeeds; [stat]: whether the path is a directory
    and its size. *)
Definition BigFileReader_new (opened : bool) (stat : option (bool * Z)) : result BigFileReader :=
  if opened then
    match stat with
    | None => Fault Aborted
    | Some (is_dir, st_size) => if (is_dir : bool) then Fault Aborted else Ret (mk_reader (u64 st_size))
    end
  else Fault Aborted.
Definition ReadFile (buf : Buffer) (r : io_result) : result (Buffer * Z) := ReadFd buf r.

Record Server : Type := mk_server {
  filename_ : list Z;
  filemd5_ : list Z;
  file_reader_ : BigFileReader;
  server_timer_ : bool;
  server_stat : Stat;
}.
Definition Server_new (filename filemd5 : list Z) (opened : bool) (stat : option (bool * Z)) : result Server :=
  reader ← BigFileReader_new opened stat;
  Ret (mk_server filename filemd5 reader false Stat_new).
Definition set_server (s : Server) (timer : bool) (stat : Stat) : Server :=
  mk_server (filename_ s) (filemd5_ s) (file_reader_ s) timer stat.
Definition server_OnTimer (now : Z) (s : Server) : Server * Z :=
  (set_server s (server_timer_ s) (PrintStat now (server_stat s)).1, 1000).

(** The header as it is appended to the buffer. *)
Definition append_header (s : Server) (buf : Buffer) : result Buffer :=
  buf ← Append_piece buf (lit kHead);
  buf ← Append_u8 buf (u8 (zlen (filename_ s)));
  buf ← Append_piece buf (StringPiece_string (filename_ s));
  buf ← Append_u8 buf (u8 (zlen (filemd5_ s)));
  buf ← Append_piece buf (StringPiece_string (filemd5_ s));
  buf ← Append_piece buf (lit kBody);
  Append_u64 buf (HostToNetwork64 (file_size_ (file_reader_ s))).

(** [while (1)]: what the reads of the file return and, for each write to the
    stream, what the kernel answers; [wire] is what the peer has been sent. *)
Fixpoint send_loop (reads : list io_result) (writes : list (list write_result)) (s : Server)
    (buf : Buffer) (wire : list Z) : result (Server * Buffer * list Z) :=
  match reads with
  | [] => OutOfFuel
  | r :: reads =>
      '(buf, rn) ← ReadFile buf r;
      if bool_decide (rn = 0) then Ret (set_server s false (server_stat s), buf, wire)
      else if bool_decide (rn < 0) then Fault Aborted
      else
        match writes with
        | [] => OutOfFuel
        | w :: writes =>
            '(wn, wire) ← tcp_AsyncWrite w (AsString (slice buf)) (readable_bytes buf) 0 wire;
            if bool_decide (wn ≠ readable_bytes buf) then Fault Aborted
            else send_loop reads writes (set_server s (server_timer_ s) (count_bytes wn (server_stat s)))
                   (TakeAll buf) wire
        end
  end.

(** [Start]: [accepted] is whether [AsyncAccept] returns a stream, [closing]
    what the last read meets; the result is what was sent and whether success
    was reported. *)
Definition server_Start (accepted : bool) (reads : list io_result) (writes : list (list write_result))
    (closing : list (attempt io_result)) (t0 t1 : Z) (s : Server) : result (Server * list Z * bool) :=
  if accepted then
    buf ← Buffer_new 65536;
    buf ← append_header s buf;
    let s := set_server s true (start_clock t0 (server_stat s)) in
    '(s, buf, wire) ← send_loop reads writes s buf [];
    let s := set_server s (server_timer_ s) (PrintStat t1 (server_stat s)).1 in
    _ ← cpp_assert (bool_decide (readable_bytes buf = 0));
    '(_, rn, timeout, _) ← tcp_AsyncRead_buf_ms closing buf;
    if (timeout : bool) || bool_decide (rn < 0) || bool_decide (rn > 0) then Fault Aborted
    else Ret (s, wire, true)
  else Ret (s, [], false).

(** ** Files *)
Notation FileSystem := (gmap (list Z) (list Z)).

(** [write] at an offset: the bytes replace those that are there. *)
Definition overwrite (old : list Z) (off : Z) (data : list Z) : list Z :=
  ztake off old ++ data ++ zdrop (off + zlen data) old.

(** The file a descriptor is open on and its offset; [fd_ = -1] is [None]. *)
Record FileWriter : Type := mk_writer { fd_ : option (list Z * Z) }.
Definition FileWriter_new : FileWriter := mk_writer None.

(** [filename.c_str()] ends at the first zero byte. *)
Definition c_str (s : list Z) : list Z := ztake (strlen s) s.

Section files.
(** Whether a path can be opened for writing, and what [write] returns for
    data sent to a path: the number of bytes it took, or a negative number. *)
Context (can_open : list Z → bool) (written : list Z → list Z → Z).

(** [O_WRONLY | O_CREAT]: an existing file keeps its content. *)
Definition Init (filename : list Z) (fs : FileSystem) : result (FileWriter * FileSystem) :=
  let path := c_str filename in
  if can_open path then
    Ret (mk_writer (Some (path, 0)), match fs !! path with Some _ => fs | None => <[path := []]> fs end)
  else Fault Aborted.

Definition Write (w : FileWriter) (data : StringPiece) (fs : FileSystem) : result (FileWriter * FileSystem) :=
  match fd_ w with
  | None => if bool_decide (-1 ≠ sp_size data) then Fault Aborted else Ret (w, fs)
  | Some (path, off) =>
      let bytes := AsString data in
      let rn := written path bytes in
      if bool_decide (rn ≠ sp_size data) then Fault Aborted
      else Ret (mk_writer (Some (path, off + rn)),
                <[path := overwrite (default [] (fs !! path)) off (ztake rn bytes)]> fs)
  end.

(** ** The client *)
Record Client : Type := mk_client {
  file_writer_ : FileWriter;
  client_timer_ : bool;
  client_filename_ : list Z;
  client_filemd5_ : list Z;
  client_file_size_ : Z;
  client_stat : Stat;
}.
Definition Client_new : Client := mk_client FileWriter_new false [] [] 0 Stat_new.
Definition set_client_stat (c : Client) (stat : Stat) : Client :=
  mk_client (file_writer_ c) (client_timer_ c) (client_filename_ c) (client_filemd5_ c) (client_file_size_ c) stat.
Definition set_writer (c : Client) (w : FileWriter) : Client :=
  mk_client w (client_timer_ c) (client_filename_ c) (client_filemd5_ c) (client_file_size_ c) (client_stat c).
Definition client_OnTimer (now : Z) (c : Client) : Client * Z :=
  (set_client_stat c (PrintStat now (client_stat c)).1, 1000).

(** The header in the buffered bytes: name, checksum, size and the bytes left
    behind it, or nothing while it is incomplete. *)
Definition parse_header (msg : StringPiece) : result (option (list Z * list Z * Z * Z)) :=
  let index := Find msg (lit kBody) in
  if bool_decide (index = sp_end msg) then Ret None
  else if bool_decide (sp_size msg < index - sp_begin msg + 8 + 8) then Ret None
  else
    let pos := sp_begin msg in
    let left_len := sp_size msg in
    head ← string_at (sp_mem msg) pos 8;
    if bool_decide (head ≠ kHead) then Fault Aborted
    else
      let pos := pos + 8 in
      let left_len := left_len - 8 in
      filename_len ← load 1 (sp_mem msg) pos;
      if bool_decide (left_len < filename_len + 1) then Fault Aborted
      else
        let pos := pos + 1 in
        let left_len := left_len - 1 in
        filename ← string_at (sp_mem msg) pos filename_len;
        let pos := pos + filename_len in
        let left_len := left_len - filename_len in
        filemd5_len ← load 1 (sp_mem msg) pos;
        if bool_decide (left_len < filemd5_len + 1) then Fault Aborted
        else
          let pos := pos + 1 in
          let left_len := left_len - 1 in
          filemd5 ← string_at (sp_mem msg) pos filemd5_len;
          let pos := pos + filemd5_len in
          let left_len := left_len - filemd5_len in
          if bool_decide (left_len < 8 + 8) then Fault Aborted
          else
            body ← string_at (sp_mem msg) pos 8;
            if bool_decide (body ≠ kBody) then Fault Aborted
            else
              let pos := pos + 8 in
              let left_len := left_len - 8 in
              file_size ← load 8 (sp_mem msg) pos;
              let left_len := left_len - 8 in
              Ret (Some (filename, filemd5, NetworkToHost64 file_size, left_len)).

(** One round of the loop after a read that brought bytes. *)
Definition client_round (c : Client) (start_write_file : bool) (buf : Buffer) (fs : FileSystem)
    : result (Client * bool * Buffer * FileSystem) :=
  if start_write_file then
    '(w, fs) ← Write (file_writer_ c) (slice buf) fs;
    Ret (set_writer c w, true, TakeAll buf, fs)
  else
    let msg := slice buf in
    header ← parse_header msg;
    match header with
    | None => Ret (c, false, buf, fs)
    | Some (filename, filemd5, file_size, left_len) =>
        buf ← Take buf (sp_size msg - left_len);
        '(pathfile, fs) ← Init (bytes_of ".bzft.pathfile") fs;
        '(_, fs) ← Write pathfile (StringPiece_string filename) fs;
        '(md5file, fs) ← Init (bytes_of ".bzft.md5") fs;
        '(_, fs) ← Write md5file (StringPiece_string filemd5) fs;
        '(w, fs) ← Init filename fs;
        Ret (mk_client w (client_timer_ c) filename filemd5 file_size (client_stat c), true, buf, fs)
    end.

(** [while (1)]: every round reads, so the length of the trace bounds them. *)
Fixpoint client_loop (fuel : nat) (trace : list (attempt io_result)) (now : Z) (c : Client)
    (start_write_file : bool) (buf : Buffer) (fs : FileSystem) : result (Client * FileSystem * list Z) :=
  match fuel with
  | O => OutOfFuel
  | S fuel =>
      '(buf, rn, _, trace) ← tcp_AsyncRead_buf trace buf;
      if bool_decide (rn = 0) then
        Ret (set_client_stat c (PrintStat now (client_stat c)).1, fs, AsString (slice buf))
      else if bool_decide (rn < 0) then Fault Aborted
      else
        let c := set_client_stat c (count_bytes rn (client_stat c)) in
        '(c, start_write_file, buf, fs) ← client_round c start_write_file buf fs;
        client_loop fuel trace now c start_write_file buf fs
  end.

(** [Start]: the client, the files and the bytes left in the buffer when
    "recv file succeed!!" is reported. *)
Definition client_Start (connected : bool) (trace : list (attempt io_result)) (t0 t1 : Z) (c : Client)
    (fs : FileSystem) : result (Client * FileSystem * list Z) :=
  if connected then
    let c := mk_client (file_writer_ c) true (client_filename_ c) (client_filemd5_ c) (client_file_size_ c)
               (start_clock t0 (client_stat c)) in
    buf ← Buffer_new 65536;
    client_loop (S (length trace)) trace t1 c false buf fs
  else Fault Aborted.
End files.

(** [main]: the role that is started, or the usage text. *)
Inductive Role : Type :=
  | PutFile (filename filemd5 : list Z)
  | GetFile (ip : list Z)
  | Usage.
Definition bzft_main (argv : list (list Z)) : Role :=
  if bool_decide (zlen argv < 3) then Usage
  else
    match argv with
    | _ :: role :: rest =>
        if bool_decide (role = bytes_of "put") then
          match rest with [filename; filemd5] => PutFile filename filemd5 | _ => Usage end
        else if bool_decide (role = bytes_of "get") then
          match rest with [ip] => GetFile ip | _ => Usage end
        else Usage
    | _ => Usage
    end.

(** ** The header *)
Definition preamble (n m : list Z) : list Z := kHead ++ [zlen n] ++ n ++ [zlen m] ++ m.
Definition header (n m : list Z) (size : Z) : list Z := preamble n m ++ kBody ++ be_bytes 8 size.

(** Name and checksum fit their length bytes, and the text before the mark of
    the body does not contain that mark. *)
Record header_ok (n m : list Z) (size : Z) : Prop := {
  ho_name : zlen n < 256;
  ho_md5 : zlen m < 256;
  ho_size : is_u64 size;
  ho_mark : std_search (preamble n m ++ kBody) kBody = zlen (preamble n m);
}.

Lemma zlen_preamble n m : zlen (preamble n m) = 10 + zlen n + zlen m.
Proof. unfold preamble. rewrite !zlen_app. change (zlen kHead) with 8. rewrite !zlen_cons, !zlen_nil. lia. Qed.
Lemma zlen_header n m size : zlen (header n m size) = 26 + zlen n + zlen m.
Proof. unfold header. rewrite !zlen_app, zlen_preamble, zlen_be_bytes. change (zlen kBody) with 8. lia. Qed.

(** Reading a part of a text that is written as a concatenation. *)
Section parts.
Context (s : StringPiece) (a b d : list Z) (Hs : sp_wf s) (E : AsString s = a ++ b ++ d).

Lemma string_at_part : string_at (sp_mem s) (sp_begin s + zlen a) (zlen b) = Ret b.
Proof using Hs E.
  pose proof (zlen_nonneg a). pose proof (zlen_nonneg b). pose proof (zlen_nonneg d).
  pose proof (string_at_sub s (zlen a) (zlen a + zlen b) Hs) as H'. rewrite Z.add_simpl_l in H'.
  rewrite H' by (rewrite ?E, ?zlen_app; lia). by rewrite E, zdrop_app_all, ztake_app_all.
Qed.
Lemma load_part n : length b = n → load n (sp_mem s) (sp_begin s + zlen a) = Ret (le_val b).
Proof using Hs E.
  intros Hn. pose proof (zlen_nonneg a). pose proof (zlen_nonneg d).
  assert (Hb : zlen b = Z.of_nat n) by (unfold zlen; lia).
  unfold sp_begin. rewrite packet_load; [|done|lia|].
  - by rewrite E, zdrop_app_all, ztake_app_all by done.
  - unfold sp_size. rewrite <-(zlen_AsString s Hs), E, !zlen_app. lia.
Qed.
End parts.

(** [pos += n]: the position after the next part. *)
Ltac next_part E := rewrite app_assoc in E.
Ltac part_position :=
  rewrite ?zlen_app, ?zlen_cons, ?zlen_nil; change (zlen kHead) with 8; change (zlen kBody) with 8; lia.
Ltac read_part H :=
  let H' := fresh in pose proof H as H';
  match type of H' with
  | string_at ?mem ?p ?k = _ =>
      match goal with
      | |- context [string_at mem ?p' ?k'] => replace p' with p by part_position; replace k' with k by part_position
      end
  | load ?n ?mem ?p = _ =>
      match goal with |- context [load n mem ?p'] => replace p' with p by part_position end
  end;
  rewrite H'; clear H'; cbn [mbind result_bind le_val]; rewrite ?Z.mul_0_r, ?Z.add_0_r;
  change (zlen kHead) with 8; change (zlen kBody) with 8;
  repeat (rewrite bool_decide_false by (lia || tauto)).

Lemma NetworkToHost64_be v : is_u64 v → NetworkToHost64 (le_val (be_bytes 8 v)) = v.
Proof.
  intros Hv. rewrite <-mem_HostToNetwork64, le_val_le_bytes, Z.mod_small; [by apply NetworkToHost64_HostToNetwork64|].
  unfold HostToNetwork64. pose proof (le_val_range (reverse (le_bytes 8 v))) as Hr.
  rewrite zlen_reverse, zlen_le_bytes in Hr. apply Hr. auto with baize.
Qed.

Lemma kBody_mark s rest n m size :
  header_ok n m size → AsString s = preamble n m ++ kBody ++ rest →
  Find s (lit kBody) = sp_begin s + zlen (preamble n m).
Proof.
  intros Ho E. rewrite Find_lit by (apply (bool_decide_unpack _); done).
  by rewrite E, std_search_extend by (done || apply Ho).
Qed.

(** A whole header is read, whatever follows it. *)
Lemma parse_header_whole s n m size rest :
  sp_wf s → header_ok n m size → AsString s = header n m size ++ rest →
  parse_header s = Ret (Some (n, m, size, zlen rest)).
Proof.
  intros Hs Ho E. pose proof (zlen_AsString s Hs) as Hl. rewrite E, zlen_app, zlen_header in Hl.
  pose proof (zlen_nonneg n). pose proof (zlen_nonneg m). pose proof (zlen_nonneg rest).
  unfold parse_header. unfold header in E. rewrite <-!app_assoc in E.
  erewrite kBody_mark by done. rewrite zlen_preamble. unfold sp_end, sp_size.
  rewrite bool_decide_false by (unfold sp_begin; lia). rewrite bool_decide_false by lia.
  unfold preamble in E. rewrite <-!app_assoc in E.
  read_part (string_at_part s [] kHead _ Hs E).
  read_part (load_part s kHead [zlen n] _ Hs E 1 eq_refl).
  next_part E. read_part (string_at_part s _ n _ Hs E).
  next_part E. read_part (load_part s _ [zlen m] _ Hs E 1 eq_refl).
  next_part E. read_part (string_at_part s _ m _ Hs E).
  next_part E. read_part (string_at_part s _ kBody _ Hs E).
  next_part E. read_part (load_part s _ (be_bytes 8 size) _ Hs E 8 (length_be_bytes 8 size)).
  rewrite NetworkToHost64_be by apply Ho. do 3 f_equal. lia.
Qed.


(** An incomplete one is left for the next read. *)
Lemma parse_header_cut s n m size body k :
  sp_wf s → header_ok n m size → 0 <= k < zlen (header n m size) →
  AsString s = ztake k (header n m size ++ body) → parse_header s = Ret None.
Proof.
  intros Hs Ho Hk E. pose proof (zlen_AsString s Hs) as Hl. rewrite ztake_app_le in E by lia.
  rewrite E, zlen_ztake in Hl by lia. rewrite zlen_header in Hk.
  unfold parse_header. rewrite Find_lit by (apply (bool_decide_unpack _); done). rewrite E.
  assert (Hm : std_search (header n m size) kBody = zlen (preamble n m))
    by (apply std_search_extend; [done|apply Ho]).
  pose proof (zlen_preamble n m) as Hp. unfold sp_end, sp_begin, sp_size.
  destruct (decide (k < zlen (preamble n m) + 8)) as [Hlt|Hge].
  - rewrite std_search_cut; [|done|rewrite zlen_header; lia|rewrite Hm; change (zlen kBody) with 8; lia].
    by rewrite zlen_ztake, bool_decide_true by (rewrite ?zlen_header; lia).
  - assert (Ek : ztake k (header n m size) = preamble n m ++ kBody ++ ztake (k - (zlen (preamble n m) + 8)) (be_bytes 8 size)).
    { unfold header. rewrite app_assoc, (ztake_split (zlen (preamble n m ++ kBody)) k)
        by (rewrite zlen_app; pose proof (zlen_nonneg (preamble n m)); change (zlen kBody) with 8; lia).
      rewrite ztake_app_all, zdrop_app_all, zlen_app by done. change (zlen kBody) with 8. by rewrite <-app_assoc. }
    rewrite Ek, std_search_extend by (done || apply Ho).
    case_bool_decide; [done|]. by rewrite bool_decide_true by lia.
Qed.

(** ** Writing files *)

(** A file after [data] has been written over its beginning. *)
Definition store_at (path data : list Z) (fs : FileSystem) : FileSystem :=
  <[path := overwrite (default [] (fs !! path)) 0 data]> fs.

Lemma overwrite_nil old : overwrite old 0 [] = old.
Proof. unfold overwrite. change (0 + zlen []) with 0. by rewrite ztake_0, zdrop_0. Qed.
Lemma overwrite_more old w d : overwrite (overwrite old 0 w) (zlen w) d = overwrite old 0 (w ++ d).
Proof.
  unfold overwrite. rewrite !ztake_0, !Z.add_0_l, zlen_app. cbn [app].
  rewrite ztake_app_all by done. pose proof (zlen_nonneg w). pose proof (zlen_nonneg d).
  rewrite zdrop_app_ge by lia. rewrite zdrop_zdrop, <-app_assoc by lia. do 3 f_equal. lia.
Qed.

Section disk.
(** The disk takes what it is given. *)
Context (can_open : list Z → bool) (written : list Z → list Z → Z).
Hypothesis (Hopen : ∀ path, can_open path = true) (Hwritten : ∀ path data, written path data = zlen data).

Lemma Init_ok n fs : Init can_open n fs = Ret (mk_writer (Some (c_str n, 0)), store_at (c_str n) [] fs).
Proof using Hopen.
  unfold Init, store_at. rewrite Hopen, overwrite_nil. destruct (fs !! c_str n) eqn:E; [|done].
  unfold default, from_option, id. by rewrite insert_id.
Qed.
(** Writing goes on behind what has been written since the file was opened. *)
Lemma Write_ok path w data fs :
  sp_wf data →
  Write written (mk_writer (Some (path, zlen w))) data (store_at path w fs) =
  Ret (mk_writer (Some (path, zlen (w ++ AsString data))), store_at path (w ++ AsString data) fs).
Proof using Hwritten.
  intros Hd. unfold Write. cbn [fd_]. rewrite Hwritten. unfold sp_size. rewrite (zlen_AsString data Hd).
  rewrite bool_decide_false by tauto. unfold store_at. rewrite lookup_insert_eq. cbn [default from_option id].
  rewrite insert_insert_eq, ztake_ge, overwrite_more, zlen_app, (zlen_AsString data Hd) by (rewrite zlen_AsString; done || lia).
  done.
Qed.

(** The three files of a header. *)
Definition recorded (n m : list Z) (data : list Z) (fs : FileSystem) : FileSystem :=
  store_at (c_str n) data (store_at (bytes_of ".bzft.md5") m (store_at (bytes_of ".bzft.pathfile") n fs)).

Lemma round_header c buf fs n m size rest :
  buf_wf buf → header_ok n m size → content buf = header n m size ++ rest →
  ∃ buf', client_round can_open written c false buf fs =
    Ret (mk_client (mk_writer (Some (c_str n, 0))) (client_timer_ c) n m size (client_stat c), true, buf',
         recorded n m [] fs) ∧ buf_wf buf' ∧ content buf' = rest.
Proof using Hopen Hwritten.
  intros Hb Ho Hc. unfold client_round.
  rewrite (parse_header_whole (slice buf) n m size rest) by (rewrite ?AsString_slice; auto using slice_wf).
  cbn [mbind result_bind].
  pose proof (Take_agrees buf (sp_size (slice buf) - zlen rest) Hb) as Ht. unfold sp_size, slice in *.
  cbn [StringPiece_len length_] in *. rewrite <-zlen_content, Hc, zlen_app, Z.add_simpl_r in * by done.
  rewrite bool_decide_true, zdrop_app_all in Ht by (done || (pose proof (zlen_nonneg rest); lia)). unfold agrees in Ht.
  destruct (Take buf _) as [buf'| |]; [|done..]. cbn [mbind result_bind]. exists buf'. split; [|exact Ht].
  rewrite !Init_ok. cbn [mbind result_bind].
  rewrite (Write_ok _ [] (StringPiece_string n)) by apply sp_wf_string. cbn [mbind result_bind app].
  rewrite Init_ok. cbn [mbind result_bind].
  rewrite (Write_ok _ [] (StringPiece_string m)) by apply sp_wf_string. cbn [mbind result_bind app].
  by rewrite Init_ok, !AsString_string.
Qed.

Lemma round_incomplete c buf fs n m size body k :
  buf_wf buf → header_ok n m size → content buf = ztake k (header n m size ++ body) →
  0 <= k < zlen (header n m size) → client_round can_open written c false buf fs = Ret (c, false, buf, fs).
Proof using.
  intros Hb Ho Hc Hk. unfold client_round.
  by rewrite (parse_header_cut (slice buf) n m size body k) by (rewrite ?AsString_slice; auto using slice_wf).
Qed.

Lemma round_body c buf path w fs :
  buf_wf buf → file_writer_ c = mk_writer (Some (path, zlen w)) →
  client_round can_open written c true buf (store_at path w fs) =
  Ret (set_writer c (mk_writer (Some (path, zlen (w ++ content buf)))), true, TakeAll buf,
       store_at path (w ++ content buf) fs).
Proof using Hwritten.
  intros Hb Hw. unfold client_round. by rewrite Hw, Write_ok, AsString_slice by auto using slice_wf.
Qed.

(** ** The loop of the client *)

(** What one read brings: far more than [readv] is given room for. *)
Definition max_piece : Z := 2 ^ 28.

(** After the header: every read is written with what was buffered before it. *)
Lemma client_loop_body cs fuel trace t now c path w buf fs :
  delivers false trace cs → buf_wf buf → zlen (content buf) <= max_piece + 1000 →
  Forall (λ c, zlen c <= max_piece) cs →
  (length trace < fuel)%nat →
  file_writer_ c = mk_writer (Some (path, zlen w)) →
  ∃ c', client_loop can_open written fuel (trace ++ [mk_attempt (IoOk []) t]) now c true buf (store_at path w fs) =
    Ret (c', store_at path (w ++ match cs with [] => [] | _ => content buf ++ concat cs end) fs,
         match cs with [] => content buf | _ => [] end) ∧
    client_filename_ c' = client_filename_ c ∧ client_filemd5_ c' = client_filemd5_ c ∧
    client_file_size_ c' = client_file_size_ c.
Proof using Hwritten.
  revert fuel trace c w buf. induction cs as [|p cs IH]; intros fuel trace c w buf Hd Hb Hfit Hcs Hf Hw.
  all: destruct fuel as [|fuel]; [lia|]; cbn [client_loop]; unfold tcp_AsyncRead_buf.
  - destruct (tcp_read_end false trace t [] buf Hd Hb) as (b' & -> & _ & Hc); [unfold max_piece, max_content in *; lia|]. cbn [mbind result_bind].
    rewrite bool_decide_true by done. eexists. rewrite AsString_slice, Hc, app_nil_r. done.
  - apply Forall_cons in Hcs as [Hcp Hcs].
    destruct (tcp_read_piece false trace p cs [mk_attempt (IoOk []) t] buf Hd Hb) as (b' & tr & -> & Hb' & Hc & Hd' & Hl & Hp);
      [unfold max_piece, max_content in *; lia|].
    cbn [mbind result_bind]. rewrite !bool_decide_false by lia. rewrite (round_body _ b' path w) by done.
    cbn [mbind result_bind]. destruct (TakeAll_ok b' Hb') as [Hb2 Hc2].
    set (c1 := set_writer _ _).
    destruct (IH fuel tr c1 (w ++ content b') (TakeAll b') Hd' Hb2 ltac:(by rewrite Hc2) Hcs ltac:(lia) eq_refl) as (c' & -> & Hn & Hm & Hs).
    exists c'. split; [|done]. rewrite Hc, Hc2, <-!app_assoc. cbn [concat app].
    by destruct cs; cbn [concat]; rewrite ?app_nil_r.
Qed.

(** Before it: reads are collected until it is complete. *)
Lemma client_loop_header pre p post fuel trace t now c buf fs n m size body :
  delivers false trace (pre ++ p :: post) → buf_wf buf → (length trace < fuel)%nat → header_ok n m size →
  Forall (λ c, zlen c <= max_piece) (pre ++ p :: post) →
  content buf ++ concat (pre ++ p :: post) = header n m size ++ body →
  zlen (content buf ++ concat pre) < zlen (header n m size) <= zlen (content buf ++ concat pre ++ p) →
  ∃ c', client_loop can_open written fuel (trace ++ [mk_attempt (IoOk []) t]) now c false buf fs =
    Ret (c', recorded n m (match post with [] => [] | _ => body end) fs,
         match post with [] => body | _ => [] end) ∧
    client_filename_ c' = n ∧ client_filemd5_ c' = m ∧ client_file_size_ c' = size.
Proof using Hopen Hwritten.
  revert fuel trace c buf. induction pre as [|q pre IH]; intros fuel trace c buf Hd Hb Hf Ho Hfit E Hz.
  all: destruct fuel as [|fuel]; [lia|]; cbn [client_loop app]; unfold tcp_AsyncRead_buf.
  - cbn [app] in Hfit. apply Forall_cons in Hfit as [Hcp Hfit].
    assert (Hsmall : zlen (content buf) <= 600).
    { cbn [concat] in Hz. rewrite app_nil_r, zlen_header in Hz. destruct Ho. lia. }
    destruct (tcp_read_piece false trace p post [mk_attempt (IoOk []) t] buf Hd Hb) as (b' & tr & -> & Hb' & Hc & Hd' & Hl & Hp);
      [unfold max_piece, max_content in *; lia|].
    cbn [mbind result_bind]. rewrite !bool_decide_false by lia. cbn [concat app] in *.
    set (rest := zdrop (zlen (header n m size)) (content b')).
    assert (Hh : content b' = header n m size ++ rest).
    { rewrite <-(ztake_zdrop (zlen (header n m size)) (content b')) at 1. f_equal. rewrite Hc.
      rewrite app_assoc in E. apply (f_equal (ztake (zlen (header n m size)))) in E.
      by rewrite ztake_app_le, (ztake_app_all (header n m size)) in E by (done || lia). }
    destruct (round_header (set_client_stat c (count_bytes (zlen p) (client_stat c))) b' fs n m size rest Hb' Ho Hh) as (b2 & -> & Hb2 & Hc2). cbn [mbind result_bind].
    set (c1 := mk_client _ _ _ _ _ _). unfold recorded.
    destruct (client_loop_body post fuel tr t now c1 (c_str n) [] b2
      (store_at (bytes_of ".bzft.md5") m (store_at (bytes_of ".bzft.pathfile") n fs)) Hd' Hb2) as (c' & -> & Hn).
    { apply (f_equal zlen) in Hh. rewrite Hc, !zlen_app in Hh. rewrite Hc2. pose proof (zlen_nonneg (header n m size)). lia. }
    { done. }
    { lia. }
    { done. }
    exists c'. split; [|exact Hn]. rewrite Hc2. rewrite app_assoc, <-Hc, Hh, <-app_assoc in E.
    apply app_inv_head in E. rewrite <-E. destruct post; cbn [concat app]; by rewrite ?app_nil_r.
  - cbn [app] in Hfit. apply Forall_cons in Hfit as [Hcp Hfit].
    assert (Hsmall : zlen (content buf) <= 600).
    { rewrite zlen_app, zlen_header in Hz. pose proof (zlen_nonneg (concat (q :: pre))). destruct Ho. lia. }
    destruct (tcp_read_piece false trace q (pre ++ p :: post) [mk_attempt (IoOk []) t] buf Hd Hb) as (b' & tr & -> & Hb' & Hc & Hd' & Hl & Hp);
      [unfold max_piece, max_content in *; lia|].
    cbn [mbind result_bind]. rewrite !bool_decide_false by lia. cbn [concat app] in *.
    rewrite !app_assoc, <-Hc in *.
    pose proof (zlen_nonneg (content b')).
    assert (Hk : zlen (content b') < zlen (header n m size)).
    { rewrite zlen_app in Hz. pose proof (zlen_nonneg (concat pre)). lia. }
    rewrite (round_incomplete _ b' fs n m size body (zlen (content b'))) by
      (done || lia || (rewrite <-E; by rewrite ztake_app_all)).
    cbn [mbind result_bind]. apply IH; [done|done|lia|done..|]. by rewrite app_assoc.
Qed.
End disk.

(** ** What the server sends *)
Definition server_header (s : Server) : list Z :=
  header (filename_ s) (filemd5_ s) (file_size_ (file_reader_ s)).

Lemma Append_exact b data n :
  buf_wf b → zlen data = n → zlen (content b) <= 1000 → n <= 1000 →
  ∃ b', Append b data n = Ret b' ∧ buf_wf b' ∧ content b' = content b ++ data ∧ zlen (content b') = zlen (content b) + n.
Proof.
  intros Hb <- Hc Hn. destruct (Append_all_ok b data Hb) as (b' & ? & ? & E); [buf_unfold; lia|].
  exists b'. by rewrite E, zlen_app.
Qed.

Ltac append_part :=
  let b' := fresh "b" in let Hb := fresh "Hb" in let Hc := fresh "Hc" in
  match goal with
  | |- context [Append ?b ?data ?n] =>
      destruct (Append_exact b data n) as (b' & -> & Hb & Hc & ?);
        [assumption|reflexivity|lia|lia|];
      cbn [mbind result_bind]
  end.

Lemma append_header_ok s buf :
  buf_wf buf → content buf = [] → header_ok (filename_ s) (filemd5_ s) (file_size_ (file_reader_ s)) →
  ∃ buf', append_header s buf = Ret buf' ∧ buf_wf buf' ∧ content buf' = content buf ++ server_header s.
Proof.
  intros Hb H0 [Hn Hm Hs _]. assert (Hz : zlen (content buf) = 0) by (by rewrite H0). clear H0.
  unfold append_header, Append_piece, Append_u8, Append_u64.
  rewrite !AsString_string, !u8_small by (unfold is_u8; pose proof (zlen_nonneg (filename_ s));
    pose proof (zlen_nonneg (filemd5_ s)); lia).
  change (sp_size (StringPiece_string (filename_ s))) with (zlen (filename_ s)).
  change (sp_size (StringPiece_string (filemd5_ s))) with (zlen (filemd5_ s)).
  change (sp_size (lit kHead)) with 8. change (sp_size (lit kBody)) with 8.
  do 7 append_part. eexists. split_and!; [done..|].
  rewrite Hc5, Hc4, Hc3, Hc2, Hc1, Hc0, Hc, mem_HostToNetwork64.
  rewrite !AsString_lit by (apply (bool_decide_unpack _); done).
  unfold server_header, header, preamble. rewrite <-!app_assoc. cbn [le_bytes]. 
  rewrite !Z.mod_small by (pose proof (zlen_nonneg (filename_ s)); pose proof (zlen_nonneg (filemd5_ s)); lia).
  done.
Qed.

(** The rounds that read: everything buffered and read is sent. *)
Definition takes_all (total : Z) (w : list write_result) : Prop :=
  Forall (λ a, ¬ refused false a) w ∧ total <= total_room w.

Lemma send_loop_ok pieces writes s buf wire :
  Forall (λ p, 0 < zlen p <= max_piece) pieces → buf_wf buf → zlen (content buf) <= 1000 →
  Forall2 (λ p w, takes_all (zlen (content buf) + zlen p) w) pieces writes →
  ∃ s' buf', send_loop ((IoOk <$> pieces) ++ [IoOk []]) writes s buf wire =
    Ret (s', buf', wire ++ match pieces with [] => [] | _ => content buf ++ concat pieces end) ∧
    buf_wf buf' ∧ content buf' = match pieces with [] => content buf | _ => [] end ∧
    server_timer_ s' = false.
Proof.
  revert writes s buf wire. induction pieces as [|p pieces IH]; intros writes s buf wire Hp Hb Hfit Hw.
  - cbn [fmap list_fmap app send_loop]. unfold ReadFile.
    destruct (ReadFd_ok buf [] Hb) as (b' & -> & Hb' & Hc); [unfold max_content; rewrite zlen_nil; lia|]. cbn [mbind result_bind].
    rewrite bool_decide_true by done. eexists _, b'. rewrite app_nil_r in *. done.
  - apply Forall_cons in Hp as [Hp Hps]. apply Forall2_cons_inv_l in Hw as (w & ws & [Hok Hroom] & Hw & ->).
    cbn [fmap list_fmap app send_loop]. unfold ReadFile.
    destruct (ReadFd_ok buf p Hb) as (b' & -> & Hb' & Hc); [unfold max_content, max_piece in *; lia|]. cbn [mbind result_bind].
    rewrite !bool_decide_false by lia. rewrite AsString_slice, <-zlen_content by done.
    pose proof (zlen_nonneg (content buf)).
    change (tcp_AsyncWrite w) with (AsyncWrite false w).
    rewrite (AsyncWrite_all false w (content b') 0 wire Hok) by (rewrite Hc, zlen_app; lia).
    cbn [mbind result_bind]. rewrite bool_decide_false by lia. destruct (TakeAll_ok b' Hb') as [Hb2 Hc2].
    edestruct (IH ws) as (s' & b2 & Hsend & ? & Hc3 & ?); [done|exact Hb2|by rewrite Hc2| |].
    { eapply Forall2_impl; [exact Hw|]. rewrite Hc2. intros q v [? ?]. split; [done|]. rewrite zlen_nil. lia. }
    eexists s', b2. rewrite Hsend, Hc2, <-app_assoc, Hc, <-app_assoc. split_and!; [|done| |done].
    + do 3 f_equal. cbn [concat]. by destruct pieces; cbn [concat]; rewrite ?app_nil_r.
    + rewrite Hc3, Hc2. by destruct pieces.
Qed.

(** What a server with a sound header does with a file that is read in these
    pieces, when the peer takes everything and then closes. *)
Lemma server_Start_ok pieces writes trace t rest t0 t1 s :
  header_ok (filename_ s) (filemd5_ s) (file_size_ (file_reader_ s)) →
  Forall (λ p, 0 < zlen p <= max_piece) pieces →
  Forall2 (λ p w, takes_all (zlen (server_header s) + zlen p) w) pieces writes →
  delivers true trace [] →
  ∃ s', server_timer_ s' = false ∧
    server_Start true ((IoOk <$> pieces) ++ [IoOk []]) writes (trace ++ mk_attempt (IoOk []) t :: rest) t0 t1 s =
      match pieces with
      | [] => Fault AssertFailed
      | _ => Ret (s', server_header s ++ concat pieces, true)
      end.
Proof.
  intros Ho Hp Hw Hd. unfold server_Start.
  destruct (Buffer_new_ok 65536) as (b & -> & Hb & Hc & _); [by split|]. cbn [mbind result_bind].
  destruct (append_header_ok s b Hb Hc Ho) as (b1 & -> & Hb1 & Hc1). cbn [mbind result_bind].
  rewrite Hc in Hc1. cbn [app] in Hc1.
  edestruct (send_loop_ok pieces writes) as (s' & b2 & -> & Hb2 & Hc2 & Ht); [done|exact Hb1| |by rewrite Hc1|].
  { rewrite Hc1. unfold server_header. rewrite zlen_header. destruct Ho. lia. }
  cbn [mbind result_bind]. eexists. split; [|]. 2: {
  rewrite <-zlen_content, Hc2 by done. destruct pieces as [|p ps].
  { unfold cpp_assert. rewrite bool_decide_false; [done|]. rewrite Hc1. unfold server_header.
    rewrite zlen_header. pose proof (zlen_nonneg (filename_ s)). pose proof (zlen_nonneg (filemd5_ s)). lia. }
  rewrite cpp_assert_true by done. cbn [mbind result_bind]. unfold tcp_AsyncRead_buf_ms.
  destruct (tcp_read_end true trace t rest b2 Hd Hb2) as (b3 & -> & _); [by rewrite Hc2|]. cbn [mbind result_bind orb].
  rewrite !bool_decide_false by lia. cbn [orb app]. by rewrite Hc1. }
  exact Ht.
Qed.

(** The server sends the header and then the bytes of the file, in order and
    once, however the file is read and the writes are taken, stops its timer
    and reports success when the peer closes; an empty file leaves the header
    in the buffer, nothing is sent and the assertion after the loop fails. *)
Theorem server_sends_file pieces writes trace t rest t0 t1 s :
  header_ok (filename_ s) (filemd5_ s) (file_size_ (file_reader_ s)) →
  Forall (λ p, 0 < zlen p <= max_piece) pieces →
  Forall2 (λ p w, takes_all (zlen (server_header s) + zlen p) w) pieces writes →
  delivers true trace [] →
  ∃ s', server_timer_ s' = false ∧
    server_Start true ((IoOk <$> pieces) ++ [IoOk []]) writes (trace ++ mk_attempt (IoOk []) t :: rest) t0 t1 s =
      match pieces with
      | [] => Fault AssertFailed
      | _ => Ret (s', server_header s ++ concat pieces, true)
      end.
Proof. apply server_Start_ok. Qed.

(** "a.txt" with the checksum "0f", seven bytes. *)
Definition sample_server : Server := mk_server (bytes_of "a.txt") (bytes_of "0f") (mk_reader 7) false Stat_new.
Lemma sample_header_ok : header_ok (bytes_of "a.txt") (bytes_of "0f") 7.
Proof. split; [reflexivity|reflexivity|split; [discriminate|reflexivity]|reflexivity]. Qed.
Lemma sample_takes n room : n <= room → takes_all n [WriteErr EAGAIN; WriteOk room 0].
Proof. intros. split; [repeat constructor; cbn; unfold hard, EAGAIN; lia|cbn; lia]. Qed.

Lemma server_sends_file_witness :
  ∃ s', server_timer_ s' = false ∧
    server_Start true [IoOk [1; 2; 3]; IoOk [4; 5; 6; 7]; IoOk []]
      [[WriteErr EAGAIN; WriteOk 99 0]; [WriteErr EAGAIN; WriteOk 99 0]]
      [mk_attempt (IoErr EAGAIN) false; mk_attempt (IoOk []) false] 0 5 sample_server =
    Ret (s', server_header sample_server ++ [1; 2; 3; 4; 5; 6; 7], true).
Proof.
  refine (server_sends_file [[1; 2; 3]; [4; 5; 6; 7]] _ [mk_attempt (IoErr EAGAIN) false] false [] 0 5 sample_server _ _ _ _).
  - exact sample_header_ok.
  - repeat (constructor; [split; [reflexivity|discriminate]|]). constructor.
  - repeat (apply Forall2_cons; split; [apply sample_takes; vm_compute; discriminate|]). constructor.
  - apply delivers_wait; [exists EAGAIN; by split|constructor].
Defined.

(** C13: from one end to the other, under these conditions: the file is not
    empty; its name and checksum are shorter than 256 bytes, and the text in
    front of the mark of the body does not contain that mark; the peer closes
    when it has everything; no write to the stream is refused and all find
    room in the end; every open and every write of the client's disk succeeds;
    and no read brings more than 2^28 bytes.  Then the server's file, read in
    any pieces, reaches the client in any other pieces: [p] is the read that
    completes the header.  Both ends report success, and the client has
    recorded name and checksum and written the whole file over the one of that
    name, when at least one more read follows; when none does, as for a small
    file, nothing of the file is written and its bytes are left in the
    buffer. *)
Theorem bzft_transfer can_open written pieces writes strace ctrace t t' t0 t1 s fs pre p post :
  header_ok (filename_ s) (filemd5_ s) (file_size_ (file_reader_ s)) →
  pieces ≠ [] → Forall (λ p, 0 < zlen p <= max_piece) pieces →
  Forall2 (λ p w, takes_all (zlen (server_header s) + zlen p) w) pieces writes →
  delivers true strace [] →
  (∀ path, can_open path = true) → (∀ path data, written path data = zlen data) →
  delivers false ctrace (pre ++ p :: post) → Forall (λ c, zlen c <= max_piece) (pre ++ p :: post) →
  concat (pre ++ p :: post) = server_header s ++ concat pieces →
  zlen (concat pre) < zlen (server_header s) <= zlen (concat pre ++ p) →
  ∃ s' c',
    server_Start true ((IoOk <$> pieces) ++ [IoOk []]) writes (strace ++ [mk_attempt (IoOk []) t]) t0 t1 s =
      Ret (s', concat (pre ++ p :: post), true) ∧
    client_Start can_open written true (ctrace ++ [mk_attempt (IoOk []) t']) t0 t1 Client_new fs =
      Ret (c', recorded (filename_ s) (filemd5_ s) (match post with [] => [] | _ => concat pieces end) fs,
           match post with [] => concat pieces | _ => [] end) ∧
    client_filename_ c' = filename_ s ∧ client_filemd5_ c' = filemd5_ s ∧
    client_file_size_ c' = file_size_ (file_reader_ s).
Proof.
  intros Ho Hne Hp Hw Hs Hopen Hwritten Hd Hfit E Hz.
  destruct (server_Start_ok pieces writes strace t [] t0 t1 s Ho Hp Hw Hs) as (s' & _ & Hserver).
  exists s'. rewrite Hserver, E. destruct pieces as [|p0 ps]; [case (Hne eq_refl)|].
  destruct (Buffer_new_ok 65536) as (b & Hnew & Hb & Hc & _); [by split|].
  destruct (client_loop_header can_open written Hopen Hwritten pre p post
    (S (length (ctrace ++ [mk_attempt (IoOk []) t']))) ctrace t' t1 (mk_client FileWriter_new true [] [] 0 (start_clock t0 Stat_new)) b fs
    (filename_ s) (filemd5_ s) (file_size_ (file_reader_ s)) (concat (p0 :: ps))) as (c' & Hclient);
    [done|done|rewrite length_app; cbn; lia|done|done|by rewrite Hc|by rewrite Hc|].
  exists c'. split; [reflexivity|]. unfold client_Start. rewrite Hnew. exact Hclient.
Qed.

(** The header in two reads, the second with the first bytes of the file. *)
Lemma bzft_transfer_witness :
  let h := server_header sample_server in
  ∃ s' c',
    server_Start true [IoOk [1; 2; 3; 4; 5; 6; 7]; IoOk []] [[WriteErr EAGAIN; WriteOk 99 0]]
      [mk_attempt (IoOk []) false] 0 5 sample_server = Ret (s', h ++ [1; 2; 3; 4; 5; 6; 7], true) ∧
    client_Start (λ _, true) (λ _ d, zlen d) true
      [mk_attempt (IoOk (ztake 20 h)) false; mk_attempt (IoOk (zdrop 20 h ++ [1; 2])) false;
       mk_attempt (IoErr EAGAIN) false; mk_attempt (IoOk [3; 4; 5; 6; 7]) false; mk_attempt (IoOk []) false]
      0 5 Client_new (<[bytes_of "a.txt" := replicate 9 88]> ∅) =
    Ret (c', recorded (bytes_of "a.txt") (bytes_of "0f") [1; 2; 3; 4; 5; 6; 7]
               (<[bytes_of "a.txt" := replicate 9 88]> ∅), []) ∧
    recorded (bytes_of "a.txt") (bytes_of "0f") [1; 2; 3; 4; 5; 6; 7]
      (<[bytes_of "a.txt" := replicate 9 88]> ∅) !! bytes_of "a.txt" = Some [1; 2; 3; 4; 5; 6; 7; 88; 88].
Proof.
  intros h.
  destruct (bzft_transfer (λ _, true) (λ _ d, zlen d) [[1; 2; 3; 4; 5; 6; 7]] [[WriteErr EAGAIN; WriteOk 99 0]] []
    [mk_attempt (IoOk (ztake 20 h)) false; mk_attempt (IoOk (zdrop 20 h ++ [1; 2])) false;
     mk_attempt (IoErr EAGAIN) false; mk_attempt (IoOk [3; 4; 5; 6; 7]) false] false false 0 5 sample_server
    (<[bytes_of "a.txt" := replicate 9 88]> ∅) [ztake 20 h] (zdrop 20 h ++ [1; 2]) [[3; 4; 5; 6; 7]])
    as (s' & c' & H1 & H2 & _).
  - exact sample_header_ok.
  - done.
  - repeat (constructor; [split; [reflexivity|discriminate]|]). constructor.
  - apply Forall2_cons; split; [apply sample_takes; vm_compute; discriminate|constructor].
  - constructor.
  - done.
  - done.
  - repeat (apply delivers_piece; [reflexivity|]). apply delivers_wait; [exists EAGAIN; by split|].
    apply delivers_piece; [reflexivity|constructor].
  - repeat (constructor; [vm_compute; discriminate|]). constructor.
  - reflexivity.
  - vm_compute. split; [reflexivity|discriminate].
  - exists s', c'. split_and!; [exact H1|exact H2|vm_compute; reflexivity].
Defined.

(** ** What a hostile server can do *)

(** The bytes a trace delivers in all. *)
Fixpoint arriving (trace : list (attempt io_result)) : Z :=
  match trace with
  | [] => 0
  | a :: trace => match answer a with IoOk l => zlen l | IoErr _ => 0 end + arriving trace
  end.
Lemma arriving_nonneg trace : 0 <= arriving trace.
Proof. induction trace as [|a trace IH]; cbn [arriving]; [lia|]. destruct (answer a) as [|l]; [lia|]. pose proof (zlen_nonneg l). lia. Qed.

Section hostile.
(** The total that arrives; the only failures are the deliberate end of the
    program and, after more than [max_content] bytes, the overflow of the
    buffer's index. *)
Context (total : Z).
Local Notation sound := (ends (λ f, f = Aborted ∨ (f = SignedOverflow ∧ max_content < total))).

Lemma string_at_sound mem p n : 0 <= p → 0 <= n → p + n <= zlen mem → sound (string_at mem p n) (λ _, True).
Proof. intros. unfold string_at. by rewrite bool_decide_false, bool_decide_true by lia. Qed.
Lemma load1_sound mem p : bytes_ok mem → 0 <= p < zlen mem → sound (load 1 mem p) (λ v, 0 <= v < 256).
Proof.
  intros Hok Hp. unfold load. rewrite bool_decide_true by lia. cbn [ends].
  pose proof (le_val_range (ztake (Z.of_nat 1) (zdrop p mem))) as Hr.
  rewrite block_length in Hr by lia. apply Hr. auto with baize.
Qed.

(** The memory behind the received bytes reaches as far as the length byte of
    the checksum can lie. *)
Definition spacious (buf : Buffer) : Prop :=
  buf_wf buf ∧ bytes_ok (buffer_ buf) ∧ reader_index_ buf + 265 <= zlen (buffer_ buf).

Ltac sound_step :=
  first [ eapply ends_bind; [first [apply string_at_sound; lia | apply load1_sound; [done|lia]]|cbn beta; intros]
        | apply ends_if; [by left|]; intros ?%bool_decide_eq_false_1 ].

Lemma parse_header_sound s :
  sp_wf s → bytes_ok (sp_mem s) → ptr_ s + 265 <= zlen (sp_mem s) →
  sound (parse_header s) (λ h, match h with Some (_, _, _, left_len) => 0 <= left_len <= sp_size s | None => True end).
Proof.
  intros Hs Hok Hroom. unfold parse_header. case_bool_decide; [done|]. case_bool_decide; [done|].
  pose proof (Find_range s (lit kBody) Hs). destruct Hs as (? & ? & ?).
  unfold sp_size, sp_begin, sp_end in *.
  do 11 sound_step. unfold load. rewrite bool_decide_true by lia. cbn. lia.
Qed.

Lemma round_sound can_open written c start buf fs :
  buf_wf buf → (start = false → spacious buf) →
  sound (client_round can_open written c start buf fs)
    (λ '(_, start', buf', _), buf_wf buf' ∧ (start' = false → spacious buf') ∧ zlen (content buf') <= zlen (content buf)).
Proof.
  assert (Hw : ∀ w data fs, sound (Write written w data fs) (λ _, True)).
  { intros w data fs'. unfold Write. destruct (fd_ w) as [[path off]|]; case_bool_decide; cbn; auto. }
  assert (Hi : ∀ n fs, sound (Init can_open n fs) (λ _, True)).
  { intros n fs'. unfold Init. destruct (can_open _); cbn; auto. }
  intros Hb Hsp. unfold client_round. destruct start.
  { eapply ends_bind; [apply Hw|]. intros [w fs'] _. cbn. destruct (TakeAll_ok buf Hb) as [? ->]. split_and!; [done..|apply zlen_nonneg]. }
  destruct (Hsp eq_refl) as (_ & Hok & Hroom).
  eapply ends_bind; [apply parse_header_sound; [by apply slice_wf|done|done]|].
  intros [[[[n m] size] left_len]|] Hl; [|by cbn]. unfold sp_size, slice in *. cbn [StringPiece_len length_] in *.
  eapply (ends_bind _ _ _ (λ b, buf_wf b ∧ zlen (content b) <= zlen (content buf))).
  { pose proof (Take_agrees buf (readable_bytes buf - left_len) Hb) as Ht. pose proof (zlen_content buf Hb) as Hz.
    rewrite bool_decide_true in Ht by lia. unfold agrees in Ht. destruct (Take _ _) as [b'| |]; [|done..]. destruct Ht as [? Ec]. cbn [ends].
    split; [done|]. rewrite Ec, zlen_zdrop; lia. }
  intros b' [Hb' Hl']. repeat first [eapply ends_bind; [first [apply Hi | apply Hw]|intros [? ?] _]]. by cbn.
Qed.

(** A trace of a kernel that delivers bytes. *)
Definition byte_trace (trace : list (attempt io_result)) : Prop :=
  Forall (λ a, match answer a with IoOk l => bytes_ok l | IoErr _ => True end) trace.

Lemma read_sound trace buf :
  byte_trace trace → buf_wf buf → zlen (content buf) + arriving trace <= total →
  sound (tcp_AsyncRead_buf trace buf) (λ '(buf', _, _, trace'),
    buf_wf buf' ∧ grows buf buf' ∧ byte_trace trace' ∧ zlen (content buf') + arriving trace' <= total).
Proof.
  intros Ht Hb Hfit. induction Ht as [|a trace Ha Ht IH]; [done|]. cbn [arriving] in Hfit.
  unfold tcp_AsyncRead_buf in *. cbn [retry]. destruct (answer a) as [e|l].
  - cbn [ReadFd mbind result_bind]. rewrite bool_decide_true by lia.
    assert (grows buf buf) by (split; [done|lia]).
    destruct (bool_decide (_ = EINTR)); [by apply IH|]. destruct (bool_decide (_ = EAGAIN)); [by apply IH|].
    split_and!; (done || lia).
  - pose proof (zlen_nonneg l). pose proof (arriving_nonneg trace).
    destruct (ReadFd_cases buf l Hb) as [[-> Hbig]|(b' & E & Hb' & Hc)]; [right; split; [done|lia]|].
    rewrite E. cbn [mbind result_bind].
    pose proof (ReadFd_grows _ _ _ _ Hb Ha E). rewrite bool_decide_false by lia. cbn.
    rewrite Hc, zlen_app. split_and!; (done || lia).
Qed.

Lemma client_loop_sound can_open written fuel trace now c start buf fs :
  byte_trace trace → buf_wf buf → (start = false → spacious buf) → zlen (content buf) + arriving trace <= total →
  sound (client_loop can_open written fuel trace now c start buf fs) (λ _, True).
Proof.
  revert trace c start buf fs. induction fuel as [|fuel IH]; intros trace c start buf fs Ht Hb Hsp Hfit; [done|].
  cbn [client_loop]. eapply ends_bind; [by apply read_sound|].
  intros [[[b' rn] to] trace'] (Hb' & (G1 & G2 & G3) & Ht' & Hfit'). case_bool_decide; [done|]. apply ends_if; [by left|]; intros _.
  eapply ends_bind.
  { apply round_sound; [done|]. intros E. destruct (Hsp E) as (_ & ? & ?). split; [done|]. split; [auto|lia]. }
  intros [[[c' start'] b2] fs'] (Hb2 & Hsp2 & Hl2). apply IH; [done..|lia].
Qed.
End hostile.

(** C28: whatever bytes arrive, in whatever pieces, and whatever the disk does, the
    client reads and writes only inside its buffer and fails no assertion: it
    returns, waits for more, or ends the program where it reports an error.
    The one exception is a server that sends more than 2^30 - 8 bytes in all,
    which may overflow the [int] index of the buffer, as when it never sends
    the mark of the body.  In particular the length byte of the checksum, which
    is read without a check that it was received, lies inside the buffer. *)
Theorem client_sound can_open written connected trace t0 t1 fs f :
  byte_trace trace → client_Start can_open written connected trace t0 t1 Client_new fs = Fault f →
  f = Aborted ∨ (f = SignedOverflow ∧ max_content < arriving trace).
Proof.
  intros Ht. unfold client_Start. destruct connected; [|by intros [= <-]; left].
  destruct (Buffer_new_ok 65536) as (b & Hnew & Hb & Hc & Hw); [by split|]. rewrite Hnew. cbn [mbind result_bind].
  intros E. pose proof (client_loop_sound (arriving trace) can_open written (S (length trace)) trace t1
    (mk_client FileWriter_new true [] [] 0 (start_clock t0 Stat_new)) false b fs Ht Hb) as H.
  cbn [Client_new file_writer_ client_filename_ client_filemd5_ client_file_size_ client_stat] in E.
  rewrite E in H. apply H; [|by rewrite Hc].
  intros _. destruct (Buffer_new_memory 65536 b) as (Hok & Hz & Hr); [lia|done|].
  split; [done|]. split; [done|]. rewrite Hz, Hr. lia.
Qed.

(** A header whose name is the rest of what was received: the length of the
    checksum lies behind it. *)
Lemma client_sound_witness :
  client_Start (λ _, true) (λ _ d, zlen d) true
    [mk_attempt (IoOk (kHead ++ [16] ++ kBody ++ replicate 8 0)) false; mk_attempt (IoOk []) false]
    0 0 Client_new ∅ = Fault Aborted.
Proof.
  destruct (client_Start (λ _, true) (λ _ d, zlen d) true
    [mk_attempt (IoOk (kHead ++ [16] ++ kBody ++ replicate 8 0)) false; mk_attempt (IoOk []) false]
    0 0 Client_new ∅) as [r|f|] eqn:E.
  - exfalso. revert E. vm_compute. discriminate.
  - f_equal. edestruct client_sound as [H|[_ H]]; [|exact E|exact H|vm_compute in H; discriminate].
    repeat constructor; unfold is_u8; cbn; lia.
  - exfalso. revert E. vm_compute. discriminate.
Defined.
