(* ===== verification/Quic.v ===== *)
(** * QUIC: quic/QuicListener.cc, quic/QuicConnection.cc, quic/QuicType.h, quic/RandomFile.h

    The listener routes datagrams to connections by their destination id and
    accepts new ones after a stateless retry; a connection drives the quiche
    library, which is a parameter.  The theorems: an address token is accepted
    exactly when it names the address of its sender; every connection of the
    table was created by a packet with such a token; a client connection that
    is handed out is established; a source id of an unexpected length ends the
    listener. *)

From Stdlib Require Import ZArith Lia Bool.
From stdpp Require Import base numbers list strings gmap.
From S2P Require Import Prelude Types StringPiece Buffer InetAddress Stream.

(** ** Constants *)
Definition kConnIdLen : Z := 16.
(** of quiche.h *)
Definition QUICHE_MAX_CONN_ID_LEN : Z := 20.
Definition sizeof_sockaddr_storage : Z := 128.
Definition kMaxTokenLen : Z := 6 + sizeof_sockaddr_storage + QUICHE_MAX_CONN_ID_LEN.
Definition kMaxDatagramSize : Z := 1350.
Definition kMaxConnIdLen : Z := 20.
Definition kReadBuffer : Z := 65536.
(** "quiche" *)
Definition token_tag : list Z := bytes_of "quiche".

(** ** The quiche library *)
Record header_fields : Type := mk_header {
  hi_version : Z;
  hi_type : Z;
  hi_scid : list Z;
  hi_dcid : list Z;
  hi_token : list Z;
}.
Inductive send_outcome : Type :=
  | SendDone
  | SendErr (e : Z)
  | SendPacket (bytes : list Z).

(** The calls the code makes; [C] is what a [quiche_conn*] points to.  Where the
    library returns a negative number instead of bytes the result is [None]. *)
Record Quiche (C : Type) : Type := mk_quiche {
  header_info : list Z → option header_fields;
  version_is_supported : Z → bool;
  negotiate_version : list Z → list Z → option (list Z);
  quiche_retry : list Z → list Z → list Z → list Z → Z → option (list Z);
  quiche_accept : list Z → list Z → InetAddress → InetAddress → option C;
  quiche_connect : list Z → list Z → InetAddress → InetAddress → option C;
  conn_send : C → C * send_outcome;
  conn_recv : C → list Z → InetAddress → InetAddress → C * Z;
  is_established : C → bool;
  is_closed : C → bool;
  readable : C → list Z;
  stream_recv : C → Z → Z → C * option (list Z * bool);
  stream_send : C → Z → list Z → bool → C * Z;
}.
Arguments header_info {C}.
Arguments version_is_supported {C}.
Arguments negotiate_version {C}.
Arguments quiche_retry {C}.
Arguments quiche_accept {C}.
Arguments quiche_connect {C}.
Arguments conn_send {C}.
Arguments conn_recv {C}.
Arguments is_established {C}.
Arguments is_closed {C}.
Arguments readable {C}.
Arguments stream_recv {C}.
Arguments stream_send {C}.

(** ** The socket, the random numbers and the variables shared by all *)

(** [RandomFile::getInstance()]: the descriptor once the object is made, and
    what [open] and [read] answer for /dev/urandom. *)
Record RandomFile : Type := mk_random {
  rf_instance : option Z;
  rf_open : Z;
  rf_reads : list (list Z);
}.
Record World : Type := mk_world {
  rx : list (attempt datagram);
  tx : list send_result;
  (** what has been sent, and to whom *)
  wire : list (InetAddress * list Z);
  randoms : RandomFile;
  quicReadBuffer : list Z;
  (** [static int num] of [quicConnRead] *)
  num : Z;
}.

(** [AsyncSendto]: a datagram counts as sent when the kernel took all of it. *)
Definition udp_send (packet : list Z) (addr : InetAddress) (w : World) : result (Z * World) :=
  '(wn, tx') ← AsyncSendto (tx w);
  Ret (wn, mk_world (rx w) tx' (if bool_decide (wn = zlen packet) then wire w ++ [(addr, packet)] else wire w)
             (randoms w) (quicReadBuffer w) (num w)).

Definition recv_result (w : World) (r : list Z * InetAddress * Z * bool * list (attempt datagram))
    : InetAddress * Z * World :=
  let '(mem, addr, rn, _, rx') := r in
  (addr, rn, mk_world rx' (tx w) (wire w) (randoms w) mem (num w)).
Definition udp_recv (w : World) : result (InetAddress * Z * World) :=
  r ← AsyncRecvFrom 0 kReadBuffer (rx w) (quicReadBuffer w); Ret (recv_result w r).
(** with a timeout of 100 ms *)
Definition udp_recv_ms (w : World) : result (InetAddress * Z * World) :=
  r ← AsyncRecvFrom_ms 0 kReadBuffer (rx w) (quicReadBuffer w); Ret (recv_result w r).
Definition received_bytes (rn : Z) (w : World) : list Z := ztake rn (quicReadBuffer w).

(** The first call makes the object; its constructor asserts that the file
    could be opened. *)
Definition getInstance (f : RandomFile) : result RandomFile :=
  match rf_instance f with
  | Some _ => Ret f
  | None =>
      let fd := rf_open f in
      _ ← cpp_assert (bool_decide (fd ≠ -1));
      Ret (mk_random (Some fd) (rf_open f) (rf_reads f))
  end.
(** [RandomFile::getInstance().genRandom(buf, len)]: a short read is an error. *)
Definition genRandom (len : Z) (w : World) : result (option (list Z) * World) :=
  f ← getInstance (randoms w);
  match rf_reads f with
  | [] => OutOfFuel
  | r :: rest =>
      let f := mk_random (rf_instance f) (rf_open f) rest in
      let w := mk_world (rx w) (tx w) (wire w) f (quicReadBuffer w) (num w) in
      Ret (if bool_decide (zlen r ≠ len) then None else Some r, w)
  end.

(** ** QuicConnection *)
Record QuicConnection (C : Type) : Type := mk_conn {
  send_times_ : Z;
  localaddr_ : InetAddress;
  peeraddr_ : InetAddress;
  conn_ : C;
}.
Arguments mk_conn {C}.
Arguments send_times_ {C}.
Arguments localaddr_ {C}.
Arguments peeraddr_ {C}.
Arguments conn_ {C}.

Section connection.
Context {C : Type} (Q : Quiche C).

Definition QuicConnection_new (localaddr peeraddr : InetAddress) (conn : C) : QuicConnection C :=
  mk_conn 1 localaddr peeraddr conn.
Definition set_conn (c : QuicConnection C) (conn : C) : QuicConnection C :=
  mk_conn (send_times_ c) (localaddr_ c) (peeraddr_ c) conn.
Definition sent_one (c : QuicConnection C) : QuicConnection C :=
  mk_conn (send_times_ c + 1) (localaddr_ c) (peeraddr_ c) (conn_ c).

Fixpoint flushQuic (fuel : nat) (c : QuicConnection C) (w : World) : result (bool * QuicConnection C * World) :=
  match fuel with
  | O => OutOfFuel
  | S fuel =>
      let '(conn, out) := conn_send Q (conn_ c) in
      let c := set_conn c conn in
      match out with
      | SendDone => Ret (true, c, w)
      | SendErr _ => Ret (false, c, w)
      | SendPacket packet =>
          '(sent, w) ← udp_send packet (peeraddr_ c) w;
          if bool_decide (sent ≠ zlen packet) then Ret (false, c, w)
          else flushQuic fuel (sent_one c) w
      end
  end.

Fixpoint untilEstablished (rounds fuel : nat) (c : QuicConnection C) (w : World)
    : result (bool * QuicConnection C * World) :=
  match rounds with
  | O => OutOfFuel
  | S rounds =>
      '(addr, read, w) ← udp_recv w;
      if bool_decide (read < 0) then Ret (false, c, w)
      else
        let '(conn, done) := conn_recv Q (conn_ c) (received_bytes read w) addr (localaddr_ c) in
        let c := set_conn c conn in
        if bool_decide (done < 0) then untilEstablished rounds fuel c w
        else if is_established Q conn then Ret (true, c, w)
        else if is_closed Q conn then Ret (false, c, w)
        else
          '(ret, c, w) ← flushQuic fuel c w;
          if negb ret then Ret (false, c, w) else untilEstablished rounds fuel c w
  end.

(** [connect]: the addresses are those of the new socket and of the peer; the
    outcome of [genRandom] is not looked at, and [raw] is what the array of
    the id holds when it fails. *)
Definition connect (rounds fuel : nat) (raw ip : list Z) (localaddr peeraddr : InetAddress) (w : World)
    : result (option (QuicConnection C) * World) :=
  '(r, w) ← genRandom kConnIdLen w;
  let scid := default raw r in
  match quiche_connect Q ip scid localaddr peeraddr with
  | None => Ret (None, w)
  | Some conn =>
      '(ret, c, w) ← flushQuic fuel (QuicConnection_new localaddr peeraddr conn) w;
      if negb ret then Ret (None, w)
      else
        '(ret, c, w) ← untilEstablished rounds fuel c w;
        if negb ret then Ret (None, w) else Ret (Some c, w)
  end.

Definition fillQuic (c : QuicConnection C) (w : World) : result (bool * QuicConnection C * World) :=
  '(addr, read, w) ← udp_recv_ms w;
  if bool_decide (read < 0) then Ret (false, c, w)
  else
    let '(conn, done) := conn_recv Q (conn_ c) (received_bytes read w) addr (localaddr_ c) in
    Ret (negb (bool_decide (done < 0)), set_conn c conn, w).

Definition quicStreamWrite (fuel : nat) (streamid : Z) (buf : list Z) (fin : bool) (c : QuicConnection C)
    (w : World) : result (Z * QuicConnection C * World) :=
  let '(conn, wn) := stream_send Q (conn_ c) streamid buf fin in
  let c := set_conn c conn in
  '(_, c, w) ←
    (if bool_decide (wn ≠ zlen buf) || bool_decide (send_times_ c mod 10 = 0)
     then fillQuic c w else Ret (true, c, w));
  '(_, c, w) ← flushQuic fuel c w;
  Ret (wn, c, w).

Definition quicStreamRead (streamid len : Z) (c : QuicConnection C)
    : QuicConnection C * option (list Z * bool) :=
  let '(conn, r) := stream_recv Q (conn_ c) streamid len in (set_conn c conn, r).

Definition isClosed (c : QuicConnection C) : bool := is_closed Q (conn_ c).

(** The readable streams in turn: an ended one is answered with "byez\n". *)
Fixpoint stream_loop (streams : list Z) (conn : C) : C :=
  match streams with
  | [] => conn
  | s :: streams =>
      let '(conn, r) := stream_recv Q conn s kReadBuffer in
      match r with
      | None => conn
      | Some (_, fin) =>
          stream_loop streams
            (if (fin : bool) then (stream_send Q conn s [98; 121; 101; 122; 10] true).1 else conn)
      end
  end.

Definition set_num (n : Z) (w : World) : World :=
  mk_world (rx w) (tx w) (wire w) (randoms w) (quicReadBuffer w) n.

Definition quicConnRead (fuel : nat) (buf : list Z) (peeraddr : InetAddress) (c : QuicConnection C) (w : World)
    : result (QuicConnection C * World) :=
  let '(conn, done) := conn_recv Q (conn_ c) buf peeraddr (localaddr_ c) in
  if bool_decide (done < 0) then Ret (set_conn c conn, w)
  else
    let conn := if is_established Q conn then stream_loop (readable Q conn) conn else conn in
    let c := set_conn c conn in
    if negb (is_established Q conn) then
      '(_, c, w) ← flushQuic fuel c w; Ret (c, w)
    else
      '(c, w) ← (if bool_decide (num w = 10)
                 then '(_, c, w) ← flushQuic fuel c w; Ret (c, set_num 0 w)
                 else Ret (c, w));
      Ret (c, set_num (num w + 1) w).
End connection.

(** ** QuicListener *)
Record QuicListenerData : Type := mk_data {
  type : Z;
  version : Z;
  scid : list Z;
  scid_len : Z;
  dcid : list Z;
  dcid_len : Z;
  odcid : list Z;
  odcid_len : Z;
  token : list Z;
  token_len : Z;
  peeraddr : InetAddress;
}.
Definition QuicListenerData_new : QuicListenerData :=
  mk_data 0 0 (replicate 20 0) kMaxConnIdLen (replicate 20 0) kMaxConnIdLen (replicate 20 0) kMaxConnIdLen
    (replicate 154 0) kMaxTokenLen zero_addr6.

(** What [quiche_header_info] stores. *)
Definition store_header (data : QuicListenerData) (h : header_fields) : result QuicListenerData :=
  s ← memcpy (scid data) 0 (hi_scid h) (zlen (hi_scid h));
  d ← memcpy (dcid data) 0 (hi_dcid h) (zlen (hi_dcid h));
  t ← memcpy (token data) 0 (hi_token h) (zlen (hi_token h));
  Ret (mk_data (hi_type h) (hi_version h) s (zlen (hi_scid h)) d (zlen (hi_dcid h))
         (odcid data) (odcid_len data) t (zlen (hi_token h)) (peeraddr data)).

Definition scid_bytes (data : QuicListenerData) : list Z := ztake (scid_len data) (scid data).
Definition dcid_bytes (data : QuicListenerData) : list Z := ztake (dcid_len data) (dcid data).
Definition odcid_bytes (data : QuicListenerData) : list Z := ztake (odcid_len data) (odcid data).
Definition token_bytes (data : QuicListenerData) : list Z := ztake (token_len data) (token data).

(** The token array and its length. *)
Definition mint_token (dcid : list Z) (dcid_len : Z) (addr : InetAddress) (addr_len : Z) (token : list Z)
    : result (list Z * Z) :=
  token ← memcpy token 0 token_tag 6;
  token ← memcpy token 6 addr addr_len;
  token ← memcpy token (6 + addr_len) dcid dcid_len;
  Ret (token, 6 + addr_len + dcid_len).

(** [memcmp(a, b, n)] is zero; both objects must hold [n] bytes. *)
Definition same_bytes (a : list Z) (i : Z) (b : list Z) (n : Z) : result bool :=
  if bool_decide (0 <= i ∧ i + n <= zlen a ∧ n <= zlen b)
  then Ret (bool_decide (ztake n (zdrop i a) = ztake n b)) else Fault OutOfBounds.

(** Whether it is accepted, and the array and length of the original id. *)
Definition validate_token (token : list Z) (token_len : Z) (addr : InetAddress) (addr_len : Z)
    (odcid : list Z) (odcid_len : Z) : result (bool * list Z * Z) :=
  tag ← and_then (negb (bool_decide (token_len < 6))) (same_bytes token 0 token_tag 6);
  if negb tag then Ret (false, odcid, odcid_len)
  else
    let token_len := token_len - 6 in
    same ← and_then (negb (bool_decide (token_len < addr_len))) (same_bytes token 6 addr addr_len);
    if negb same then Ret (false, odcid, odcid_len)
    else
      let token_len := token_len - addr_len in
      if bool_decide (odcid_len < token_len) then Ret (false, odcid, odcid_len)
      else
        o ← memcpy odcid 0 (zdrop (6 + addr_len) token) token_len;
        Ret (true, o, token_len).

Record QuicListener (C : Type) : Type := mk_listener {
  listen_addr_ : InetAddress;
  conns_ : gmap (list Z) (QuicConnection C);
}.
Arguments mk_listener {C}.
Arguments listen_addr_ {C}.
Arguments conns_ {C}.

Section listener.
Context {C : Type} (Q : Quiche C).

Definition quicNegotiate (data : QuicListenerData) (w : World) : result (bool * World) :=
  if version_is_supported Q (version data) then Ret (true, w)
  else
    match negotiate_version Q (scid_bytes data) (dcid_bytes data) with
    | None => Ret (false, w)
    | Some packet => '(_, w) ← udp_send packet (peeraddr data) w; Ret (false, w)
    end.

Definition set_token (data : QuicListenerData) (t : list Z) (n : Z) : QuicListenerData :=
  mk_data (type data) (version data) (scid data) (scid_len data) (dcid data) (dcid_len data)
    (odcid data) (odcid_len data) t n (peeraddr data).
Definition set_odcid (data : QuicListenerData) (o : list Z) (n : Z) : QuicListenerData :=
  mk_data (type data) (version data) (scid data) (scid_len data) (dcid data) (dcid_len data)
    o n (token data) (token_len data) (peeraddr data).

Definition validateToken (data : QuicListenerData) (w : World) : result (bool * QuicListenerData * World) :=
  if bool_decide (token_len data = 0) then
    '(t, n) ← mint_token (dcid data) (dcid_len data) (peeraddr data) (socklen (peeraddr data)) (token data);
    let data := set_token data t n in
    '(r, w) ← genRandom kConnIdLen w;
    match r with
    | None => Ret (false, data, w)
    | Some new_cid =>
        match quiche_retry Q (scid_bytes data) (dcid_bytes data) new_cid (token_bytes data) (version data) with
        | None => Ret (false, data, w)
        | Some packet => '(_, w) ← udp_send packet (peeraddr data) w; Ret (false, data, w)
        end
    end
  else
    '(ok, o, n) ← validate_token (token data) (token_len data) (peeraddr data) (socklen (peeraddr data))
                    (odcid data) (odcid_len data);
    if (ok : bool) then Ret (true, set_odcid data o n, w) else Ret (false, data, w).

Definition quicAccept (l : QuicListener C) (data : QuicListenerData) : result (option (QuicConnection C)) :=
  _ ← cpp_assert (bool_decide (scid_len data = kConnIdLen));
  match quiche_accept Q (dcid_bytes data) (odcid_bytes data) (listen_addr_ l) (peeraddr data) with
  | None => Ret None
  | Some conn => Ret (Some (QuicConnection_new (listen_addr_ l) (peeraddr data) conn))
  end.

Definition set_conns (l : QuicListener C) (key : list Z) (c : QuicConnection C) : QuicListener C :=
  mk_listener (listen_addr_ l) (<[key := c]> (conns_ l)).

(** What is done with a datagram of [rn] bytes. *)
Definition handle_packet (fuel : nat) (rn : Z) (data : QuicListenerData) (l : QuicListener C) (w : World)
    : result (QuicListener C * World) :=
  let packet := received_bytes rn w in
  match header_info Q packet with
  | None => Ret (l, w)
  | Some h =>
      data ← store_header data h;
      match conns_ l !! dcid_bytes data with
      | Some conn =>
          '(conn, w) ← quicConnRead Q fuel packet (peeraddr data) conn w;
          Ret (set_conns l (dcid_bytes data) conn, w)
      | None =>
          '(ret, w) ← quicNegotiate data w;
          if negb ret then Ret (l, w)
          else
            '(ret, data, w) ← validateToken data w;
            if negb ret then Ret (l, w)
            else
              c ← quicAccept l data;
              match c with
              | None => Ret (l, w)
              | Some conn =>
                  '(conn, w) ← quicConnRead Q fuel packet (peeraddr data) conn w;
                  Ret (set_conns l (dcid_bytes data) conn, w)
              end
      end
  end.

(** One round of [loopAndAccept]. *)
Definition accept_round (fuel : nat) (l : QuicListener C) (w : World) : result (QuicListener C * World) :=
  '(addr, rn, w) ← udp_recv w;
  let d := QuicListenerData_new in
  let data := mk_data (type d) (version d) (scid d) (scid_len d) (dcid d) (dcid_len d) (odcid d) (odcid_len d)
                (token d) (token_len d) addr in
  if bool_decide (rn < 0) then Ret (l, w) else handle_packet fuel rn data l w.

Fixpoint loopAndAccept (rounds fuel : nat) (l : QuicListener C) (w : World) : result (QuicListener C * World) :=
  match rounds with
  | O => Ret (l, w)
  | S rounds => '(l, w) ← accept_round fuel l w; loopAndAccept rounds fuel l w
  end.
End listener.

(** ** Address tokens *)

(** The bytes the kernel calls the address of a peer. *)
Definition sockaddr (a : InetAddress) : list Z := ztake (socklen a) a.
Definition sock_ok (a : InetAddress) : Prop := addr_wf a ∧ (sin_family a = AF_INET ∨ sin_family a = AF_INET6).

Lemma socklen_cases a :
  sock_ok a → (sin_family a = AF_INET ∧ socklen a = 16) ∨ (sin_family a = AF_INET6 ∧ socklen a = 28).
Proof. intros [_ [E|E]]; unfold socklen; rewrite E; auto. Qed.
Lemma zlen_sockaddr a : sock_ok a → zlen (sockaddr a) = socklen a ∧ 16 <= socklen a <= 28.
Proof.
  intros Ha. pose proof (socklen_cases a Ha). destruct Ha as [Hw _]. unfold addr_wf in Hw. unfold sockaddr.
  rewrite zlen_ztake; lia.
Qed.
(** The family lies in the first two bytes, so an address is not the beginning
    of one of the other family. *)
Lemma sockaddr_family a : sock_ok a → sin_family a = le_val (ztake 2 (sockaddr a)).
Proof. intros Ha. pose proof (zlen_sockaddr a Ha). unfold sockaddr, sin_family. by rewrite ztake_ztake by lia. Qed.
Lemma sockaddr_cancel a b x y :
  sock_ok a → sock_ok b → sockaddr a ++ x = sockaddr b ++ y → sockaddr a = sockaddr b ∧ x = y.
Proof.
  intros Ha Hb E. destruct (zlen_sockaddr a Ha) as [La ?], (zlen_sockaddr b Hb) as [Lb ?].
  assert (Hf : sin_family a = sin_family b).
  { rewrite !sockaddr_family by done. f_equal. apply (f_equal (ztake 2)) in E. by rewrite !ztake_app_le in E by lia. }
  apply app_inj_1; [|done]. cut (zlen (sockaddr a) = zlen (sockaddr b)); [unfold zlen; lia|].
  rewrite La, Lb. destruct (socklen_cases a Ha) as [[]|[]], (socklen_cases b Hb) as [[]|[]]; unfold AF_INET, AF_INET6 in *; lia.
Qed.

Lemma memcpy_prefix dst i src n :
  0 <= i → 0 <= n → i + n <= zlen dst → n <= zlen src →
  ∃ v, memcpy dst i src n = Ret v ∧ zlen v = zlen dst ∧ ztake (i + n) v = ztake i dst ++ ztake n src.
Proof.
  intros. unfold memcpy. rewrite bool_decide_true by lia. eexists. split; [done|].
  split; [rewrite !zlen_app, !zlen_ztake, zlen_zdrop by lia; lia|].
  rewrite app_assoc. apply ztake_app_all. rewrite zlen_app, !zlen_ztake by lia. done.
Qed.

Lemma mint_token_ok d dlen a token :
  sock_ok a → 0 <= dlen <= kMaxConnIdLen → dlen <= zlen d → zlen token = kMaxTokenLen →
  ∃ t n, mint_token d dlen a (socklen a) token = Ret (t, n) ∧ 0 < n <= zlen t ∧ zlen t = kMaxTokenLen ∧
    ztake n t = token_tag ++ sockaddr a ++ ztake dlen d.
Proof.
  intros Ha Hd Hz Ht. destruct (zlen_sockaddr a Ha) as [_ Hl]. destruct Ha as [Hw _]. unfold addr_wf in Hw.
  unfold kMaxConnIdLen, kMaxTokenLen, sizeof_sockaddr_storage, QUICHE_MAX_CONN_ID_LEN in *. unfold mint_token.
  destruct (memcpy_prefix token 0 token_tag 6) as (t1 & -> & L1 & P1); [lia..|done|]. cbn [mbind result_bind].
  destruct (memcpy_prefix t1 6 a (socklen a)) as (t2 & -> & L2 & P2); [lia..|]. cbn [mbind result_bind].
  destruct (memcpy_prefix t2 (6 + socklen a) d dlen) as (t3 & -> & L3 & P3); [lia..|]. cbn [mbind result_bind].
  exists t3, (6 + socklen a + dlen). split_and!; [done|lia..|]. rewrite P3, P2, <-app_assoc.
  change (ztake 6 t1) with (ztake (0 + 6) t1). rewrite P1. done.
Qed.

Lemma same_bytes_ok a i b n :
  0 <= i → 0 <= n → i + n <= zlen a → n <= zlen b →
  same_bytes a i b n = Ret (bool_decide (ztake n (zdrop i a) = ztake n b)).
Proof. intros. unfold same_bytes. by rewrite bool_decide_true by lia. Qed.

Section tokens.
Context (token : list Z) (tlen : Z) (a : InetAddress) (odcid : list Z).
Context (Htok : 0 <= tlen <= zlen token) (Ha : sock_ok a).

(** A token that names the address is accepted, and what follows it is the
    original id. *)
Lemma validate_token_accepts x :
  ztake tlen token = token_tag ++ sockaddr a ++ x → zlen x <= zlen odcid →
  ∃ o, validate_token token tlen a (socklen a) odcid (zlen odcid) = Ret (true, o, zlen x) ∧
    ztake (zlen x) o = x ∧ zlen o = zlen odcid.
Proof using Htok Ha.
  intros E Hx. destruct (zlen_sockaddr a Ha) as [La Hl]. pose proof (zlen_nonneg x).
  assert (Hw : zlen a = 28) by apply Ha.
  assert (Hlen : tlen = 6 + socklen a + zlen x).
  { apply (f_equal zlen) in E. rewrite zlen_ztake, !zlen_app, La in E by lia. change (zlen token_tag) with 6 in E. lia. }
  assert (Et : token = token_tag ++ sockaddr a ++ x ++ zdrop tlen token).
  { rewrite <-(ztake_zdrop tlen token) at 1. rewrite E, <-!app_assoc. done. }
  unfold validate_token. rewrite (bool_decide_false (tlen < 6)) by lia. cbn [negb and_then].
  rewrite (same_bytes_ok token 0) by (done || (change (zlen token_tag) with 6; lia)). cbn [mbind result_bind].
  rewrite zdrop_0, (bool_decide_true (ztake 6 token = _)) by (rewrite Et; by rewrite ztake_app_all).
  cbn [negb]. rewrite (bool_decide_false (tlen - 6 < socklen a)) by lia. cbn [negb and_then].
  rewrite (same_bytes_ok token 6) by lia. cbn [mbind result_bind].
  rewrite bool_decide_true by (rewrite Et, zdrop_app_all by done; by rewrite ztake_app_all).
  cbn [negb]. rewrite bool_decide_false by lia.
  destruct (memcpy_prefix odcid 0 (zdrop (6 + socklen a) token) (tlen - 6 - socklen a)) as (o & -> & Lo & Po);
    [lia..|rewrite zlen_zdrop; lia|]. cbn [mbind result_bind].
  exists o. replace (tlen - 6 - socklen a) with (zlen x) in * by lia. split_and!; [done| |done].
  rewrite Z.add_0_l in Po. rewrite Po, ztake_0. cbn [app].
  rewrite Et, app_assoc, zdrop_app_all by (rewrite zlen_app, La; done). by rewrite ztake_app_all.
Qed.

(** No other token is. *)
Lemma validate_token_rejects :
  (∀ x, ztake tlen token = token_tag ++ sockaddr a ++ x → zlen odcid < zlen x) →
  validate_token token tlen a (socklen a) odcid (zlen odcid) = Ret (false, odcid, zlen odcid).
Proof using Htok Ha.
  intros Hno. destruct (zlen_sockaddr a Ha) as [La Hl]. assert (Hw : zlen a = 28) by apply Ha.
  unfold validate_token. destruct (bool_decide_reflect (tlen < 6)) as [H6|H6]; cbn [negb and_then mbind result_bind]; [done|].
  rewrite (same_bytes_ok token 0) by (done || (change (zlen token_tag) with 6; lia)). cbn [mbind result_bind].
  destruct (bool_decide_reflect (ztake 6 (zdrop 0 token) = ztake 6 token_tag)) as [Htag|]; cbn [negb]; [|done].
  destruct (bool_decide_reflect (tlen - 6 < socklen a)) as [Hshort|Hshort]; cbn [negb and_then mbind result_bind]; [done|].
  rewrite (same_bytes_ok token 6) by lia. cbn [mbind result_bind]. 
  destruct (bool_decide_reflect (ztake (socklen a) (zdrop 6 token) = ztake (socklen a) a)) as [Haddr|]; cbn [negb]; [|done].
  rewrite bool_decide_true; [done|].
  assert (E : ztake tlen token = token_tag ++ sockaddr a ++ ztake (tlen - (6 + socklen a)) (zdrop (6 + socklen a) token)).
  { rewrite (ztake_split 6 tlen) by lia. rewrite zdrop_0 in Htag. rewrite Htag. f_equal.
    rewrite (ztake_split (socklen a) (tlen - 6)) by lia. rewrite Haddr. f_equal.
    rewrite zdrop_zdrop by lia. f_equal. lia. }
  apply Hno in E. rewrite zlen_ztake in E by (rewrite zlen_zdrop; lia). lia.
Qed.
Lemma validate_token_cases :
  (∃ x, ztake tlen token = token_tag ++ sockaddr a ++ x ∧ zlen x <= zlen odcid) ∨
  (∀ x, ztake tlen token = token_tag ++ sockaddr a ++ x → zlen odcid < zlen x).
Proof using.
  set (p := token_tag ++ sockaddr a). set (tb := ztake tlen token).
  destruct (decide (ztake (zlen p) tb = p ∧ zlen (zdrop (zlen p) tb) <= zlen odcid)) as [[E Hl]|Hno].
  - left. exists (zdrop (zlen p) tb). split; [|done]. rewrite app_assoc. fold p. rewrite <-E at 1. by rewrite ztake_zdrop.
  - right. intros x E. rewrite app_assoc in E. fold p in E. destruct (decide (zlen x <= zlen odcid)) as [Hx|]; [|lia].
    destruct Hno. rewrite E. split; [by apply ztake_app_all|by rewrite zdrop_app_all].
Qed.
End tokens.

(** C29: the token a retry hands out, presented from an address: it is accepted
    exactly from the address it was minted for, and gives back the id the
    client had chosen; any other text of that form is accepted as well, so a
    token can be made up by anyone who knows its own address. *)
Theorem retry_token d dlen a b token odcid :
  sock_ok a → sock_ok b → 0 <= dlen <= kMaxConnIdLen → dlen <= zlen d →
  zlen token = kMaxTokenLen → zlen odcid = kMaxConnIdLen →
  ∃ t n o m, mint_token d dlen a (socklen a) token = Ret (t, n) ∧
    validate_token t n b (socklen b) odcid (zlen odcid) = Ret (bool_decide (sockaddr a = sockaddr b), o, m) ∧
    (sockaddr a = sockaddr b → ztake m o = ztake dlen d) ∧
    (∀ t' n' x, 0 <= n' <= zlen t' → ztake n' t' = token_tag ++ sockaddr b ++ x →
      ∃ o', validate_token t' n' b (socklen b) odcid (zlen odcid) =
        Ret (bool_decide (zlen x <= kMaxConnIdLen), o', if bool_decide (zlen x <= kMaxConnIdLen) then zlen x else zlen odcid)).
Proof.
  intros Ha Hb Hd Hz Ht Ho.
  destruct (mint_token_ok d dlen a token) as (t & n & Hmint & Hn & Hlt & E); [done..|].
  assert (Hany : ∀ t' n' x, 0 <= n' <= zlen t' → ztake n' t' = token_tag ++ sockaddr b ++ x →
    ∃ o', validate_token t' n' b (socklen b) odcid (zlen odcid) =
      Ret (bool_decide (zlen x <= kMaxConnIdLen), o', if bool_decide (zlen x <= kMaxConnIdLen) then zlen x else zlen odcid)).
  { intros t' n' x Hn' Ex. case_bool_decide as Hx.
    - destruct (validate_token_accepts t' n' b odcid Hn' Hb x Ex) as (o & ? & _); [lia|]. eauto.
    - exists odcid. apply validate_token_rejects; [done..|]. intros y Ey. rewrite Ex in Ey.
      apply app_inv_head, app_inv_head in Ey as <-. lia. }
  assert (Hdl : zlen (ztake dlen d) = dlen) by (apply zlen_ztake; lia).
  destruct (decide (sockaddr a = sockaddr b)) as [Es|Es].
  - rewrite Es in E. destruct (validate_token_accepts t n b odcid ltac:(lia) Hb _ E) as (o & Hv & Hp & _); [lia|].
    exists t, n, o, (zlen (ztake dlen d)). rewrite bool_decide_true by done. auto.
  - exists t, n, odcid, (zlen odcid). rewrite bool_decide_false by done. split_and!; [done| |done|done].
    apply validate_token_rejects; [lia|done|]. intros x Ex. rewrite E in Ex. apply app_inv_head in Ex.
    by destruct (sockaddr_cancel _ _ _ _ Ha Hb Ex).
Qed.

(** 10.0.0.1:4433 and 10.0.0.2:4433. *)
Definition sample_peer (last : Z) : InetAddress := [2; 0; 17; 81; 10; 0; 0; last] ++ replicate 20 0.
Lemma sample_peer_ok last : sock_ok (sample_peer last).
Proof. split; [done|by left]. Qed.

Lemma retry_token_witness :
  ∃ t n o m, mint_token (replicate 20 7) 8 (sample_peer 1) (socklen (sample_peer 1)) (replicate 154 0) = Ret (t, n) ∧
    validate_token t n (sample_peer 2) (socklen (sample_peer 2)) (replicate 20 0) (zlen (replicate 20 0)) =
      Ret (false, o, m).
Proof.
  destruct (retry_token (replicate 20 7) 8 (sample_peer 1) (sample_peer 2) (replicate 154 0) (replicate 20 0))
    as (t & n & o & m & H1 & H2 & _).
  - apply sample_peer_ok.
  - apply sample_peer_ok.
  - unfold kMaxConnIdLen. lia.
  - vm_compute. discriminate.
  - reflexivity.
  - reflexivity.
  - exists t, n, o, m. split; [exact H1|exact H2].
Defined.

(** ** Receiving *)
Lemma recv_trace n mem trace addr0 :
  zlen mem = n → 0 <= n →
  ends (λ _, False) (retry (RecvFrom 0 n) recv_errno false trace (mem, addr0))
    (λ '(mem', addr, rn, _, rest), zlen mem' = n ∧ (∃ pre, trace = pre ++ rest) ∧
      (rn < 0 ∨ ∃ a from bytes, a ∈ trace ∧ answer a = Recv from bytes ∧ ztake rn mem' = ztake n bytes ∧
        rn = zlen (ztake n bytes) ∧ (0 < rn → addr = from))).
Proof.
  intros Hm Hn. revert mem Hm. induction trace as [|a trace IH]; intros mem Hm; [done|]. cbn [retry].
  assert (Hrec : ∀ mem, zlen mem = n → ends (λ _, False) (retry (RecvFrom 0 n) recv_errno false trace (mem, addr0))
    (λ '(mem', addr, rn, _, rest), zlen mem' = n ∧ (∃ pre, a :: trace = pre ++ rest) ∧
      (rn < 0 ∨ ∃ a' from bytes, a' ∈ a :: trace ∧ answer a' = Recv from bytes ∧ ztake rn mem' = ztake n bytes ∧
        rn = zlen (ztake n bytes) ∧ (0 < rn → addr = from)))).
  { intros m Hm'. eapply ends_weaken; [by apply IH|]. intros [[[[m' addr] rn] to] rest] (H1 & (pre & ->) & H2).
    split; [done|]. split; [by exists (a :: pre)|]. destruct H2 as [?|(a' & from & bytes & ? & ?)]; [by left|].
    right. exists a', from, bytes. split; [by right|done]. }
  destruct (answer a) as [e|from bytes] eqn:Ea; cbn [RecvFrom mbind result_bind].
  - rewrite bool_decide_true by lia. destruct (bool_decide (_ = EINTR)); [by apply Hrec|].
    destruct (bool_decide (_ = EAGAIN)); cbn [andb]; [by apply Hrec|]. cbn. split_and!; [done|by exists [a]|left; lia].
  - pose proof (zlen_nonneg bytes).
    assert (Hz : zlen (ztake n bytes) <= n) by (rewrite zlen_ztake_min by lia; lia). pose proof (zlen_nonneg (ztake n bytes)).
    destruct (memcpy_prefix mem 0 (ztake n bytes) (zlen (ztake n bytes))) as (v & -> & Hv & Hp); [lia..|].
    cbn [mbind result_bind]. rewrite (bool_decide_false (zlen (ztake n bytes) < 0)) by lia. cbn [ends].
    split_and!; [lia|by exists [a]|]. right. exists a, from, bytes. split_and!; [by left|done| |done|].
    + rewrite Z.add_0_l, ztake_0 in Hp. rewrite Hp. cbn [app]. apply ztake_ge. lia.
    + intros. by rewrite bool_decide_true by lia.
Qed.

(** Sending never fails in another way than by what it returns. *)
Lemma AsyncSendto_ends ok trace : ends ok (AsyncSendto trace) (λ _, True).
Proof. induction trace as [|r trace IH]; cbn [AsyncSendto]; [done|]. by repeat case_bool_decide. Qed.

(** ** Connections keep their addresses *)
Definition same_socket (w w' : World) : Prop :=
  rx w' = rx w ∧ (quicReadBuffer w', rf_open (randoms w')) = (quicReadBuffer w, rf_open (randoms w)).
(** /dev/urandom cannot be opened. *)
Definition no_random (f : RandomFile) (e : fault) : Prop := e = AssertFailed ∧ rf_open f = -1.

Lemma genRandom_ends len w :
  ends (no_random (randoms w)) (genRandom len w) (λ '(_, w'), same_socket w w').
Proof.
  unfold genRandom, getInstance. destruct (rf_instance (randoms w)).
  - cbn [mbind result_bind]. by destruct (rf_reads (randoms w)).
  - unfold cpp_assert. case_bool_decide as H; cbn [mbind result_bind rf_reads].
    + by destruct (rf_reads (randoms w)).
    + split; [done|]. destruct (decide (rf_open (randoms w) = -1)); [done|]. by destruct H.
Qed.

Section steps.
Context {C : Type} (Q : Quiche C) (ok : fault → Prop).

Definition same_addrs (c c' : QuicConnection C) : Prop := peeraddr_ c' = peeraddr_ c ∧ localaddr_ c' = localaddr_ c.

Lemma udp_send_ends packet addr w : ends ok (udp_send packet addr w) (λ '(_, w'), same_socket w w').
Proof. eapply ends_bind; [apply AsyncSendto_ends|]. by intros [wn tx'] _. Qed.

Lemma flushQuic_ends fuel c w :
  ends ok (flushQuic Q fuel c w) (λ '(_, c', w'), same_addrs c c' ∧ same_socket w w').
Proof.
  revert c w. induction fuel as [|fuel IH]; intros c w; [done|]. cbn [flushQuic].
  destruct (conn_send Q (conn_ c)) as [conn [|e|packet]]; [done..|].
  eapply ends_bind; [apply udp_send_ends|]. intros [sent w'] [E1 E2]. case_bool_decide; [done|].
  eapply ends_weaken; [apply IH|]. intros [[r c'] w''] [H1 [H2 H3]]. split; [exact H1|]. split; congruence.
Qed.

Lemma quicConnRead_ends fuel buf addr c w :
  ends ok (quicConnRead Q fuel buf addr c w) (λ '(c', w'), same_addrs c c' ∧ same_socket w w').
Proof.
  unfold quicConnRead. destruct (conn_recv Q (conn_ c) buf addr (localaddr_ c)) as [conn rc].
  case_bool_decide; [by cbn|]. set (conn' := if is_established Q conn then _ else conn).
  destruct (is_established Q conn'); cbn [negb].
  - eapply (ends_bind _ _ _ (λ '(c', w'), same_addrs c c' ∧ same_socket w w')).
    + case_bool_decide; [|done]. eapply ends_bind; [apply flushQuic_ends|]. by intros [[r c'] w'] [H1 [H2 H3]].
    + by intros [c' w'] [H1 [H2 H3]].
  - eapply ends_bind; [apply flushQuic_ends|]. by intros [[r c'] w'] [H1 H2].
Qed.

Lemma quicNegotiate_ends data w :
  ends ok (quicNegotiate Q data w)
    (λ '(ret, w'), same_socket w w' ∧ (ret = true → version_is_supported Q (version data) = true)).
Proof.
  unfold quicNegotiate. destruct (version_is_supported Q (version data)); [done|].
  destruct (negotiate_version Q _ _); [|done].
  eapply ends_bind; [apply udp_send_ends|]. by intros [wn w'] H.
Qed.

(** The arrays of the data of a packet and what fits into them. *)
Record data_ok (data : QuicListenerData) : Prop := {
  do_dcid : zlen (dcid data) = kMaxConnIdLen ∧ 0 <= dcid_len data <= kMaxConnIdLen;
  do_odcid : zlen (odcid data) = kMaxConnIdLen ∧ odcid_len data = kMaxConnIdLen;
  do_token : zlen (token data) = kMaxTokenLen ∧ 0 <= token_len data <= kMaxTokenLen;
  do_peer : sock_ok (peeraddr data);
}.

(** The token names the address the packet came from. *)
Definition names_sender (data : QuicListenerData) : Prop :=
  ∃ x, zlen x <= kMaxConnIdLen ∧ token_bytes data = token_tag ++ sockaddr (peeraddr data) ++ x.

Lemma validateToken_ends data w :
  data_ok data → (∀ f, no_random (randoms w) f → ok f) →
  ends ok (validateToken Q data w)
    (λ '(ret, data', w'), same_socket w w' ∧
      (ret = true → names_sender data ∧ ∃ o n, data' = set_odcid data o n)).
Proof.
  intros [Hd Ho Ht Hp] Hno. unfold validateToken. case_bool_decide as Hz.
  - destruct (mint_token_ok (dcid data) (dcid_len data) (peeraddr data) (token data)) as (t & n & -> & _); [done|lia..|].
    cbn [mbind result_bind]. eapply ends_bind.
    { pose proof (genRandom_ends kConnIdLen w) as H. destruct (genRandom kConnIdLen w); [exact H|by apply Hno|done]. }
    intros [[new_cid|] w1] [H1 H2]; [|by split]. destruct (quiche_retry Q _ _ _ _ _); [|by split].
    eapply ends_bind; [apply udp_send_ends|]. intros [wn w'] [H3 H4]. split; [split; congruence|done].
  - destruct Ho as [Hlo ->]. rewrite <-Hlo.
    destruct (validate_token_cases (token data) (token_len data) (peeraddr data) (odcid data)) as [(x & E & Hx)|Hrej].
    + destruct (validate_token_accepts (token data) (token_len data) (peeraddr data) (odcid data) ltac:(lia) Hp x E Hx)
        as (o & -> & _). cbn [mbind result_bind ends]. split; [done|]. intros _. split; [|by eexists _, _].
      exists x. split; [lia|done].
    + rewrite validate_token_rejects by (done || lia). done.
Qed.

Lemma store_header_ok data h :
  zlen (scid data) = kMaxConnIdLen → zlen (dcid data) = kMaxConnIdLen → zlen (token data) = kMaxTokenLen →
  zlen (hi_scid h) <= kMaxConnIdLen → zlen (hi_dcid h) <= kMaxConnIdLen → zlen (hi_token h) <= kMaxTokenLen →
  odcid_len data = kMaxConnIdLen → zlen (odcid data) = kMaxConnIdLen → sock_ok (peeraddr data) →
  ∃ data', store_header data h = Ret data' ∧ data_ok data' ∧ scid_len data' = zlen (hi_scid h) ∧
    dcid_bytes data' = hi_dcid h ∧ token_bytes data' = hi_token h ∧ version data' = hi_version h ∧
    peeraddr data' = peeraddr data.
Proof.
  intros. unfold store_header. pose proof (zlen_nonneg (hi_scid h)). pose proof (zlen_nonneg (hi_dcid h)).
  pose proof (zlen_nonneg (hi_token h)).
  destruct (memcpy_prefix (scid data) 0 (hi_scid h) (zlen (hi_scid h))) as (s & -> & _); [lia..|]. cbn [mbind result_bind].
  destruct (memcpy_prefix (dcid data) 0 (hi_dcid h) (zlen (hi_dcid h))) as (d & -> & Ld & Pd); [lia..|]. cbn [mbind result_bind].
  destruct (memcpy_prefix (token data) 0 (hi_token h) (zlen (hi_token h))) as (t & -> & Lt & Pt); [lia..|]. cbn [mbind result_bind].
  rewrite Z.add_0_l, ztake_0 in Pd, Pt. cbn [app] in Pd, Pt. rewrite (ztake_ge _ (hi_dcid h)) in Pd by lia. rewrite (ztake_ge _ (hi_token h)) in Pt by lia.
  eexists. split; [done|]. split; [split; cbn; (done || lia)|]. done.
Qed.
End steps.

(** ** The table of connections *)
Section life.
Context {C : Type} (Q : Quiche C).

(** What quiche promises of a header: nothing is read from an empty packet, and
    ids and token fit the arrays whose sizes it is given. *)
Record quiche_ok : Prop := {
  qk_empty : header_info Q [] = None;
  qk_fits packet h : header_info Q packet = Some h →
    zlen (hi_scid h) <= kMaxConnIdLen ∧ zlen (hi_dcid h) <= kMaxConnIdLen ∧ zlen (hi_token h) <= kMaxTokenLen;
}.
(** The kernel names the sender of a datagram. *)
Definition senders_ok (trace : list (attempt datagram)) : Prop :=
  Forall (λ a, match answer a with Recv from _ => sock_ok from | RecvErr _ => True end) trace.

(** A datagram of the trace with a supported version and a token that names
    its sender. *)
Definition credible (trace : list (attempt datagram)) (from : InetAddress) (h : header_fields) : Prop :=
  ∃ a bytes x, a ∈ trace ∧ answer a = Recv from bytes ∧ header_info Q (ztake kReadBuffer bytes) = Some h ∧
    version_is_supported Q (hi_version h) = true ∧ zlen x <= kMaxConnIdLen ∧
    hi_token h = token_tag ++ sockaddr from ++ x.
Definition admitted (trace : list (attempt datagram)) (key : list Z) (c : QuicConnection C) : Prop :=
  ∃ h, credible trace (peeraddr_ c) h ∧ hi_dcid h = key ∧ zlen (hi_scid h) = kConnIdLen.
(** The two ways to fail. *)
Definition odd_scid (trace : list (attempt datagram)) (f : fault) : Prop :=
  f = AssertFailed ∧ ∃ from h, credible trace from h ∧ zlen (hi_scid h) ≠ kConnIdLen.
Definition listener_fails (w : World) (f : fault) : Prop := odd_scid (rx w) f ∨ no_random (randoms w) f.

Context (HQ : quiche_ok) (w0 : World).
Local Notation trace := (rx w0).
Local Notation urandom := (rf_open (randoms w0)).

Definition table_ok (l : QuicListener C) : Prop := map_Forall (admitted trace) (conns_ l).

Lemma handle_packet_ends fuel rn data l w a from bytes :
  a ∈ trace → answer a = Recv from bytes → received_bytes rn w = ztake kReadBuffer bytes →
  (received_bytes rn w ≠ [] → peeraddr data = from) → sock_ok from → table_ok l →
  zlen (scid data) = kMaxConnIdLen → zlen (dcid data) = kMaxConnIdLen → zlen (token data) = kMaxTokenLen →
  odcid_len data = kMaxConnIdLen → zlen (odcid data) = kMaxConnIdLen → rf_open (randoms w) = urandom →
  ends (listener_fails w0) (handle_packet Q fuel rn data l w) (λ '(l', w'), table_ok l' ∧ same_socket w w').
Proof using HQ.
  intros Hin Ea Er Hfrom Hs Hl ????? Hu. unfold handle_packet.
  destruct (header_info Q (received_bytes rn w)) as [h|] eqn:Eh; [|done].
  assert (Hp : peeraddr data = from) by (apply Hfrom; intros E; rewrite E, (qk_empty HQ) in Eh; done).
  destruct (qk_fits HQ _ _ Eh) as (? & ? & ?).
  destruct (store_header_ok data h) as (data' & -> & Hdo & Es & Ed & Et & Ev & Ep); [(done || by rewrite Hp)..|].
  cbn [mbind result_bind]. rewrite Ed. destruct (conns_ l !! hi_dcid h) as [conn|] eqn:Ec.
  - eapply ends_bind; [apply quicConnRead_ends|]. intros [c' w'] [[A1 A2] A3]. cbn. split; [|done].
    apply map_Forall_insert_2; [|done]. destruct (Hl _ _ Ec) as (h' & Hc' & ?). exists h'. by rewrite A1.
  - eapply ends_bind; [apply quicNegotiate_ends|]. intros [ret w1] [[E1 E2] Hv]. destruct ret; cbn [negb]; [|done].
    eapply ends_bind; [apply validateToken_ends; [done|]|].
    { intros f [-> Hf]. right. split; [done|]. injection E2 as _ E2. congruence. }
    intros [[ret d2] w2] [[E3 E4] Hn]. destruct ret; cbn [negb].
    2: { split; [done|]. split; congruence. }
    destruct (Hn eq_refl) as ((x & Hx & Ex) & o & n & ->). rewrite Ep, Hp, Et in Ex.
    assert (Hcred : credible trace from h) by (exists a, bytes, x; rewrite <-Er, <-Ev; auto 10).
    unfold quicAccept. cbn [set_odcid scid_len]. unfold cpp_assert. rewrite Es. case_bool_decide as H16.
    2: { cbn. left. split; [done|]. by exists from, h. }
    cbn [mbind result_bind]. destruct (quiche_accept Q _ _ _ _) as [conn|].
    2: { split; [done|]. split; congruence. }
    cbn [mbind result_bind]. eapply ends_bind; [apply quicConnRead_ends|]. intros [c' w'] [[A1 A2] [E5 E6]]. cbn.
    split; [|split; congruence]. apply map_Forall_insert_2; [|done]. exists h. rewrite A1. cbn. rewrite Ep, Hp.
    split; [done|]. split; [|done]. by rewrite <-Ed.
Qed.

Lemma accept_round_ends fuel l w :
  senders_ok trace → (∃ pre, trace = pre ++ rx w) → zlen (quicReadBuffer w) = kReadBuffer → table_ok l →
  rf_open (randoms w) = urandom →
  ends (listener_fails w0) (accept_round Q fuel l w)
    (λ '(l', w'), table_ok l' ∧ (∃ pre, trace = pre ++ rx w') ∧ zlen (quicReadBuffer w') = kReadBuffer ∧
       rf_open (randoms w') = urandom).
Proof using HQ.
  intros Hs (pre & Epre) Hm Hl Hu. unfold accept_round, udp_recv, AsyncRecvFrom.
  eapply (ends_bind _ _ _ (λ '(addr, rn, w1), (∃ pre, trace = pre ++ rx w1) ∧ zlen (quicReadBuffer w1) = kReadBuffer ∧
    rf_open (randoms w1) = urandom ∧
    (rn < 0 ∨ ∃ a from bytes, a ∈ trace ∧ answer a = Recv from bytes ∧ received_bytes rn w1 = ztake kReadBuffer bytes ∧
      (received_bytes rn w1 ≠ [] → addr = from)))).
  { eapply (ends_bind _ _ _ (λ '(mem', addr, rn, _, rest), zlen mem' = kReadBuffer ∧ (∃ pre, rx w = pre ++ rest) ∧
      (rn < 0 ∨ ∃ a from bytes, a ∈ rx w ∧ answer a = Recv from bytes ∧ ztake rn mem' = ztake kReadBuffer bytes ∧
        rn = zlen (ztake kReadBuffer bytes) ∧ (0 < rn → addr = from)))).
    { pose proof (recv_trace kReadBuffer (quicReadBuffer w) (rx w) zero_addr6 Hm ltac:(unfold kReadBuffer; lia)) as H.
      by destruct (retry _ _ _ _ _). }
    intros [[[[mem' addr] rn] to] rest] (H1 & (pre' & H2) & H3). cbn.
    split; [exists (pre ++ pre'); by rewrite <-app_assoc, <-H2|]. split; [done|]. split; [done|].
    destruct H3 as [?|(a & from & bytes & ? & ? & Ht & Hrn & Haddr)]; [by left|right].
    exists a, from, bytes. split_and!; [|done|done|].
    - rewrite Epre. apply elem_of_app. by right.
    - intros Hne. apply Haddr. unfold received_bytes in *. cbn in *. rewrite Ht in Hne.
      pose proof (zlen_nonneg (ztake kReadBuffer bytes)). destruct (decide (rn = 0)); [|lia].
      destruct Hne. apply zlen_zero_inv. lia. }
  intros [[addr rn] w1] (Hrx & Hm1 & Hu1 & Hor). case_bool_decide; [done|].
  destruct Hor as [?|(a & from & bytes & Hin & Ea & Er & Haddr)]; [lia|].
  assert (Hfrom : sock_ok from).
  { unfold senders_ok in Hs. rewrite Forall_forall in Hs. specialize (Hs a Hin). by rewrite Ea in Hs. }
  eapply ends_weaken; [by eapply handle_packet_ends|].
  intros [l' w'] [H1 [H2 [= H3 H4]]]. by rewrite H2, H3, H4.
Qed.
Lemma loop_ends rounds fuel l w :
  senders_ok trace → (∃ pre, trace = pre ++ rx w) → zlen (quicReadBuffer w) = kReadBuffer → table_ok l →
  rf_open (randoms w) = urandom →
  ends (listener_fails w0) (loopAndAccept Q rounds fuel l w) (λ '(l', _), table_ok l').
Proof using HQ.
  intros Hs. revert l w. induction rounds as [|rounds IH]; intros l w Hrx Hm Hl Hu; [done|]. cbn [loopAndAccept].
  eapply ends_bind; [by apply accept_round_ends|]. intros [l' w'] (? & ? & ? & ?). by apply IH.
Qed.
End life.


(** A library that reads a packet as the length of the source id, four bytes of
    destination id and the token, and accepts every connection. *)
Definition toy_quiche : Quiche unit := mk_quiche unit
  (λ p, match p with
        | [] => None
        | n :: p => Some (mk_header 1 0 (replicate (Z.to_nat (n mod 20)) 9) (ztake 4 p) (ztake 60 (zdrop 4 p)))
        end)
  (λ v, bool_decide (v = 1)) (λ _ _, Some [0]) (λ _ _ _ _ _, Some [0]) (λ _ _ _ _, Some ()) (λ _ _ _ _, Some ())
  (λ c, (c, SendDone)) (λ c _ _ _, (c, 1)) (λ _, true) (λ _, false) (λ _, []) (λ c _ _, (c, None)) (λ c _ _ _, (c, 0)).

Lemma toy_quiche_ok : quiche_ok toy_quiche.
Proof.
  split; [done|]. intros [|n p] h; [done|]. intros [= <-]. unfold kMaxConnIdLen, kMaxTokenLen, sizeof_sockaddr_storage,
    QUICHE_MAX_CONN_ID_LEN. cbn [hi_scid hi_dcid hi_token]. pose proof (Z.mod_pos_bound n 20 eq_refl). rewrite zlen_replicate, !zlen_ztake_min by lia. lia.
Qed.

Definition toy_packet (n : Z) : list Z := [n; 1; 2; 3; 4] ++ token_tag ++ sockaddr (sample_peer 1).
Definition toy_world (packet : list Z) : World :=
  mk_world [mk_attempt (Recv (sample_peer 1) packet) false] [] [] (mk_random None 3 []) (replicate (Z.to_nat kReadBuffer) 0) 0.


(** A single datagram with a made-up token that names its own address and a
    source id that is not 16 bytes long ends the listener: the assertion of
    [quicAccept] fails on what a peer sends. *)
Theorem odd_scid_aborts {C} (Q : Quiche C) fuel l w t rest from bytes h x :
  quiche_ok Q → zlen (quicReadBuffer w) = kReadBuffer → sock_ok from →
  rx w = mk_attempt (Recv from bytes) t :: rest → 0 < zlen bytes <= kReadBuffer →
  header_info Q bytes = Some h → version_is_supported Q (hi_version h) = true →
  hi_token h = token_tag ++ sockaddr from ++ x → zlen x <= kMaxConnIdLen →
  zlen (hi_scid h) ≠ kConnIdLen → conns_ l !! hi_dcid h = None →
  accept_round Q fuel l w = Fault AssertFailed.
Proof.
  intros HQ Hm Hf Hrx Hz Eh Hv Ht Hx H16 Hnone. unfold accept_round, udp_recv, AsyncRecvFrom.
  rewrite Hrx. cbn [retry answer RecvFrom]. rewrite (ztake_ge kReadBuffer) by lia.
  destruct (memcpy_prefix (quicReadBuffer w) 0 bytes (zlen bytes)) as (v & -> & _ & Hp); [lia..|].
  rewrite Z.add_0_l, ztake_0, (ztake_ge (zlen bytes) bytes) in Hp by lia. cbn [app] in Hp. cbn [mbind result_bind].
  rewrite (bool_decide_false (zlen bytes < 0)) by lia. cbn [mbind result_bind recv_result].
  rewrite (bool_decide_false (zlen bytes < 0)), bool_decide_true by lia.
  set (data := mk_data _ _ _ _ _ _ _ _ _ _ from). unfold handle_packet, received_bytes. cbn [quicReadBuffer].
  rewrite Hp, Eh. destruct (qk_fits Q HQ _ _ Eh) as (? & ? & ?).
  destruct (store_header_ok data h) as (d & -> & Hdo & Es & Ed & Et & Ev & Ep); [done..|]. cbn [mbind result_bind].
  rewrite Ed, Hnone. unfold quicNegotiate. rewrite Ev, Hv. cbn [mbind result_bind negb].
  destruct Hdo as [Hdc [Ho1 Ho2] [Ht1 Ht2] Hpe]. unfold validateToken.
  assert (Htl : token_len d ≠ 0).
  { intros E. unfold token_bytes in Et. rewrite E, ztake_0, Ht in Et. done. }
  rewrite bool_decide_false by done. unfold token_bytes in Et. rewrite Ht, <-(f_equal sockaddr Ep : _ = sockaddr from) in Et.
  rewrite Ho2, <-Ho1.
  destruct (validate_token_accepts (token d) (token_len d) (peeraddr d) (odcid d) ltac:(lia) Hpe x Et) as (o & -> & _); [lia|].
  cbn [mbind result_bind negb]. unfold quicAccept. cbn [set_odcid scid_len]. rewrite Es.
  unfold cpp_assert. by rewrite bool_decide_false by done.
Qed.

Lemma odd_scid_aborts_witness :
  accept_round toy_quiche 1 (mk_listener zero_addr6 ∅) (toy_world (toy_packet 8)) = Fault AssertFailed.
Proof.
  apply (odd_scid_aborts toy_quiche 1 (mk_listener zero_addr6 ∅) (toy_world (toy_packet 8)) false [] (sample_peer 1)
    (toy_packet 8) (mk_header 1 0 (replicate 8 9) [1; 2; 3; 4] (token_tag ++ sockaddr (sample_peer 1))) []).
  - apply toy_quiche_ok.
  - apply zlen_replicate.
  - apply sample_peer_ok.
  - reflexivity.
  - split; [reflexivity|discriminate].
  - reflexivity.
  - reflexivity.
  - reflexivity.
  - discriminate.
  - discriminate.
  - apply lookup_empty.
Defined.

(** ** Clients *)
Section client.
Context {C : Type} (Q : Quiche C).

Lemma untilEstablished_ends rounds fuel c w :
  zlen (quicReadBuffer w) = kReadBuffer →
  ends (λ _, False) (untilEstablished Q rounds fuel c w)
    (λ '(ret, c', _), same_addrs c c' ∧ (ret = true → is_established Q (conn_ c') = true)).
Proof.
  revert c w. induction rounds as [|rounds IH]; intros c w Hm; [done|]. cbn [untilEstablished]. unfold udp_recv, AsyncRecvFrom.
  pose proof (recv_trace kReadBuffer (quicReadBuffer w) (rx w) zero_addr6 Hm ltac:(unfold kReadBuffer; lia)) as Hr.
  destruct (retry _ _ _ _ _) as [[[[[mem addr] rn] to] rest]|f|]; [|done..]. destruct Hr as (Hmem & _).
  cbn [mbind result_bind recv_result]. case_bool_decide; [done|].
  destruct (conn_recv Q (conn_ c) _ addr (localaddr_ c)) as [conn rc].
  case_bool_decide; [by apply (IH (set_conn c conn))|].
  destruct (is_established Q conn) eqn:Ee; [done|]. destruct (is_closed Q conn); [done|].
  eapply ends_bind; [apply flushQuic_ends|]. intros [[ret c'] w'] [[A1 A2] [B1 [= B2 _]]]. cbn in A1, A2. destruct ret; cbn [negb]; [|done].
  eapply ends_weaken; [apply IH; by rewrite B2|]. intros [[r c2] w2] [[D1 D2] D3]. split; [split; congruence|done].
Qed.
End client.

(** A connection that [connect] hands out is established, talks to the peer that
    was asked for, and no call left its buffers, whatever the network does; the
    only failure is that /dev/urandom cannot be opened. *)
Theorem connect_established {C} (Q : Quiche C) rounds fuel raw ip localaddr peeraddr w :
  zlen (quicReadBuffer w) = kReadBuffer →
  ends (no_random (randoms w)) (connect Q rounds fuel raw ip localaddr peeraddr w)
    (λ '(r, _), ∀ c, r = Some c →
      is_established Q (conn_ c) = true ∧ peeraddr_ c = peeraddr ∧ localaddr_ c = localaddr).
Proof.
  intros Hm. unfold connect. eapply ends_bind; [apply genRandom_ends|]. intros [r w0] [_ [= Hm0 _]].
  destruct (quiche_connect Q _ _ _ _) as [conn|]; [|done].
  eapply ends_bind; [apply flushQuic_ends|]. intros [[ret c] w1] [[A1 A2] [B1 [= B2 _]]]. destruct ret; cbn [negb]; [|done].
  eapply ends_bind.
  { pose proof (untilEstablished_ends Q rounds fuel c w1 ltac:(by rewrite B2, Hm0)) as H.
    destruct (untilEstablished Q rounds fuel c w1); [exact H|done|done]. }
  intros [[ret c'] w2] [[D1 D2] D3]. destruct ret; cbn [negb ends]; [|done]. intros ? [= <-].
  cbn in A1, A2. split_and!; [auto|congruence|congruence].
Qed.

Lemma connect_established_witness :
  ends (no_random (mk_random None 3 [replicate 16 5]))
    (connect toy_quiche 2 1 (replicate 16 0) [] zero_addr6 (sample_peer 2)
      (mk_world [mk_attempt (Recv (sample_peer 2) [1]) false] [] [] (mk_random None 3 [replicate 16 5])
         (replicate (Z.to_nat kReadBuffer) 0) 0))
    (λ '(r, _), ∀ c, r = Some c →
      is_established toy_quiche (conn_ c) = true ∧ peeraddr_ c = sample_peer 2 ∧ localaddr_ c = zero_addr6).
Proof.
  apply (connect_established toy_quiche 2 1 (replicate 16 0) [] zero_addr6 (sample_peer 2)
    (mk_world [mk_attempt (Recv (sample_peer 2) [1]) false] [] [] (mk_random None 3 [replicate 16 5])
       (replicate (Z.to_nat kReadBuffer) 0) 0)).
  apply zlen_replicate.
Defined.

Section flushing.
Context {C : Type} (Q : Quiche C).

(** [quiche_conn_send] is to be called until it is done: with a number of
    packets it has left, and a socket that answers, the loop ends. *)
Lemma flushQuic_returns (pending : C → nat) fuel c w :
  (∀ q q' p, conn_send Q q = (q', SendPacket p) → (pending q' < pending q)%nat) →
  Forall (λ r, 0 <= send_wn r) (tx w) → (pending (conn_ c) <= length (tx w))%nat → (pending (conn_ c) < fuel)%nat →
  ∃ r, flushQuic Q fuel c w = Ret r.
Proof.
  intros Hp. revert c w. induction fuel as [|fuel IH]; intros c w Ht Hl Hf; [lia|]. cbn [flushQuic].
  destruct (conn_send Q (conn_ c)) as [q [|e|packet]] eqn:E; [by eexists..|]. specialize (Hp _ _ _ E).
  unfold udp_send. destruct (tx w) as [|r tx'] eqn:Etx; [cbn in Hl; lia|]. apply Forall_cons in Ht as [Hr Ht].
  cbn [AsyncSendto]. rewrite (bool_decide_false (send_wn r < 0)) by lia. cbn [mbind result_bind].
  case_bool_decide; [by eexists|]. cbn in Hl. apply IH; cbn; [done|lia|lia].
Qed.

(** On an established connection a packet is answered only when the counter
    all connections share has reached ten: until then nothing is sent. *)
Lemma replies_wait fuel buf addr c w :
  let '(q, rc) := conn_recv Q (conn_ c) buf addr (localaddr_ c) in
  0 <= rc → is_established Q q = true → is_established Q (stream_loop Q (readable Q q) q) = true → num w ≠ 10 →
  ∃ c', quicConnRead Q fuel buf addr c w = Ret (c', set_num (num w + 1) w).
Proof.
  unfold quicConnRead. destruct (conn_recv Q (conn_ c) buf addr (localaddr_ c)) as [q rc].
  intros Hrc He He' Hn. rewrite bool_decide_false by lia. rewrite He, He'. cbn [negb].
  rewrite bool_decide_false by done. cbn [mbind result_bind]. by eexists.
Qed.
End flushing.
