(* ===== verification/QuicDiscard.v ===== *)
(** * The QUIC discard program: quic/{QuicDiscard,QuicConfig}.cc

    The configurations as the settings they make, the writing client over the
    connection of Quic, and its counters, which a second thread reads while
    the client adds to them.

    The theorems: the protocol list that is announced is well formed and the
    same on both sides; the reports of the printing thread never exceed what
    was sent, and miss exactly what was sent between its two reads of the
    counter (each access taken as atomic, which the program does not ask for);
    the client goes on for ever when its connection is closed. *)

From Stdlib Require Import ZArith Lia Bool.
From stdpp Require Import base numbers relations list strings gmap.
From S2P Require Import Prelude Types InetAddress Stream Sockets Quic.

(** ** QuicConfig *)
(** The calls of a configuration with a number, or with bytes and the length
    passed. *)
Inductive setting : Type :=
  | ApplicationProtos (proto : list Z) (len : Z)
  | MaxIdleTimeout (ms : Z)
  | MaxRecvUdpPayloadSize (n : Z)
  | MaxSendUdpPayloadSize (n : Z)
  | InitialMaxData (n : Z)
  | InitialMaxStreamDataBidiLocal (n : Z)
  | InitialMaxStreamDataBidiRemote (n : Z)
  | InitialMaxStreamDataUni (n : Z)
  | InitialMaxStreamsBidi (n : Z)
  | InitialMaxStreamsUni (n : Z)
  | DisableActiveMigration (b : bool)
  | CcReno
  | CertChain (file : list Z)
  | PrivKey (file : list Z).

(** [uint8_t proto[]], with its zero. *)
Definition proto : list Z :=
  [10] ++ bytes_of "hq-interop" ++ [5] ++ bytes_of "hq-29" ++ [5] ++ bytes_of "hq-28" ++ [5] ++ bytes_of "hq-27" ++
  [8] ++ bytes_of "http/0.9" ++ [0].
Definition setClientConfig (config : list setting) : list setting :=
  config ++ [ApplicationProtos proto 38; MaxIdleTimeout 5000; MaxRecvUdpPayloadSize kMaxDatagramSize;
             MaxSendUdpPayloadSize kMaxDatagramSize; InitialMaxData 10000000; InitialMaxStreamDataBidiLocal 1000000;
             InitialMaxStreamDataUni 1000000; InitialMaxStreamsBidi 100; InitialMaxStreamsUni 100;
             DisableActiveMigration true].
Definition setServerConfig (config : list setting) : list setting :=
  config ++ [ApplicationProtos proto 38; MaxIdleTimeout 5000; MaxRecvUdpPayloadSize kMaxDatagramSize;
             MaxSendUdpPayloadSize kMaxDatagramSize; InitialMaxData 10000000; InitialMaxStreamDataBidiLocal 1000000;
             InitialMaxStreamDataBidiRemote 1000000; InitialMaxStreamsBidi 100; CcReno].
(** The outcomes are not looked at. *)
Definition setCertAndKey (cert key : list Z) (config : list setting) : list setting :=
  config ++ [CertChain cert; PrivKey key].
(** [quiche_config_new] gives a configuration or null. *)
Definition QuicConfig_new (made : bool) : result (list setting) :=
  _ ← cpp_assert made; Ret [].

(** The listener's constructor: the socket, then its configuration. *)
Definition QuicListener_ctor (bind : Z → list Z → Z) (raw : InetAddress) (port : Z) (fd : option Z) (made : bool)
    (fds : gset Z) : result (UdpStream * list setting * gset Z) :=
  '(udpstream, fds) ← UdpStream_server bind raw port fd fds;
  config ← QuicConfig_new made;
  let config := setCertAndKey (bytes_of "../quic/cert.crt") (bytes_of "../quic/cert.key") config in
  Ret (udpstream, setServerConfig config, fds).

(** The format of RFC 7301: names with a length before each. *)
Fixpoint read_protos (fuel : nat) (l : list Z) : option (list (list Z)) :=
  match fuel with
  | O => None
  | S fuel =>
      match l with
      | [] => Some []
      | n :: l =>
          if bool_decide (0 < n <= zlen l) then
            names ← read_protos fuel (zdrop n l); Some (ztake n l :: names)
          else None
      end
  end.
Definition announced (config : list setting) : option (list (list Z)) :=
  match config with
  | ApplicationProtos p len :: _ => read_protos 10 (ztake len p)
  | _ => None
  end.
(** The length passed covers the list and not its zero: five protocols, which
    client and server announce alike. *)
Lemma protos_agree :
  announced (setClientConfig []) = Some (bytes_of <$> ["hq-interop"; "hq-29"; "hq-28"; "hq-27"; "http/0.9"]) ∧
  announced (setServerConfig []) = announced (setClientConfig []).
Proof. by vm_compute. Qed.

(** ** The counters *)
(** [printing]: the difference [client_print] has computed and not yet printed;
    [reports]: what it has printed; [missed] only records what a report left
    out. *)
Record Stats : Type := mk_stats {
  g_sendpackets : Z;
  g_sendbytes : Z;
  g_sendbytes_last : Z;
  printing : option Z;
  reports : list Z;
  missed : Z;
}.
Definition Stats_new : Stats := mk_stats 0 0 0 None [] 0.
Definition count_write (wn : Z) (s : Stats) : Stats :=
  if bool_decide (wn > 0) then
    mk_stats (g_sendpackets s + 1) (g_sendbytes s + wn) (g_sendbytes_last s) (printing s) (reports s) (missed s)
  else s.
(** The first read of the counter, up to the log line. *)
Definition print_begin (s : Stats) : Stats :=
  mk_stats (g_sendpackets s) (g_sendbytes s) (g_sendbytes_last s) (Some (g_sendbytes s - g_sendbytes_last s))
    (reports s ++ [g_sendbytes s - g_sendbytes_last s]) (missed s).
(** The second read. *)
Definition print_end (s : Stats) : Stats :=
  mk_stats (g_sendpackets s) (g_sendbytes s) (g_sendbytes s) None (reports s)
    (missed s + (g_sendbytes s - g_sendbytes_last s - default 0 (printing s))).

(** The two threads. *)
Inductive stat_step (s : Stats) : Stats → Prop :=
  | st_write wn : stat_step s (count_write wn s)
  | st_begin : printing s = None → stat_step s (print_begin s)
  | st_end d : printing s = Some d → stat_step s (print_end s).

Definition total (l : list Z) : Z := foldr Z.add 0 l.
Lemma total_app l k : total (l ++ k) = total l + total k.
Proof. unfold total. induction l as [|x l IH]; cbn [app foldr] in *; lia. Qed.

Lemma total_one x : total [x] = x.
Proof. unfold total. cbn. lia. Qed.

Record stats_inv (s : Stats) : Prop := mk_stats_inv {
  sv_sum : total (reports s) + missed s + (g_sendbytes s - g_sendbytes_last s - default 0 (printing s)) = g_sendbytes s;
  sv_missed : 0 <= missed s;
  sv_between : 0 <= default 0 (printing s) <= g_sendbytes s - g_sendbytes_last s;
}.
Lemma stat_step_inv s s' : stats_inv s → stat_step s s' → stats_inv s'.
Proof.
  intros [H1 H2 H3]. destruct 1 as [wn|Hp|d Hp].
  - unfold count_write. destruct (bool_decide_reflect (wn > 0)); [|by split]. split; cbn [reports missed g_sendbytes g_sendbytes_last printing]; lia.
  - rewrite Hp in *. unfold print_begin. split; cbn [reports missed g_sendbytes g_sendbytes_last printing default] in *;
      rewrite ?total_app, ?total_one; unfold default in *; cbn [from_option] in *; unfold id in *; lia.
  - rewrite Hp in *. unfold print_end. split; cbn [reports missed g_sendbytes g_sendbytes_last printing] in *;
      rewrite ?Hp; unfold default in *; cbn [from_option] in *; unfold id in *; lia.
Qed.

(** Over every interleaving of the client with the printing thread, the reports
    add up to what was sent less what is still to be reported and what was sent
    between the two reads of a report, which no report shows; and such bytes
    can be lost. *)
Theorem reports_miss s :
  rtc stat_step Stats_new s →
  (total (reports s) = g_sendbytes_last s + default 0 (printing s) - missed s ∧
   0 <= missed s ∧ total (reports s) <= g_sendbytes s) ∧
  ∃ s', rtc stat_step s s' ∧ missed s < missed s'.
Proof.
  intros Hr. assert (H : stats_inv s).
  { assert (H0 : stats_inv Stats_new) by (by split). induction Hr as [|x y z Hs _ IH]; [done|].
    apply IH. by eapply stat_step_inv. }
  pose proof H as [H1 H2 H3]. split; [lia|].
  assert (Hd : ∃ d s1, rtc stat_step s s1 ∧ printing s1 = Some d ∧ missed s1 = missed s ∧ stats_inv s1).
  { destruct (printing s) as [d|] eqn:Ep; [exists d, s; by split_and!|].
    exists (g_sendbytes s - g_sendbytes_last s), (print_begin s).
    split_and!; [by apply rtc_once, st_begin|done|done|]. eapply stat_step_inv; [done|by apply st_begin]. }
  destruct Hd as (d & s1 & Hs1 & Hp1 & Hm1 & [K1 K2 K3]). exists (print_end (count_write 1 s1)). split.
  - etrans; [exact Hs1|]. eapply rtc_l; [apply (st_write s1 1)|]. apply rtc_once. by apply (st_end _ d).
  - rewrite Hp1 in K3. unfold print_end. cbn [missed]. change (printing (count_write 1 s1)) with (printing s1).
    change (g_sendbytes (count_write 1 s1)) with (g_sendbytes s1 + 1). change (missed (count_write 1 s1)) with (missed s1).
    change (g_sendbytes_last (count_write 1 s1)) with (g_sendbytes_last s1). rewrite Hp1.
    unfold default in *. cbn [from_option] in *. unfold id in *. lia.
Qed.

(** ** The client *)
Section client.
Context {C : Type} (Q : Quiche C).
Definition message : list Z := replicate 1024 122.
Fixpoint client_loop (rounds fuel : nat) (c : QuicConnection C) (w : World) (s : Stats)
    : result (QuicConnection C * World * Stats) :=
  match rounds with
  | O => OutOfFuel
  | S rounds =>
      '(wn, c, w) ← quicStreamWrite Q fuel 4 message false c w;
      client_loop rounds fuel c w (count_write wn s)
  end.
(** A connection that cannot be made is fatal. *)
Definition discard_quic_client (rounds fuel : nat) (raw ip : list Z) (localaddr peeraddr : InetAddress) (w : World)
    : result (QuicConnection C * World * Stats) :=
  '(conn, w) ← connect Q rounds fuel raw ip localaddr peeraddr w;
  match conn with
  | None => Fault Aborted
  | Some c => client_loop rounds fuel c w Stats_new
  end.

(** The loop has no end: whether the connection is closed or every write fails,
    it never returns. *)
Lemma client_never_returns rounds fuel c w s r : client_loop rounds fuel c w s ≠ Ret r.
Proof.
  revert c w s. induction rounds as [|rounds IH]; intros c w s; cbn [client_loop]; [done|].
  destruct (quicStreamWrite _ _ _ _ _ _ _) as [[[wn c1] w1]| |]; [|done..]. cbn [mbind result_bind]. apply IH.
Qed.
End client.
