(* ===== verification/Stun.v ===== *)
(** * STUN messages: webrtc/ice/stun_packet.{h,cc}

    The packet object with its setters, [IsStun], [Parse] and [Pack].  The
    attribute loop of [Parse] keeps its position in an [int] that is computed
    through the 16-bit [Align4], so it carries fuel; it is shown to end within
    one round per four bytes for every packet of at most 65532 bytes.  What
    [Parse] accepts is characterised by the wire format: a header followed by
    a list of padded attributes.  [Pack] writes into any [ByteQueue];
    HMAC-SHA1 is OpenSSL's and a parameter. *)

From Stdlib Require Import ZArith Lia Bool.
From stdpp Require Import base numbers list.
From S2P Require Import Prelude Types StringPiece Buffer InetAddress Crc32.

Inductive Klass : Type :=
  | REQUEST
  | INDICATION
  | SUCCESS_RESPONSE
  | ERROR_RESPONSE.
#[global] Instance Klass_eq_dec : EqDecision Klass.
Proof. solve_decision. Defined.

Definition klass_code (k : Klass) : Z :=
  match k with REQUEST => 0 | INDICATION => 1 | SUCCESS_RESPONSE => 2 | ERROR_RESPONSE => 3 end.
(** [static_cast<Class>] of the two bits the header has for it. *)
Definition klass_cast (bits : Z) : Klass :=
  match bits with 0 => REQUEST | 1 => INDICATION | 2 => SUCCESS_RESPONSE | _ => ERROR_RESPONSE end.

(** The method is an enumeration over [uint16_t] with one named value; a cast
    keeps any other 16-bit value. *)
Definition BINDING : Z := 1.

Definition USERNAME : Z := 0x0006.
Definition MESSAGE_INTEGRITY : Z := 0x0008.
Definition ERROR_CODE : Z := 0x0009.
Definition XOR_MAPPED_ADDRESS : Z := 0x0020.
Definition PRIORITY : Z := 0x0024.
Definition USE_CANDIDATE : Z := 0x0025.
Definition FINGERPRINT : Z := 0x8028.
Definition ICE_CONTROLLED : Z := 0x8029.
Definition ICE_CONTROLLING : Z := 0x802A.
Definition NOMINATION : Z := 0xC001.

Definition magic_cookie_ : list Z := [0x21; 0x12; 0xA4; 0x42].

Record StunPacket : Type := mk_stun {
  packet_ : StringPiece;
  klass_ : Klass;
  method_ : Z;
  transaction_id_ : StringPiece;
  username_ : StringPiece;
  priority_ : Z;
  ice_controlling_ : Z;
  ice_controlled_ : Z;
  has_nomination_ : bool;
  nomination_ : Z;
  has_use_candidate_ : bool;
  message_integrity_ : StringPiece;
  has_fingerprint_ : bool;
  fingerprint_ : Z;
  xor_mapped_address_ : InetAddress;
  error_code_ : Z;
  password_ : StringPiece;
}.

(** A default-initialised packet; its class and method are indeterminate. *)
Definition StunPacket_new (klass : Klass) (method : Z) : StunPacket :=
  mk_stun StringPiece_null klass method StringPiece_null StringPiece_null 0 0 0 false 0 false
    StringPiece_null false 0 InetAddress_default 0 StringPiece_null.

(** ** Setters *)
Definition set_packet (v : StringPiece) (p : StunPacket) : StunPacket :=
  mk_stun (v) (klass_ p) (method_ p) (transaction_id_ p) (username_ p) (priority_ p)
    (ice_controlling_ p) (ice_controlled_ p) (has_nomination_ p) (nomination_ p)
    (has_use_candidate_ p) (message_integrity_ p) (has_fingerprint_ p) (fingerprint_ p)
    (xor_mapped_address_ p) (error_code_ p) (password_ p).
Definition set_class (v : Klass) (p : StunPacket) : StunPacket :=
  mk_stun (packet_ p) (v) (method_ p) (transaction_id_ p) (username_ p) (priority_ p)
    (ice_controlling_ p) (ice_controlled_ p) (has_nomination_ p) (nomination_ p)
    (has_use_candidate_ p) (message_integrity_ p) (has_fingerprint_ p) (fingerprint_ p)
    (xor_mapped_address_ p) (error_code_ p) (password_ p).
Definition set_method (v : Z) (p : StunPacket) : StunPacket :=
  mk_stun (packet_ p) (klass_ p) (v) (transaction_id_ p) (username_ p) (priority_ p)
    (ice_controlling_ p) (ice_controlled_ p) (has_nomination_ p) (nomination_ p)
    (has_use_candidate_ p) (message_integrity_ p) (has_fingerprint_ p) (fingerprint_ p)
    (xor_mapped_address_ p) (error_code_ p) (password_ p).
Definition set_transaction_id (v : StringPiece) (p : StunPacket) : StunPacket :=
  mk_stun (packet_ p) (klass_ p) (method_ p) (v) (username_ p) (priority_ p)
    (ice_controlling_ p) (ice_controlled_ p) (has_nomination_ p) (nomination_ p)
    (has_use_candidate_ p) (message_integrity_ p) (has_fingerprint_ p) (fingerprint_ p)
    (xor_mapped_address_ p) (error_code_ p) (password_ p).
Definition set_username (v : StringPiece) (p : StunPacket) : StunPacket :=
  mk_stun (packet_ p) (klass_ p) (method_ p) (transaction_id_ p) (v) (priority_ p)
    (ice_controlling_ p) (ice_controlled_ p) (has_nomination_ p) (nomination_ p)
    (has_use_candidate_ p) (message_integrity_ p) (has_fingerprint_ p) (fingerprint_ p)
    (xor_mapped_address_ p) (error_code_ p) (password_ p).
Definition set_priority (v : Z) (p : StunPacket) : StunPacket :=
  mk_stun (packet_ p) (klass_ p) (method_ p) (transaction_id_ p) (username_ p) (v)
    (ice_controlling_ p) (ice_controlled_ p) (has_nomination_ p) (nomination_ p)
    (has_use_candidate_ p) (message_integrity_ p) (has_fingerprint_ p) (fingerprint_ p)
    (xor_mapped_address_ p) (error_code_ p) (password_ p).
Definition set_ice_controlling (v : Z) (p : StunPacket) : StunPacket :=
  mk_stun (packet_ p) (klass_ p) (method_ p) (transaction_id_ p) (username_ p) (priority_ p)
    (v) (ice_controlled_ p) (has_nomination_ p) (nomination_ p) (has_use_candidate_ p)
    (message_integrity_ p) (has_fingerprint_ p) (fingerprint_ p) (xor_mapped_address_ p)
    (error_code_ p) (password_ p).
Definition set_ice_controlled (v : Z) (p : StunPacket) : StunPacket :=
  mk_stun (packet_ p) (klass_ p) (method_ p) (transaction_id_ p) (username_ p) (priority_ p)
    (ice_controlling_ p) (v) (has_nomination_ p) (nomination_ p) (has_use_candidate_ p)
    (message_integrity_ p) (has_fingerprint_ p) (fingerprint_ p) (xor_mapped_address_ p)
    (error_code_ p) (password_ p).
Definition set_nomination (v : Z) (p : StunPacket) : StunPacket :=
  mk_stun (packet_ p) (klass_ p) (method_ p) (transaction_id_ p) (username_ p) (priority_ p)
    (ice_controlling_ p) (ice_controlled_ p) (has_nomination_ p) (v) (has_use_candidate_ p)
    (message_integrity_ p) (has_fingerprint_ p) (fingerprint_ p) (xor_mapped_address_ p)
    (error_code_ p) (password_ p).
Definition set_xor_mapped_address (v : InetAddress) (p : StunPacket) : StunPacket :=
  mk_stun (packet_ p) (klass_ p) (method_ p) (transaction_id_ p) (username_ p) (priority_ p)
    (ice_controlling_ p) (ice_controlled_ p) (has_nomination_ p) (nomination_ p)
    (has_use_candidate_ p) (message_integrity_ p) (has_fingerprint_ p) (fingerprint_ p) (v)
    (error_code_ p) (password_ p).
Definition set_error_code (v : Z) (p : StunPacket) : StunPacket :=
  mk_stun (packet_ p) (klass_ p) (method_ p) (transaction_id_ p) (username_ p) (priority_ p)
    (ice_controlling_ p) (ice_controlled_ p) (has_nomination_ p) (nomination_ p)
    (has_use_candidate_ p) (message_integrity_ p) (has_fingerprint_ p) (fingerprint_ p)
    (xor_mapped_address_ p) (v) (password_ p).
Definition set_message_integrity (v : StringPiece) (p : StunPacket) : StunPacket :=
  mk_stun (packet_ p) (klass_ p) (method_ p) (transaction_id_ p) (username_ p) (priority_ p)
    (ice_controlling_ p) (ice_controlled_ p) (has_nomination_ p) (nomination_ p)
    (has_use_candidate_ p) (v) (has_fingerprint_ p) (fingerprint_ p) (xor_mapped_address_ p)
    (error_code_ p) (password_ p).
Definition set_password (v : StringPiece) (p : StunPacket) : StunPacket :=
  mk_stun (packet_ p) (klass_ p) (method_ p) (transaction_id_ p) (username_ p) (priority_ p)
    (ice_controlling_ p) (ice_controlled_ p) (has_nomination_ p) (nomination_ p)
    (has_use_candidate_ p) (message_integrity_ p) (has_fingerprint_ p) (fingerprint_ p)
    (xor_mapped_address_ p) (error_code_ p) (v).
Definition set_use_candidate (p : StunPacket) : StunPacket :=
  mk_stun (packet_ p) (klass_ p) (method_ p) (transaction_id_ p) (username_ p) (priority_ p)
    (ice_controlling_ p) (ice_controlled_ p) (has_nomination_ p) (nomination_ p) (true)
    (message_integrity_ p) (has_fingerprint_ p) (fingerprint_ p) (xor_mapped_address_ p)
    (error_code_ p) (password_ p).
Definition set_has_nomination (p : StunPacket) : StunPacket :=
  mk_stun (packet_ p) (klass_ p) (method_ p) (transaction_id_ p) (username_ p) (priority_ p)
    (ice_controlling_ p) (ice_controlled_ p) (true) (nomination_ p) (has_use_candidate_ p)
    (message_integrity_ p) (has_fingerprint_ p) (fingerprint_ p) (xor_mapped_address_ p)
    (error_code_ p) (password_ p).
Definition set_has_fingerprint (p : StunPacket) : StunPacket :=
  mk_stun (packet_ p) (klass_ p) (method_ p) (transaction_id_ p) (username_ p) (priority_ p)
    (ice_controlling_ p) (ice_controlled_ p) (has_nomination_ p) (nomination_ p)
    (has_use_candidate_ p) (message_integrity_ p) (true) (fingerprint_ p)
    (xor_mapped_address_ p) (error_code_ p) (password_ p).
Definition set_fingerprint (v : Z) (p : StunPacket) : StunPacket :=
  mk_stun (packet_ p) (klass_ p) (method_ p) (transaction_id_ p) (username_ p) (priority_ p)
    (ice_controlling_ p) (ice_controlled_ p) (has_nomination_ p) (nomination_ p)
    (has_use_candidate_ p) (message_integrity_ p) (true) (v) (xor_mapped_address_ p)
    (error_code_ p) (password_ p).

Definition has_message_integrity (p : StunPacket) : bool := negb (sp_empty (message_integrity_ p)).

(** ** IsStun: the conjuncts are evaluated left to right *)
Definition IsStun (packet : StringPiece) : result bool :=
  and_then (bool_decide (sp_size packet >= 20))
    (d0 ← sp_index packet 0; and_then (bool_decide (d0 < 3))
      (d4 ← sp_index packet 4; and_then (bool_decide (d4 = 0x21))
        (d5 ← sp_index packet 5; and_then (bool_decide (d5 = 0x12))
          (d6 ← sp_index packet 6; and_then (bool_decide (d6 = 0xA4))
            (d7 ← sp_index packet 7; Ret (bool_decide (d7 = 0x42))))))).

(** ** Parse *)

(** The object and the locals of the attribute loop. *)
Record scan : Type := mk_scan {
  sc_self : StunPacket;
  sc_pos : Z;
  sc_message_integrity : bool;
  sc_fingerprint : bool;
  sc_fingerprint_attr_pos : Z;
  sc_fingerprint_value : Z;
}.

Definition with_self (f : StunPacket → StunPacket) (s : scan) : scan :=
  mk_scan (f (sc_self s)) (sc_pos s) (sc_message_integrity s) (sc_fingerprint s)
    (sc_fingerprint_attr_pos s) (sc_fingerprint_value s).
Definition with_pos (pos : Z) (s : scan) : scan :=
  mk_scan (sc_self s) pos (sc_message_integrity s) (sc_fingerprint s)
    (sc_fingerprint_attr_pos s) (sc_fingerprint_value s).

(** [inl] is [return -1], with the object as the attributes before left it. *)
Definition discard (s : scan) : result (scan + scan) := Ret (inl s).
Definition continue_with (s : scan) : result (scan + scan) := Ret (inr s).

(** The [switch]; [data] is the memory of the packet and [value_pos] the
    position of the attribute's value in it. *)
Definition attr_case (data : list Z) (value_pos attr_type attr_length : Z) (s : scan)
    : result (scan + scan) :=
  if bool_decide (attr_type = USERNAME) then
    continue_with (with_self (set_username (StringPiece_len data value_pos attr_length)) s)
  else if bool_decide (attr_type = PRIORITY) then
    if bool_decide (attr_length ≠ 4) then discard s
    else v ← byte4 data value_pos; continue_with (with_self (set_priority v) s)
  else if bool_decide (attr_type = ICE_CONTROLLING) then
    if bool_decide (attr_length ≠ 8) then discard s
    else v ← byte8 data value_pos; continue_with (with_self (set_ice_controlling v) s)
  else if bool_decide (attr_type = ICE_CONTROLLED) then
    if bool_decide (attr_length ≠ 8) then discard s
    else v ← byte8 data value_pos; continue_with (with_self (set_ice_controlled v) s)
  else if bool_decide (attr_type = USE_CANDIDATE) then
    if bool_decide (attr_length ≠ 0) then discard s
    else continue_with (with_self set_use_candidate s)
  else if bool_decide (attr_type = NOMINATION) then
    if bool_decide (attr_length ≠ 4) then discard s
    else v ← byte4 data value_pos;
         continue_with (with_self (λ p, set_nomination v (set_has_nomination p)) s)
  else if bool_decide (attr_type = MESSAGE_INTEGRITY) then
    if bool_decide (attr_length ≠ 20) then discard s
    else
      let s := mk_scan (sc_self s) (sc_pos s) true (sc_fingerprint s)
                 (sc_fingerprint_attr_pos s) (sc_fingerprint_value s) in
      continue_with (with_self (set_message_integrity (StringPiece_len data value_pos 20)) s)
  else if bool_decide (attr_type = FINGERPRINT) then
    if bool_decide (attr_length ≠ 4) then discard s
    else
      fingerprint ← byte4 data value_pos;
      let s := mk_scan (sc_self s) (sc_pos s) (sc_message_integrity s) true (sc_pos s) fingerprint in
      continue_with (with_self (set_fingerprint fingerprint) s)
  else if bool_decide (attr_type = ERROR_CODE) then
    if bool_decide (attr_length < 4) then discard s
    else
      error_class ← byte1 data (value_pos + 2);
      error_number ← byte1 data (value_pos + 3);
      continue_with (with_self (set_error_code (u16 (error_class * 100 + error_number))) s)
  else continue_with s.

(** One round of the loop, after the test [pos + 4 <= len]. *)
Definition attr_round (packet : StringPiece) (s : scan) : result (scan + scan) :=
  let data := sp_mem packet in
  let pos := ptr_ packet + sc_pos s in
  attr_type ← byte2 data pos;
  attr_length ← byte2 data (pos + 2);
  if bool_decide (sc_pos s + 4 + attr_length > sp_size packet) then discard s
  else if sc_fingerprint s then discard s
  else if sc_message_integrity s && bool_decide (attr_type ≠ FINGERPRINT) then discard s
  else
    r ← attr_case data (pos + 4) attr_type attr_length s;
    match r with
    | inl s => discard s
    | inr s => continue_with (with_pos (Align4_16 (u16 (sc_pos s + 4 + attr_length))) s)
    end.

Fixpoint attr_loop (fuel : nat) (packet : StringPiece) (s : scan) : result (scan + scan) :=
  match fuel with
  | O => OutOfFuel
  | S fuel =>
      if bool_decide (sc_pos s + 4 <= sp_size packet) then
        r ← attr_round packet s;
        match r with
        | inl s => discard s
        | inr s => attr_loop fuel packet s
        end
      else continue_with s
  end.

Definition method_of (msg_type : Z) : Z :=
  Z.lor (Z.lor (Z.land msg_type 0x000f) (Z.shiftr (Z.land msg_type 0x00e0) 1))
    (Z.shiftr (Z.land msg_type 0x3E00) 2).
Definition klass_of (d0 d1 : Z) : Klass :=
  klass_cast (Z.lor (Z.shiftl (Z.land d0 0x01) 1) (Z.shiftr (Z.land d1 0x10) 4)).

(** The object after the call, and the returned code. *)
Definition Parse (fuel : nat) (packet : StringPiece) (self : StunPacket) : result (StunPacket * Z) :=
  is_stun ← IsStun packet;
  if negb is_stun then Ret (self, -1)
  else
    let self := set_packet packet self in
    let data := sp_mem packet in
    let p := ptr_ packet in
    let len := sp_size packet in
    msg_type ← byte2 data p;
    msg_length ← byte2 data (p + 2);
    if bool_decide (msg_length ≠ len - 20) || bool_decide (Z.land msg_length 0x03 ≠ 0)
    then Ret (self, -1)
    else
      d0 ← sp_index packet 0;
      d1 ← sp_index packet 1;
      let self := set_method (method_of msg_type) self in
      let self := set_class (klass_of d0 d1) self in
      let self := set_transaction_id (StringPiece_len data (p + 8) 12) self in
      r ← attr_loop fuel packet (mk_scan self 20 false false 0 0);
      match r with
      | inl s => Ret (sc_self s, -1)
      | inr s =>
          if bool_decide (sc_pos s ≠ len) then Ret (sc_self s, -1)
          else if sc_fingerprint s then
            crc ← CRC32 (StringPiece_len data p (sc_fingerprint_attr_pos s));
            let computed_fingerprint := Z.lxor crc 0x5354554e in
            if bool_decide (sc_fingerprint_value s ≠ computed_fingerprint) then Ret (sc_self s, -1)
            else Ret (sc_self s, 0)
          else Ret (sc_self s, 0)
      end.

(** Enough for every packet whose size fits the 16-bit position. *)
Definition parse_fuel (packet : StringPiece) : nat := S (Z.to_nat (sp_size packet)).

(** ** The wire format: attributes are type, length, value and padding *)
Record attr : Type := mk_attr {
  a_type : Z;
  a_value : list Z;
  a_pad : list Z;
}.

Definition wire_attr (a : attr) : list Z :=
  be_bytes 2 (a_type a) ++ be_bytes 2 (zlen (a_value a)) ++ a_value a ++ a_pad a.
Definition wire (attrs : list attr) : list Z := mbind wire_attr attrs.

Definition attr_ok (a : attr) : Prop :=
  is_u16 (a_type a) ∧ zlen (a_value a) < 2 ^ 16 ∧
  bytes_ok (a_value a) ∧ bytes_ok (a_pad a) ∧ zlen (a_pad a) = (- zlen (a_value a)) mod 4.

(** The length each known attribute must have. *)
Definition length_legal (a : attr) : bool :=
  let t := a_type a in
  let n := zlen (a_value a) in
  if bool_decide (t = PRIORITY ∨ t = NOMINATION ∨ t = FINGERPRINT) then bool_decide (n = 4)
  else if bool_decide (t = ICE_CONTROLLING ∨ t = ICE_CONTROLLED) then bool_decide (n = 8)
  else if bool_decide (t = USE_CANDIDATE) then bool_decide (n = 0)
  else if bool_decide (t = MESSAGE_INTEGRITY) then bool_decide (n = 20)
  else if bool_decide (t = ERROR_CODE) then bool_decide (n >= 4)
  else true.

(** Nothing follows FINGERPRINT, and only FINGERPRINT follows MESSAGE-INTEGRITY. *)
Definition may_follow (mi fp : bool) (a : attr) : bool :=
  negb fp && (negb mi || bool_decide (a_type a = FINGERPRINT)).

Fixpoint legal (mi fp : bool) (attrs : list attr) : bool :=
  match attrs with
  | [] => true
  | a :: attrs =>
      may_follow mi fp a && length_legal a &&
      legal (mi || bool_decide (a_type a = MESSAGE_INTEGRITY))
            (fp || bool_decide (a_type a = FINGERPRINT)) attrs
  end.

(** The value of the last attribute of a type. *)
Fixpoint last_value (t : Z) (attrs : list attr) : option (list Z) :=
  match attrs with
  | [] => None
  | a :: attrs =>
      match last_value t attrs with
      | Some v => Some v
      | None => if bool_decide (a_type a = t) then Some (a_value a) else None
      end
  end.
Definition int_of (t : Z) (attrs : list attr) : Z := from_option be_val 0 (last_value t attrs).
Definition text_of (t : Z) (attrs : list attr) : list Z := default [] (last_value t attrs).
Definition present (t : Z) (attrs : list attr) : bool := bool_decide (is_Some (last_value t attrs)).

Definition error_of (attrs : list attr) : Z :=
  match last_value ERROR_CODE attrs with
  | Some (_ :: _ :: c :: n :: _) => c * 100 + n
  | _ => 0
  end.

(** The object holds exactly what the attributes say. *)
Record holds (p : StunPacket) (attrs : list attr) : Prop := {
  h_username : AsString (username_ p) = text_of USERNAME attrs;
  h_username_wf : sp_wf (username_ p);
  h_priority : priority_ p = int_of PRIORITY attrs;
  h_controlling : ice_controlling_ p = int_of ICE_CONTROLLING attrs;
  h_controlled : ice_controlled_ p = int_of ICE_CONTROLLED attrs;
  h_has_nomination : has_nomination_ p = present NOMINATION attrs;
  h_nomination : nomination_ p = int_of NOMINATION attrs;
  h_use_candidate : has_use_candidate_ p = present USE_CANDIDATE attrs;
  h_integrity : AsString (message_integrity_ p) = text_of MESSAGE_INTEGRITY attrs;
  h_integrity_wf : sp_wf (message_integrity_ p);
  h_has_fingerprint : has_fingerprint_ p = present FINGERPRINT attrs;
  h_fingerprint : fingerprint_ p = int_of FINGERPRINT attrs;
  h_error : error_code_ p = error_of attrs;
}.

(** The header a packet of class bits and method [msg_type] starts with. *)
Definition wire_header (msg_type body_len : Z) (tid : list Z) : list Z :=
  be_bytes 2 msg_type ++ be_bytes 2 body_len ++ magic_cookie_ ++ tid.

(** What a packet must be to be accepted. *)
Definition well_formed (l : list Z) (msg_type : Z) (tid : list Z) (attrs : list attr) : Prop :=
  is_u16 msg_type ∧ msg_type / 256 < 3 ∧ zlen tid = 12 ∧
  l = wire_header msg_type (zlen (wire attrs)) tid ++ wire attrs ∧
  Forall attr_ok attrs ∧ legal false false attrs = true ∧
  (∀ v, last_value FINGERPRINT attrs = Some v →
    be_val v = Z.lxor (crc32_spec (ztake (zlen l - 8) l)) 0x5354554e).

(** ** Attribute lists *)
Lemma last_value_app t attrs a :
  last_value t (attrs ++ [a]) =
  if bool_decide (a_type a = t) then Some (a_value a) else last_value t attrs.
Proof.
  induction attrs as [|b attrs IH]; cbn [app last_value]; [by case_bool_decide|].
  rewrite IH. case_bool_decide; [done|]. done.
Qed.

Section last_values.
Context (t : Z) (attrs : list attr) (a : attr).

Lemma text_of_app :
  text_of t (attrs ++ [a]) = if bool_decide (a_type a = t) then a_value a else text_of t attrs.
Proof. unfold text_of. rewrite last_value_app. by case_bool_decide. Qed.
Lemma int_of_app :
  int_of t (attrs ++ [a]) = if bool_decide (a_type a = t) then be_val (a_value a) else int_of t attrs.
Proof. unfold int_of. rewrite last_value_app. by case_bool_decide. Qed.
Lemma present_app :
  present t (attrs ++ [a]) = bool_decide (a_type a = t) || present t attrs.
Proof.
  unfold present. rewrite last_value_app. destruct (bool_decide (a_type a = t)); [|done].
  by apply bool_decide_true.
Qed.
Lemma error_of_app :
  error_of (attrs ++ [a]) =
  if bool_decide (a_type a = ERROR_CODE)
  then match a_value a with _ :: _ :: c :: n :: _ => c * 100 + n | _ => 0 end
  else error_of attrs.
Proof. unfold error_of. rewrite last_value_app. by case_bool_decide. Qed.
End last_values.

Lemma wire_app attrs attrs' : wire (attrs ++ attrs') = wire attrs ++ wire attrs'.
Proof. apply bind_app. Qed.
Lemma wire_singleton a : wire [a] = wire_attr a.
Proof. apply app_nil_r. Qed.

Lemma zlen_wire_attr a :
  attr_ok a → zlen (wire_attr a) = 4 + zlen (a_value a) + (- zlen (a_value a)) mod 4.
Proof. intros (_ & _ & _ & _ & Hp). unfold wire_attr. zlen_simp. rewrite Hp. lia. Qed.

Lemma wire_attr_align a : attr_ok a → zlen (wire_attr a) mod 4 = 0.
Proof. intros Ha. rewrite zlen_wire_attr by done. Z.to_euclidean_division_equations. lia. Qed.

(** The head of an encoded attribute. *)
Lemma wire_attr_head a r :
  attr_ok a →
  be_val (ztake 2 (wire_attr a ++ r)) = a_type a ∧
  be_val (ztake 2 (zdrop 2 (wire_attr a ++ r))) = zlen (a_value a) ∧
  ztake (zlen (a_value a)) (zdrop 4 (wire_attr a ++ r)) = a_value a.
Proof.
  intros (Ht & Hn & _ & _ & _). unfold wire_attr. rewrite <-!app_assoc.
  rewrite ztake_app_all by (by zlen_simp). rewrite be_val_u16 by done.
  rewrite (zdrop_app_all (be_bytes 2 (a_type a))) by (by zlen_simp).
  rewrite ztake_app_all by (by zlen_simp). rewrite be_val_u16 by (by apply zlen_u16).
  rewrite app_assoc, zdrop_app_all by (by zlen_simp). by rewrite ztake_app_all.
Qed.

Lemma wire_attr_inj a a' r r' :
  attr_ok a → attr_ok a' → wire_attr a ++ r = wire_attr a' ++ r' → a = a' ∧ r = r'.
Proof.
  intros Ha Ha' E. destruct (wire_attr_head a r Ha) as (H1 & H2 & H3).
  destruct (wire_attr_head a' r' Ha') as (H1' & H2' & H3').
  rewrite E in H1, H2, H3. destruct a as [t v p], a' as [t' v' p'].
  cbn [a_type a_value a_pad] in *.
  assert (t = t') as -> by congruence.
  assert (Hv : zlen v = zlen v') by congruence. rewrite Hv in H3.
  assert (v = v') as -> by congruence.
  unfold wire_attr in E. cbn [a_type a_value a_pad] in E. rewrite <-!app_assoc in E. do 3 apply app_inv_head in E.
  assert (zlen p = zlen p') by (destruct Ha as (_&_&_&_&Hp), Ha' as (_&_&_&_&Hp'); cbn in *; lia).
  assert (p = p') as ->.
  { rewrite <-(ztake_app_all p r (zlen p)), E, H by done. by apply ztake_app_all. }
  by apply app_inv_head in E.
Qed.

(** The state of the loop after the attributes [attrs], for an object that was
    [self0] when the loop began. *)
Record scanned (self0 : StunPacket) (s : scan) (attrs : list attr) : Prop := {
  sd_holds : holds (sc_self s) attrs;
  sd_klass : klass_ (sc_self s) = klass_ self0;
  sd_method : method_ (sc_self s) = method_ self0;
  sd_tid : transaction_id_ (sc_self s) = transaction_id_ self0;
  sd_mi : sc_message_integrity s = present MESSAGE_INTEGRITY attrs;
  sd_fp : sc_fingerprint s = present FINGERPRINT attrs;
  sd_pos : sc_pos s = 20 + zlen (wire attrs);
  sd_fp_value : present FINGERPRINT attrs = true → sc_fingerprint_value s = int_of FINGERPRINT attrs;
  sd_fp_pos : present FINGERPRINT attrs = true → sc_fingerprint_attr_pos s = sc_pos s - 8;
}.

(** Decide the comparisons of an attribute type with the known ones. *)
Ltac type_tests :=
  repeat match goal with
  | E : a_type ?a = _ |- context [a_type ?a] => rewrite E
  | H : ?P |- context [bool_decide ?P] => rewrite (bool_decide_true P H)
  | H : ¬ ?P |- context [bool_decide ?P] => rewrite (bool_decide_false P H)
  | |- context [bool_decide ?P] =>
      let b := eval vm_compute in (bool_decide P) in
      lazymatch b with
      | true => change (bool_decide P) with true
      | false => change (bool_decide P) with false
      end
  end; cbn [orb andb negb].

(** Close the goal that an object updated by one attribute [holds] one more. *)
Ltac holds_step H :=
  destruct H; constructor; cbn -[text_of int_of present error_of AsString sp_wf] in *;
  rewrite ?text_of_app, ?int_of_app, ?present_app, ?error_of_app; type_tests; try done.

(** Accept one attribute: the loop state absorbs it. *)
Ltac absorb Hh :=
  eexists; split; [reflexivity|]; split_and!; [type_tests; done|done|];
  constructor; cbn -[present int_of wire_attr]; rewrite ?present_app, ?int_of_app;
  type_tests; try done; try congruence; try lia; try (holds_step Hh).
(** Split on the length test of an attribute. *)
Ltac length_test Q :=
  match goal with |- context [if bool_decide ?P then discard _ else _] =>
    destruct (bool_decide_reflect P);
    [eexists; split; [reflexivity|apply bool_decide_false; lia]|let Hn := fresh "Hn" in assert (Hn : Q) by lia]
  end.

Lemma error_bytes a :
  attr_ok a → 4 <= zlen (a_value a) →
  ∃ b0 b1 c n rest, a_value a = b0 :: b1 :: c :: n :: rest ∧ is_u8 c ∧ is_u8 n.
Proof.
  intros (_ & _ & Hb & _) Hl. destruct (a_value a) as [|b0 [|b1 [|c [|n rest]]]];
    zlen_simp; try lia. rewrite !bytes_ok_cons in Hb. exists b0, b1, c, n, rest. tauto.
Qed.

(** A block of bytes is the big-endian encoding of its value. *)
Lemma be_bytes_of (l : list Z) i n :
  bytes_ok l → 0 <= i → i + Z.of_nat n <= zlen l →
  be_bytes n (be_val (ztake (Z.of_nat n) (zdrop i l))) = ztake (Z.of_nat n) (zdrop i l).
Proof.
  intros Hb Hi Hn. rewrite <-(be_bytes_be_val (ztake (Z.of_nat n) (zdrop i l))) at 2 by auto with baize.
  f_equal. pose proof (block_length l i (Z.of_nat n)). unfold zlen in *. lia.
Qed.

(** The 16-bit position arithmetic is exact up to 65532. *)
Lemma align_step p n :
  0 <= p → p mod 4 = 0 → 0 <= n → p + 4 + n <= 65532 →
  Align4_16 (u16 (p + 4 + n)) = p + 4 + n + (- n) mod 4.
Proof.
  intros. rewrite u16_small, Align4_16_spec by (unfold_u; lia).
  case_bool_decide; [Z.to_euclidean_division_equations; lia|].
  rewrite u16_small; unfold_u; Z.to_euclidean_division_equations; lia.
Qed.

Section packet_loop.
Context (packet : StringPiece) (Hwf : sp_wf packet) (Hok : bytes_ok (AsString packet)).
Let l := AsString packet.
Let len := sp_size packet.

(** The value of the attribute that lies at [i]. *)
Lemma value_block i a r :
  attr_ok a → 0 <= i → zdrop i l = wire_attr a ++ r → i + 4 + zlen (a_value a) <= len →
  ztake (zlen (a_value a)) (zdrop (i + 4) l) = a_value a ∧
  AsString (StringPiece_len (sp_mem packet) (ptr_ packet + i + 4) (zlen (a_value a))) = a_value a ∧
  sp_wf (StringPiece_len (sp_mem packet) (ptr_ packet + i + 4) (zlen (a_value a))).
Proof.
  intros Ha Hi E Hin. destruct (wire_attr_head a r Ha) as (_ & _ & Hv).
  rewrite <-E, zdrop_zdrop in Hv by lia. pose proof (zlen_nonneg (a_value a)).
  split_and!; [done| |].
  - unfold AsString, StringPiece_len. cbn [length_ ptr_ sp_mem].
    rewrite <-Z.add_assoc, packet_block by (done || fold len; lia). done.
  - unfold sp_wf, len, sp_size in *. cbn. destruct Hwf. lia.
Qed.

Lemma attr_case_ok self0 s attrs a r :
  scanned self0 s attrs → present FINGERPRINT attrs = false →
  attr_ok a → zdrop (sc_pos s) l = wire_attr a ++ r →
  sc_pos s + 4 + zlen (a_value a) <= len →
  ∃ res, attr_case (sp_mem packet) (ptr_ packet + sc_pos s + 4) (a_type a) (zlen (a_value a)) s = Ret res ∧
    match res with
    | inl _ => length_legal a = false
    | inr s' => length_legal a = true ∧ sc_pos s' = sc_pos s ∧
        scanned self0 (with_pos (sc_pos s + zlen (wire_attr a)) s') (attrs ++ [a])
    end.
Proof.
  intros Hs Hfp Ha E Hin. assert (Hi : 0 <= sc_pos s).
  { rewrite (sd_pos _ _ _ Hs). pose proof (zlen_nonneg (wire attrs)). lia. }
  destruct (value_block _ a r Ha Hi E Hin) as (Hv & Hpv & Hpw).
  assert (Hwl : 20 + zlen (wire (attrs ++ [a])) = sc_pos s + zlen (wire_attr a)).
  { rewrite wire_app, wire_singleton, zlen_app, (sd_pos _ _ _ Hs). lia. }
  assert (H4 : zlen (a_value a) = 4 → byte4 (sp_mem packet) (ptr_ packet + sc_pos s + 4) =
    Ret (be_val (a_value a))).
  { intros Hn. rewrite <-Z.add_assoc, packet_byte4 by (done || fold len; lia).
    fold l. rewrite Hn in Hv. by rewrite Hv. }
  assert (H8 : zlen (a_value a) = 8 → byte8 (sp_mem packet) (ptr_ packet + sc_pos s + 4) =
    Ret (be_val (a_value a))).
  { intros Hn. rewrite <-Z.add_assoc, packet_byte8 by (done || fold len; lia).
    fold l. rewrite Hn in Hv. by rewrite Hv. }
  assert (H1 : ∀ k, 0 <= k < zlen (a_value a) →
    rd (sp_mem packet) (ptr_ packet + sc_pos s + 4 + k) = rd (a_value a) k).
  { intros k Hk. rewrite <-!Z.add_assoc, rd_AsString by (done || change (length_ packet) with len; lia).
    fold l. rewrite <-Hv, rd_ztake, rd_zdrop by lia. f_equal. lia. }
  pose proof Hs as [Hh Hk Hm Ht Hmi Hfl Hpos _ _].
  unfold attr_case, length_legal.
  repeat match goal with
  | |- context [if bool_decide (a_type a = ?t) then _ else _] =>
      destruct (bool_decide_reflect (a_type a = t)); [type_tests|]
  end.
  - absorb Hh.
  - length_test (zlen (a_value a) = 4). rewrite H4 by lia. absorb Hh.
  - length_test (zlen (a_value a) = 8). rewrite H8 by lia. absorb Hh.
  - length_test (zlen (a_value a) = 8). rewrite H8 by lia. absorb Hh.
  - length_test (zlen (a_value a) = 0). absorb Hh.
  - length_test (zlen (a_value a) = 4). rewrite H4 by lia. absorb Hh.
  - length_test (zlen (a_value a) = 20). rewrite Hn in Hpv, Hpw. absorb Hh.
  - length_test (zlen (a_value a) = 4). rewrite H4 by lia. absorb Hh.
    rewrite zlen_wire_attr, Hn by done. change (Z.modulo (Z.opp 4) 4) with 0. lia.
  - length_test (zlen (a_value a) >= 4).
    destruct (error_bytes a) as (b0 & b1 & c & n' & rest & Ev & Hc & Hn'); [done|lia|].
    unfold byte1. rewrite !H1 by lia.
    replace (rd (a_value a) 2) with (Ret c) by (by rewrite Ev).
    replace (rd (a_value a) 3) with (Ret n') by (by rewrite Ev).
    cbn [mbind result_bind]. rewrite u16_small by (unfold_u; lia). absorb Hh. by rewrite Ev.
  - rewrite !bool_decide_false by tauto. absorb Hh.
Qed.
(** Any four bytes whose length field fits start an encoded attribute. *)
Lemma attr_at i :
  0 <= i → i mod 4 = 0 → len mod 4 = 0 →
  let n := be_val (ztake 2 (zdrop (i + 2) l)) in
  i + 4 <= len → i + 4 + n <= len →
  ∃ a r, attr_ok a ∧ zdrop i l = wire_attr a ++ r ∧ zlen (a_value a) = n.
Proof.
  intros Hi Him Hlm n H4 Hn. pose proof (packet_len packet Hwf) as Hl. fold l len in Hl.
  pose proof (packet_bytes packet Hok) as Hb. fold l in Hb.
  assert (Hr : ∀ j k, 0 <= j → 0 <= k → j + k <= len →
    0 <= be_val (ztake k (zdrop j l)) < 256 ^ k).
  { intros j k ???. rewrite <-(block_length l j k) at 3 by lia. apply be_val_range. auto with baize. }
  pose proof (Hr i 2 ltac:(lia) ltac:(lia) ltac:(lia)).
  pose proof (Hr (i + 2) 2 ltac:(lia) ltac:(lia) ltac:(lia)) as Hnr. fold n in Hnr.
  set (m := (- n) mod 4). assert (Hm : 0 <= m < 4) by (apply Z.mod_pos_bound; lia).
  assert (i + 4 + n + m <= len).
  { subst m. Z.to_euclidean_division_equations. lia. }
  exists (mk_attr (be_val (ztake 2 (zdrop i l))) (ztake n (zdrop (i + 4) l))
    (ztake m (zdrop (i + 4 + n) l))), (zdrop (i + 4 + n + m) l).
  assert (Hvl : zlen (ztake n (zdrop (i + 4) l)) = n) by (apply block_length; lia).
  split_and!.
  - unfold attr_ok. cbn [a_type a_value a_pad]. rewrite Hvl, block_length by lia.
    split_and!; [unfold_u; lia|lia|auto with baize..|done].
  - unfold wire_attr. cbn [a_type a_value a_pad]. rewrite Hvl. unfold n at 1.
    rewrite (be_bytes_of l i 2 Hb Hi ltac:(lia) : be_bytes 2 (be_val (ztake 2 _)) = ztake 2 _).
    rewrite (be_bytes_of l (i + 2) 2 Hb ltac:(lia) ltac:(lia) : be_bytes 2 (be_val (ztake 2 _)) = ztake 2 _).
    rewrite <-!app_assoc.
    etransitivity; [apply (zdrop_split i (i + 2)); lia|]. f_equal; [f_equal; lia|].
    etransitivity; [apply (zdrop_split (i + 2) (i + 4)); lia|]. f_equal; [f_equal; lia|].
    etransitivity; [apply (zdrop_split (i + 4) (i + 4 + n)); lia|]. f_equal; [f_equal; lia|].
    etransitivity; [apply (zdrop_split (i + 4 + n) (i + 4 + n + m)); lia|]. f_equal. f_equal. lia.
  - done.
Qed.

Lemma attr_round_ok self0 s attrs :
  scanned self0 s attrs → sc_pos s mod 4 = 0 → len mod 4 = 0 → len <= 65532 →
  sc_pos s + 4 <= len →
  ∃ res, attr_round packet s = Ret res ∧
    match res with
    | inl _ => ∀ a r, attr_ok a → zdrop (sc_pos s) l = wire_attr a ++ r →
        may_follow (sc_message_integrity s) (sc_fingerprint s) a && length_legal a = false
    | inr s' => ∃ a, attr_ok a ∧ zdrop (sc_pos s) l = wire_attr a ++ zdrop (sc_pos s') l ∧
        may_follow (sc_message_integrity s) (sc_fingerprint s) a && length_legal a = true ∧
        sc_pos s' = sc_pos s + zlen (wire_attr a) ∧
        scanned self0 s' (attrs ++ [a])
    end.
Proof.
  intros Hs Hpm Hlm Hmax Hin. pose proof (packet_len packet Hwf) as Hl. fold l len in Hl.
  assert (Hi : 0 <= sc_pos s).
  { rewrite (sd_pos _ _ _ Hs). pose proof (zlen_nonneg (wire attrs)). lia. }
  unfold attr_round. cbn zeta. rewrite (packet_byte2 packet Hwf Hok (sc_pos s)) by (fold len; lia).
  rewrite <-(Z.add_assoc _ _ 2), (packet_byte2 packet Hwf Hok) by (fold len; lia). fold l len.
  cbn [mbind result_bind].
  pose proof (attr_at (sc_pos s) Hi Hpm Hlm) as Hat. cbn zeta in Hat.
  set (t := be_val (ztake 2 (zdrop (sc_pos s) l))) in *.
  set (n := be_val (ztake 2 (zdrop (sc_pos s + 2) l))) in *.
  destruct (bool_decide_reflect (sc_pos s + 4 + n > len)) as [Hgt|Hle].
  { eexists. split; [done|]. intros a r Ha E. destruct (wire_attr_head a r Ha) as (_ & Hn & _).
    rewrite <-E, zdrop_zdrop in Hn by lia. fold n in Hn.
    pose proof (f_equal zlen E) as El. rewrite zlen_app, zlen_zdrop, zlen_wire_attr in El by (done || lia).
    pose proof (zlen_nonneg r). Z.to_euclidean_division_equations. lia. }
  destruct Hat as (a & r & Ha & E & Hn); [lia..|].
  destruct (wire_attr_head a r Ha) as (Ht & _ & _). rewrite <-E in Ht. fold t in Ht.
  assert (Huniq : ∀ a' r', attr_ok a' → zdrop (sc_pos s) l = wire_attr a' ++ r' → a' = a).
  { intros a' r' Ha' E'. rewrite E in E'. by destruct (wire_attr_inj _ _ _ _ Ha Ha' E'). }
  destruct (sc_fingerprint s) eqn:Hfp.
  { eexists. split; [done|]. intros. unfold may_follow. done. }
  destruct (sc_message_integrity s && bool_decide (t ≠ FINGERPRINT)) eqn:Hmi.
  { eexists. split; [done|]. intros a' r' Ha' E'. rewrite (Huniq a' r') by done.
    unfold may_follow. rewrite <-Ht. apply andb_true_iff in Hmi as [-> Hne%bool_decide_eq_true].
    by rewrite bool_decide_false. }
  assert (Hmay : may_follow (sc_message_integrity s) false a = true).
  { unfold may_follow. rewrite <-Ht. destruct (sc_message_integrity s); [|done].
    cbn [andb negb orb] in *. rewrite bool_decide_eq_false in Hmi.
    apply bool_decide_true. by destruct (decide (t = FINGERPRINT)). }
  rewrite <-Hn, Ht.
  destruct (attr_case_ok self0 s attrs a r) as (res & -> & Hres); [done| |done|done|lia|].
  { by rewrite <-(sd_fp _ _ _ Hs). }
  cbn [mbind result_bind]. destruct res as [s'|s'].
  { eexists. split; [done|]. intros a' r' Ha' E'. by rewrite (Huniq a' r'), Hmay. }
  destruct Hres as (Hlen & Hpos & Hsc). eexists. split; [done|]. exists a.
  rewrite Hpos. assert (Hal : Align4_16 (u16 (sc_pos s + 4 + zlen (a_value a))) =
    sc_pos s + zlen (wire_attr a)).
  { rewrite zlen_wire_attr by done. pose proof (zlen_nonneg (a_value a)).
    rewrite align_step by lia. lia. }
  rewrite Hal. split_and!; [done| |by rewrite Hmay|done|done].
  rewrite E. f_equal. cbn [sc_pos with_pos]. rewrite <-zdrop_zdrop, E by (apply zlen_nonneg || lia).
  by rewrite zdrop_app_all.
Qed.
(** The loop ends, and either it reads a legal list of attributes up to
    where fewer than four bytes remain, or there is no such list. *)
Lemma attr_loop_ok fuel self0 s attrs :
  scanned self0 s attrs → sc_pos s mod 4 = 0 → len mod 4 = 0 → len <= 65532 →
  len - sc_pos s < Z.of_nat fuel → sc_pos s <= len →
  ∃ res, attr_loop fuel packet s = Ret res ∧
    match res with
    | inl _ => ∀ more, Forall attr_ok more → zdrop (sc_pos s) l = wire more →
        legal (sc_message_integrity s) (sc_fingerprint s) more = false
    | inr s' => sc_pos s' = len ∧ ∃ more, Forall attr_ok more ∧ zdrop (sc_pos s) l = wire more ∧
        legal (sc_message_integrity s) (sc_fingerprint s) more = true ∧
        scanned self0 s' (attrs ++ more)
    end.
Proof.
  intros Hs. pose proof (packet_len packet Hwf) as Hl. fold l len in Hl.
  revert s attrs Hs. induction fuel as [|fuel IH]; intros s attrs Hs Hpm Hlm Hmax Hf Hle; [lia|].
  cbn [attr_loop]. fold len.
  assert (Hi : 0 <= sc_pos s).
  { rewrite (sd_pos _ _ _ Hs). pose proof (zlen_nonneg (wire attrs)). lia. }
  destruct (bool_decide_reflect (sc_pos s + 4 <= len)) as [Hin|Hout].
  2: { assert (sc_pos s = len) as E by (Z.to_euclidean_division_equations; lia).
       eexists. split; [done|]. split; [done|]. exists []. rewrite E, zdrop_ge, app_nil_r by lia. done. }
  destruct (attr_round_ok self0 s attrs Hs Hpm Hlm Hmax Hin) as (res & -> & Hres).
  cbn [mbind result_bind]. destruct res as [s'|s'].
  { eexists. split; [done|]. intros [|a more] Hok' E.
    { apply (f_equal zlen) in E. rewrite zlen_zdrop in E by lia. change (zlen (wire [])) with 0 in E. lia. }
    apply Forall_cons_iff in Hok' as [Ha _]. cbn [legal]. by rewrite (Hres a (wire more)). }
  destruct Hres as (a & Ha & E & Hleg & Hpos & Hs').
  pose proof (wire_attr_align a Ha) as Hal.
  assert (Hz : 4 <= zlen (wire_attr a)).
  { rewrite zlen_wire_attr by done. pose proof (zlen_nonneg (a_value a)).
    pose proof (Z.mod_pos_bound (- zlen (a_value a)) 4). lia. }
  assert (Hle' : sc_pos s' <= len).
  { apply (f_equal zlen) in E. rewrite zlen_app, zlen_zdrop in E by lia.
    pose proof (zlen_nonneg (zdrop (sc_pos s') l)). lia. }
  assert (Hflags : sc_message_integrity s' =
      sc_message_integrity s || bool_decide (a_type a = MESSAGE_INTEGRITY) ∧
    sc_fingerprint s' = sc_fingerprint s || bool_decide (a_type a = FINGERPRINT)).
  { rewrite (sd_mi _ _ _ Hs'), (sd_fp _ _ _ Hs'), (sd_mi _ _ _ Hs), (sd_fp _ _ _ Hs), !present_app.
    by rewrite !(orb_comm (bool_decide _)). }
  destruct Hflags as [Hmi Hfp].
  destruct (IH s' (attrs ++ [a]) Hs') as (res & -> & Hres);
    [Z.to_euclidean_division_equations; lia|done|done|lia|done|].
  eexists. split; [done|]. rewrite Hmi, Hfp in Hres. destruct res as [s''|s''].
  - intros [|a' more] Hok' E'.
    { apply (f_equal zlen) in E'. rewrite zlen_zdrop in E' by lia. change (zlen (wire [])) with 0 in E'. lia. }
    apply Forall_cons_iff in Hok' as [Ha' Hok'].
    rewrite E in E'. destruct (wire_attr_inj _ _ _ _ Ha Ha' E') as [<- E''].
    cbn [legal]. rewrite Hleg. by rewrite (Hres more).
  - destruct Hres as (Hend & more & Hok' & E' & Hleg' & Hs''). split; [done|].
    exists (a :: more). split_and!.
    + by constructor.
    + rewrite E, E'. done.
    + cbn [legal]. by rewrite Hleg, Hleg'.
    + by rewrite <-app_assoc in Hs''.
Qed.
End packet_loop.

(** ** The header *)
Lemma header_split (l : list Z) :
  bytes_ok l → 20 <= zlen l → ztake 4 (zdrop 4 l) = magic_cookie_ →
  l = wire_header (be_val (ztake 2 l)) (be_val (ztake 2 (zdrop 2 l))) (ztake 12 (zdrop 8 l)) ++ zdrop 20 l.
Proof.
  intros Hb Hl Hc. unfold wire_header. rewrite <-Hc.
  rewrite (be_bytes_of l 0 2 Hb ltac:(lia) ltac:(lia) : be_bytes 2 (be_val (ztake 2 l)) = ztake 2 (zdrop 0 l)).
  rewrite (be_bytes_of l 2 2 Hb ltac:(lia) ltac:(lia) : be_bytes 2 (be_val (ztake 2 _)) = ztake 2 _).
  rewrite <-!app_assoc. etransitivity; [apply (zdrop_split 0 2); lia|]. f_equal.
  etransitivity; [apply (zdrop_split 2 4); lia|]. f_equal.
  etransitivity; [apply (zdrop_split 4 8); lia|]. f_equal.
  apply (zdrop_split 8 20); lia.
Qed.

Lemma header_view ty bl tid rest l :
  is_u16 ty → is_u16 bl → zlen tid = 12 → l = wire_header ty bl tid ++ rest →
  be_val (ztake 2 l) = ty ∧ be_val (ztake 2 (zdrop 2 l)) = bl ∧ ztake 4 (zdrop 4 l) = magic_cookie_ ∧
  ztake 12 (zdrop 8 l) = tid ∧ zdrop 20 l = rest ∧ zlen l = 20 + zlen rest.
Proof.
  intros Hty Hbl Htid ->. unfold wire_header. rewrite <-!app_assoc.
  assert (Hc : zlen magic_cookie_ = 4) by done.
  rewrite ztake_app_all, be_val_u16 by (done || by zlen_simp).
  rewrite zdrop_app_all, ztake_app_all, be_val_u16 by (done || by zlen_simp).
  split_and!; [done..| | | |].
  - rewrite (app_assoc (be_bytes 2 ty)), zdrop_app_all by (by zlen_simp). by rewrite ztake_app_all.
  - rewrite (app_assoc (be_bytes 2 ty)), (app_assoc (_ ++ _) magic_cookie_), zdrop_app_all
      by (rewrite !zlen_app, Hc; by zlen_simp).
    by rewrite ztake_app_all.
  - rewrite (app_assoc (be_bytes 2 ty)), (app_assoc (_ ++ _) magic_cookie_), (app_assoc _ tid), zdrop_app_all;
      [done|]. rewrite !zlen_app, Hc, Htid. by zlen_simp.
  - rewrite !zlen_app, Hc, Htid, !zlen_be_bytes. lia.
Qed.

Lemma first_bytes (l : list Z) :
  bytes_ok l → 2 <= zlen l →
  rd l 0 = Ret (be_val (ztake 2 l) / 256) ∧ rd l 1 = Ret (be_val (ztake 2 l) mod 256).
Proof.
  intros Hb Hl. destruct l as [|b0 [|b1 l]]; [rewrite zlen_nil in Hl; lia| |].
  { rewrite zlen_cons, zlen_nil in Hl. lia. }
  change (ztake 2 (b0 :: b1 :: l)) with [b0; b1].
  change (be_val [b0; b1]) with (b1 + 256 * (b0 + 256 * 0)).
  rewrite !bytes_ok_cons in Hb. unfold_u.
  change (rd (b0 :: b1 :: l) 0) with (Ret b0). change (rd (b0 :: b1 :: l) 1) with (Ret b1).
  split; f_equal; Z.to_euclidean_division_equations; lia.
Qed.

Lemma wire_align attrs : Forall attr_ok attrs → zlen (wire attrs) mod 4 = 0.
Proof.
  induction 1 as [|a attrs Ha _ IH]; [done|]. change (wire (a :: attrs)) with (wire_attr a ++ wire attrs).
  rewrite zlen_app. pose proof (wire_attr_align a Ha). Z.to_euclidean_division_equations. lia.
Qed.

Lemma wire_inj attrs attrs' :
  Forall attr_ok attrs → Forall attr_ok attrs' → wire attrs = wire attrs' → attrs = attrs'.
Proof.
  intros Ha. revert attrs'. induction Ha as [|a attrs Ha _ IH]; intros [|a' attrs'] Ha' E.
  - done.
  - by apply Forall_cons_iff in Ha'.
  - done.
  - apply Forall_cons_iff in Ha' as [Ha' Has'].
    destruct (wire_attr_inj a a' (wire attrs) (wire attrs') Ha Ha' E) as [<- E']. by rewrite (IH attrs').
Qed.

Section parse.
Context (packet : StringPiece) (Hwf : sp_wf packet) (Hok : bytes_ok (AsString packet)).
Let l := AsString packet.
Let len := sp_size packet.

Lemma IsStun_ok :
  ∃ b, IsStun packet = Ret b ∧
    (b = true ↔ 20 <= len ∧ be_val (ztake 2 l) / 256 < 3 ∧ ztake 4 (zdrop 4 l) = magic_cookie_).
Proof.
  pose proof (packet_len packet Hwf) as Hl. fold l len in Hl.
  pose proof (packet_bytes packet Hok) as Hb. fold l in Hb.
  unfold IsStun, and_then. fold len.
  destruct (bool_decide_reflect (len >= 20)) as [H20|H20].
  2: { eexists. split; [done|]. split; [done|lia]. }
  rewrite !(packet_index packet Hwf) by (fold len; lia). fold l.
  destruct (first_bytes l Hb ltac:(lia)) as [-> _]. cbn [mbind result_bind].
  case_bool_decide; [|eexists; split; [done|]; split; [done|lia]].
  change (rd l 5) with (rd l (4 + 1)). change (rd l 6) with (rd l (4 + 2)).
  change (rd l 7) with (rd l (4 + 3)).
  rewrite (rd_block l 4 4 1), (rd_block l 4 4 2), (rd_block l 4 4 3), (rd_block_0 l 4 4) by lia.
  pose proof (block_length l 4 4 ltac:(lia) ltac:(lia) ltac:(lia)) as Hc.
  revert Hc. generalize (ztake 4 (zdrop 4 l)). intros w Hc. unfold zlen in Hc. explode w 4%nat.
  rd_eval. unfold magic_cookie_.
  repeat (case_bool_decide; [|eexists; split; [done|]; split; [done|intros (_ & _ & ?); congruence]]).
  eexists. split; [done|]. split; [|done]. intros _. subst. split_and!; [lia|done|done].
Qed.

Context (Hmax : len <= 65532).

(** What a reading of the packet as a well-formed one says about its bytes. *)
Lemma well_formed_view ty tid attrs :
  well_formed l ty tid attrs →
  be_val (ztake 2 l) = ty ∧ be_val (ztake 2 (zdrop 2 l)) = zlen (wire attrs) ∧
  ztake 4 (zdrop 4 l) = magic_cookie_ ∧ zdrop 20 l = wire attrs ∧ len = 20 + zlen (wire attrs).
Proof.
  intros (Hty & _ & Htid & E & _). pose proof (f_equal zlen E) as El.
  pose proof (packet_len packet Hwf) as Hl. fold l len in Hl.
  unfold wire_header in El. rewrite !zlen_app, !zlen_be_bytes, Htid in El.
  change (zlen magic_cookie_) with 4 in El. pose proof (zlen_nonneg (wire attrs)).
  destruct (header_view ty (zlen (wire attrs)) tid (wire attrs) l) as (?&?&?&?&?&?); [done| |done..|].
  { unfold_u. lia. }
  split_and!; done || lia.
Qed.

(** A packet has at most one reading. *)
Lemma well_formed_unique ty tid attrs ty' tid' attrs' :
  well_formed l ty tid attrs → well_formed l ty' tid' attrs' → ty = ty' ∧ tid = tid' ∧ attrs = attrs'.
Proof.
  intros Hw Hw'. pose proof (well_formed_view _ _ _ Hw) as (<- & _ & _ & E & _).
  pose proof (well_formed_view _ _ _ Hw') as (<- & _ & _ & E' & _).
  destruct Hw as (_ & _ & Ht & El & Ha & _), Hw' as (_ & _ & Ht' & El' & Ha' & _).
  rewrite E in E'. apply wire_inj in E' as <-; [|done..]. split_and!; [done| |done].
  pose proof (eq_trans (eq_sym El) El') as E2. unfold wire_header in E2. rewrite <-!app_assoc in E2.
  do 3 apply app_inv_head in E2. by apply app_inv_tail in E2.
Qed.

(** The end of [Parse]: position and fingerprint tests. *)
Lemma Parse_end_ok self0 s attrs :
  scanned self0 s attrs → sc_pos s = len → 20 <= len →
  Forall attr_ok attrs → legal false false attrs = true → zdrop 20 l = wire attrs →
  ztake 4 (zdrop 4 l) = magic_cookie_ → be_val (ztake 2 l) / 256 < 3 →
  be_val (ztake 2 (zdrop 2 l)) = len - 20 →
  ∃ r, (if sc_fingerprint s
        then crc ← CRC32 (StringPiece_len (sp_mem packet) (ptr_ packet) (sc_fingerprint_attr_pos s));
             if bool_decide (sc_fingerprint_value s ≠ Z.lxor crc 0x5354554e)
             then Ret (sc_self s, -1) else Ret (sc_self s, 0)
        else Ret (sc_self s, 0)) = Ret (sc_self s, r) ∧
    ((r = 0 ∧ well_formed l (be_val (ztake 2 l)) (ztake 12 (zdrop 8 l)) attrs) ∨
     (r = -1 ∧ ∀ ty tid attrs', ¬ well_formed l ty tid attrs')).
Proof.
  intros Hs Hpos H20 Ha Hleg Hrest Hc Hty Hbl.
  pose proof (packet_len packet Hwf) as Hl. fold l len in Hl.
  pose proof (packet_bytes packet Hok) as Hb. fold l in Hb.
  assert (Hwr : zlen (wire attrs) = len - 20) by (rewrite <-Hrest, zlen_zdrop; lia).
  assert (Hwell : (∀ v, last_value FINGERPRINT attrs = Some v →
      be_val v = Z.lxor (crc32_spec (ztake (zlen l - 8) l)) 0x5354554e) →
    well_formed l (be_val (ztake 2 l)) (ztake 12 (zdrop 8 l)) attrs).
  { intros Hfp. pose proof (be_val_range (ztake 2 (zdrop 0 l)) ltac:(auto with baize)) as Hr.
    rewrite block_length, zdrop_0 in Hr by lia.
    split_and!; [unfold_u; lia|done|apply block_length; lia| |done..].
    rewrite <-Hrest at 2. rewrite Hwr, <-Hbl. apply header_split; done || lia. }
  rewrite (sd_fp _ _ _ Hs). destruct (present FINGERPRINT attrs) eqn:Hp.
  2: { eexists. split; [done|]. left. split; [done|]. apply Hwell. intros v Hv.
       unfold present in Hp. rewrite Hv in Hp. by rewrite bool_decide_true in Hp. }
  rewrite (sd_fp_pos _ _ _ Hs Hp), (sd_fp_value _ _ _ Hs Hp), Hpos.
  assert (Htxt : AsString (StringPiece_len (sp_mem packet) (ptr_ packet) (len - 8)) = ztake (zlen l - 8) l).
  { pose proof (packet_block packet Hwf 0 (len - 8) ltac:(lia)) as Hbk.
    rewrite Z.add_0_r in Hbk. rewrite Hl. apply Hbk; fold len; lia. }
  rewrite CRC32_ok; [|unfold sp_wf in *; cbn [ptr_ length_ sp_mem StringPiece_len]; unfold len, sp_size in *; lia|rewrite Htxt; auto with baize]. cbn [mbind result_bind]. rewrite Htxt.
  unfold present in Hp. apply bool_decide_eq_true in Hp as [v Hv].
  unfold int_of. rewrite Hv. cbn [from_option].
  case_bool_decide as Hcmp; eexists; (split; [done|]).
  - right. split; [done|]. intros ty tid attrs' Hw.
    destruct (well_formed_view ty tid attrs' Hw) as (_ & _ & _ & E & _).
    destruct Hw as (_ & _ & _ & _ & Ha' & _ & Hfp'). rewrite Hrest in E.
    rewrite <-(wire_inj attrs attrs') in Hfp' by done. by rewrite <-(Hfp' v Hv) in Hcmp.
  - left. split; [done|]. apply Hwell. rewrite Hv. intros v' [= <-].
    by destruct (decide (be_val v = Z.lxor (crc32_spec (ztake (zlen l - 8) l)) 0x5354554e)).
Qed.

Lemma Parse_ok klass method :
  ∃ self r, Parse (parse_fuel packet) packet (StunPacket_new klass method) = Ret (self, r) ∧
    ((r = 0 ∧ ∃ ty tid attrs, well_formed l ty tid attrs ∧ holds self attrs ∧
        method_ self = method_of ty ∧ klass_ self = klass_of (ty / 256) (ty mod 256) ∧
        AsString (transaction_id_ self) = tid ∧ sp_wf (transaction_id_ self)) ∨
     (r = -1 ∧ ∀ ty tid attrs, ¬ well_formed l ty tid attrs)).
Proof.
  pose proof (packet_len packet Hwf) as Hl. fold l len in Hl.
  pose proof (packet_bytes packet Hok) as Hb. fold l in Hb.
  assert (Hno : ∀ self, (∀ ty tid attrs, ¬ well_formed l ty tid attrs) →
    ∃ self' r', Ret (self, -1) = Ret (self', r') ∧
    ((r' = 0 ∧ ∃ ty tid attrs, well_formed l ty tid attrs ∧ holds self' attrs ∧
        method_ self' = method_of ty ∧ klass_ self' = klass_of (ty / 256) (ty mod 256) ∧
        AsString (transaction_id_ self') = tid ∧ sp_wf (transaction_id_ self')) ∨
     (r' = -1 ∧ ∀ ty tid attrs, ¬ well_formed l ty tid attrs))) by (intros self H; exists self, (-1); auto).
  destruct IsStun_ok as (is_stun & HI & Hstun). unfold Parse. rewrite HI. cbn [mbind result_bind].
  destruct is_stun; cbn [negb].
  2: { apply Hno. intros ty tid attrs Hw.
       destruct (well_formed_view ty tid attrs Hw) as (Hty & _ & Hc & _ & Hlen).
       pose proof (zlen_nonneg (wire attrs)). destruct Hw as (_ & Hlt & _).
       enough (false = true) by done. apply Hstun. split_and!; [lia|congruence|done]. }
  destruct (proj1 Hstun eq_refl) as (H20 & Hty & Hc).
  pose proof (packet_byte2 packet Hwf Hok 0) as Hb0. rewrite Z.add_0_r in Hb0. cbn zeta.
  rewrite Hb0, (packet_byte2 packet Hwf Hok 2) by (fold len; lia).
  cbn [mbind result_bind]. fold l len. rewrite zdrop_0, land_3.
  destruct (bool_decide_reflect (be_val (ztake 2 (zdrop 2 l)) ≠ len - 20)) as [Hbl|Hbl]; cbn [orb].
  { apply Hno. intros ty' tid attrs (_ & ? & _ & _ & ?)%well_formed_view. lia. }
  apply dec_stable in Hbl. rewrite Hbl.
  destruct (bool_decide_reflect ((len - 20) mod 4 ≠ 0)) as [Hm|Hm].
  { apply Hno. intros ty' tid attrs Hw. pose proof (well_formed_view _ _ _ Hw) as (_ & _ & _ & _ & Hlen).
    destruct Hw as (_ & _ & _ & _ & Ha%wire_align & _). apply Hm. by replace (len - 20) with (zlen (wire attrs)) by lia. }
  rewrite !(packet_index packet Hwf) by (fold len; lia). fold l.
  destruct (first_bytes l Hb ltac:(lia)) as [-> ->]. cbn [mbind result_bind].
  set (self := set_transaction_id _ _).
  assert (Hs0 : scanned self (mk_scan self 20 false false 0 0) []).
  { constructor; try done; constructor; done. }
  destruct (attr_loop_ok packet Hwf Hok (parse_fuel packet) self _ [] Hs0) as (res & -> & Hres);
    cbn [sc_pos]; fold len; [done| |done|unfold parse_fuel; fold len; lia|lia|].
  { Z.to_euclidean_division_equations; lia. }
  cbn [mbind result_bind sc_pos sc_message_integrity sc_fingerprint] in *. fold l len in Hres.
  destruct res as [s|s].
  { apply Hno. intros ty' tid attrs Hw. pose proof (well_formed_view _ _ _ Hw) as (_ & _ & _ & E & _).
    destruct Hw as (_ & _ & _ & _ & Ha & Hleg & _). by rewrite (Hres attrs Ha E) in Hleg. }
  destruct Hres as (Hpos & attrs & Ha & E & Hleg & Hs). rewrite bool_decide_false by lia.
  destruct (Parse_end_ok self s attrs) as (r & -> & Hr); [done..|].
  exists (sc_self s), r. split; [done|]. destruct Hr as [[-> Hw]|Hr]; [left|by right].
  split; [done|]. do 3 eexists. split; [exact Hw|]. destruct Hs as [Hh Hk Hme Ht _ _ _ _ _].
  split_and!; [done..| |]; rewrite Ht; [apply (packet_block packet Hwf 8 12); fold len; lia|].
  unfold sp_wf, self. cbn. destruct Hwf. unfold len, sp_size in *. lia.
Qed.
End parse.

(** C1: on every packet of at most 65532 bytes [Parse] returns, without a
    read outside the packet, and it accepts exactly the well-formed ones: a
    STUN header whose length field matches, followed by padded attributes of
    legal length and order whose fingerprint, if any, is the CRC-32 of what
    precedes it.  The object then holds the values of those attributes. *)
Theorem Parse_correct packet klass method :
  sp_wf packet → bytes_ok (AsString packet) → sp_size packet <= 65532 →
  ∃ self r, Parse (parse_fuel packet) packet (StunPacket_new klass method) = Ret (self, r) ∧
    ((r = 0 ∧ ∃ ty tid attrs, well_formed (AsString packet) ty tid attrs ∧ holds self attrs ∧
        method_ self = method_of ty ∧ klass_ self = klass_of (ty / 256) (ty mod 256) ∧
        AsString (transaction_id_ self) = tid ∧ sp_wf (transaction_id_ self)) ∨
     (r = -1 ∧ ∀ ty tid attrs, ¬ well_formed (AsString packet) ty tid attrs)).
Proof. intros. by apply Parse_ok. Qed.

Definition sample_request : list Z :=
  [0; 1; 0; 8; 33; 18; 164; 66; 1; 2; 3; 4; 5; 6; 7; 8; 9; 10; 11; 12; 0; 36; 0; 4; 0; 0; 1; 2].

Lemma Parse_correct_witness :
  ∃ self, Parse 29 (StringPiece_string sample_request) (StunPacket_new ERROR_RESPONSE 7) = Ret (self, 0) ∧
    priority_ self = 258.
Proof.
  destruct (Parse_correct (StringPiece_string sample_request) ERROR_RESPONSE 7 (sp_wf_string _))
    as (self & r & H & _).
  - bytes_tac.
  - vm_compute. discriminate.
  - exists self. vm_compute in H. injection H as <- <-. split; reflexivity.
Defined.

(** ** What the fingerprint protects *)

(** A fingerprinted packet ends in the eight bytes of its fingerprint. *)
Lemma legal_fingerprint_last mi attrs :
  legal mi false attrs = true → present FINGERPRINT attrs = true →
  ∃ front a, attrs = front ++ [a] ∧ a_type a = FINGERPRINT ∧ zlen (a_value a) = 4.
Proof.
  revert mi. induction attrs as [|a attrs IH]; intros mi Hl Hp; [done|].
  cbn [legal] in Hl. apply andb_true_iff in Hl as [[_ Hlen]%andb_true_iff Hl].
  cbn [orb] in Hl. destruct (bool_decide_reflect (a_type a = FINGERPRINT)) as [E|E].
  - destruct attrs as [|b attrs]; [|by destruct mi]. exists [], a. split_and!; [done..|].
    unfold length_legal in Hlen. rewrite E in Hlen. by apply bool_decide_eq_true in Hlen.
  - destruct (IH _ Hl) as (front & b & -> & Ht & Hz).
    + unfold present in *. cbn [last_value] in Hp. rewrite (bool_decide_false (a_type a = _)) in Hp by done.
      by destruct (last_value FINGERPRINT attrs).
    + by exists (a :: front), b.
Qed.

Lemma fingerprint_tail l ty tid attrs :
  well_formed l ty tid attrs → present FINGERPRINT attrs = true →
  l = ztake (zlen l - 8) l ++ be_bytes 2 FINGERPRINT ++ be_bytes 2 4 ++
      be_bytes 4 (Z.lxor (crc32_spec (ztake (zlen l - 8) l)) 0x5354554e) ∧ 8 <= zlen l.
Proof.
  intros (_ & _ & _ & E & Ha & Hl & Hfp) Hpr.
  destruct (legal_fingerprint_last _ _ Hl Hpr) as (front & a & -> & Ht & Hz).
  apply Forall_app in Ha as [_ Ha]. rewrite Forall_singleton in Ha.
  pose proof (zlen_wire_attr a Ha) as Hwz. rewrite Hz in Hwz. change (Z.modulo (Z.opp 4) 4) with 0 in Hwz.
  assert (El : ∃ pre, l = pre ++ wire_attr a).
  { rewrite wire_app, wire_singleton, app_assoc in E. by eexists. }
  destruct El as [pre El]. assert (Hpre : ztake (zlen l - 8) l = pre).
  { rewrite El at 2. apply ztake_app_all. rewrite El, zlen_app. lia. }
  rewrite Hpre. rewrite last_value_app, Ht, bool_decide_true in Hfp by done.
  pose proof (Hfp _ eq_refl) as Hv. rewrite Hpre in Hv. rewrite <-Hv.
  assert (be_bytes 4 (be_val (a_value a)) = a_value a) as ->.
  { destruct Ha as (_ & _ & Hb & _). rewrite <-(be_bytes_be_val (a_value a)) at 2 by done.
    f_equal. unfold zlen in Hz. lia. }
  split; [|rewrite El, zlen_app; pose proof (zlen_nonneg pre); lia].
  rewrite El at 1. f_equal. unfold wire_attr. rewrite Ht, Hz.
  destruct Ha as (_ & _ & _ & _ & Hpad). rewrite Hz in Hpad. apply zlen_zero_inv in Hpad as ->.
  by rewrite app_nil_r.
Qed.

Definition fingerprint_suffix (body : list Z) : list Z :=
  be_bytes 2 FINGERPRINT ++ be_bytes 2 4 ++ be_bytes 4 (Z.lxor (crc32_spec body) 0x5354554e).

Lemma Parse_fingerprint l klass method self r :
  bytes_ok l → zlen l <= 65532 →
  Parse (parse_fuel (StringPiece_string l)) (StringPiece_string l) (StunPacket_new klass method) =
    Ret (self, r) →
  (r = 0 ∨ r = -1) ∧
  (r = 0 → has_fingerprint_ self = true →
   8 <= zlen l ∧ l = ztake (zlen l - 8) l ++ fingerprint_suffix (ztake (zlen l - 8) l)).
Proof.
  intros Hok Hlen Hrun.
  destruct (Parse_ok (StringPiece_string l) (sp_wf_string l)) with (klass := klass) (method := method)
    as (s' & r' & Hrun' & Hr); [by rewrite AsString_string|done|].
  rewrite Hrun in Hrun'. injection Hrun' as <- <-. rewrite AsString_string in Hr.
  destruct Hr as [(-> & ty & tid & attrs & Hw & Hh & _)|[-> _]]; [|split; [by right|done]].
  split; [by left|]. intros _ Hfp. rewrite (h_has_fingerprint _ _ Hh) in Hfp.
  destruct (fingerprint_tail l ty tid attrs Hw Hfp) as [E H8]. split; [done|exact E].
Qed.

Lemma fingerprint_suffix_inj x y :
  bytes_ok x → bytes_ok y → fingerprint_suffix x = fingerprint_suffix y → crc32_spec x = crc32_spec y.
Proof.
  intros Hx Hy E. unfold fingerprint_suffix in E. do 2 apply app_inv_head in E.
  apply (f_equal be_val) in E. rewrite !be_val_be_bytes in E. change (256 ^ Z.of_nat 4) with (2 ^ 32) in E.
  assert (Hr : ∀ l, bytes_ok l → is_u32 (Z.lxor (crc32_spec l) 0x5354554e)).
  { intros l Hl. apply lxor_u32; [by apply crc32_spec_u32|]. unfold_u. lia. }
  rewrite !Z.mod_small in E by (apply Hr; done).
  rewrite !(Z.lxor_comm _ 0x5354554e) in E. by apply lxor_inj_l in E.
Qed.

(** Two texts that carry their own fingerprint cannot differ in one byte. *)
Lemma fingerprinted_differ pre b b' post n :
  bytes_ok (pre ++ b :: post) → bytes_ok (pre ++ b' :: post) → 0 <= n <= zlen (pre ++ b :: post) →
  pre ++ b :: post = ztake n (pre ++ b :: post) ++ fingerprint_suffix (ztake n (pre ++ b :: post)) →
  pre ++ b' :: post = ztake n (pre ++ b' :: post) ++ fingerprint_suffix (ztake n (pre ++ b' :: post)) →
  b = b'.
Proof.
  intros Hok Hok' Hn E E'. destruct (decide (n <= zlen pre)) as [Hle|Hgt].
  - rewrite !ztake_app_le in E, E' by done. rewrite <-E' in E.
    apply app_inv_head in E. by injection E.
  - assert (Ht : ∀ x, ztake n (pre ++ x :: post) = pre ++ x :: ztake (n - zlen pre - 1) post).
    { intros x. rewrite (ztake_split (zlen pre)) by (pose proof (zlen_nonneg pre); lia).
      rewrite ztake_app_all, zdrop_app_all by done. f_equal. unfold ztake.
      by replace (Z.to_nat (n - zlen pre)) with (S (Z.to_nat (n - zlen pre - 1))) by lia. }
    rewrite !Ht in E, E'. rewrite <-app_assoc in E, E'. apply app_inv_head in E, E'.
    injection E as E. injection E' as E'.
    pose proof (eq_trans (eq_sym E) E') as E2. apply app_inv_head in E2.
    rewrite !bytes_ok_app, !bytes_ok_cons in Hok, Hok'. destruct Hok as (? & ? & ?), Hok' as (_ & ? & _).
    apply fingerprint_suffix_inj in E2; [|rewrite bytes_ok_app, bytes_ok_cons; auto with baize..].
    apply crc32_spec_byte in E2; auto with baize.
Qed.

(** No corruption of one byte goes unnoticed: if a packet with a valid
    fingerprint is changed in exactly one byte, [Parse] rejects the result or
    it is a packet that no longer carries a fingerprint. *)
Theorem fingerprint_detects_corruption pre b b' post klass method self self' r' :
  bytes_ok (pre ++ b :: post) → bytes_ok (pre ++ b' :: post) → b ≠ b' →
  zlen (pre ++ b :: post) <= 65532 →
  let packet := StringPiece_string (pre ++ b :: post) in
  let packet' := StringPiece_string (pre ++ b' :: post) in
  Parse (parse_fuel packet) packet (StunPacket_new klass method) = Ret (self, 0) →
  has_fingerprint_ self = true →
  Parse (parse_fuel packet') packet' (StunPacket_new klass method) = Ret (self', r') →
  r' = -1 ∨ has_fingerprint_ self' = false.
Proof.
  intros Hok Hok' Hne Hlen packet packet' Hparse Hfp Hparse'.
  assert (Hz : zlen (pre ++ b' :: post) = zlen (pre ++ b :: post)) by (by rewrite !zlen_app, !zlen_cons).
  destruct (Parse_fingerprint _ _ _ _ _ Hok Hlen Hparse) as [_ Ht].
  destruct (Parse_fingerprint _ _ _ _ _ Hok' ltac:(lia) Hparse') as [[->| ->] Ht']; [right|by left].
  destruct (has_fingerprint_ self') eqn:Hfp'; [exfalso|done].
  destruct (Ht eq_refl Hfp) as [H8 E], (Ht' eq_refl eq_refl) as [_ E']. rewrite Hz in E'.
  apply Hne. eapply fingerprinted_differ; [done|done| |exact E|exact E']. lia.
Qed.

Definition sample_fingerprinted : list Z :=
  [0; 1; 0; 8; 33; 18; 164; 66; 1; 2; 3; 4; 5; 6; 7; 8; 9; 10; 11; 12; 128; 40; 0; 4; 91; 32; 249; 204].

Lemma fingerprint_detects_corruption_witness :
  ∃ self' r', Parse 29 (StringPiece_string (ztake 8 sample_fingerprinted ++ 77 :: zdrop 9 sample_fingerprinted))
      (StunPacket_new REQUEST 0) = Ret (self', r') ∧ (r' = -1 ∨ has_fingerprint_ self' = false).
Proof.
  eexists _, _. split; [vm_compute; reflexivity|].
  refine (fingerprint_detects_corruption (ztake 8 sample_fingerprinted) 1 77 (zdrop 9 sample_fingerprinted)
    REQUEST 0 _ _ _ _ _ _ _ _ _ _).
  - bytes_tac.
  - bytes_tac.
  - discriminate.
  - vm_compute. discriminate.
  - vm_compute. reflexivity.
  - reflexivity.
  - vm_compute. reflexivity.
Defined.
