(* ===== verification/StunPack.v ===== *)
(** * Building STUN messages: [StunPacket::Pack] of webrtc/ice/stun_packet.cc

    [Pack] against the [ByteQueue] interface, the round trip through [Parse],
    and what a fingerprint protects.  [crypto::HmacSha1] is a call into
    OpenSSL: a parameter that returns twenty bytes. *)

From Stdlib Require Import ZArith Lia Bool.
From stdpp Require Import base numbers list.
From S2P Require Import Prelude Types StringPiece Buffer InetAddress Crc32 Stun.

(** ** What [Pack] decides before it writes *)
Definition wants_xor_mapped_address (p : StunPacket) : bool :=
  bool_decide (family (xor_mapped_address_ p) ≠ 0) && bool_decide (method_ p = BINDING) &&
  bool_decide (klass_ p = SUCCESS_RESPONSE).
Definition add_xor_mapped_address (p : StunPacket) : bool :=
  wants_xor_mapped_address p &&
  (bool_decide (family (xor_mapped_address_ p) = AF_INET) ||
   bool_decide (family (xor_mapped_address_ p) = AF_INET6)).
Definition add_error_code (p : StunPacket) : bool :=
  bool_decide (error_code_ p ≠ 0) && bool_decide (klass_ p = ERROR_RESPONSE).
Definition add_message_integrity (p : StunPacket) : bool :=
  bool_decide (klass_ p ≠ ERROR_RESPONSE) && negb (sp_empty (password_ p)).

Definition username_padded_len (p : StunPacket) : Z :=
  if negb (sp_empty (username_ p)) then Align4_16 (u16 (sp_size (username_ p))) else 0.
Definition xor_mapped_address_padded_len (p : StunPacket) : Z :=
  if wants_xor_mapped_address p then
    if bool_decide (family (xor_mapped_address_ p) = AF_INET) then 8
    else if bool_decide (family (xor_mapped_address_ p) = AF_INET6) then 20 else 0
  else 0.

(** The announced size of the whole packet. *)
Definition pack_size (p : StunPacket) : Z :=
  let size := 20 in
  let size := if negb (sp_empty (username_ p)) then size + (4 + username_padded_len p) else size in
  let size := if bool_decide (priority_ p ≠ 0) then size + (4 + 4) else size in
  let size := if bool_decide (ice_controlling_ p ≠ 0) then size + (4 + 8) else size in
  let size := if bool_decide (ice_controlled_ p ≠ 0) then size + (4 + 8) else size in
  let size := if has_use_candidate_ p then size + 4 else size in
  let size := if wants_xor_mapped_address p then
                if bool_decide (family (xor_mapped_address_ p) = AF_INET) then size + (4 + 8)
                else if bool_decide (family (xor_mapped_address_ p) = AF_INET6) then size + (4 + 20)
                else size
              else size in
  let size := if add_error_code p then size + (4 + 4) else size in
  let size := if add_message_integrity p then size + (4 + 20) else size in
  size + (4 + 4).

Definition type_field (p : StunPacket) : Z :=
  let t := u16 (Z.shiftl (Z.land (method_ p) 0x0f80) 2) in
  let t := Z.lor t (u16 (Z.shiftl (Z.land (method_ p) 0x0070) 1)) in
  let t := Z.lor t (Z.land (method_ p) 0x000f) in
  let t := Z.lor t (u16 (Z.shiftl (Z.land (klass_code (klass_ p)) 0x02) 7)) in
  Z.lor t (u16 (Z.shiftl (Z.land (klass_code (klass_ p)) 0x01) 4)).

(** The XOR-MAPPED-ADDRESS value: the array is filled, then each byte of port
    and address is xored with the cookie and, for IPv6, the transaction id. *)
Definition xor_value4 (a : InetAddress) : list Z :=
  [0; 0x01] ++ zip_with Z.lxor (sin_port_mem a) (ztake 2 magic_cookie_) ++
  zip_with Z.lxor (sin_addr_mem a) magic_cookie_.

Definition xor_value6 (a : InetAddress) (tid : StringPiece) : result (list Z) :=
  transaction_id ← mapM (sp_index tid) [0; 1; 2; 3; 4; 5; 6; 7; 8; 9; 10; 11];
  Ret ([0; 0x02] ++ zip_with Z.lxor (sin_port_mem a) (ztake 2 magic_cookie_) ++
       zip_with Z.lxor (sin6_addr_mem a) (magic_cookie_ ++ transaction_id)).

Section Pack.
Context {Q : Type} `{ByteQueue Q} (hmac_sha1 : list Z → list Z → list Z).
Implicit Types (buf : Q) (p : StunPacket).

Definition put8 buf (v : Z) : result Q := bq_u8 buf v.
Definition put16 buf (v : Z) : result Q := bq_u16 buf (HostToNetwork16 v).
Definition put32 buf (v : Z) : result Q := bq_u32 buf (HostToNetwork32 v).
Definition put64 buf (v : Z) : result Q := bq_u64 buf (HostToNetwork64 v).

Definition HmacSha1 (key data : StringPiece) : StringPiece :=
  StringPiece_string (hmac_sha1 (AsString key) (AsString data)).

Definition pack_header buf p : result Q :=
  buf ← put16 buf (type_field p);
  buf ← put16 buf (u16 (pack_size p - 20));
  buf ← bq_append buf magic_cookie_;
  bq_append buf (AsString (transaction_id_ p)).

Definition pack_username buf p : result Q :=
  if bool_decide (username_padded_len p ≠ 0) then
    buf ← put16 buf USERNAME;
    buf ← put16 buf (u16 (sp_size (username_ p)));
    bq_append buf (AsString (username_ p))
  else Ret buf.

Definition pack_priority buf p : result Q :=
  if bool_decide (priority_ p ≠ 0) then
    buf ← put16 buf PRIORITY;
    buf ← put16 buf 4;
    put32 buf (priority_ p)
  else Ret buf.

Definition pack_ice_controlling buf p : result Q :=
  if bool_decide (ice_controlling_ p ≠ 0) then
    buf ← put16 buf ICE_CONTROLLING;
    buf ← put16 buf 8;
    put64 buf (ice_controlling_ p)
  else Ret buf.

Definition pack_ice_controlled buf p : result Q :=
  if bool_decide (ice_controlled_ p ≠ 0) then
    buf ← put16 buf ICE_CONTROLLED;
    buf ← put16 buf 8;
    put64 buf (ice_controlled_ p)
  else Ret buf.

Definition pack_use_candidate buf p : result Q :=
  if has_use_candidate_ p then
    buf ← put16 buf USE_CANDIDATE;
    put16 buf 0
  else Ret buf.

Definition pack_xor_mapped_address buf p : result Q :=
  if add_xor_mapped_address p then
    buf ← put16 buf XOR_MAPPED_ADDRESS;
    buf ← put16 buf (xor_mapped_address_padded_len p);
    if bool_decide (family (xor_mapped_address_ p) = AF_INET) then
      bq_append buf (xor_value4 (xor_mapped_address_ p))
    else if bool_decide (family (xor_mapped_address_ p) = AF_INET6) then
      attr_value ← xor_value6 (xor_mapped_address_ p) (transaction_id_ p);
      bq_append buf attr_value
    else Ret buf
  else Ret buf.

Definition code_class p : Z := u8 (error_code_ p / 100).
Definition code_number p : Z := u8 (error_code_ p - code_class p * 100).

Definition pack_error_code buf p : result Q :=
  if add_error_code p then
    buf ← put16 buf ERROR_CODE;
    buf ← put16 buf 4;
    buf ← put16 buf 0;
    buf ← put8 buf (code_class p);
    put8 buf (code_number p)
  else Ret buf.

(** The length field ignores the fingerprint while the HMAC is computed. *)
Definition pack_message_integrity buf p : result Q :=
  if add_message_integrity p then
    buf ← bq_patch2 buf 2 (u16 (pack_size p - 20 - 8));
    let computed_message_integrity := HmacSha1 (password_ p) (bq_slice buf) in
    buf ← put16 buf MESSAGE_INTEGRITY;
    buf ← put16 buf 20;
    buf ← bq_append buf (AsString computed_message_integrity);
    bq_patch2 buf 2 (u16 (pack_size p - 20))
  else Ret buf.

Definition pack_fingerprint buf p : result Q :=
  crc ← CRC32 (bq_slice buf);
  let computed_fingerprint := Z.lxor crc 0x5354554e in
  buf ← put16 buf FINGERPRINT;
  buf ← put16 buf 4;
  put32 buf computed_fingerprint.

(** A size that differs from the announced one is only logged. *)
Definition Pack buf p : result (Q * StunPacket) :=
  buf ← pack_header buf p;
  buf ← pack_username buf p;
  buf ← pack_priority buf p;
  buf ← pack_ice_controlling buf p;
  buf ← pack_ice_controlled buf p;
  buf ← pack_use_candidate buf p;
  buf ← pack_xor_mapped_address buf p;
  buf ← pack_error_code buf p;
  buf ← pack_message_integrity buf p;
  buf ← pack_fingerprint buf p;
  Ret (buf, set_has_fingerprint p).
End Pack.

(** ** The attributes a packet is made of *)
Definition opt (c : bool) (a : attr) : list attr := if c then [a] else [].

Definition tid_text (p : StunPacket) : list Z := AsString (transaction_id_ p).
Definition xor_attr_value (p : StunPacket) : list Z :=
  let a := xor_mapped_address_ p in
  if bool_decide (family a = AF_INET) then xor_value4 a
  else [0; 0x02] ++ zip_with Z.lxor (sin_port_mem a) (ztake 2 magic_cookie_) ++
       zip_with Z.lxor (sin6_addr_mem a) (magic_cookie_ ++ tid_text p).

Definition base_attrs (p : StunPacket) : list attr :=
  opt (bool_decide (username_padded_len p ≠ 0)) (mk_attr USERNAME (AsString (username_ p)) []) ++
  opt (bool_decide (priority_ p ≠ 0)) (mk_attr PRIORITY (be_bytes 4 (priority_ p)) []) ++
  opt (bool_decide (ice_controlling_ p ≠ 0)) (mk_attr ICE_CONTROLLING (be_bytes 8 (ice_controlling_ p)) []) ++
  opt (bool_decide (ice_controlled_ p ≠ 0)) (mk_attr ICE_CONTROLLED (be_bytes 8 (ice_controlled_ p)) []) ++
  opt (has_use_candidate_ p) (mk_attr USE_CANDIDATE [] []) ++
  opt (add_xor_mapped_address p) (mk_attr XOR_MAPPED_ADDRESS (xor_attr_value p) []) ++
  opt (add_error_code p) (mk_attr ERROR_CODE [0; 0; code_class p; code_number p] []).

(** The text the integrity code covers, and the attribute that carries it. *)
Definition integrity (hmac_sha1 : list Z → list Z → list Z) (p : StunPacket) : list Z :=
  hmac_sha1 (AsString (password_ p))
    (wire_header (type_field p) (u16 (pack_size p - 20 - 8)) (tid_text p) ++ wire (base_attrs p)).
Definition signed_attrs (hmac_sha1 : list Z → list Z → list Z) (p : StunPacket) : list attr :=
  base_attrs p ++ opt (add_message_integrity p) (mk_attr MESSAGE_INTEGRITY (integrity hmac_sha1 p) []).
Definition signed_text (hmac_sha1 : list Z → list Z → list Z) (p : StunPacket) : list Z :=
  wire_header (type_field p) (u16 (pack_size p - 20)) (tid_text p) ++ wire (signed_attrs hmac_sha1 p).
Definition fingerprint_attr (hmac_sha1 : list Z → list Z → list Z) (p : StunPacket) : attr :=
  mk_attr FINGERPRINT (be_bytes 4 (Z.lxor (crc32_spec (signed_text hmac_sha1 p)) 0x5354554e)) [].
Definition packed_attrs (hmac_sha1 : list Z → list Z → list Z) (p : StunPacket) : list attr :=
  signed_attrs hmac_sha1 p ++ [fingerprint_attr hmac_sha1 p].

(** The fields the setters promise: twelve bytes of transaction id, integers
    in the range of their type, an error code of three digits at most. *)
Record packable (p : StunPacket) : Prop := {
  pk_tid_wf : sp_wf (transaction_id_ p);
  pk_tid_len : sp_size (transaction_id_ p) = 12;
  pk_tid_bytes : bytes_ok (tid_text p);
  pk_user_wf : sp_wf (username_ p);
  pk_user_len : sp_size (username_ p) <= 512;
  pk_user_bytes : bytes_ok (AsString (username_ p));
  pk_priority : is_u32 (priority_ p);
  pk_controlling : is_u64 (ice_controlling_ p);
  pk_controlled : is_u64 (ice_controlled_ p);
  pk_method : method_ p = BINDING;
  pk_error : 0 <= error_code_ p < 1000;
  pk_addr : addr_wf (xor_mapped_address_ p) ∧ bytes_ok (xor_mapped_address_ p);
}.

(** What the code relies on of HMAC-SHA1: a digest is twenty bytes. *)
Definition digest_ok (hmac_sha1 : list Z → list Z → list Z) : Prop :=
  ∀ key data, zlen (hmac_sha1 key data) = 20 ∧ bytes_ok (hmac_sha1 key data).

(** ** Writing, as appended text *)
Section appends.
Context {Q : Type} `{ByteQueue Q}.

(** When there is room for the text. *)
Definition appends (m : result Q) (buf : Q) (text : list Z) : Prop :=
  zlen (bq_content buf) + zlen text <= max_content →
  ∃ buf', m = Ret buf' ∧ bq_wf buf' ∧ bq_content buf' = bq_content buf ++ text.

Lemma appends_nil buf : bq_wf buf → appends (Ret buf) buf [].
Proof. intros ? _. exists buf. by rewrite app_nil_r. Qed.
Lemma appends_bind m k buf t1 t2 :
  appends m buf t1 → (∀ buf', bq_wf buf' → appends (k buf') buf' t2) →
  appends (m ≫= k) buf (t1 ++ t2).
Proof.
  intros Hm Hk Hfit. rewrite zlen_app in Hfit. pose proof (zlen_nonneg t2).
  destruct Hm as (b1 & -> & Hwf & Hc); [lia|].
  destruct (Hk b1 Hwf) as (b2 & Hk2 & Hwf2 & Hc2); [rewrite Hc, zlen_app; lia|].
  exists b2. split_and!; [done..|]. by rewrite Hc2, Hc, app_assoc.
Qed.
Lemma appends_bytes buf data : bq_wf buf → appends (bq_append buf data) buf data.
Proof. intros ? ?. by apply bq_append_law. Qed.
Lemma appends_put8 buf v : bq_wf buf → appends (put8 buf v) buf [u8 v].
Proof. intros. by apply appends_bytes. Qed.
Lemma appends_put8_u8 buf v : bq_wf buf → appends (put8 buf (u8 v)) buf [u8 v].
Proof. intros. rewrite <-(u8_u8 v) at 2. by apply appends_put8. Qed.
Lemma appends_put16 buf v : bq_wf buf → appends (put16 buf v) buf (be_bytes 2 v).
Proof. intros. unfold put16, bq_u16. rewrite mem_HostToNetwork16. by apply appends_bytes. Qed.
Lemma appends_put32 buf v : bq_wf buf → appends (put32 buf v) buf (be_bytes 4 v).
Proof. intros. unfold put32, bq_u32. rewrite mem_HostToNetwork32. by apply appends_bytes. Qed.
Lemma appends_put64 buf v : bq_wf buf → appends (put64 buf v) buf (be_bytes 8 v).
Proof. intros. unfold put64, bq_u64. rewrite mem_HostToNetwork64. by apply appends_bytes. Qed.
End appends.
#[export] Hint Resolve appends_nil appends_bytes appends_put8_u8 appends_put16 appends_put32 appends_put64 : baize.

(** Run a sequence of writes: the goal's text is split at each of them. *)
Ltac writes :=
  repeat first
    [ progress (intros)
    | eapply appends_bind; [eauto with baize|] ];
  eauto with baize.

(** An optional attribute: nothing, or type, length and value. *)
Lemma appends_opt {Q} `{ByteQueue Q} (c : bool) (m : result Q) (buf : Q) a :
  bq_wf buf → (c = true → appends m buf (wire_attr a)) →
  appends (if c then m else Ret buf) buf (wire (opt c a)).
Proof.
  intros Hb Hm. destruct c; cbn [opt]; [rewrite wire_singleton; auto|by apply appends_nil].
Qed.

Section pack_correct.
Context {Q : Type} `{ByteQueue Q} (hmac_sha1 : list Z → list Z → list Z).
Context (p : StunPacket) (Hp : packable p).
Implicit Types buf : Q.

Lemma pack_header_ok buf :
  bq_wf buf →
  appends (pack_header buf p) buf (wire_header (type_field p) (u16 (pack_size p - 20)) (tid_text p)).
Proof. intros. unfold pack_header, wire_header, tid_text. writes. Qed.

(** One attribute with an integer or text value. *)
Lemma attr_writes buf t n (v : list Z) (k : Q → result Q) :
  bq_wf buf → zlen v = n → (∀ buf', bq_wf buf' → appends (k buf') buf' v) →
  appends (buf ← put16 buf t; buf ← put16 buf n; k buf) buf (wire_attr (mk_attr t v [])).
Proof.
  intros Hb <- Hk. unfold wire_attr. cbn [a_type a_value a_pad]. rewrite app_nil_r. writes.
Qed.
Lemma xor_value6_ok :
  xor_value6 (xor_mapped_address_ p) (transaction_id_ p) =
  Ret ([0; 0x02] ++ zip_with Z.lxor (sin_port_mem (xor_mapped_address_ p)) (ztake 2 magic_cookie_) ++
    zip_with Z.lxor (sin6_addr_mem (xor_mapped_address_ p)) (magic_cookie_ ++ tid_text p)).
Proof.
  destruct Hp as [Hw Hl _ _ _ _ _ _ _ _ _ _]. unfold xor_value6.
  assert (mapM (sp_index (transaction_id_ p)) [0; 1; 2; 3; 4; 5; 6; 7; 8; 9; 10; 11] = Ret (tid_text p)) as ->.
  2: done.
  pose proof (zlen_AsString _ Hw) as Hz. unfold sp_size in Hl. rewrite Hl in Hz.
  unfold sp_index. cbn [mapM mbind]. rewrite !(rd_AsString (transaction_id_ p)) by (done || lia).
  unfold tid_text. revert Hz. generalize (AsString (transaction_id_ p)). intros w Hz.
  unfold zlen in Hz. explode w 12%nat. reflexivity.
Qed.

Lemma zlen_zip (f : Z → Z → Z) l k : zlen l = zlen k → zlen (zip_with f l k) = zlen l.
Proof. unfold zlen. intros. rewrite length_zip_with. lia. Qed.

Lemma zlen_xor_value :
  add_xor_mapped_address p = true →
  zlen (xor_attr_value p) = xor_mapped_address_padded_len p.
Proof.
  intros Hadd. apply andb_true_iff in Hadd as [Hw Hf].
  destruct Hp as [Htw Htl _ _ _ _ _ _ _ _ _ [Ha _]]. unfold addr_wf in Ha.
  pose proof (zlen_AsString _ Htw) as Hz. unfold sp_size in Htl. rewrite Htl in Hz.
  assert (H2 : zlen (sin_port_mem (xor_mapped_address_ p)) = 2) by (apply block_length; lia).
  assert (H4 : zlen (sin_addr_mem (xor_mapped_address_ p)) = 4) by (apply block_length; lia).
  assert (H16 : zlen (sin6_addr_mem (xor_mapped_address_ p)) = 16) by (apply block_length; lia).
  unfold xor_attr_value, xor_mapped_address_padded_len, xor_value4. rewrite Hw.
  case_bool_decide; cbn [orb] in Hf; rewrite ?Hf, !zlen_app, !zlen_zip, ?H2, ?H4, ?H16; try done.
  rewrite zlen_app. unfold tid_text. by rewrite Hz.
Qed.

Lemma pack_base_ok buf :
  bq_wf buf →
  appends (buf ← pack_username buf p; buf ← pack_priority buf p; buf ← pack_ice_controlling buf p;
           buf ← pack_ice_controlled buf p; buf ← pack_use_candidate buf p;
           buf ← pack_xor_mapped_address buf p; pack_error_code buf p) buf (wire (base_attrs p)).
Proof.
  intros Hb. unfold base_attrs. rewrite !wire_app.
  apply appends_bind; [|clear Hb buf; intros buf Hb; apply appends_bind;
    [|clear Hb buf; intros buf Hb; apply appends_bind; [|clear Hb buf; intros buf Hb; apply appends_bind;
    [|clear Hb buf; intros buf Hb; apply appends_bind; [|clear Hb buf; intros buf Hb; apply appends_bind;
    [|clear Hb buf; intros buf Hb]]]]]].
  - apply appends_opt; [done|]. intros _. apply attr_writes; [done| |auto with baize].
    rewrite zlen_AsString by apply Hp. symmetry. apply u16_small.
    pose proof (pk_user_len _ Hp). destruct (pk_user_wf _ Hp) as (_ & ? & _). unfold sp_size in *.
    unfold_u. lia.
  - apply appends_opt; [done|]. intros _. apply attr_writes; [done|by zlen_simp|auto with baize].
  - apply appends_opt; [done|]. intros _. apply attr_writes; [done|by zlen_simp|auto with baize].
  - apply appends_opt; [done|]. intros _. apply attr_writes; [done|by zlen_simp|auto with baize].
  - apply appends_opt; [done|]. intros _. unfold wire_attr. cbn [a_type a_value a_pad].
    change (zlen (@nil Z)) with 0.
    rewrite (app_nil_r (be_bytes 2 0) : be_bytes 2 0 ++ [] ++ [] = _). writes.
  - apply appends_opt; [done|]. intros Hadd.
    apply attr_writes; [done|by apply zlen_xor_value|]. intros buf' Hb'.
    unfold xor_attr_value. apply andb_true_iff in Hadd as [_ Hf].
    case_bool_decide; cbn [orb] in Hf; [by apply appends_bytes|].
    rewrite Hf, xor_value6_ok. by apply appends_bytes.
  - apply appends_opt; [done|]. intros _. apply attr_writes; [done|done|].
    intros buf' Hb'. unfold code_number, code_class.
    change [0; 0; u8 (error_code_ p / 100); u8 (error_code_ p - u8 (error_code_ p / 100) * 100)]
      with (be_bytes 2 0 ++ [u8 (error_code_ p / 100)] ++ [u8 (error_code_ p - u8 (error_code_ p / 100) * 100)]).
    writes.
Qed.
Lemma zlen_tid : zlen (tid_text p) = 12.
Proof. unfold tid_text. rewrite zlen_AsString by apply Hp. apply Hp. Qed.

(** Patching the length field of a message. *)
Lemma patch_header buf ty v v' rest :
  bq_wf buf → bq_content buf = wire_header ty v (tid_text p) ++ rest →
  ∃ buf', bq_patch2 buf 2 v' = Ret buf' ∧ bq_wf buf' ∧
    bq_content buf' = wire_header ty v' (tid_text p) ++ rest.
Proof.
  intros Hb Hc. assert (Hz : zlen (bq_content buf) = 20 + zlen rest).
  { rewrite Hc. unfold wire_header. rewrite !zlen_app, zlen_tid, !zlen_be_bytes.
    change (zlen magic_cookie_) with 4. lia. }
  pose proof (zlen_nonneg rest).
  destruct (bq_patch2_law buf 2 v') as (buf' & ? & ? & Hc'); [done|lia|lia|].
  exists buf'. split_and!; [done..|]. rewrite Hc', Hc. unfold wire_header. rewrite <-!app_assoc.
  rewrite ztake_app_all by (by zlen_simp). done.
Qed.

Context (Hd : digest_ok hmac_sha1).

Lemma pack_message_integrity_ok buf :
  bq_wf buf →
  bq_content buf = wire_header (type_field p) (u16 (pack_size p - 20)) (tid_text p) ++ wire (base_attrs p) →
  zlen (bq_content buf) + 24 <= max_content →
  ∃ buf', pack_message_integrity hmac_sha1 buf p = Ret buf' ∧ bq_wf buf' ∧
    bq_content buf' = signed_text hmac_sha1 p.
Proof.
  intros Hb Hc Hfit. unfold pack_message_integrity, signed_text, signed_attrs.
  destruct (add_message_integrity p); cbn [opt].
  2: { exists buf. split_and!; [done..|]. by rewrite Hc, app_nil_r. }
  destruct (patch_header buf _ _ (u16 (pack_size p - 20 - 8)) _ Hb Hc) as (b1 & -> & Hb1 & Hc1).
  cbn [mbind result_bind]. destruct (bq_slice_law b1 Hb1) as [_ Hs].
  unfold HmacSha1. rewrite Hs, Hc1, AsString_string. fold (integrity hmac_sha1 p).
  destruct (attr_writes b1 MESSAGE_INTEGRITY 20 (integrity hmac_sha1 p)
    (λ buf, bq_append buf (integrity hmac_sha1 p))) as (b2 & Hb2 & Hwf2 & Hc2); [done|apply Hd|auto with baize| |].
  { rewrite Hc in Hfit. rewrite Hc1. unfold wire_attr. cbn [a_type a_value a_pad]. unfold wire_header in *.
    rewrite !zlen_app, !zlen_be_bytes, zlen_nil in *. unfold integrity. rewrite (proj1 (Hd _ _)). lia. }
  rewrite Hc1, <-app_assoc in Hc2.
  apply bind_Ret in Hb2 as (b3 & -> & (b4 & E4 & E5)%bind_Ret). cbn [mbind result_bind].
  rewrite E4. cbn [mbind result_bind]. rewrite E5. cbn [mbind result_bind].
  destruct (patch_header b2 _ _ (u16 (pack_size p - 20)) _ Hwf2 Hc2) as (b5 & -> & Hb5 & Hc5).
  exists b5. split_and!; [done..|]. by rewrite Hc5, wire_app, wire_singleton.
Qed.

Lemma pack_fingerprint_ok buf :
  bq_wf buf → bq_content buf = signed_text hmac_sha1 p → bytes_ok (signed_text hmac_sha1 p) →
  appends (pack_fingerprint buf p) buf (wire_attr (fingerprint_attr hmac_sha1 p)).
Proof.
  intros Hb Hc Hok. destruct (bq_slice_law buf Hb) as [Hsw Hs]. unfold pack_fingerprint.
  rewrite CRC32_ok; [|done|by rewrite Hs, Hc]. cbn [mbind result_bind]. rewrite Hs, Hc.
  apply attr_writes; [done|by zlen_simp|auto with baize].
Qed.
End pack_correct.

(** ** Optional attributes in lists *)
Lemma last_value_cat t l1 l2 :
  last_value t (l1 ++ l2) = match last_value t l2 with Some v => Some v | None => last_value t l1 end.
Proof.
  induction l1 as [|a l1 IH]; cbn [app last_value].
  { by destruct (last_value t l2). }
  rewrite IH. by destruct (last_value t l2).
Qed.
Lemma last_value_opt t c a :
  last_value t (opt c a) = if c && bool_decide (a_type a = t) then Some (a_value a) else None.
Proof. by destruct c. Qed.

(** An attribute that is neither MESSAGE-INTEGRITY nor FINGERPRINT. *)
Lemma legal_plain c a rest :
  a_type a ≠ MESSAGE_INTEGRITY → a_type a ≠ FINGERPRINT → (c = true → length_legal a = true) →
  legal false false rest = true → legal false false (opt c a ++ rest) = true.
Proof.
  intros Hm Hf Hl Hr. destruct c; [|done]. cbn [opt app legal].
  rewrite Hl, !(bool_decide_false (a_type a = _)) by done. done.
Qed.

(** ** The size announced and the size written *)
Lemma zlen_wire_opt c t v :
  zlen (wire (opt c (mk_attr t v []))) = if c then 4 + zlen v else 0.
Proof.
  destruct c; [|done]. cbn [opt]. rewrite wire_singleton. unfold wire_attr. cbn [a_type a_value a_pad].
  zlen_simp. lia.
Qed.

Lemma if_add (c : bool) s k : (if c then s + k else s) = s + if c then k else 0.
Proof. destruct c; lia. Qed.

Section sizes.
Context (hmac_sha1 : list Z → list Z → list Z) (Hd : digest_ok hmac_sha1).
Context (p : StunPacket) (Hp : packable p).

Lemma username_padded :
  let n := sp_size (username_ p) in
  0 <= n <= 512 ∧ username_padded_len p = n + (- n) mod 4 ∧
  bool_decide (username_padded_len p ≠ 0) = negb (sp_empty (username_ p)).
Proof.
  intros n. pose proof (pk_user_len _ Hp) as Hn. destruct (pk_user_wf _ Hp) as (_ & H0 & _).
  fold n in Hn. assert (0 <= n) by done. unfold username_padded_len, sp_empty.
  change (length_ (username_ p)) with n.
  assert (Hpad : username_padded_len p = n + (- n) mod 4 → n ≠ 0 → username_padded_len p ≠ 0).
  { intros ->. pose proof (Z.mod_pos_bound (- n) 4). lia. }
  destruct (bool_decide_reflect (n = 0)) as [E|E]; cbn [negb].
  { rewrite E. split_and!; [lia|lia|done|done]. }
  assert (Ha : Align4_16 (u16 (sp_size (username_ p))) = n + (- n) mod 4).
  { pose proof (align_step 0 (n - 4)) as Ha. fold n.
    rewrite u16_small, Align4_16_spec by (unfold_u; lia).
    case_bool_decide; [|rewrite u16_small; unfold_u]; Z.to_euclidean_division_equations; lia. }
  split_and!; [lia|lia|done|]. rewrite Ha. apply bool_decide_true.
  pose proof (Z.mod_pos_bound (- n) 4). lia.
Qed.

(** The announced size counts the username padded, the written text does
    not contain the padding. *)
Lemma pack_size_ok :
  pack_size p = 20 + zlen (wire (packed_attrs hmac_sha1 p)) + (- sp_size (username_ p)) mod 4.
Proof.
  unfold packed_attrs, signed_attrs, base_attrs.
  change [fingerprint_attr hmac_sha1 p] with (opt true (fingerprint_attr hmac_sha1 p)).
  unfold fingerprint_attr. rewrite !wire_app, !zlen_app, !zlen_wire_opt.
  pose proof (zlen_xor_value p Hp) as Hx. pose proof (zlen_AsString _ (pk_user_wf _ Hp)) as Hu.
  change (length_ (username_ p)) with (sp_size (username_ p)) in Hu.
  destruct username_padded as (Hn & Hpad & ->).
  unfold pack_size. cbn zeta. rewrite !if_add, Hpad, Hu, !zlen_be_bytes.
  rewrite (proj1 (Hd _ _) : zlen (integrity hmac_sha1 p) = 20). zlen_eval.
  set (if add_error_code p then _ else _). set (if add_message_integrity p then _ else _).
  unfold xor_mapped_address_padded_len, add_xor_mapped_address in *.
  assert (Hun : (if negb (sp_empty (username_ p))
      then 4 + (sp_size (username_ p) + (- sp_size (username_ p)) mod 4) else 0) =
    (if negb (sp_empty (username_ p)) then 4 + sp_size (username_ p) else 0) +
    (- sp_size (username_ p)) mod 4).
  { unfold sp_empty, sp_size. destruct (bool_decide_reflect (length_ (username_ p) = 0)) as [E|];
      cbn [negb]; [by rewrite E|lia]. }
  rewrite Hun. change (Z.of_nat 4) with 4. change (Z.of_nat 8) with 8. rewrite Z.add_0_r.
  destruct (wants_xor_mapped_address p); [|cbn [andb]; lia].
  destruct (bool_decide (_ = AF_INET)), (bool_decide (_ = AF_INET6)); cbn [orb andb] in *;
    try (rewrite Hx by done); lia.
Qed.

(** What every written attribute satisfies; only the username may have a
    length that is not a multiple of four. *)
Definition shaped (a : attr) : Prop :=
  is_u16 (a_type a) ∧ bytes_ok (a_value a) ∧ a_pad a = [] ∧ zlen (a_value a) < 2 ^ 16 ∧
  (a_type a = USERNAME → a_value a = AsString (username_ p)) ∧
  (a_type a ≠ USERNAME → zlen (a_value a) mod 4 = 0).
Lemma shaped_opt c t v :
  is_u16 t → (c = true → bytes_ok v ∧ zlen v < 2 ^ 16 ∧ (t = USERNAME → v = AsString (username_ p)) ∧
    (t ≠ USERNAME → zlen v mod 4 = 0)) →
  Forall shaped (opt c (mk_attr t v [])).
Proof.
  destruct c; intros Ht Ha; [|constructor]. apply Forall_singleton. unfold shaped.
  cbn [a_type a_value a_pad]. destruct (Ha eq_refl) as (?&?&?&?). done.
Qed.

Lemma bytes_ok_zip_lxor l k : bytes_ok l → bytes_ok k → bytes_ok (zip_with Z.lxor l k).
Proof.
  intros Hl. revert k. induction Hl as [|x l Hx _ IH]; intros k Hk; [constructor|].
  destruct Hk as [|y k Hy Hk]; [constructor|]. cbn. constructor; [|by apply IH]. by apply lxor_u8.
Qed.
Lemma bytes_ok_xor_value : bytes_ok (xor_attr_value p).
Proof.
  destruct (pk_addr _ Hp) as [_ Ha]. pose proof (pk_tid_bytes _ Hp) as Ht.
  assert (Hc : bytes_ok magic_cookie_) by bytes_tac.
  unfold xor_attr_value, xor_value4, sin_port_mem, sin_addr_mem, sin6_addr_mem.
  case_bool_decide; rewrite !bytes_ok_app; (split_and!; [bytes_tac|apply bytes_ok_zip_lxor..]);
    rewrite ?bytes_ok_app; auto with baize.
Qed.

Lemma packed_shaped : Forall shaped (packed_attrs hmac_sha1 p).
Proof.
  unfold packed_attrs, signed_attrs, base_attrs.
  change [fingerprint_attr hmac_sha1 p] with (opt true (fingerprint_attr hmac_sha1 p)).
  pose proof (zlen_AsString _ (pk_user_wf _ Hp)) as Hul. pose proof (pk_user_len _ Hp) as Hn.
  unfold sp_size in Hn. destruct (Hd (AsString (password_ p))
    (wire_header (type_field p) (u16 (pack_size p - 20 - 8)) (tid_text p) ++ wire (base_attrs p))) as [Hdl Hdb].
  fold (integrity hmac_sha1 p) in Hdl, Hdb.
  rewrite !Forall_app. split_and!; (apply shaped_opt; [split; by vm_compute|intros Hc]).
  - split_and!; [apply Hp|lia|done|done].
  - split_and!; [auto with baize|by rewrite zlen_be_bytes|done|by rewrite zlen_be_bytes].
  - split_and!; [auto with baize|by rewrite zlen_be_bytes|done|by rewrite zlen_be_bytes].
  - split_and!; [auto with baize|by rewrite zlen_be_bytes|done|by rewrite zlen_be_bytes].
  - split_and!; [constructor|done|done|done].
  - split_and!; [apply bytes_ok_xor_value| |done|]; rewrite zlen_xor_value by done;
      unfold xor_mapped_address_padded_len; repeat case_match; done || lia.
  - split_and!; [|done..]. unfold code_class, code_number. repeat (constructor; [auto with baize; unfold_u; lia|]).
    constructor.
  - rewrite Hdl. done.
  - split_and!; [auto with baize|by rewrite zlen_be_bytes|done|by rewrite zlen_be_bytes].
Qed.

Lemma packed_attrs_ok :
  sp_size (username_ p) mod 4 = 0 → Forall attr_ok (packed_attrs hmac_sha1 p).
Proof.
  intros Hu. eapply Forall_impl; [apply packed_shaped|]. intros a (Ht & Hb & Hpad & Hl & Hun & Hal).
  unfold attr_ok. rewrite Hpad. split_and!; [done..|constructor|]. rewrite zlen_nil.
  assert (zlen (a_value a) mod 4 = 0); [|Z.to_euclidean_division_equations; lia].
  destruct (decide (a_type a = USERNAME)) as [E|]; [|auto]. rewrite (Hun E).
  by rewrite zlen_AsString by apply Hp.
Qed.

Lemma bytes_ok_wire attrs : Forall shaped attrs → bytes_ok (wire attrs).
Proof.
  induction 1 as [|a attrs (_ & Hb & Hpad & _) _ IH]; [constructor|].
  change (wire (a :: attrs)) with (wire_attr a ++ wire attrs). unfold wire_attr.
  rewrite Hpad, !bytes_ok_app. split_and!; auto with baize. constructor.
Qed.

Lemma signed_text_bytes : bytes_ok (signed_text hmac_sha1 p).
Proof.
  unfold signed_text, wire_header. rewrite !bytes_ok_app. split_and!; auto with baize.
  - bytes_tac.
  - apply Hp.
  - apply bytes_ok_wire. pose proof packed_shaped as H. unfold packed_attrs in H.
    by apply Forall_app in H as [H _].
Qed.

Lemma packed_legal : legal false false (packed_attrs hmac_sha1 p) = true.
Proof.
  unfold packed_attrs, signed_attrs, base_attrs. rewrite <-!app_assoc.
  repeat (apply legal_plain; [done|done|intros; unfold length_legal; cbn [a_type a_value]|]).
  all: try reflexivity.
  assert (Hi : zlen (integrity hmac_sha1 p) = 20) by apply Hd.
  destruct (add_message_integrity p); [|done]. cbn [opt app legal].
  unfold length_legal, may_follow. cbn [a_type a_value]. by rewrite Hi.
Qed.
End sizes.


(** ** Pack as a whole *)
Section pack_theorems.
Context {Q : Type} `{ByteQueue Q} (hmac_sha1 : list Z → list Z → list Z) (Hd : digest_ok hmac_sha1).
Context (p : StunPacket) (Hp : packable p).

Definition packed_text : list Z :=
  wire_header (type_field p) (u16 (pack_size p - 20)) (tid_text p) ++ wire (packed_attrs hmac_sha1 p).

Lemma packed_text_signed : packed_text = signed_text hmac_sha1 p ++ wire_attr (fingerprint_attr hmac_sha1 p).
Proof. unfold packed_text, signed_text, packed_attrs. by rewrite wire_app, wire_singleton, app_assoc. Qed.

Lemma zlen_packed_text : zlen packed_text = 20 + zlen (wire (packed_attrs hmac_sha1 p)).
Proof.
  unfold packed_text, wire_header. rewrite !zlen_app, !zlen_be_bytes, (zlen_tid p Hp).
  change (zlen magic_cookie_) with 4. lia.
Qed.

(** Twelve optional parts of bounded size: far below the 16-bit limit. *)
Lemma pack_size_small : 20 <= pack_size p <= 1000.
Proof.
  pose proof (username_padded p Hp) as (Hn & Hpad & _). cbn zeta in *.
  unfold pack_size. cbn zeta. rewrite Hpad.
  pose proof (Z.mod_pos_bound (- sp_size (username_ p)) 4 ltac:(lia)).
  repeat case_match; lia.
Qed.

Lemma packed_text_small : zlen packed_text <= 1000.
Proof.
  pose proof pack_size_small. pose proof (pack_size_ok hmac_sha1 Hd p Hp) as E. rewrite zlen_packed_text.
  pose proof (Z.mod_pos_bound (- sp_size (username_ p)) 4 ltac:(lia)). lia.
Qed.

Lemma Pack_ok (buf : Q) :
  bq_wf buf → bq_content buf = [] →
  ∃ buf', Pack hmac_sha1 buf p = Ret (buf', set_has_fingerprint p) ∧ bq_wf buf' ∧
    bq_content buf' = packed_text.
Proof.
  intros Hb Hc. unfold Pack. pose proof packed_text_small as Hs. rewrite packed_text_signed, zlen_app in Hs.
  assert (Hf : zlen (wire_attr (fingerprint_attr hmac_sha1 p)) = 8) by done.
  assert (Hs' := Hs). unfold signed_text, signed_attrs in Hs'. rewrite wire_app, app_assoc, !zlen_app in Hs'.
  pose proof (zlen_nonneg (wire_header (type_field p) (u16 (pack_size p - 20)) (tid_text p))).
  pose proof (zlen_nonneg (wire (base_attrs p))).
  match type of Hs' with context [wire (opt ?c ?a)] => pose proof (zlen_nonneg (wire (opt c a))) end.
  destruct (pack_header_ok p buf Hb) as (b1 & -> & Hb1 & Hc1); [rewrite Hc, zlen_nil; unfold max_content; lia|]. cbn [mbind result_bind].
  destruct (pack_base_ok p Hp b1 Hb1) as (b2 & Hrun & Hb2 & Hc2); [rewrite Hc1, Hc; cbn [app]; unfold max_content; lia|].
  rewrite Hc1, Hc in Hc2. cbn [app] in Hc2.
  do 6 (apply bind_Ret in Hrun as (? & -> & Hrun); cbn [mbind result_bind]).
  rewrite Hrun. cbn [mbind result_bind].
  destruct (pack_message_integrity_ok hmac_sha1 p Hp Hd b2 Hb2 Hc2) as (b3 & -> & Hb3 & Hc3);
    [rewrite Hc2, zlen_app; unfold max_content; lia|].
  cbn [mbind result_bind].
  destruct (pack_fingerprint_ok hmac_sha1 p b3 Hb3 Hc3) as (b4 & -> & Hb4 & Hc4);
    [by apply signed_text_bytes|rewrite Hc3; unfold max_content; lia|].
  cbn [mbind result_bind]. exists b4. split_and!; [done..|]. by rewrite packed_text_signed, Hc4, Hc3.
Qed.

Lemma packed_text_bytes : bytes_ok packed_text.
Proof.
  rewrite packed_text_signed, bytes_ok_app. split; [by apply signed_text_bytes|].
  unfold wire_attr, fingerprint_attr. cbn [a_type a_value a_pad]. rewrite !bytes_ok_app.
  split_and!; auto with baize. constructor.
Qed.

Lemma type_field_ok :
  is_u16 (type_field p) ∧ type_field p / 256 < 3 ∧ method_of (type_field p) = BINDING ∧
  klass_of (type_field p / 256) (type_field p mod 256) = klass_ p.
Proof.
  unfold type_field. rewrite (pk_method _ Hp). destruct (klass_ p); vm_compute; intuition discriminate.
Qed.

Lemma packed_well_formed :
  sp_size (username_ p) mod 4 = 0 →
  well_formed packed_text (type_field p) (tid_text p) (packed_attrs hmac_sha1 p).
Proof.
  intros Hu. destruct type_field_ok as (Hty & Hty3 & _ & _).
  pose proof (pack_size_ok hmac_sha1 Hd p Hp) as Hs. pose proof pack_size_small.
  assert (Hm : (- sp_size (username_ p)) mod 4 = 0) by (Z.to_euclidean_division_equations; lia).
  split_and!; [done|done|by apply zlen_tid| |by apply packed_attrs_ok|by apply packed_legal|].
  - unfold packed_text. rewrite u16_small by (unfold_u; lia). do 2 f_equal. lia.
  - intros v Hv. unfold packed_attrs in Hv. rewrite last_value_app in Hv.
    rewrite bool_decide_true in Hv by done. injection Hv as <-. cbn [a_value fingerprint_attr].
    rewrite packed_text_signed.
    assert (Hfl : zlen (wire_attr (fingerprint_attr hmac_sha1 p)) = 8) by done.
    rewrite zlen_app, Hfl. rewrite ztake_app_all by lia.
    rewrite be_val_be_bytes. apply u32_small, lxor_u32; [|unfold_u; lia].
    apply crc32_spec_u32. by apply signed_text_bytes.
Qed.
End pack_theorems.

(** Look one attribute type up in the list [Pack] writes. *)
Ltac packed_lookup :=
  unfold text_of, int_of, present, error_of, packed_attrs, signed_attrs, base_attrs;
  rewrite !last_value_cat, !last_value_opt; cbn [last_value a_type a_value fingerprint_attr];
  repeat match goal with
  | |- context [bool_decide (?x = ?y :> Z)] =>
      let b := eval vm_compute in (bool_decide (x = y)) in
      lazymatch b with
      | true => change (bool_decide (x = y)) with true
      | false => change (bool_decide (x = y)) with false
      end
  end; cbn [andb]; rewrite ?andb_false_r, ?andb_true_r.

Section roundtrip.
Context (hmac_sha1 : list Z → list Z → list Z) (p : StunPacket) (Hp : packable p).
Notation attrs := (packed_attrs hmac_sha1 p).

Lemma packed_username : text_of USERNAME attrs = AsString (username_ p).
Proof.
  packed_lookup. destruct (username_padded p Hp) as (_ & _ & ->). unfold sp_empty.
  destruct (bool_decide_reflect (length_ (username_ p) = 0)) as [E|]; cbn [negb]; [|done].
  pose proof (zlen_AsString _ (pk_user_wf _ Hp)) as Hz. cbn. symmetry. apply zlen_zero_inv. lia.
Qed.
Lemma packed_priority : int_of PRIORITY attrs = priority_ p.
Proof.
  packed_lookup. case_bool_decide as E; cbn [from_option]; [|done].
  rewrite be_val_be_bytes. apply u32_small, Hp.
Qed.
Lemma packed_controlling : int_of ICE_CONTROLLING attrs = ice_controlling_ p.
Proof.
  packed_lookup. case_bool_decide as E; cbn [from_option]; [|done].
  rewrite be_val_be_bytes. apply u64_small, Hp.
Qed.
Lemma packed_controlled : int_of ICE_CONTROLLED attrs = ice_controlled_ p.
Proof.
  packed_lookup. case_bool_decide as E; cbn [from_option]; [|done].
  rewrite be_val_be_bytes. apply u64_small, Hp.
Qed.
Lemma packed_use_candidate : present USE_CANDIDATE attrs = has_use_candidate_ p.
Proof. packed_lookup. by destruct (has_use_candidate_ p). Qed.
Lemma packed_integrity :
  text_of MESSAGE_INTEGRITY attrs = if add_message_integrity p then integrity hmac_sha1 p else [].
Proof. packed_lookup. by destruct (add_message_integrity p). Qed.
Lemma packed_fingerprint : present FINGERPRINT attrs = true.
Proof. packed_lookup. done. Qed.
Lemma packed_error :
  error_of attrs = if bool_decide (klass_ p = ERROR_RESPONSE) then error_code_ p else 0.
Proof.
  packed_lookup. unfold add_error_code. pose proof (pk_error _ Hp) as He.
  destruct (bool_decide (klass_ p = ERROR_RESPONSE)); rewrite ?andb_true_r, ?andb_false_r; [|done].
  case_bool_decide as E; [|done]. unfold code_number, code_class.
  rewrite !u8_small; unfold_u; Z.to_euclidean_division_equations; lia.
Qed.
End roundtrip.

(** [q] is what the receiver of the packed [p] has. *)
Record received (hmac_sha1 : list Z → list Z → list Z) (p q : StunPacket) : Prop := {
  rc_klass : klass_ q = klass_ p;
  rc_method : method_ q = method_ p;
  rc_tid : AsString (transaction_id_ q) = AsString (transaction_id_ p);
  rc_username : AsString (username_ q) = AsString (username_ p);
  rc_priority : priority_ q = priority_ p;
  rc_controlling : ice_controlling_ q = ice_controlling_ p;
  rc_controlled : ice_controlled_ q = ice_controlled_ p;
  rc_use_candidate : has_use_candidate_ q = has_use_candidate_ p;
  rc_error : error_code_ q = if bool_decide (klass_ p = ERROR_RESPONSE) then error_code_ p else 0;
  rc_integrity : AsString (message_integrity_ q) =
    if add_message_integrity p then integrity hmac_sha1 p else [];
  rc_fingerprint : has_fingerprint_ q = true;
}.

Lemma packed_parses hmac_sha1 p piece klass method :
  digest_ok hmac_sha1 → packable p → sp_size (username_ p) mod 4 = 0 →
  sp_wf piece → AsString piece = packed_text hmac_sha1 p →
  ∃ q, Parse (parse_fuel piece) piece (StunPacket_new klass method) = Ret (q, 0) ∧ received hmac_sha1 p q.
Proof.
  intros Hd Hp Hu Hsw Hst. pose proof (packed_well_formed hmac_sha1 Hd p Hp Hu) as Hw.
  assert (Hok : bytes_ok (AsString piece)) by (rewrite Hst; by apply packed_text_bytes).
  assert (Hlen : sp_size piece <= 65532).
  { unfold sp_size. rewrite <-zlen_AsString, Hst, zlen_packed_text by done.
    pose proof (pack_size_ok hmac_sha1 Hd p Hp). pose proof (pack_size_small p Hp).
    pose proof (Z.mod_pos_bound (- sp_size (username_ p)) 4). lia. }
  destruct (Parse_ok _ Hsw Hok Hlen klass method) as (q & r & Hparse & Hr). rewrite Hst in Hr.
  destruct Hr as [(-> & ty & tid & attrs & Hw' & Hh & Hm & Hk & Ht & _)|[_ Hno]]; [|by apply Hno in Hw].
  rewrite <-Hst in Hw, Hw'. destruct (well_formed_unique _ Hsw Hlen _ _ _ _ _ _ Hw Hw') as (<- & <- & <-).
  destruct (type_field_ok p Hp) as (_ & _ & Hmeth & Hkl).
  exists q. split; [done|]. constructor; [congruence| |done|..].
  - rewrite (pk_method _ Hp). congruence.
  - by rewrite (h_username _ _ Hh), packed_username.
  - by rewrite (h_priority _ _ Hh), packed_priority.
  - by rewrite (h_controlling _ _ Hh), packed_controlling.
  - by rewrite (h_controlled _ _ Hh), packed_controlled.
  - by rewrite (h_use_candidate _ _ Hh), packed_use_candidate.
  - by rewrite (h_error _ _ Hh), packed_error.
  - by rewrite (h_integrity _ _ Hh), packed_integrity.
  - by rewrite (h_has_fingerprint _ _ Hh), packed_fingerprint.
Qed.

(** C2: packing a binding message whose username fills whole words into an
    empty buffer gives a packet that [Parse] accepts, and the parsed object
    has the class, method, transaction id and attributes of the packed one,
    with the HMAC over the message up to it and a valid fingerprint; the mapped
    address, which [Parse] skips, and the nomination, which [Pack] does not
    write, are not compared. *)
Theorem Pack_Parse_roundtrip {Q} `{ByteQueue Q} hmac_sha1 p (buf : Q) klass method :
  digest_ok hmac_sha1 → packable p → sp_size (username_ p) mod 4 = 0 →
  bq_wf buf → bq_content buf = [] →
  ∃ buf' q, Pack hmac_sha1 buf p = Ret (buf', set_has_fingerprint p) ∧
    Parse (parse_fuel (bq_slice buf')) (bq_slice buf') (StunPacket_new klass method) = Ret (q, 0) ∧
    received hmac_sha1 p q.
Proof.
  intros Hd Hp Hu Hb Hc. destruct (Pack_ok hmac_sha1 Hd p Hp buf Hb Hc) as (buf' & Hpack & Hb' & Hc').
  destruct (bq_slice_law buf' Hb') as [Hsw Hst]. rewrite Hc' in Hst.
  destruct (packed_parses hmac_sha1 p _ klass method Hd Hp Hu Hsw Hst) as (q & Hq & Hrc).
  by exists buf', q.
Qed.

(** A request with a twelve-byte username, and a digest that is constant. *)
Definition sample_digest (key data : list Z) : list Z := replicate 20 171.
Definition sample_packet : StunPacket :=
  set_class REQUEST (set_method BINDING
    (set_transaction_id (StringPiece_string [1; 2; 3; 4; 5; 6; 7; 8; 9; 10; 11; 12])
    (set_username (StringPiece_string [117; 115; 101; 114])
    (set_priority 258 (set_password (StringPiece_string [112; 119])
    (StunPacket_new ERROR_RESPONSE 0)))))).

Lemma sample_packable : packable sample_packet.
Proof.
  constructor; try done; try (bytes_tac); try (unfold_u; cbn; lia).
  - reflexivity.
  - apply Forall_replicate. unfold_u. lia.
Qed.
Lemma sample_digest_ok : digest_ok sample_digest.
Proof. intros key data. split; [done|]. apply Forall_replicate. unfold_u. lia. Qed.

Lemma Pack_Parse_roundtrip_witness :
  ∃ buf' q, Pack sample_digest default_buffer sample_packet = Ret (buf', set_has_fingerprint sample_packet) ∧
    Parse (parse_fuel (slice buf')) (slice buf') (StunPacket_new ERROR_RESPONSE 0) = Ret (q, 0) ∧
    AsString (username_ q) = [117; 115; 101; 114].
Proof.
  destruct (Pack_Parse_roundtrip sample_digest sample_packet default_buffer ERROR_RESPONSE 0
    sample_digest_ok sample_packable) as (buf' & q & H1 & H2 & H3).
  - reflexivity.
  - vm_compute. intuition discriminate.
  - reflexivity.
  - exists buf', q. split; [exact H1|]. split; [exact H2|].
    rewrite (rc_username _ _ _ H3). reflexivity.
Defined.

(** A username whose length is not a multiple of four is counted with
    its padding but written without it, so every such packet is rejected by
    [Parse]: its length field does not match. *)
Theorem Pack_unpadded_username {Q} `{ByteQueue Q} hmac_sha1 p (buf : Q) klass method :
  digest_ok hmac_sha1 → packable p → sp_size (username_ p) mod 4 ≠ 0 →
  bq_wf buf → bq_content buf = [] →
  ∃ buf' q, Pack hmac_sha1 buf p = Ret (buf', set_has_fingerprint p) ∧
    sp_size (bq_slice buf') < pack_size p ∧
    Parse (parse_fuel (bq_slice buf')) (bq_slice buf') (StunPacket_new klass method) = Ret (q, -1).
Proof.
  intros Hd Hp Hu Hb Hc. destruct (Pack_ok hmac_sha1 Hd p Hp buf Hb Hc) as (buf' & Hpack & Hb' & Hc').
  destruct (bq_slice_law buf' Hb') as [Hsw Hst]. rewrite Hc' in Hst.
  pose proof (pack_size_ok hmac_sha1 Hd p Hp) as Hs. pose proof (pack_size_small p Hp).
  pose proof (Z.mod_pos_bound (- sp_size (username_ p)) 4 ltac:(lia)).
  assert (Hne : (- sp_size (username_ p)) mod 4 ≠ 0) by (Z.to_euclidean_division_equations; lia).
  assert (Hok : bytes_ok (AsString (bq_slice buf'))) by (rewrite Hst; by apply packed_text_bytes).
  assert (Hlen : sp_size (bq_slice buf') = pack_size p - (- sp_size (username_ p)) mod 4).
  { unfold sp_size at 1. rewrite <-zlen_AsString, Hst, zlen_packed_text by done. lia. }
  destruct (Parse_ok _ Hsw Hok ltac:(lia) klass method) as (q & r & Hparse & Hr).
  exists buf', q. split_and!; [done|lia|]. destruct Hr as [(_ & ty & tid & attrs & Hw & _)|[-> _]]; [|done].
  exfalso. pose proof (well_formed_view _ Hsw ltac:(lia) _ _ _ Hw) as (_ & Hbl & _ & _ & Hl).
  destruct (type_field_ok p Hp) as (Hty & _).
  destruct (header_view (type_field p) (u16 (pack_size p - 20)) (tid_text p) (wire (packed_attrs hmac_sha1 p))
    (AsString (bq_slice buf'))) as (_ & Hbl' & _); [done|auto with baize|by apply zlen_tid|done|].
  rewrite Hbl', u16_small in Hbl by (unfold_u; lia). lia.
Qed.

Lemma Pack_unpadded_username_witness :
  ∃ buf' q, Pack sample_digest default_buffer (set_username (StringPiece_string [117]) sample_packet) =
    Ret (buf', set_has_fingerprint (set_username (StringPiece_string [117]) sample_packet)) ∧
    Parse (parse_fuel (slice buf')) (slice buf') (StunPacket_new REQUEST 0) = Ret (q, -1).
Proof.
  destruct (Pack_unpadded_username sample_digest (set_username (StringPiece_string [117]) sample_packet)
    default_buffer REQUEST 0 sample_digest_ok) as (buf' & q & H1 & _ & H2).
  - destruct sample_packable. constructor; try assumption; first [done|bytes_tac].
  - vm_compute. discriminate.
  - vm_compute. intuition discriminate.
  - reflexivity.
  - exists buf', q. split; [exact H1|exact H2].
Defined.
