(* ===== verification/Rtp.v ===== *)
(** * RTP packets: webrtc/rtp/rtp_packet.{h,cc}

    The packet object, [IsRtp] and [Decode].  What [Decode] accepts is
    characterised by the wire format of RFC 3550: a fixed header, the CSRC
    list, an optional header extension, the payload and the padding. *)

From Stdlib Require Import ZArith Lia Bool.
From stdpp Require Import base numbers list.
From S2P Require Import Prelude Types StringPiece.

Record Header : Type := mk_header {
  csrc_count : Z;
  hdr_extension : Z;
  hdr_padding : Z;
  version : Z;
  payload_type : Z;
  marker : Z;
  sequence_number : Z;
  timestamp : Z;
  ssrc : Z;
}.

Record HeaderExtension : Type := mk_header_extension {
  profile : Z;
  ext_length : Z;
}.

(** The element vectors are never filled by the code. *)
Record RtpExtension : Type := mk_extension {
  ext_header : HeaderExtension;
  one_byte_ext : list (Z * Z * list Z);
  two_bytes_ext : list (Z * Z * list Z);
}.
Definition is_one_byte_ext (e : RtpExtension) : bool :=
  bool_decide (profile (ext_header e) = 0xbede).
Definition is_two_bytes_ext (e : RtpExtension) : bool :=
  bool_decide (Z.land (profile (ext_header e)) 0xfff0 = 0x1000).

Record RtpPacket : Type := mk_rtp {
  rtp_header : Header;
  csrcs : list Z;
  extension : RtpExtension;
  payload : list Z;
}.
Definition RtpPacket_new : RtpPacket :=
  mk_rtp (mk_header 0 0 0 0 0 0 0 0 0) [] (mk_extension (mk_header_extension 0 0) [] []) [].

Definition kHeaderSize : Z := 12.

(** The header laid over memory: bit fields from the least significant bit. *)
Definition load_header (data : list Z) (p : Z) : result Header :=
  b0 ← load 1 data p;
  b1 ← load 1 data (p + 1);
  seq ← load 2 data (p + 2);
  ts ← load 4 data (p + 4);
  src ← load 4 data (p + 8);
  Ret (mk_header (bit_field b0 0 4) (bit_field b0 4 1) (bit_field b0 5 1) (bit_field b0 6 2)
         (bit_field b1 0 7) (bit_field b1 7 1) seq ts src).
Definition load_header_extension (data : list Z) (p : Z) : result HeaderExtension :=
  prof ← load 2 data p;
  len ← load 2 data (p + 2);
  Ret (mk_header_extension prof len).

Definition IsRtp (packet : StringPiece) : result bool :=
  and_then (bool_decide (sp_size packet >= kHeaderSize))
    (d0 ← sp_index packet 0; and_then (bool_decide (d0 > 127) && bool_decide (d0 < 192))
      (b0 ← load 1 (sp_mem packet) (ptr_ packet); Ret (bool_decide (bit_field b0 6 2 = 2)))).

(** [while (count--) csrcs.push_back(byte4(data, offset)), offset += 4] *)
Fixpoint csrc_loop (count : nat) (data : list Z) (p : Z) (acc : list Z) : result (list Z) :=
  match count with
  | O => Ret acc
  | S count => v ← byte4 data p; csrc_loop count data (p + 4) (acc ++ [v])
  end.

(** The stages of [Decode] after the header.  [ptr] is the distance
    [ptr - data]; [inl] is [return -1] with the object as it is then. *)
Definition decode_csrc (packet : StringPiece) (header : Header) (ptr : Z) (self : RtpPacket)
    : result (RtpPacket + RtpPacket * Z) :=
  if bool_decide (csrc_count header ≠ 0) then
    let csrc_list_size := csrc_count header * 4 in
    if bool_decide (sp_size packet < ptr + csrc_list_size) then Ret (inl self)
    else
      cs ← csrc_loop (Z.to_nat (csrc_count header)) (sp_mem packet) (ptr_ packet + ptr) (csrcs self);
      Ret (inr (mk_rtp (rtp_header self) cs (extension self) (payload self), csrc_list_size))
  else Ret (inr (self, 0)).

(** The last component is the size of the extension, [0] without one. *)
Definition decode_extension (packet : StringPiece) (header : Header) (ptr : Z) (self : RtpPacket)
    : result (RtpPacket + RtpPacket * Z) :=
  if bool_decide (hdr_extension header = 1) then
    if bool_decide (sp_size packet < ptr + 4) then Ret (inl self)
    else
      he ← load_header_extension (sp_mem packet) (ptr_ packet + ptr);
      let extension_value_size := NetworkToHost16 (ext_length he) * 4 in
      if bool_decide (sp_size packet < ptr + 4 + extension_value_size) then Ret (inl self)
      else
        let e := mk_extension
          (mk_header_extension (NetworkToHost16 (profile he)) (NetworkToHost16 (ext_length he)))
          (one_byte_ext (extension self)) (two_bytes_ext (extension self)) in
        Ret (inr (mk_rtp (rtp_header self) (csrcs self) e (payload self), 4 + extension_value_size))
  else Ret (inr (self, 0)).

(** The payload's length and the padding's, [None] for [return -1]. *)
Definition decode_padding (packet : StringPiece) (header : Header) (payload_length : Z)
    : result (option (Z * Z)) :=
  if bool_decide (hdr_padding header ≠ 0) then
    if bool_decide (payload_length = 0) then Ret None
    else
      payload_padding ← sp_index packet (sp_size packet - 1);
      if bool_decide (payload_padding = 0) then Ret None
      else if bool_decide (payload_length < payload_padding) then Ret None
      else Ret (Some (payload_length - payload_padding, payload_padding))
  else Ret (Some (payload_length, 0)).

(** [payload.assign(p, n)]: a negative [n] becomes a huge size and aborts. *)
Definition string_assign (data : list Z) (p n : Z) : result (list Z) :=
  if bool_decide (n < 0) then Fault Aborted
  else if bool_decide (0 <= p ∧ p + n <= zlen data) then Ret (ztake n (zdrop p data))
  else Fault OutOfBounds.

(** From the CSRC list to the end of the packet. *)
Definition decode_rest (packet : StringPiece) (header : Header) (self : RtpPacket)
    : result (RtpPacket * Z) :=
  let len := sp_size packet in
  r ← decode_csrc packet header kHeaderSize self;
  match r with
  | inl self => Ret (self, -1)
  | inr (self, csrc_list_size) =>
      let ptr := kHeaderSize + csrc_list_size in
      r ← decode_extension packet header ptr self;
      match r with
      | inl self => Ret (self, -1)
      | inr (self, extension_size) =>
          let ptr := ptr + extension_size in
          r ← decode_padding packet header (len - ptr);
          match r with
          | None => Ret (self, -1)
          | Some (payload_length, payload_padding) =>
              text ← string_assign (sp_mem packet) (ptr_ packet + ptr) payload_length;
              let self := mk_rtp (rtp_header self) (csrcs self) (extension self) text in
              let packet_length := kHeaderSize + csrc_list_size + extension_size +
                                   payload_length + payload_padding in
              if bool_decide (packet_length ≠ len) then Ret (self, -1) else Ret (self, 0)
          end
      end
  end.

Definition Decode (packet : StringPiece) (self : RtpPacket) : result (RtpPacket * Z) :=
  is_rtp ← IsRtp packet;
  if negb is_rtp then Ret (self, -1)
  else if bool_decide (sp_size packet < kHeaderSize) then Ret (self, -1)
  else
    header ← load_header (sp_mem packet) (ptr_ packet);
    let host_header := mk_header (csrc_count header) (hdr_extension header) (hdr_padding header)
      (version header) (payload_type header) (marker header)
      (NetworkToHost16 (sequence_number header)) (NetworkToHost32 (timestamp header))
      (NetworkToHost32 (ssrc header)) in
    decode_rest packet header (mk_rtp host_header (csrcs self) (extension self) (payload self)).

(** ** The wire format *)
Record message : Type := mk_message {
  m_marker : Z;
  m_payload_type : Z;
  m_sequence_number : Z;
  m_timestamp : Z;
  m_ssrc : Z;
  m_csrcs : list Z;
  m_extension : option (Z * list Z);
  m_payload : list Z;
  m_padding : list Z;
}.

Definition wire_words (ws : list Z) : list Z := mbind (be_bytes 4) ws.
Definition wire_extension (e : option (Z * list Z)) : list Z :=
  match e with
  | None => []
  | Some (prof, value) => be_bytes 2 prof ++ be_bytes 2 (zlen value / 4) ++ value
  end.
Definition flag {A} (o : option A) : Z := match o with Some _ => 1 | None => 0 end.
Definition padding_flag (m : message) : Z := match m_padding m with [] => 0 | _ => 1 end.

Definition wire (m : message) : list Z :=
  [128 + 32 * padding_flag m + 16 * flag (m_extension m) + zlen (m_csrcs m);
   128 * m_marker m + m_payload_type m] ++
  be_bytes 2 (m_sequence_number m) ++ be_bytes 4 (m_timestamp m) ++ be_bytes 4 (m_ssrc m) ++
  wire_words (m_csrcs m) ++ wire_extension (m_extension m) ++ m_payload m ++ m_padding m.

Definition extension_legal (e : option (Z * list Z)) : Prop :=
  match e with
  | None => True
  | Some (prof, value) =>
      is_u16 prof ∧ bytes_ok value ∧ zlen value mod 4 = 0 ∧ is_u16 (zlen value / 4)
  end.

(** The last padding byte counts the padding. *)
Definition padding_legal (pad : list Z) : Prop :=
  bytes_ok pad ∧ (pad = [] ∨ last pad = Some (zlen pad)).

Record legal (m : message) : Prop := {
  lg_marker : 0 <= m_marker m < 2;
  lg_payload_type : 0 <= m_payload_type m < 128;
  lg_sequence_number : is_u16 (m_sequence_number m);
  lg_timestamp : is_u32 (m_timestamp m);
  lg_ssrc : is_u32 (m_ssrc m);
  lg_csrcs : Forall is_u32 (m_csrcs m);
  lg_count : zlen (m_csrcs m) < 16;
  lg_extension : extension_legal (m_extension m);
  lg_payload : bytes_ok (m_payload m);
  lg_padding : padding_legal (m_padding m);
}.

(** What a packet object that was [self] holds after the message. *)
Definition received (m : message) (self : RtpPacket) : RtpPacket :=
  mk_rtp
    (mk_header (zlen (m_csrcs m)) (flag (m_extension m)) (padding_flag m) 2 (m_payload_type m)
       (m_marker m) (m_sequence_number m) (m_timestamp m) (m_ssrc m))
    (csrcs self ++ m_csrcs m)
    (mk_extension
       (match m_extension m with
        | None => ext_header (extension self)
        | Some (prof, value) => mk_header_extension prof (zlen value / 4)
        end)
       (one_byte_ext (extension self)) (two_bytes_ext (extension self)))
    (m_payload m).

(** ** Words *)
Fixpoint words (n : nat) (l : list Z) : list Z :=
  match n with
  | O => []
  | S n => be_val (ztake 4 l) :: words n (zdrop 4 l)
  end.

Lemma length_words n l : length (words n l) = n.
Proof. revert l. induction n as [|n IH]; intros; cbn; [done|]. by rewrite IH. Qed.

Lemma zlen_wire_words ws : zlen (wire_words ws) = 4 * zlen ws.
Proof.
  induction ws as [|w ws IH]; [done|]. change (wire_words (w :: ws)) with (be_bytes 4 w ++ wire_words ws).
  zlen_simp. rewrite IH. lia.
Qed.
#[export] Hint Rewrite zlen_wire_words : zlen.

Lemma words_wire_words ws r : Forall is_u32 ws → words (length ws) (wire_words ws ++ r) = ws.
Proof.
  induction 1 as [|w ws Hw _ IH]; [done|]. cbn [length words].
  change (wire_words (w :: ws)) with (be_bytes 4 w ++ wire_words ws). rewrite <-app_assoc.
  rewrite ztake_app_all, zdrop_app_all by (by zlen_simp). by rewrite be_val_u32, IH.
Qed.

Lemma wire_words_words n l :
  bytes_ok l → 4 * Z.of_nat n <= zlen l →
  wire_words (words n l) = ztake (4 * Z.of_nat n) l ∧ Forall is_u32 (words n l).
Proof.
  revert l. induction n as [|n IH]; intros l Hl Hn; [done|].
  destruct (IH (zdrop 4 l)) as [E F]; [auto with baize|rewrite zlen_zdrop; lia|].
  cbn [words]. split.
  - change (wire_words (?w :: ?ws)) with (be_bytes 4 w ++ wire_words ws).
    rewrite E. pose proof (be_bytes_block 4 l) as B. change (Z.of_nat 4) with 4 in B.
    rewrite B by (done || lia).
    rewrite (ztake_split 4 (4 * Z.of_nat (S n))) by lia. do 3 f_equal; lia.
  - constructor; [|done]. pose proof (be_val_range (ztake 4 l)) as R.
    rewrite zlen_ztake in R by lia. apply R. auto with baize.
Qed.

(** ** The stages, in terms of the packet's text *)
Section stages.
Context (packet : StringPiece) (Hwf : sp_wf packet) (Hok : bytes_ok (AsString packet)).
Let l := AsString packet.
Let len := sp_size packet.
Implicit Types (self : RtpPacket) (header : Header).

Lemma l_len : zlen l = len.
Proof. by apply packet_len. Qed.

Lemma csrc_loop_ok n i acc :
  0 <= i → i + 4 * Z.of_nat n <= len →
  csrc_loop n (sp_mem packet) (ptr_ packet + i) acc = Ret (acc ++ words n (zdrop i l)).
Proof.
  revert i acc. induction n as [|n IH]; intros i acc Hi Hn; cbn [csrc_loop words].
  { by rewrite app_nil_r. }
  rewrite packet_byte4 by (done || fold len; lia). cbn [mbind result_bind].
  rewrite <-Z.add_assoc, IH by lia. rewrite zdrop_zdrop by lia. by rewrite <-app_assoc.
Qed.

Definition with_csrcs (cs : list Z) (self : RtpPacket) : RtpPacket :=
  mk_rtp (rtp_header self) (csrcs self ++ cs) (extension self) (payload self).

Lemma decode_csrc_ok header i self :
  0 <= i <= len → 0 <= csrc_count header →
  decode_csrc packet header i self =
  Ret (if bool_decide (len < i + 4 * csrc_count header) then inl self
       else inr (with_csrcs (words (Z.to_nat (csrc_count header)) (zdrop i l)) self,
                 4 * csrc_count header)).
Proof.
  intros Hi Hc. unfold decode_csrc, with_csrcs. fold len. rewrite (Z.mul_comm _ 4).
  destruct (bool_decide_reflect (csrc_count header ≠ 0)) as [|H0].
  - destruct (bool_decide_reflect (len < i + 4 * csrc_count header)); [done|].
    rewrite csrc_loop_ok by lia. done.
  - assert (csrc_count header = 0) as -> by lia. rewrite bool_decide_false by lia.
    destruct self. cbn. by rewrite app_nil_r.
Qed.

Definition with_extension (prof n : Z) (self : RtpPacket) : RtpPacket :=
  mk_rtp (rtp_header self) (csrcs self)
    (mk_extension (mk_header_extension prof n) (one_byte_ext (extension self))
       (two_bytes_ext (extension self))) (payload self).

Lemma decode_extension_ok header i self :
  0 <= i → hdr_extension header = 1 →
  let n := be_val (ztake 2 (zdrop (i + 2) l)) in
  decode_extension packet header i self =
  Ret (if bool_decide (len < i + 4) then inl self
       else if bool_decide (len < i + 4 + 4 * n) then inl self
       else inr (with_extension (be_val (ztake 2 (zdrop i l))) n self, 4 + 4 * n)).
Proof.
  intros Hi He n. unfold decode_extension. rewrite He. cbn [bool_decide decide_rel].
  rewrite bool_decide_true by done. fold len.
  destruct (bool_decide_reflect (len < i + 4)); [done|].
  unfold load_header_extension.
  rewrite <-Z.add_assoc, !(packet_load packet Hwf 2) by (fold len; lia).
  change (Z.of_nat 2) with 2. fold l. cbn [mbind result_bind profile ext_length].
  rewrite !NetworkToHost16_block by (done || rewrite ?l_len; lia). fold n.
  rewrite (Z.mul_comm n 4). by destruct (bool_decide (len < i + 4 + 4 * n)).
Qed.

Lemma decode_no_extension header i self :
  hdr_extension header ≠ 1 → decode_extension packet header i self = Ret (inr (self, 0)).
Proof. intros. unfold decode_extension. by rewrite bool_decide_false. Qed.

Lemma decode_padding_ok header n :
  0 < n <= len → hdr_padding header ≠ 0 →
  ∃ pad, rd l (len - 1) = Ret pad ∧ is_u8 pad ∧
  decode_padding packet header n =
  Ret (if bool_decide (pad = 0 ∨ n < pad) then None else Some (n - pad, pad)).
Proof.
  intros Hn Hp. destruct (rd_in_bounds l (len - 1)) as [pad Hpad]; [rewrite l_len; lia|].
  exists pad. split; [done|]. split; [by eapply rd_is_u8|]. unfold decode_padding.
  rewrite bool_decide_true, bool_decide_false by lia. fold len.
  rewrite packet_index by (done || fold len; lia). fold l. rewrite Hpad. cbn [mbind result_bind].
  bool_cases; try done; lia.
Qed.

Lemma string_assign_ok i n :
  0 <= i → 0 <= n → i + n <= len →
  string_assign (sp_mem packet) (ptr_ packet + i) n = Ret (ztake n (zdrop i l)).
Proof.
  intros. unfold string_assign. rewrite bool_decide_false by lia.
  assert (ptr_ packet + length_ packet <= zlen (sp_mem packet)) by apply Hwf.
  assert (0 <= ptr_ packet) by apply Hwf. unfold len, sp_size in *.
  rewrite bool_decide_true by lia. rewrite packet_block by (done || unfold sp_size; lia). done.
Qed.
End stages.

(** ** The fixed header *)
Section header.
Context (packet : StringPiece) (Hwf : sp_wf packet) (Hok : bytes_ok (AsString packet)).
Context (b0 b1 : Z) (tl : list Z) (Hl : AsString packet = b0 :: b1 :: tl).
Context (Hlen : 12 <= sp_size packet).

Lemma IsRtp_ok : IsRtp packet = Ret (bool_decide (128 <= b0 < 192)).
Proof using Hwf Hl Hlen Hok.
  unfold IsRtp, kHeaderSize. rewrite bool_decide_true by lia. cbn [and_then].
  rewrite packet_index, Hl by (done || lia). cbn [rd]. rewrite rd_cons_0. cbn [mbind result_bind].
  rewrite (packet_load1_0 packet Hwf b0) by (by rewrite Hl). cbn [mbind result_bind].
  rewrite bit_field_eq by lia. unfold and_then.
  destruct (bool_decide_reflect (128 <= b0 < 192)).
  - rewrite !(bool_decide_true _) by (Z.to_euclidean_division_equations; lia). done.
  - destruct (bool_decide_reflect (b0 > 127)), (bool_decide_reflect (b0 < 192)); done || lia.
Qed.

Definition host_header : Header :=
  mk_header (b0 mod 16) (b0 / 16 mod 2) (b0 / 32 mod 2) (b0 / 64 mod 4) (b1 mod 128)
    (b1 / 128 mod 2) (be_val (ztake 2 tl)) (be_val (ztake 4 (zdrop 2 tl)))
    (be_val (ztake 4 (zdrop 6 tl))).

(** The raw header agrees with the converted one on every bit field. *)
Lemma Decode_head self :
  ∃ header, csrc_count header = b0 mod 16 ∧ hdr_extension header = b0 / 16 mod 2 ∧
    hdr_padding header = b0 / 32 mod 2 ∧
    Decode packet self =
    if bool_decide (128 <= b0 < 192)
    then decode_rest packet header (mk_rtp host_header (csrcs self) (extension self) (payload self))
    else Ret (self, -1).
Proof using Hwf Hl Hlen Hok.
  assert (Hz : ∀ n, 0 <= n → zdrop (2 + n) (AsString packet) = zdrop n tl).
  { intros n Hn. rewrite Hl, (zdrop_app_ge _ [b0; b1] tl) by (zlen_eval; lia).
    f_equal. zlen_eval. lia. }
  unfold Decode, load_header. rewrite IsRtp_ok. cbn [mbind result_bind].
  rewrite (packet_load1_0 packet Hwf b0), (packet_load1 packet Hwf 1 b1) by (by rewrite Hl). cbn [mbind result_bind].
  rewrite (packet_load packet Hwf 2), !(packet_load packet Hwf 4) by lia.
  cbn [mbind result_bind].
  eexists. split_and!; cycle 3.
  - destruct (bool_decide (128 <= b0 < 192)); [|done]. cbn [negb].
    rewrite bool_decide_false by (unfold kHeaderSize; lia).
    cbn [csrc_count hdr_extension hdr_padding version payload_type marker sequence_number timestamp ssrc].
    change (Z.of_nat 2) with 2. change (Z.of_nat 4) with 4.
    rewrite NetworkToHost16_block, !NetworkToHost32_block by (done || rewrite ?packet_len by done; lia).
    replace (zdrop 2 (AsString packet)) with tl by (symmetry; apply (Hz 0); lia).
    replace (zdrop 4 (AsString packet)) with (zdrop 2 tl) by (symmetry; apply (Hz 2); lia).
    replace (zdrop 8 (AsString packet)) with (zdrop 6 tl) by (symmetry; apply (Hz 6); lia).
    unfold host_header. rewrite !bit_field_eq, !Z.div_1_r by lia. reflexivity.
  - done.
  - done.
  - done.
Qed.
End header.

(** ** What is accepted *)
Section accepted.
Context (packet : StringPiece) (Hwf : sp_wf packet) (Hok : bytes_ok (AsString packet)).
Let l := AsString packet.
Let len := sp_size packet.
Implicit Types (self : RtpPacket) (header : Header) (e : option (Z * list Z)).

(** The rest of a packet is CSRCs, extension, payload and padding. *)
Definition rest_wire (cs : list Z) e (pay pad : list Z) : list Z :=
  wire_words cs ++ wire_extension e ++ pay ++ pad.
Definition rest_legal (cs : list Z) e (pay pad : list Z) : Prop :=
  Forall is_u32 cs ∧ extension_legal e ∧ bytes_ok pay ∧ padding_legal pad.
Definition rest_received (cs : list Z) e (pay : list Z) self : RtpPacket :=
  mk_rtp (rtp_header self) (csrcs self ++ cs)
    (mk_extension
       (match e with
        | None => ext_header (extension self)
        | Some (prof, value) => mk_header_extension prof (zlen value / 4)
        end)
       (one_byte_ext (extension self)) (two_bytes_ext (extension self))) pay.
Definition header_says header (cs : list Z) e (pad : list Z) : Prop :=
  csrc_count header = zlen cs ∧ hdr_extension header = flag e ∧
  hdr_padding header = match pad with [] => 0 | _ => 1 end.

Lemma last_rd (a b : list Z) x : last b = Some x → rd (a ++ b) (zlen (a ++ b) - 1) = Ret x.
Proof.
  intros [b' ->]%last_Some. rewrite app_assoc.
  rewrite rd_app_r by (zlen_simp; zlen_eval; lia).
  replace (_ - _) with 0 by (zlen_simp; zlen_eval; lia). done.
Qed.

Lemma decode_extension_wire header self i e r pay :
  0 <= i → i <= len → zdrop i l = wire_extension e ++ r → extension_legal e →
  hdr_extension header = flag e →
  ∃ self', decode_extension packet header i self = Ret (inr (self', zlen (wire_extension e))) ∧
    mk_rtp (rtp_header self') (csrcs self') (extension self') pay = rest_received [] e pay self.
Proof.
  intros Hi Hle Hd He H2.
  assert (Hlen : zlen (zdrop i l) = len - i)
    by (rewrite zlen_zdrop; unfold l; rewrite packet_len; fold len; lia || done).
  rewrite Hd in Hlen. pose proof (zlen_nonneg r). unfold rest_received. rewrite app_nil_r.
  destruct e as [[prof value]|]; cbn [flag] in H2.
  - destruct He as (Hprof & Hv & H4 & Hn). cbn [wire_extension] in *. pose proof (zlen_nonneg value).
    rewrite decode_extension_ok by (done || lia). fold l len. zlen_simp.
    rewrite <-(zdrop_zdrop 2), Hd by lia. rewrite <-!app_assoc.
    rewrite (zdrop_app_all _ _ 2), !ztake_app_all by (by zlen_simp).
    rewrite !be_val_u16 by done.
    rewrite !bool_decide_false by (Z.to_euclidean_division_equations; lia).
    exists (with_extension prof (zlen value / 4) self). split; [|done].
    do 3 f_equal. Z.to_euclidean_division_equations. lia.
  - rewrite decode_no_extension by lia. eexists. split; [done|].
    by destruct self as [? ? [? ? ?] ?].
Qed.

Lemma decode_padding_wire header j pay pad :
  0 <= j → j <= len → zdrop j l = pay ++ pad → padding_legal pad →
  hdr_padding header = (match pad with [] => 0 | _ => 1 end) →
  decode_padding packet header (len - j) = Ret (Some (zlen pay, zlen pad)).
Proof.
  intros Hj Hle Hd [_ Hpad] H3.
  assert (Hlen : zlen (zdrop j l) = len - j)
    by (rewrite zlen_zdrop; unfold l; rewrite packet_len; fold len; lia || done).
  rewrite Hd, zlen_app in Hlen.
  destruct pad as [|z pad]; [|destruct Hpad as [|Hlast]; [done|]].
  { unfold decode_padding. rewrite H3, bool_decide_false by lia. do 3 f_equal.
    change (zlen []) with 0 in Hlen. lia. }
  rewrite zlen_cons in *. pose proof (zlen_nonneg pad). pose proof (zlen_nonneg pay).
  destruct (decode_padding_ok packet Hwf Hok header (len - j)) as (x & Hx & _ & ->);
    [fold len; lia|lia|].
  assert (E : l = (ztake j l ++ pay) ++ z :: pad)
    by (rewrite <-app_assoc, <-Hd; symmetry; apply ztake_zdrop).
  rewrite <-(packet_len packet Hwf) in Hx. fold l in Hx. rewrite E in Hx.
  rewrite (last_rd _ _ _ Hlast) in Hx. inv_ret Hx.
  rewrite bool_decide_false by lia. do 3 f_equal. lia.
Qed.

Lemma decode_rest_wire header self cs e pay pad :
  12 <= len → zdrop 12 l = rest_wire cs e pay pad → rest_legal cs e pay pad →
  header_says header cs e pad →
  decode_rest packet header self = Ret (rest_received cs e pay self, 0).
Proof.
  intros Hlen Hr (Hcs & He & Hpay & Hpad) (H1 & H2 & H3). unfold decode_rest, kHeaderSize.
  assert (Hsz : len = 12 + 4 * zlen cs + zlen (wire_extension e) + zlen pay + zlen pad).
  { assert (zlen (zdrop 12 l) = len - 12)
      by (rewrite zlen_zdrop; unfold l; rewrite packet_len; fold len; lia || done).
    rewrite Hr in *. unfold rest_wire in *. zlen_simp. lia. }
  pose proof (zlen_nonneg cs). pose proof (zlen_nonneg (wire_extension e)).
  pose proof (zlen_nonneg pay). pose proof (zlen_nonneg pad).
  rewrite decode_csrc_ok by (done || fold len; lia). fold len l. rewrite bool_decide_false by lia.
  cbn [mbind result_bind]. rewrite H1, Hr. replace (Z.to_nat (zlen cs)) with (length cs) by (unfold zlen; lia).
  unfold rest_wire at 1. rewrite words_wire_words by done.
  assert (Hi : zdrop (12 + 4 * zlen cs) l = wire_extension e ++ pay ++ pad).
  { rewrite <-zdrop_zdrop, Hr by lia. unfold rest_wire. by rewrite zdrop_app_all by (by zlen_simp). }
  destruct (decode_extension_wire header (with_csrcs cs self) (12 + 4 * zlen cs) e (pay ++ pad) pay)
    as (self' & -> & Hself); [lia|lia|done..|]. cbn [mbind result_bind].
  assert (Hj : zdrop (12 + 4 * zlen cs + zlen (wire_extension e)) l = pay ++ pad).
  { rewrite <-zdrop_zdrop, Hi by lia. by rewrite zdrop_app_all. }
  rewrite (decode_padding_wire header _ pay pad) by (done || lia). cbn [mbind result_bind].
  rewrite string_assign_ok by (done || fold len; lia). fold l. rewrite Hj, ztake_app_all by done.
  cbn [mbind result_bind]. rewrite bool_decide_false by (fold len; lia). rewrite Hself.
  unfold rest_received, with_csrcs. cbn [csrcs rtp_header extension]. by rewrite app_nil_r.
Qed.

Lemma decode_extension_total header self i :
  0 <= i <= len → 0 <= hdr_extension header < 2 →
  ∃ o, decode_extension packet header i self = Ret o ∧
  match o with
  | inl _ => True
  | inr (_, n) => ∃ e, extension_legal e ∧ hdr_extension header = flag e ∧
      zlen (wire_extension e) = n ∧ ztake n (zdrop i l) = wire_extension e ∧ i + n <= len
  end.
Proof.
  intros Hi Hx. destruct (decide (hdr_extension header = 1)) as [E|E]; cycle 1.
  { rewrite decode_no_extension by done. eexists. split; [done|]. exists None. cbn [extension_legal flag wire_extension]. rewrite ztake_0. split_and!; done || lia. }
  rewrite decode_extension_ok by (done || lia). fold l len. eexists. split; [done|].
  destruct (bool_decide_reflect (len < i + 4)) as [|Hi4]; [done|].
  set (n := be_val (ztake 2 (zdrop (i + 2) l))). destruct (bool_decide_reflect (len < i + 4 + 4 * n)); [done|].
  assert (Hl : zlen (zdrop i l) = len - i)
    by (rewrite zlen_zdrop; unfold l; rewrite packet_len; fold len; lia || done).
  assert (Hn : is_u16 n).
  { pose proof (be_val_range (ztake 2 (zdrop (i + 2) l))) as R. rewrite block_length in R;
      [|lia|lia|unfold l; rewrite packet_len; fold len; lia || done]. apply R.
    unfold l. auto with baize. }
  assert (Hv : zlen (ztake (4 * n) (zdrop 4 (zdrop i l))) = 4 * n)
    by (apply block_length; unfold_u; lia).
  assert (Hb : bytes_ok (zdrop i l)) by (unfold l; auto with baize).
  exists (Some (be_val (ztake 2 (zdrop i l)), ztake (4 * n) (zdrop 4 (zdrop i l)))).
  cbn [wire_extension flag extension_legal]. rewrite zlen_app, zlen_app, Hv, !zlen_be_bytes.
  replace (4 * n / 4) with n by (Z.to_euclidean_division_equations; lia).
  split_and!; [|auto with baize|Z.to_euclidean_division_equations; lia|done|done|lia| |lia].
  - pose proof (be_val_range (ztake 2 (zdrop i l))) as R. rewrite zlen_ztake in R by lia.
    apply R. auto with baize.
  - pose proof (be_bytes_block 2 (zdrop i l)) as B1. pose proof (be_bytes_block 2 (zdrop (i + 2) l)) as B2.
    change (Z.of_nat 2) with 2 in *. fold n in B2. rewrite B1, B2;
      [|unfold l; auto with baize|rewrite <-zdrop_zdrop, zlen_zdrop by lia; lia|done|lia].
    rewrite (ztake_split 2) by (unfold_u; lia). rewrite (ztake_split 2 (4 + 4 * n - 2)) by (unfold_u; lia).
    rewrite !zdrop_zdrop by lia. do 2 f_equal. f_equal; [lia|]. f_equal. lia.
Qed.

Lemma decode_padding_total header j :
  0 <= j <= len → 0 <= hdr_padding header < 2 →
  ∃ o, decode_padding packet header (len - j) = Ret o ∧
  match o with
  | None => True
  | Some (a, b) => ∃ pad, padding_legal pad ∧ hdr_padding header = (match pad with [] => 0 | _ => 1 end) ∧
      0 <= a ∧ j + a + b = len ∧ zlen pad = b ∧ zdrop (j + a) l = pad
  end.
Proof.
  intros Hj Hp. assert (Hl : zlen l = len) by (by apply packet_len).
  destruct (decide (hdr_padding header = 0)) as [E|E].
  { unfold decode_padding. rewrite bool_decide_false by lia. eexists. split; [done|]. exists [].
    split; [split; [constructor|by left]|]. rewrite zdrop_ge by lia. split_and!; done || lia. }
  destruct (decide (len - j = 0)).
  { unfold decode_padding. rewrite !bool_decide_true by lia. by eexists. }
  destruct (decode_padding_ok packet Hwf Hok header (len - j)) as (x & Hx & Hx8 & ->);
    [fold len; lia|done|]. fold l len in Hx. eexists. split; [done|].
  destruct (bool_decide_reflect (x = 0 ∨ len - j < x)); [done|]. unfold_u.
  assert (Hz : zlen (zdrop (len - x) l) = x) by (rewrite zlen_zdrop; lia).
  exists (zdrop (len - x) l). split_and!; try lia.
  - split; [unfold l; auto with baize|]. right. rewrite Hz. rewrite last_lookup.
    apply rd_Ret in Hx as [_ Hx]. unfold zdrop. rewrite lookup_drop, <-Hx. f_equal.
    rewrite length_drop. unfold zlen in *. lia.
  - destruct (zdrop (len - x) l); [change (zlen []) with 0 in Hz|]; lia.
  - f_equal. lia.
Qed.

Lemma decode_rest_total header self :
  12 <= len → 0 <= csrc_count header → 0 <= hdr_extension header < 2 → 0 <= hdr_padding header < 2 →
  ∃ self' r, decode_rest packet header self = Ret (self', r) ∧
  (r = -1 ∨ r = 0 ∧ ∃ cs e pay pad, zdrop 12 l = rest_wire cs e pay pad ∧
     rest_legal cs e pay pad ∧ header_says header cs e pad).
Proof.
  intros Hlen Hc He Hp. unfold decode_rest, kHeaderSize. fold len.
  assert (Hl : zlen l = len) by (by apply packet_len).
  assert (Hb : bytes_ok l) by done.
  rewrite decode_csrc_ok by (done || fold len; lia). fold l len. cbn [mbind result_bind].
  destruct (bool_decide_reflect (len < 12 + 4 * csrc_count header)); [eauto 10|].
  destruct (decode_extension_total header
    (with_csrcs (words (Z.to_nat (csrc_count header)) (zdrop 12 l)) self) (12 + 4 * csrc_count header))
    as ([?|[self' n']] & -> & Ho); [lia|done|cbn [mbind result_bind]; eauto 10|].
  destruct Ho as (e & He1 & He2 & He3 & He4 & He5). pose proof (zlen_nonneg (wire_extension e)).
  cbn [mbind result_bind].
  destruct (decode_padding_total header (12 + 4 * csrc_count header + n'))
    as ([[a b]|] & -> & Ho); [lia|done| |cbn [mbind result_bind]; eauto 10].
  destruct Ho as (pad & Hp1 & Hp2 & Ha & Hab & Hp3 & Hp4). pose proof (zlen_nonneg pad).
  cbn [mbind result_bind]. rewrite string_assign_ok by (done || fold len; lia). fold l.
  cbn [mbind result_bind]. rewrite bool_decide_false by lia. do 2 eexists. split; [done|].
  right. split; [done|].
  destruct (wire_words_words (Z.to_nat (csrc_count header)) (zdrop 12 l)) as [W1 W2];
    [auto with baize|rewrite zlen_zdrop; lia|].
  exists (words (Z.to_nat (csrc_count header)) (zdrop 12 l)), e,
    (ztake a (zdrop (12 + 4 * csrc_count header + n') l)), pad. split_and!; [|repeat split; auto with baize|].
  - unfold rest_wire. rewrite W1, <-He4, <-Hp4, Z2Nat.id by done.
    rewrite (zdrop_split 12 (12 + 4 * csrc_count header)) at 1 by lia. f_equal; [f_equal; lia|].
    set (i := 12 + 4 * csrc_count header) in *.
    rewrite (zdrop_split i (i + n')) at 1 by lia. f_equal; [f_equal; lia|].
    rewrite (zdrop_split (i + n') (i + n' + a)) at 1 by lia. f_equal. f_equal. lia.
  - apply Hp1.
  - apply Hp1.
  - unfold header_says, zlen. rewrite length_words. split_and!; [lia|done|done].
Qed.
End accepted.

Lemma Decode_wire packet self m :
  sp_wf packet → legal m → AsString packet = wire m →
  bytes_ok (AsString packet) → Decode packet self = Ret (received m self, 0).
Proof.
  intros Hwf Hm Hl Hok. destruct Hm. pose proof (zlen_nonneg (m_csrcs m)).
  assert (Hp : 0 <= padding_flag m < 2) by (unfold padding_flag; destruct (m_padding m); lia).
  assert (Hx : 0 <= flag (m_extension m) < 2) by (destruct (m_extension m); cbn; lia).
  set (tl := be_bytes 2 (m_sequence_number m) ++ be_bytes 4 (m_timestamp m) ++ be_bytes 4 (m_ssrc m) ++
    rest_wire (m_csrcs m) (m_extension m) (m_payload m) (m_padding m)).
  assert (Hw : wire m =
    [128 + 32 * padding_flag m + 16 * flag (m_extension m) + zlen (m_csrcs m);
     128 * m_marker m + m_payload_type m] ++ tl) by done. rewrite Hw in Hl.
  assert (Htl : zlen tl = 10 + zlen (rest_wire (m_csrcs m) (m_extension m) (m_payload m) (m_padding m)))
    by (unfold tl; zlen_simp; lia).
  pose proof (zlen_nonneg (rest_wire (m_csrcs m) (m_extension m) (m_payload m) (m_padding m))).
  assert (Hlen : 12 <= sp_size packet).
  { rewrite <-packet_len, Hl by done. rewrite zlen_app. zlen_eval. lia. }
  destruct (Decode_head packet Hwf Hok _ _ tl Hl Hlen self) as (header & H1 & H2 & H3 & ->).
  rewrite bool_decide_true by lia.
  erewrite decode_rest_wire with (cs := m_csrcs m) (e := m_extension m) (pay := m_payload m)
    (pad := m_padding m); [|done|done|done| |by unfold rest_legal; auto|].
  - unfold rest_received, received, host_header, tl. cbn [rtp_header csrcs extension].
    do 3 f_equal. rewrite ztake_app_all, (zdrop_app_all _ _ 2), ztake_app_all by (by zlen_simp).
    rewrite (app_assoc (be_bytes 2 _)), zdrop_app_all, ztake_app_all by (by zlen_simp).
    rewrite be_val_u16, !be_val_u32 by done. f_equal; Z.to_euclidean_division_equations; lia.
  - rewrite Hl. unfold tl. rewrite !app_assoc. by rewrite zdrop_app_all by (zlen_simp; lia).
  - unfold header_says. fold (padding_flag m). rewrite H1, H2, H3.
    split_and!; Z.to_euclidean_division_equations; lia.
Qed.

Lemma Decode_total packet self :
  sp_wf packet → bytes_ok (AsString packet) →
  ∃ self' r, Decode packet self = Ret (self', r) ∧
  (r = -1 ∨ r = 0 ∧ ∃ m, legal m ∧ AsString packet = wire m).
Proof.
  intros Hwf Hok. destruct (decide (sp_size packet < 12)) as [Hs|Hs].
  { exists self, (-1). split; [|by left]. unfold Decode, IsRtp, kHeaderSize.
    rewrite (bool_decide_false (sp_size packet >= 12)) by lia. done. }
  pose proof (packet_len packet Hwf) as Hlen.
  destruct (AsString packet) as [|b0 [|b1 tl]] eqn:Hl; [zlen_simp; lia..|].
  assert (Hok' := Hok). rewrite <-Hl in Hok'.
  destruct (Decode_head packet Hwf Hok' b0 b1 tl Hl) with (self := self) as (header & H1 & H2 & H3 & ->); [lia|].
  destruct (bool_decide_reflect (128 <= b0 < 192)); [|eauto 10].
  destruct (decode_rest_total packet Hwf Hok' header
    (mk_rtp (host_header b0 b1 tl) (csrcs self) (extension self) (payload self)))
    as (self' & r & -> & Hr); [lia|rewrite ?H1, ?H2, ?H3; Z.to_euclidean_division_equations; lia..|].
  exists self', r. split; [done|]. destruct Hr as [->|(-> & cs & e & pay & pad & E & Hleg & Hh)]; [by left|].
  right. split; [done|]. destruct Hleg as (L1 & L2 & L3 & L4). destruct Hh as (E1 & E2 & E3).
  apply bytes_ok_cons in Hok as [B0 [B1 Btl]%bytes_ok_cons].
  assert (Hz : zdrop 12 (AsString packet) = zdrop 10 tl).
  { rewrite Hl, (zdrop_app_ge _ [b0; b1] tl) by (zlen_eval; lia). done. }
  rewrite !zlen_cons in Hlen.
  assert (Hu : ∀ i n, 0 <= i → 0 <= n → i + n <= 10 → 0 <= be_val (ztake n (zdrop i tl)) < 256 ^ n).
  { intros i n ???. rewrite <-(block_length tl i n) at 3 by lia. apply be_val_range. auto with baize. }
  exists (mk_message (b1 / 128) (b1 mod 128) (be_val (ztake 2 tl)) (be_val (ztake 4 (zdrop 2 tl)))
    (be_val (ztake 4 (zdrop 6 tl))) cs e pay pad). unfold_u. split.
  - constructor; cbn; try done; try (Z.to_euclidean_division_equations; lia).
    + apply (Hu 0 2); lia.
    + apply (Hu 2 4); lia.
    + apply (Hu 6 4); lia.
  - unfold wire, padding_flag. cbn [m_marker m_payload_type m_sequence_number m_timestamp m_ssrc m_csrcs
      m_extension m_payload m_padding]. rewrite <-E1, <-E2, <-E3. cbn [app].
    f_equal; [Z.to_euclidean_division_equations; lia|]. f_equal; [Z.to_euclidean_division_equations; lia|].
    change (wire_words cs ++ _) with (rest_wire cs e pay pad). rewrite <-E, Hz.
    pose proof (be_bytes_block 2 tl) as P2. pose proof (be_bytes_block 4 (zdrop 2 tl)) as P4.
    pose proof (be_bytes_block 4 (zdrop 6 tl)) as P8.
    change (Z.of_nat 2) with 2 in *. change (Z.of_nat 4) with 4 in *.
    rewrite P2, P4, P8 by (auto with baize || (rewrite ?zlen_zdrop; lia)).
    rewrite <-(zdrop_split 6 10) by lia. rewrite <-(zdrop_split 2 6) by lia. by rewrite ztake_zdrop.
Qed.

(** C19: [Decode] is total on every slice of bytes (no read leaves the
    packet), it returns 0 exactly for the RTP messages of the wire format,
    and the object then holds that message: header fields in host order, the
    CSRCs appended, the extension header and the payload without padding. *)
Theorem rtp_Decode_correct packet self :
  sp_wf packet → bytes_ok (AsString packet) →
  ∃ self' r, Decode packet self = Ret (self', r) ∧
  ((r = 0 ∧ ∃ m, legal m ∧ AsString packet = wire m ∧ self' = received m self) ∨
   (r = -1 ∧ ∀ m, legal m → AsString packet ≠ wire m)).
Proof.
  intros Hwf Hok. destruct (Decode_total packet self Hwf Hok) as (self' & r & E & Hr).
  exists self', r. split; [done|]. destruct Hr as [->|(-> & m & Hm & Hl)].
  - right. split; [done|]. intros m Hm Hl. rewrite (Decode_wire packet self m) in E by done. congruence.
  - left. split; [done|]. exists m. split_and!; [done..|].
    rewrite (Decode_wire packet self m) in E by done. congruence.
Qed.

Definition sample : message :=
  mk_message 1 96 0x1234 0x01020304 0xCAFEBABE [7; 8] (Some (0xbede, [0x10; 0xAA; 0; 0])) [1; 2; 3] [0; 2].

Lemma rtp_Decode_correct_witness :
  ∃ self' r, Decode (StringPiece_string (wire sample)) RtpPacket_new = Ret (self', r) ∧
  ((r = 0 ∧ ∃ m, legal m ∧ wire sample = wire m ∧ self' = received m RtpPacket_new) ∨
   (r = -1 ∧ ∀ m, legal m → wire sample ≠ wire m)).
Proof.
  apply (rtp_Decode_correct (StringPiece_string (wire sample)) RtpPacket_new).
  - apply sp_wf_string.
  - apply (bool_decide_unpack _). vm_compute. exact I.
Defined.
