(* ===== verification/Rtcp.v ===== *)
(** * RTCP packets: webrtc/rtp/rtcp_packet.{h,cc}

    [IsRtcp], the picture-loss feedback with its encoder and decoder, the
    receiver and sender reports, and the source description.  Decoders read
    the packet through structures laid over its memory. *)

From Stdlib Require Import ZArith Lia Bool.
From stdpp Require Import base numbers list.
From S2P Require Import Prelude Types StringPiece.

Definition kCommonHeaderSize : Z := 4.
Definition kFeedbackHeaderSize : Z := 8.
Definition kReportSize : Z := 24.
Definition kSendInfoSize : Z := 24.

Definition SR : Z := 200.
Definition RR : Z := 201.
Definition SDES : Z := 202.
Definition BYE : Z := 203.
Definition APP : Z := 204.
Definition RTPFB : Z := 205.
Definition PSFB : Z := 206.
Definition XR : Z := 207.
Definition PLI : Z := 1.

Record CommonHeader : Type := mk_common {
  count : Z;
  padding : Z;
  version : Z;
  type_ : Z;
  length_w : Z;
}.
Definition CommonHeader_new : CommonHeader := mk_common 0 0 0 0 0.
Definition set_length (v : Z) (h : CommonHeader) : CommonHeader :=
  mk_common (count h) (padding h) (version h) (type_ h) v.

(** The structure read from, and written to, memory. *)
Definition load_common (data : list Z) (p : Z) : result CommonHeader :=
  b0 ← load 1 data p;
  t ← load 1 data (p + 1);
  n ← load 2 data (p + 2);
  Ret (mk_common (bit_field b0 0 5) (bit_field b0 5 1) (bit_field b0 6 2) t n).
Definition mem_common (h : CommonHeader) : list Z :=
  [Z.lor (Z.lor (count h) (Z.shiftl (padding h) 5)) (Z.shiftl (version h) 6); type_ h] ++
  le_bytes 2 (length_w h).

Definition IsRtcp (packet : StringPiece) : result bool :=
  and_then (bool_decide (sp_size packet >= kCommonHeaderSize))
    (d0 ← sp_index packet 0; and_then (bool_decide (d0 > 127) && bool_decide (d0 < 192))
      (header ← load_common (sp_mem packet) (ptr_ packet);
       Ret (bool_decide (version header = 2) &&
            (bool_decide (type_ header >= 192) && bool_decide (type_ header <= 223))))).

(** ** Picture loss indication *)
Record FeedbackHeader : Type := mk_fb {
  fb_sender_ssrc : Z;
  fb_media_ssrc : Z;
}.
Definition load_fb (data : list Z) (p : Z) : result FeedbackHeader :=
  a ← load 4 data p;
  b ← load 4 data (p + 4);
  Ret (mk_fb a b).
Definition mem_fb (h : FeedbackHeader) : list Z :=
  le_bytes 4 (fb_sender_ssrc h) ++ le_bytes 4 (fb_media_ssrc h).

Record PliPsFb : Type := mk_pli {
  pli_comm_header : CommonHeader;
  pli_fb_header : FeedbackHeader;
}.
Definition PliPsFb_new : PliPsFb := mk_pli CommonHeader_new (mk_fb 0 0).

Definition Pli_Decode (packet : StringPiece) (self : PliPsFb) : result (PliPsFb * Z) :=
  if bool_decide (sp_size packet ≠ kCommonHeaderSize + kFeedbackHeaderSize) then Ret (self, -1)
  else
    common_header ← load_common (sp_mem packet) (ptr_ packet);
    let comm := set_length (NetworkToHost16 (length_w common_header)) common_header in
    feedback_header ← load_fb (sp_mem packet) (ptr_ packet + kCommonHeaderSize);
    let fb := mk_fb (NetworkToHost32 (fb_sender_ssrc feedback_header))
                    (NetworkToHost32 (fb_media_ssrc feedback_header)) in
    Ret (mk_pli comm fb, 0).

(** The slice is an output: its memory is written and its size set. *)
Definition Pli_Encode (packet : StringPiece) (self : PliPsFb) : result (StringPiece * Z) :=
  let encode_len := kCommonHeaderSize + kFeedbackHeaderSize in
  if bool_decide (sp_size packet < encode_len) then Ret (packet, -1)
  else
    let tmp_comm := set_length (HostToNetwork16 (length_w (pli_comm_header self))) (pli_comm_header self) in
    mem ← store (sp_mem packet) (ptr_ packet) (mem_common tmp_comm);
    let tmp_fb := mk_fb (HostToNetwork32 (fb_sender_ssrc (pli_fb_header self)))
                        (HostToNetwork32 (fb_media_ssrc (pli_fb_header self))) in
    mem ← store mem (ptr_ packet + kCommonHeaderSize) (mem_fb tmp_fb);
    Ret (sp_set packet mem (ptr_ packet) encode_len, 0).

(** ** Reports *)
Record Report : Type := mk_report {
  rp_ssrc : Z;
  fraction_lost : Z;
  total_lost : Z;
  last_seq : Z;
  jitter : Z;
  lsr : Z;
  dlsr : Z;
}.

(** The loss fields share one 32-bit unit, the fraction in its low byte. *)
Definition load_report (data : list Z) (p : Z) : result Report :=
  a ← load 4 data p;
  w ← load 4 data (p + 4);
  c ← load 4 data (p + 8);
  d ← load 4 data (p + 12);
  e ← load 4 data (p + 16);
  f ← load 4 data (p + 20);
  Ret (mk_report a (bit_field w 0 8) (bit_field w 8 24) c d e f).
Definition mem_report (r : Report) : list Z :=
  le_bytes 4 (rp_ssrc r) ++ le_bytes 4 (Z.lor (fraction_lost r) (Z.shiftl (total_lost r) 8)) ++
  le_bytes 4 (last_seq r) ++ le_bytes 4 (jitter r) ++ le_bytes 4 (lsr r) ++ le_bytes 4 (dlsr r).

(** The conversions of one block; the loss count is re-read from the bytes
    of the copied structure. *)
Definition decode_report (data : list Z) (p : Z) : result Report :=
  item ← load_report data p;
  let item := mk_report (NetworkToHost32 (rp_ssrc item)) (fraction_lost item) (total_lost item)
    (NetworkToHost32 (last_seq item)) (NetworkToHost32 (jitter item)) (NetworkToHost32 (lsr item))
    (NetworkToHost32 (dlsr item)) in
  lost ← byte3 (mem_report item) 5;
  Ret (mk_report (rp_ssrc item) (fraction_lost item) lost (last_seq item) (jitter item) (lsr item)
         (dlsr item)).

(** [while ((count--) && (len > offset))], with [break] on a short block. *)
Fixpoint report_loop (n : nat) (packet : StringPiece) (offset : Z) (reports : list Report)
    : result (list Report) :=
  match n with
  | O => Ret reports
  | S n =>
      if bool_decide (sp_size packet > offset) then
        if bool_decide (sp_size packet - offset < kReportSize) then Ret reports
        else
          item ← decode_report (sp_mem packet) (ptr_ packet + offset);
          report_loop n packet (offset + kReportSize) (reports ++ [item])
      else Ret reports
  end.

Record RrPacket : Type := mk_rr {
  rr_comm_header : CommonHeader;
  rr_sender_ssrc : Z;
  rr_reports : list Report;
}.
Definition RrPacket_new : RrPacket := mk_rr CommonHeader_new 0 [].

Definition Rr_Decode (packet : StringPiece) (self : RrPacket) : result (RrPacket * Z) :=
  if bool_decide (sp_size packet < kCommonHeaderSize + 4) then Ret (self, -1)
  else
    common_header ← load_common (sp_mem packet) (ptr_ packet);
    let comm := set_length (NetworkToHost16 (length_w common_header)) common_header in
    sender ← byte4 (sp_mem packet) (ptr_ packet + kCommonHeaderSize);
    reports ← report_loop (Z.to_nat (count common_header)) packet (kCommonHeaderSize + 4)
                (rr_reports self);
    Ret (mk_rr comm sender reports, 0).

Record SendInfo : Type := mk_send_info {
  si_ssrc : Z;
  ntp_sec : Z;
  ntp_frac : Z;
  rtp_ts : Z;
  packet_count : Z;
  octet_count : Z;
}.
Definition load_send_info (data : list Z) (p : Z) : result SendInfo :=
  a ← load 4 data p;
  b ← load 4 data (p + 4);
  c ← load 4 data (p + 8);
  d ← load 4 data (p + 12);
  e ← load 4 data (p + 16);
  f ← load 4 data (p + 20);
  Ret (mk_send_info a b c d e f).

Record SrPacket : Type := mk_sr {
  sr_comm_header : CommonHeader;
  sr_send_info : SendInfo;
  sr_reports : list Report;
}.
Definition SrPacket_new : SrPacket := mk_sr CommonHeader_new (mk_send_info 0 0 0 0 0 0) [].

Definition Sr_Decode (packet : StringPiece) (self : SrPacket) : result (SrPacket * Z) :=
  if bool_decide (sp_size packet < kCommonHeaderSize + kSendInfoSize) then Ret (self, -1)
  else
    common_header ← load_common (sp_mem packet) (ptr_ packet);
    let comm := set_length (NetworkToHost16 (length_w common_header)) common_header in
    si ← load_send_info (sp_mem packet) (ptr_ packet + kCommonHeaderSize);
    let si := mk_send_info (NetworkToHost32 (si_ssrc si)) (NetworkToHost32 (ntp_sec si))
      (NetworkToHost32 (ntp_frac si)) (NetworkToHost32 (rtp_ts si))
      (NetworkToHost32 (packet_count si)) (NetworkToHost32 (octet_count si)) in
    reports ← report_loop (Z.to_nat (count common_header)) packet (kCommonHeaderSize + kSendInfoSize)
                (sr_reports self);
    Ret (mk_sr comm si reports, 0).

(** ** Source description *)
Record Item : Type := mk_item {
  item_type : Z;
  item_length : Z;
  item_value : list Z;
}.
Definition item_size (i : Item) : Z := 2 + item_length i.
Record Chunk : Type := mk_chunk {
  chunk_ssrc : Z;
  chunk_items : list Item;
}.
Definition chunk_size (c : Chunk) : Z := foldl (λ ret i, ret + item_size i) 4 (chunk_items c).
Definition END : Z := 0.

(** [value.assign(reinterpret_cast<char*>(offset + 2), n)]: the pointer is
    the number itself; reading even one byte there is a wild access. *)
Definition assign_from_number (n : Z) : result (list Z) :=
  if bool_decide (n = 0) then Ret [] else Fault WildPointer.

Fixpoint decode_item_loop (fuel : nat) (packet : StringPiece) (offset : Z) (items : list Item)
    : result (list Item) :=
  match fuel with
  | O => OutOfFuel
  | S fuel =>
      if bool_decide (sp_size packet > offset) then
        let left_len := sp_size packet - offset in
        short ← (if bool_decide (left_len < 2) then Ret true
                 else d1 ← sp_index packet 1; Ret (bool_decide (left_len < 2 + d1)));
        if (short : bool) then Ret items
        else
          t ← sp_index packet offset;
          n ← sp_index packet (offset + 1);
          value ← assign_from_number n;
          if bool_decide (t = END) then Ret items
          else decode_item_loop fuel packet (offset + (2 + n)) (items ++ [mk_item t n value])
      else Ret items
  end.
Definition DecodeItem (packet : StringPiece) : result (list Item) :=
  decode_item_loop (S (Z.to_nat (sp_size packet))) packet 0 [].

Fixpoint chunk_loop (n : nat) (packet : StringPiece) (offset : Z) (chunks : list Chunk)
    : result (list Chunk) :=
  match n with
  | O => Ret chunks
  | S n =>
      if bool_decide (sp_size packet > offset) then
        if bool_decide (sp_size packet - offset < 4) then Ret chunks
        else
          s ← byte4 (sp_mem packet) (ptr_ packet + offset);
          items ← DecodeItem (StringPiece_len (sp_mem packet) (ptr_ packet + offset)
                                (sp_size packet - offset));
          let chunk := mk_chunk s items in
          chunk_loop n packet (offset + chunk_size chunk) (chunks ++ [chunk])
      else Ret chunks
  end.

Record SdesPacket : Type := mk_sdes {
  sdes_comm_header : CommonHeader;
  sdes_chunks : list Chunk;
}.
Definition SdesPacket_new : SdesPacket := mk_sdes CommonHeader_new [].

Definition Sdes_Decode (packet : StringPiece) (self : SdesPacket) : result (SdesPacket * Z) :=
  if bool_decide (sp_size packet < kCommonHeaderSize) then Ret (self, -1)
  else
    common_header ← load_common (sp_mem packet) (ptr_ packet);
    let comm := set_length (NetworkToHost16 (length_w common_header)) common_header in
    chunks ← chunk_loop (Z.to_nat (count common_header)) packet kCommonHeaderSize (sdes_chunks self);
    Ret (mk_sdes comm chunks, 0).

(** ** The wire format *)
Definition wire_common (h : CommonHeader) : list Z :=
  [64 * version h + 32 * padding h + count h; type_ h] ++ be_bytes 2 (length_w h).
Record common_legal (h : CommonHeader) : Prop := {
  cl_count : 0 <= count h < 32;
  cl_padding : 0 <= padding h < 2;
  cl_version : 0 <= version h < 4;
  cl_type : is_u8 (type_ h);
  cl_length : is_u16 (length_w h);
}.
Definition wire_report (r : Report) : list Z :=
  be_bytes 4 (rp_ssrc r) ++ [fraction_lost r] ++ be_bytes 3 (total_lost r) ++
  be_bytes 4 (last_seq r) ++ be_bytes 4 (jitter r) ++ be_bytes 4 (lsr r) ++ be_bytes 4 (dlsr r).
Definition wire_reports (rs : list Report) : list Z := mbind wire_report rs.
Record report_legal (r : Report) : Prop := {
  rl_ssrc : is_u32 (rp_ssrc r);
  rl_fraction : is_u8 (fraction_lost r);
  rl_total : 0 <= total_lost r < 2 ^ 24;
  rl_seq : is_u32 (last_seq r);
  rl_jitter : is_u32 (jitter r);
  rl_lsr : is_u32 (lsr r);
  rl_dlsr : is_u32 (dlsr r);
}.
Definition wire_send_info (s : SendInfo) : list Z :=
  be_bytes 4 (si_ssrc s) ++ be_bytes 4 (ntp_sec s) ++ be_bytes 4 (ntp_frac s) ++
  be_bytes 4 (rtp_ts s) ++ be_bytes 4 (packet_count s) ++ be_bytes 4 (octet_count s).
Definition wire_pli (p : PliPsFb) : list Z :=
  wire_common (pli_comm_header p) ++
  be_bytes 4 (fb_sender_ssrc (pli_fb_header p)) ++ be_bytes 4 (fb_media_ssrc (pli_fb_header p)).
Definition pli_legal (p : PliPsFb) : Prop :=
  common_legal (pli_comm_header p) ∧ is_u32 (fb_sender_ssrc (pli_fb_header p)) ∧
  is_u32 (fb_media_ssrc (pli_fb_header p)).

(** ** The structures, in terms of the packet's text *)
Section reads.
Context (packet : StringPiece) (Hwf : sp_wf packet) (Hok : bytes_ok (AsString packet)).
Let l := AsString packet.
Let len := sp_size packet.

Lemma text_len : zlen l = len.
Proof. by apply packet_len. Qed.

(** The word at [i], as the decoders convert it. *)
Definition word (i : Z) : Z := be_val (ztake 4 (zdrop i l)).

Lemma word_load i :
  0 <= i → i + 4 <= len →
  ∃ raw, load 4 (sp_mem packet) (ptr_ packet + i) = Ret raw ∧ NetworkToHost32 raw = word i ∧
    raw = le_val (ztake 4 (zdrop i l)).
Proof.
  intros. eexists. split; [apply (packet_load packet Hwf 4); fold len; lia|].
  change (Z.of_nat 4) with 4. fold l. split; [|done].
  apply NetworkToHost32_block; [done|lia|rewrite text_len; lia].
Qed.
Lemma word_range i : 0 <= i → i + 4 <= len → is_u32 (word i).
Proof. intros. apply (be_val_block_range 4); rewrite ?text_len; done || lia. Qed.
Lemma word_bytes i : 0 <= i → i + 4 <= len → be_bytes 4 (word i) = ztake 4 (zdrop i l).
Proof. intros. apply (be_bytes_block_at 4); rewrite ?text_len; done || lia. Qed.

Lemma common_header_ok :
  4 <= len →
  ∃ raw h, load_common (sp_mem packet) (ptr_ packet) = Ret raw ∧
    set_length (NetworkToHost16 (length_w raw)) raw = h ∧ common_legal h ∧
    ztake 4 l = wire_common h.
Proof.
  intros Hlen. pose proof text_len as Hl.
  destruct (rd_in_bounds l 0) as [b0 E0]; [lia|]. destruct (rd_in_bounds l 1) as [b1 E1]; [lia|].
  pose proof (rd_is_u8 _ _ _ Hok E0) as B0. pose proof (rd_is_u8 _ _ _ Hok E1) as B1.
  unfold load_common. 
  rewrite (packet_load1_0 packet Hwf b0), (packet_load1 packet Hwf 1 b1) by done.
  rewrite (packet_load packet Hwf 2) by (fold len; lia). change (Z.of_nat 2) with 2. fold l.
  cbn [mbind result_bind]. do 2 eexists. split; [reflexivity|]. split; [reflexivity|].
  unfold set_length. cbn [count padding version type_ length_w].
  rewrite NetworkToHost16_block, !bit_field_eq by (done || lia).
  pose proof (be_val_block_range 2 2 l) as R. unfold_u. split.
  - constructor; cbn [count padding version type_ length_w]; [Z.to_euclidean_division_equations; lia..|done|].
    apply R; done || lia.
  - unfold wire_common. cbn [count padding version type_ length_w].
    rewrite (be_bytes_block_at 2) by (done || lia). change (Z.of_nat 2) with 2.
    apply rd_Ret in E0 as [_ E0]. apply rd_Ret in E1 as [_ E1].
    destruct l as [|c0 [|c1 tl]]; [done..|]. injection E0 as ->. injection E1 as ->.
    rewrite (ztake_split 2 4) by lia. change (ztake 2 (b0 :: b1 :: tl)) with [b0; b1].
    do 2 f_equal. Z.to_euclidean_division_equations. lia.
Qed.

(** The six words of a block of 24 bytes. *)
Lemma block24 i :
  0 <= i → ztake 24 (zdrop i l) =
  ztake 4 (zdrop i l) ++ ztake 4 (zdrop (i + 4) l) ++ ztake 4 (zdrop (i + 8) l) ++
  ztake 4 (zdrop (i + 12) l) ++ ztake 4 (zdrop (i + 16) l) ++ ztake 4 (zdrop (i + 20) l).
Proof.
  intros Hi. do 5 (rewrite (ztake_step 4) by lia; f_equal; rewrite <-?(Z.add_assoc i)).
  f_equal.
Qed.

(** The loss unit: the low byte, then three bytes that are read again. *)
Lemma loss_unit i raw :
  0 <= i → i + 4 <= len → raw = le_val (ztake 4 (zdrop i l)) →
  le_bytes 4 (Z.lor (bit_field raw 0 8) (Z.shiftl (bit_field raw 8 24) 8)) = ztake 4 (zdrop i l) ∧
  [bit_field raw 0 8] = ztake 1 (zdrop i l) ∧ is_u8 (bit_field raw 0 8).
Proof.
  intros Hi Hl ->. pose proof text_len.
  assert (Hb : bytes_ok (ztake 4 (zdrop i l))) by (unfold l; auto with baize).
  pose proof (le_val_range _ Hb) as R. rewrite block_length in R by lia.
  pose proof (le_bytes_le_val _ Hb) as E. assert (B : zlen (ztake 4 (zdrop i l)) = 4) by (apply block_length; lia).
  replace (length _) with 4%nat in E by (unfold zlen in B; lia).
  set (w := le_val _) in *. rewrite !bit_field_eq by lia. change (2 ^ 0) with 1. rewrite Z.div_1_r.
  split_and!.
  - rewrite lor_shiftl_add by (Z.to_euclidean_division_equations; lia).
    rewrite <-E. f_equal. Z.to_euclidean_division_equations. lia.
  - rewrite <-(ztake_ztake 1 4), <-E by lia. done.
  - unfold_u. Z.to_euclidean_division_equations. lia.
Qed.

Lemma decode_report_ok i :
  0 <= i → i + 24 <= len →
  ∃ r, decode_report (sp_mem packet) (ptr_ packet + i) = Ret r ∧ report_legal r ∧
    ztake 24 (zdrop i l) = wire_report r.
Proof.
  intros Hi Hl. unfold decode_report, load_report. rewrite <-!Z.add_assoc.
  destruct (word_load i) as (a & -> & Ha & _); [lia..|].
  destruct (word_load (i + 4)) as (w & -> & _ & Hw); [lia..|].
  destruct (word_load (i + 8)) as (c & -> & Hc & _); [lia..|].
  destruct (word_load (i + 12)) as (d & -> & Hd & _); [lia..|].
  destruct (word_load (i + 16)) as (e & -> & He & _); [lia..|].
  destruct (word_load (i + 20)) as (f & -> & Hf & _); [lia..|].
  cbn [mbind result_bind rp_ssrc fraction_lost total_lost last_seq jitter lsr dlsr].
  rewrite Ha, Hc, Hd, He, Hf.
  destruct (loss_unit (i + 4) w) as (W1 & W2 & W3); [lia..|done|].
  unfold mem_report. cbn [rp_ssrc fraction_lost total_lost last_seq jitter lsr dlsr].
  pose proof text_len.
  assert (Hw4 : zlen (ztake 4 (zdrop (i + 4) l)) = 4) by (apply block_length; lia).
  rewrite W1, byte3_val; [|repeat (apply bytes_ok_app; split; [first [unfold l; auto with baize|auto with baize]|]);
    auto with baize|lia|zlen_simp; lia].
  cbn [mbind result_bind]. rewrite zdrop_app_ge by (zlen_simp; lia). zlen_simp.
  change (5 - Z.of_nat 4) with 1. rewrite zdrop_app_le by lia.
  rewrite zdrop_ztake by lia. change (4 - 1) with 3. rewrite zdrop_zdrop by lia.
  assert (Hw3 : zlen (ztake 3 (zdrop (i + 4 + 1) l)) = 3) by (apply block_length; lia).
  rewrite ztake_app_all by done. eexists. split; [reflexivity|].
  split.
  - constructor; cbn [rp_ssrc fraction_lost total_lost last_seq jitter lsr dlsr];
      try (apply word_range; lia); [done|].
    apply (be_val_block_range 3); done || lia.
  - unfold wire_report. cbn [rp_ssrc fraction_lost total_lost last_seq jitter lsr dlsr].
    rewrite !word_bytes, W2 by lia. rewrite (be_bytes_block_at 3) by (done || lia).
    rewrite block24 by lia. rewrite (ztake_step 1 4 (i + 4)), <-app_assoc by lia. done.
Qed.

Lemma report_loop_ok n i acc :
  0 <= i <= len →
  ∃ rs, report_loop n packet i acc = Ret (acc ++ rs) ∧ Forall report_legal rs ∧
    zlen rs = Z.min (Z.of_nat n) ((len - i) / 24) ∧
    ztake (24 * zlen rs) (zdrop i l) = wire_reports rs.
Proof.
  revert i acc. induction n as [|n IH]; intros i acc Hi; cbn [report_loop]; fold len.
  { exists []. rewrite app_nil_r. split_and!; [done|constructor| |done].
    change (zlen []) with 0. Z.to_euclidean_division_equations. lia. }
  destruct (bool_decide_reflect (len > i)) as [Hgt|Hgt];
    [destruct (bool_decide_reflect (len - i < kReportSize)) as [Hs|Hs]; unfold kReportSize in *|].
  - exists []. rewrite app_nil_r. split_and!; [done|constructor| |done].
    change (zlen []) with 0. Z.to_euclidean_division_equations. lia.
  - destruct (decode_report_ok i) as (r & -> & Hr & Hw); [lia..|]. cbn [mbind result_bind].
    destruct (IH (i + 24) (acc ++ [r])) as (rs & -> & Hrs & Hn & Hws); [lia|].
    exists (r :: rs). rewrite zlen_cons, <-app_assoc. pose proof (zlen_nonneg rs).
    split_and!; [done|by constructor|Z.to_euclidean_division_equations; lia|].
    change (wire_reports (r :: rs)) with (wire_report r ++ wire_reports rs).
    rewrite <-Hw, <-Hws, (ztake_step 24) by lia. do 2 f_equal. lia.
  - exists []. rewrite app_nil_r. split_and!; [done|constructor| |done].
    change (zlen []) with 0. Z.to_euclidean_division_equations. lia.
Qed.
End reads.

Lemma Rr_Decode_ok packet self :
  sp_wf packet → bytes_ok (AsString packet) →
  if bool_decide (sp_size packet < 8) then Rr_Decode packet self = Ret (self, -1)
  else ∃ h sender rs rest,
    Rr_Decode packet self = Ret (mk_rr h sender (rr_reports self ++ rs), 0) ∧
    AsString packet = wire_common h ++ be_bytes 4 sender ++ wire_reports rs ++ rest ∧
    common_legal h ∧ is_u32 sender ∧ Forall report_legal rs ∧
    zlen rs = Z.min (count h) ((sp_size packet - 8) / 24).
Proof.
  intros Hwf Hok. unfold Rr_Decode, kCommonHeaderSize. change (4 + 4) with 8.
  destruct (bool_decide_reflect (sp_size packet < 8)) as [|Hs]; [done|].
  destruct (common_header_ok packet Hwf Hok) as (raw & h & -> & <- & Hh & Hw); [lia|].
  cbn [mbind result_bind]. rewrite packet_byte4 by (done || lia). cbn [mbind result_bind].
  destruct (report_loop_ok packet Hwf Hok (Z.to_nat (count raw)) 8 (rr_reports self))
    as (rs & -> & Hrs & Hn & Hws); [lia|]. cbn [mbind result_bind].
  pose proof (cl_count _ Hh) as Hc. cbn [set_length count] in Hc. rewrite Z2Nat.id in Hn by lia.
  pose proof (packet_len packet Hwf) as Hlen. pose proof (zlen_nonneg rs).
  exists (set_length (NetworkToHost16 (length_w raw)) raw), (word packet 4), rs,
    (zdrop (8 + 24 * zlen rs) (AsString packet)).
  split_and!; [done| |done|apply word_range; done || lia|done|done].
  rewrite <-Hw, <-Hws, word_bytes by (done || lia).
  rewrite <-(ztake_zdrop 4 (AsString packet)) at 1. f_equal.
  rewrite (zdrop_split 4 8) at 1 by lia. f_equal.
  rewrite (zdrop_split 8 (8 + 24 * zlen rs)) at 1 by lia. do 2 f_equal. lia.
Qed.

(** A receiver report decodes without leaving the packet.  Shorter than
    eight bytes it is refused; otherwise the object holds the header, the
    sender and, appended, as many of the announced report blocks as the packet
    has room for, each field in host order. *)
Theorem Rr_Decode_correct packet self :
  sp_wf packet → bytes_ok (AsString packet) →
  if bool_decide (sp_size packet < 8) then Rr_Decode packet self = Ret (self, -1)
  else ∃ h sender rs rest,
    Rr_Decode packet self = Ret (mk_rr h sender (rr_reports self ++ rs), 0) ∧
    AsString packet = wire_common h ++ be_bytes 4 sender ++ wire_reports rs ++ rest ∧
    common_legal h ∧ is_u32 sender ∧ Forall report_legal rs ∧
    zlen rs = Z.min (count h) ((sp_size packet - 8) / 24).
Proof. apply Rr_Decode_ok. Qed.

Definition sample_rr : list Z :=
  wire_common (mk_common 2 0 2 RR 7) ++ be_bytes 4 1234 ++
  wire_report (mk_report 0xCAFEBABE 12 0x010203 5 6 7 8).

Lemma Rr_Decode_correct_witness :
  sp_wf (StringPiece_string sample_rr) ∧
  Rr_Decode (StringPiece_string sample_rr) RrPacket_new =
    Ret (mk_rr (mk_common 2 0 2 RR 7) 1234 [mk_report 0xCAFEBABE 12 0x010203 5 6 7 8], 0) ∧
  ∃ h sender rs rest,
    Rr_Decode (StringPiece_string sample_rr) RrPacket_new = Ret (mk_rr h sender rs, 0) ∧
    sample_rr = wire_common h ++ be_bytes 4 sender ++ wire_reports rs ++ rest.
Proof.
  split; [apply sp_wf_string|]. split; [by vm_compute|].
  destruct (Rr_Decode_correct (StringPiece_string sample_rr) RrPacket_new) as (h & s & rs & rest & E & L & _).
  - apply sp_wf_string.
  - apply (bool_decide_unpack _). vm_compute. exact I.
  - exists h, s, rs, rest. split; [exact E|exact L].
Defined.

Record send_info_legal (s : SendInfo) : Prop := {
  sl_ssrc : is_u32 (si_ssrc s);
  sl_sec : is_u32 (ntp_sec s);
  sl_frac : is_u32 (ntp_frac s);
  sl_ts : is_u32 (rtp_ts s);
  sl_packets : is_u32 (packet_count s);
  sl_octets : is_u32 (octet_count s);
}.

Lemma Sr_Decode_ok packet self :
  sp_wf packet → bytes_ok (AsString packet) →
  if bool_decide (sp_size packet < 28) then Sr_Decode packet self = Ret (self, -1)
  else ∃ h si rs rest,
    Sr_Decode packet self = Ret (mk_sr h si (sr_reports self ++ rs), 0) ∧
    AsString packet = wire_common h ++ wire_send_info si ++ wire_reports rs ++ rest ∧
    common_legal h ∧ send_info_legal si ∧ Forall report_legal rs ∧
    zlen rs = Z.min (count h) ((sp_size packet - 28) / 24).
Proof.
  intros Hwf Hok. unfold Sr_Decode, kCommonHeaderSize, kSendInfoSize. change (4 + 24) with 28.
  destruct (bool_decide_reflect (sp_size packet < 28)) as [|Hs]; [done|].
  destruct (common_header_ok packet Hwf Hok) as (raw & h & -> & <- & Hh & Hw); [lia|].
  cbn [mbind result_bind]. unfold load_send_info. rewrite <-!Z.add_assoc.
  destruct (word_load packet Hwf Hok 4) as (a & -> & Ha & _); [lia..|].
  destruct (word_load packet Hwf Hok (4 + 4)) as (b & -> & Hb & _); [lia..|].
  destruct (word_load packet Hwf Hok (4 + 8)) as (c & -> & Hc & _); [lia..|].
  destruct (word_load packet Hwf Hok (4 + 12)) as (d & -> & Hd & _); [lia..|].
  destruct (word_load packet Hwf Hok (4 + 16)) as (e & -> & He & _); [lia..|].
  destruct (word_load packet Hwf Hok (4 + 20)) as (f & -> & Hf & _); [lia..|].
  cbn [mbind result_bind si_ssrc ntp_sec ntp_frac rtp_ts packet_count octet_count].
  rewrite Ha, Hb, Hc, Hd, He, Hf.
  destruct (report_loop_ok packet Hwf Hok (Z.to_nat (count raw)) 28 (sr_reports self))
    as (rs & -> & Hrs & Hn & Hws); [lia|]. cbn [mbind result_bind].
  pose proof (cl_count _ Hh) as Hct. cbn [set_length count] in Hct. rewrite Z2Nat.id in Hn by lia.
  pose proof (packet_len packet Hwf) as Hlen. pose proof (zlen_nonneg rs).
  do 3 eexists. exists (zdrop (28 + 24 * zlen rs) (AsString packet)).
  split_and!; [reflexivity| |done| |done|done].
  - unfold wire_send_info. cbn [si_ssrc ntp_sec ntp_frac rtp_ts packet_count octet_count].
    rewrite <-Hw, <-Hws, !word_bytes by (done || lia). rewrite <-block24 by (done || lia).
    rewrite <-(ztake_zdrop 4 (AsString packet)) at 1. f_equal.
    rewrite (zdrop_split 4 28) at 1 by lia. f_equal.
    rewrite (zdrop_split 28 (28 + 24 * zlen rs)) at 1 by lia. do 2 f_equal. lia.
  - constructor; cbn [si_ssrc ntp_sec ntp_frac rtp_ts packet_count octet_count];
      apply word_range; done || lia.
Qed.

(** The same for a sender report, refused below 28 bytes: header, sender
    information and the announced blocks there is room for. *)
Theorem Sr_Decode_correct packet self :
  sp_wf packet → bytes_ok (AsString packet) →
  if bool_decide (sp_size packet < 28) then Sr_Decode packet self = Ret (self, -1)
  else ∃ h si rs rest,
    Sr_Decode packet self = Ret (mk_sr h si (sr_reports self ++ rs), 0) ∧
    AsString packet = wire_common h ++ wire_send_info si ++ wire_reports rs ++ rest ∧
    common_legal h ∧ send_info_legal si ∧ Forall report_legal rs ∧
    zlen rs = Z.min (count h) ((sp_size packet - 28) / 24).
Proof. apply Sr_Decode_ok. Qed.

Definition sample_sr : list Z :=
  wire_common (mk_common 1 0 2 SR 12) ++ wire_send_info (mk_send_info 1234 1 2 3 4 5) ++
  wire_report (mk_report 0xCAFEBABE 12 0x010203 5 6 7 8).

Lemma Sr_Decode_correct_witness :
  sp_wf (StringPiece_string sample_sr) ∧
  Sr_Decode (StringPiece_string sample_sr) SrPacket_new =
    Ret (mk_sr (mk_common 1 0 2 SR 12) (mk_send_info 1234 1 2 3 4 5)
           [mk_report 0xCAFEBABE 12 0x010203 5 6 7 8], 0) ∧
  ∃ h si rs rest,
    Sr_Decode (StringPiece_string sample_sr) SrPacket_new = Ret (mk_sr h si rs, 0) ∧
    sample_sr = wire_common h ++ wire_send_info si ++ wire_reports rs ++ rest.
Proof.
  split; [apply sp_wf_string|]. split; [by vm_compute|].
  destruct (Sr_Decode_correct (StringPiece_string sample_sr) SrPacket_new) as (h & s & rs & rest & E & L & _).
  - apply sp_wf_string.
  - apply (bool_decide_unpack _). vm_compute. exact I.
  - exists h, s, rs, rest. split; [exact E|exact L].
Defined.

(** ** Picture loss indication: encoder and decoder *)
Lemma zlen_wire_common h : zlen (wire_common h) = 4.
Proof. done. Qed.
Lemma zlen_wire_pli p : zlen (wire_pli p) = 12.
Proof. unfold wire_pli. zlen_simp. rewrite zlen_wire_common. done. Qed.

Lemma be_bytes_inj n a b :
  be_bytes n a = be_bytes n b → 0 <= a < 256 ^ Z.of_nat n → 0 <= b < 256 ^ Z.of_nat n → a = b.
Proof.
  intros E Ha Hb. rewrite <-(Z.mod_small a (256 ^ Z.of_nat n)), <-(Z.mod_small b (256 ^ Z.of_nat n)) by done.
  by rewrite <-!be_val_be_bytes, E.
Qed.
Lemma app_inj_zlen {A} (a b c d : list A) : zlen a = zlen b → a ++ c = b ++ d → a = b ∧ c = d.
Proof. unfold zlen. intros. apply app_inj_1; [lia|done]. Qed.

Lemma wire_common_inj h h' : common_legal h → common_legal h' → wire_common h = wire_common h' → h = h'.
Proof.
  intros [] [] E. unfold wire_common in E. apply app_inj_zlen in E as [E1 E2]; [|done].
  injection E1 as E1 E3. apply be_bytes_inj in E2; [|done..].
  destruct h, h'; cbn [count padding version type_ length_w] in *. f_equal; lia.
Qed.
Lemma wire_pli_inj p p' : pli_legal p → pli_legal p' → wire_pli p = wire_pli p' → p = p'.
Proof.
  intros (Hc & Hs & Hm) (Hc' & Hs' & Hm') E. unfold wire_pli in E.
  apply app_inj_zlen in E as [E1 E]; [|done]. apply app_inj_zlen in E as [E2 E3]; [|by zlen_simp].
  apply wire_common_inj in E1; [|done..]. apply be_bytes_inj in E2; [|done..].
  apply be_bytes_inj in E3; [|done..].
  destruct p as [c [s m]], p' as [c' [s' m']]. cbn in *. by subst.
Qed.

Lemma Pli_Decode_ok packet self :
  sp_wf packet → bytes_ok (AsString packet) → sp_size packet = 12 →
  ∃ p, Pli_Decode packet self = Ret (p, 0) ∧ pli_legal p ∧ AsString packet = wire_pli p.
Proof.
  intros Hwf Hok Hs. unfold Pli_Decode, kCommonHeaderSize, kFeedbackHeaderSize.
  rewrite bool_decide_false by lia.
  destruct (common_header_ok packet Hwf Hok) as (raw & h & -> & <- & Hh & Hw); [lia|].
  cbn [mbind result_bind]. unfold load_fb. rewrite <-!Z.add_assoc.
  destruct (word_load packet Hwf Hok 4) as (a & -> & Ha & _); [lia..|].
  destruct (word_load packet Hwf Hok (4 + 4)) as (b & -> & Hb & _); [lia..|].
  cbn [mbind result_bind fb_sender_ssrc fb_media_ssrc]. rewrite Ha, Hb.
  pose proof (packet_len packet Hwf) as Hlen. eexists. split; [reflexivity|]. split.
  - split_and!; [done|apply word_range; done || lia..].
  - unfold wire_pli. cbn [pli_comm_header pli_fb_header fb_sender_ssrc fb_media_ssrc].
    rewrite <-Hw, !word_bytes by (done || lia). rewrite (ztake_ge 4 (zdrop (4 + 4) _)) by (rewrite zlen_zdrop; lia).
    rewrite <-(zdrop_split 4 8) by lia. by rewrite ztake_zdrop.
Qed.

Lemma mem_common_wire h :
  common_legal h → mem_common (set_length (HostToNetwork16 (length_w h)) h) = wire_common h.
Proof.
  intros []. unfold mem_common, wire_common, set_length. cbn [count padding version type_ length_w].
  rewrite mem_HostToNetwork16. f_equal. f_equal.
  rewrite (lor_shiftl_add (count h)) by lia. rewrite lor_shiftl_add by lia. lia.
Qed.

Lemma Pli_Encode_ok packet p :
  sp_wf packet → pli_legal p → 12 <= sp_size packet →
  ∃ packet', Pli_Encode packet p = Ret (packet', 0) ∧ sp_wf packet' ∧
    ptr_ packet' = ptr_ packet ∧ AsString packet' = wire_pli p ∧
    sp_mem packet' = ztake (ptr_ packet) (sp_mem packet) ++ wire_pli p ++
                     zdrop (ptr_ packet + 12) (sp_mem packet).
Proof.
  intros (H1 & H2 & H3) (Hc & Hs & Hm) Hlen. unfold Pli_Encode, kCommonHeaderSize, kFeedbackHeaderSize, sp_size in *.
  rewrite bool_decide_false by lia. rewrite mem_common_wire by done.
  set (mem := sp_mem packet) in *. set (q := ptr_ packet) in *.
  set (fb := be_bytes 4 (fb_sender_ssrc (pli_fb_header p)) ++ be_bytes 4 (fb_media_ssrc (pli_fb_header p))).
  assert (Hfb : zlen fb = 8) by (unfold fb; zlen_simp; done).
  unfold store. rewrite zlen_wire_common, bool_decide_true by lia. cbn [mbind result_bind].
  replace (mem_fb _) with fb by (unfold mem_fb, fb; cbn [fb_sender_ssrc fb_media_ssrc]; by rewrite !mem_HostToNetwork32).
  assert (Hq : zlen (ztake q mem) = q) by (apply zlen_ztake; lia).
  assert (Hd : zlen (zdrop (q + 4) mem) = zlen mem - (q + 4)) by (apply zlen_zdrop; lia).
  rewrite bool_decide_true by (zlen_simp; rewrite zlen_wire_common, Hfb, Hq, Hd; lia).
  cbn [mbind result_bind]. rewrite (app_assoc (ztake q mem)).
  rewrite (ztake_app_all _ _ (q + 4)) by (rewrite zlen_app, Hq; done).
  rewrite zdrop_app_ge by (rewrite zlen_app, Hq, zlen_wire_common, Hfb; lia).
  rewrite zlen_app, Hq, zlen_wire_common, Hfb, zdrop_zdrop by lia.
  replace (q + 4 + (q + 4 + 8 - (q + 4))) with (q + 12) by lia.
  assert (Hmem : (ztake q mem ++ wire_common (pli_comm_header p)) ++ fb ++ zdrop (q + 12) mem =
                 ztake q mem ++ wire_pli p ++ zdrop (q + 12) mem)
    by (unfold wire_pli, fb; by rewrite <-!app_assoc).
  rewrite Hmem. eexists. split; [reflexivity|]. unfold sp_set. cbn [sp_mem ptr_ length_].
  split; [|split; [done|split; [|done]]].
  - unfold sp_wf. cbn [sp_mem ptr_ length_]. rewrite !zlen_app, zlen_wire_pli, Hq, zlen_zdrop by lia. lia.
  - unfold AsString. cbn [sp_mem ptr_ length_]. rewrite zdrop_app_all by done.
    by rewrite ztake_app_all by apply zlen_wire_pli.
Qed.

Lemma bytes_ok_wire_pli p : pli_legal p → bytes_ok (wire_pli p).
Proof.
  intros ([] & _ & _). unfold wire_pli, wire_common. rewrite !bytes_ok_app.
  split_and!; auto with baize. unfold_u. constructor; [unfold is_u8; lia|]. constructor; [done|constructor].
Qed.

(** For every legal feedback object and every slice with room for it,
    [Encode] writes exactly the twelve bytes of the wire format (and no byte
    outside), and [Decode] of the produced slice gives the object back. *)
Theorem Pli_roundtrip packet p self :
  sp_wf packet → pli_legal p → 12 <= sp_size packet →
  ∃ packet', Pli_Encode packet p = Ret (packet', 0) ∧ AsString packet' = wire_pli p ∧
    sp_mem packet' = ztake (ptr_ packet) (sp_mem packet) ++ wire_pli p ++
                     zdrop (ptr_ packet + 12) (sp_mem packet) ∧
    Pli_Decode packet' self = Ret (p, 0).
Proof.
  intros Hwf Hp Hs. destruct (Pli_Encode_ok packet p Hwf Hp Hs) as (packet' & E & Hwf' & _ & Ht & Hm).
  exists packet'. split_and!; [done..|].
  destruct (Pli_Decode_ok packet' self Hwf') as (p' & -> & Hp' & Ht').
  - rewrite Ht. by apply bytes_ok_wire_pli.
  - by rewrite <-packet_len, Ht, zlen_wire_pli by done.
  - do 2 f_equal. apply wire_pli_inj; congruence.
Qed.

Definition sample_pli : PliPsFb := mk_pli (mk_common 1 0 2 PSFB 2) (mk_fb 1234 0xCAFEBABE).
Lemma Pli_roundtrip_witness :
  ∃ packet', Pli_Encode (StringPiece_string (replicate 1500 0)) sample_pli = Ret (packet', 0) ∧
    AsString packet' = wire_pli sample_pli ∧ Pli_Decode packet' PliPsFb_new = Ret (sample_pli, 0).
Proof.
  destruct (Pli_roundtrip (StringPiece_string (replicate 1500 0)) sample_pli PliPsFb_new)
    as (packet' & E & Ht & _ & Hd).
  - apply sp_wf_string.
  - split_and!; [constructor|..]; cbn; unfold_u; unfold PSFB; lia.
  - vm_compute. discriminate.
  - exists packet'. done.
Defined.

(** ** Source descriptions *)
Definition empty_item (i : Item) : Prop := item_length i = 0 ∧ item_value i = [].
Definition empty_chunk (c : Chunk) : Prop := Forall empty_item (chunk_items c).

Lemma chunk_size_ge c : empty_chunk c → 4 <= chunk_size c.
Proof.
  unfold empty_chunk, chunk_size. generalize 4 at 1 2 as n. induction (chunk_items c) as [|i its IH];
    intros n H; cbn [foldl]; [lia|]. apply Forall_cons in H as [[Hi _] Hits].
  specialize (IH (n + item_size i) Hits). unfold item_size in *. lia.
Qed.

Section sdes.
Context (packet : StringPiece) (Hwf : sp_wf packet) (Hok : bytes_ok (AsString packet)).
Let l := AsString packet.
Let len := sp_size packet.

Lemma text_index i : 0 <= i < len → ∃ b, sp_index packet i = Ret b ∧ rd l i = Ret b ∧ is_u8 b.
Proof.
  intros. destruct (rd_in_bounds l i) as [b Hb]; [unfold l; rewrite text_len by done; done|].
  exists b. rewrite packet_index by done. split_and!; [done|done|by eapply rd_is_u8].
Qed.

Lemma decode_item_loop_total fuel i items :
  0 <= i <= len → len - i < Z.of_nat fuel → Forall empty_item items →
  (∃ its, decode_item_loop fuel packet i items = Ret its ∧ Forall empty_item its) ∨
  decode_item_loop fuel packet i items = Fault WildPointer.
Proof.
  revert i items. induction fuel as [|fuel IH]; intros i items Hi Hf Hits; [lia|].
  cbn [decode_item_loop]; fold len.
  destruct (bool_decide_reflect (len > i)); [|eauto].
  destruct (bool_decide_reflect (len - i < 2)); cbn [mbind result_bind]; [eauto|].
  destruct (text_index 1) as (d1 & -> & _ & _); [lia|]. cbn [mbind result_bind].
  destruct (bool_decide (len - i < 2 + d1)); [eauto|].
  destruct (text_index i) as (t & -> & _ & _); [lia|].
  destruct (text_index (i + 1)) as (n' & -> & _ & _); [lia|]. cbn [mbind result_bind].
  unfold assign_from_number. destruct (bool_decide_reflect (n' = 0)) as [->|]; cbn [mbind result_bind]; [|auto].
  destruct (bool_decide (t = END)); [eauto|].
  apply IH; [lia|lia|]. apply Forall_app. split; [done|]. by repeat constructor.
Qed.

Lemma DecodeItem_total :
  (∃ its, DecodeItem packet = Ret its ∧ Forall empty_item its) ∨ DecodeItem packet = Fault WildPointer.
Proof.
  assert (0 <= len) by apply Hwf.
  apply decode_item_loop_total; [lia|fold len; lia|constructor].
Qed.

(** The first item is read at the SSRC itself. *)
Lemma DecodeItem_wild n :
  rd l 1 = Ret n → 0 < n → 2 + n <= len → DecodeItem packet = Fault WildPointer.
Proof.
  intros Hn Hn0 Hlen. unfold DecodeItem. cbn [decode_item_loop]. fold len.
  rewrite (bool_decide_true (len > 0)), (bool_decide_false (len - 0 < 2)) by lia. rewrite Z.add_0_l.
  rewrite packet_index by (done || fold len; lia). fold l. rewrite Hn. cbn [mbind result_bind].
  rewrite (bool_decide_false (len - 0 < 2 + n)) by lia.
  destruct (text_index 0) as (t & -> & _ & _); [lia|]. cbn [mbind result_bind].
  unfold assign_from_number. by rewrite (bool_decide_false (n = 0)) by lia.
Qed.
End sdes.

Section sdes_packet.
Context (packet : StringPiece) (Hwf : sp_wf packet) (Hok : bytes_ok (AsString packet)).
Let l := AsString packet.
Let len := sp_size packet.

Let chunk_piece (i : Z) : StringPiece := StringPiece_len (sp_mem packet) (ptr_ packet + i) (len - i).
Lemma chunk_piece_ok i :
  0 <= i <= len → sp_wf (chunk_piece i) ∧ AsString (chunk_piece i) = zdrop i l.
Proof.
  intros. unfold chunk_piece, StringPiece_len. unfold len, sp_size in *.
  split; [by apply sp_wf_mk|]. rewrite AsString_mk by (done || lia). apply ztake_ge.
  fold l. rewrite zlen_zdrop by (unfold l; rewrite zlen_AsString by done; lia).
  unfold l. rewrite zlen_AsString by done. lia.
Qed.

Lemma chunk_loop_total n i chunks :
  0 <= i → Forall empty_chunk chunks →
  (∃ cs, chunk_loop n packet i chunks = Ret cs ∧ Forall empty_chunk cs) ∨
  chunk_loop n packet i chunks = Fault WildPointer.
Proof.
  revert i chunks. induction n as [|n IH]; intros i chunks Hi Hcs; cbn [chunk_loop]; fold len; [eauto|].
  destruct (bool_decide_reflect (len > i)); [|eauto].
  destruct (bool_decide_reflect (len - i < 4)); [eauto|].
  rewrite packet_byte4 by (done || fold len; lia). cbn [mbind result_bind].
  destruct (chunk_piece_ok i) as [Hw Ht]; [lia|]. fold (chunk_piece i).
  destruct (DecodeItem_total (chunk_piece i) Hw) as [(its & -> & Hits)| ->];
    [rewrite Ht; unfold l; auto with baize| |by right].
  cbn [mbind result_bind]. apply IH.
  - pose proof (chunk_size_ge (mk_chunk (be_val (ztake 4 (zdrop i (AsString packet)))) its) Hits). lia.
  - apply Forall_app. split; [done|]. by repeat constructor.
Qed.

Lemma chunk_loop_wild n m chunks :
  rd l 5 = Ret m → 0 < m → 8 <= len → 6 + m <= len →
  chunk_loop (S n) packet 4 chunks = Fault WildPointer.
Proof.
  intros Hm Hm0 Hlen8 Hlen. cbn [chunk_loop]. fold len.
  rewrite (bool_decide_true (len > 4)), (bool_decide_false (len - 4 < 4)) by lia.
  rewrite packet_byte4 by (done || fold len; lia). cbn [mbind result_bind].
  destruct (chunk_piece_ok 4) as [Hw Ht]; [lia|]. fold (chunk_piece 4).
  rewrite (DecodeItem_wild (chunk_piece 4) Hw) with (n := m); [done| | |done|].
  - rewrite Ht. unfold l. auto with baize.
  - rewrite Ht, rd_zdrop by lia. done.
  - unfold chunk_piece, sp_size. cbn. lia.
Qed.
End sdes_packet.

(** A source description is decoded without a read outside the packet,
    but an item with a text makes the decoder read through a number used as
    a pointer: it either returns (refusing fewer than four bytes) with no
    item text at all, or makes that wild access; and it makes it for every
    packet of at least eight bytes that announces a chunk whose SSRC has a
    second byte [m] with [0 < m] and [6 + m] within the packet. *)
Theorem Sdes_Decode_outcome packet self :
  sp_wf packet → bytes_ok (AsString packet) → Forall empty_chunk (sdes_chunks self) →
  ((∃ self', Sdes_Decode packet self = Ret (self', if bool_decide (sp_size packet < 4) then -1 else 0) ∧
     Forall empty_chunk (sdes_chunks self')) ∨
   Sdes_Decode packet self = Fault WildPointer) ∧
  (∀ b0 m, rd (AsString packet) 0 = Ret b0 → b0 mod 32 ≠ 0 → rd (AsString packet) 5 = Ret m →
     0 < m → 8 <= sp_size packet → 6 + m <= sp_size packet → Sdes_Decode packet self = Fault WildPointer).
Proof.
  intros Hwf Hok Hself. unfold Sdes_Decode, kCommonHeaderSize.
  destruct (bool_decide_reflect (sp_size packet < 4)).
  { split; [eauto|]. intros b0 m _ _ H. apply rd_bounds in H. rewrite packet_len in H by done. lia. }
  destruct (common_header_ok packet Hwf Hok) as (raw & h & -> & <- & Hh & Hw); [lia|].
  cbn [mbind result_bind]. split.
  - destruct (chunk_loop_total packet Hwf Hok (Z.to_nat (count raw)) 4 (sdes_chunks self))
      as [(cs & -> & Hcs)| ->]; [lia|done| |by right]. cbn [mbind result_bind]. left. by eexists.
  - intros b0 m H0 Hc Hm Hm0 Hlen8 Hlen.
    assert (E : b0 = 64 * version raw + 32 * padding raw + count raw).
    { rewrite <-(rd_ztake _ 4), Hw in H0 by lia. injection H0 as ->. done. }
    pose proof (cl_count _ Hh) as Hct. cbn [set_length count] in Hct.
    destruct (Z.to_nat (count raw)) as [|n'] eqn:En; [exfalso; Z.to_euclidean_division_equations; lia|].
    by rewrite (chunk_loop_wild packet Hwf Hok n' m).
Qed.

(** A chunk with SSRC 0x01020304 and a CNAME of two characters. *)
Definition sample_sdes : list Z := wire_common (mk_common 1 0 2 SDES 2) ++ [1; 2; 3; 4; 1; 2; 104; 105].
Lemma Sdes_Decode_outcome_witness :
  Sdes_Decode (StringPiece_string sample_sdes) SdesPacket_new = Fault WildPointer.
Proof.
  destruct (Sdes_Decode_outcome (StringPiece_string sample_sdes) SdesPacket_new) as [_ H].
  - apply sp_wf_string.
  - apply (bool_decide_unpack _). vm_compute. exact I.
  - constructor.
  - apply (H 129 2); [reflexivity|vm_compute; discriminate|reflexivity|lia|vm_compute; discriminate..].
Defined.

(** ** Recognition *)

Lemma IsRtcp_ok packet :
  sp_wf packet → bytes_ok (AsString packet) →
  IsRtcp packet = Ret (match AsString packet with
    | b0 :: t :: _ :: _ :: _ => bool_decide (128 <= b0 < 192) && bool_decide (192 <= t <= 223)
    | _ => false
    end).
Proof.
  intros Hwf Hok. unfold IsRtcp, kCommonHeaderSize. pose proof (packet_len packet Hwf) as Hlen.
  destruct (bool_decide_reflect (sp_size packet >= 4)); cbn [and_then]; cycle 1.
  { destruct (AsString packet) as [|? [|? [|? [|? ?]]]]; try done. zlen_simp.
    pose proof (zlen_nonneg l). lia. }
  destruct (common_header_ok packet Hwf Hok) as (raw & h & -> & <- & [] & Hw); [lia|].
  rewrite packet_index by (done || lia). cbn [set_length count padding version type_ length_w] in *.
  destruct (AsString packet) as [|b0 [|t [|x [|y r]]]]; [zlen_simp; lia..|].
  rewrite rd_cons_0. cbn [mbind result_bind].
  unfold wire_common in Hw. cbn [ztake take Z.to_nat Pos.to_nat] in Hw.
  change (ztake 4 (b0 :: t :: x :: y :: r)) with ([b0; t] ++ [x; y]) in Hw.
  apply app_inj_zlen in Hw as [Hw _]; [|done]. injection Hw as Hb0 Ht.
  cbn [set_length count padding version type_ length_w] in *. unfold and_then.
  destruct (bool_decide_reflect (128 <= b0 < 192)); cycle 1.
  { destruct (bool_decide_reflect (b0 > 127)), (bool_decide_reflect (b0 < 192)); done || lia. }
  rewrite (bool_decide_true (b0 > 127)), (bool_decide_true (b0 < 192)) by lia. cbn [andb].
  rewrite (bool_decide_true (version raw = 2)) by lia. cbn [andb].
  destruct (bool_decide_reflect (type_ raw >= 192)), (bool_decide_reflect (type_ raw <= 223)),
    (bool_decide_reflect (192 <= t <= 223)); done || lia.
Qed.

(** [IsRtcp] reads nothing outside the packet and accepts exactly the
    packets of at least four bytes whose first byte is in 128..191 (version 2)
    and whose type is in 192..223. *)
Theorem IsRtcp_correct packet :
  sp_wf packet → bytes_ok (AsString packet) →
  IsRtcp packet = Ret (match AsString packet with
    | b0 :: t :: _ :: _ :: _ => bool_decide (128 <= b0 < 192) && bool_decide (192 <= t <= 223)
    | _ => false
    end).
Proof. apply IsRtcp_ok. Qed.
Lemma IsRtcp_correct_witness : IsRtcp (StringPiece_string sample_rr) = Ret true.
Proof.
  rewrite (IsRtcp_correct (StringPiece_string sample_rr));
    [reflexivity|apply sp_wf_string|apply (bool_decide_unpack _); vm_compute; exact I].
Defined.
