(* ===== verification/Dump.v ===== *)
(** * The texts of packets: Dump of webrtc/rtp/{rtcp,rtp}_packet.cc, StringAppend of kernel/log/log_stream.cc

    A dump is a sequence of lines; a line is a format with its argument, cut at
    the size of the thread's array and at the first zero.  The theorem: the
    dump of a report shows every field of the report but the source of its
    blocks, so that two reports with the same dump agree in all the others. *)

From Stdlib Require Import ZArith Lia Bool.
From stdpp Require Import base numbers list strings.
From S2P Require Import Prelude Types StringPiece Format LogStream Rtcp Rtp.

(** A C string ends at its first zero. *)
Definition cstr (l : list Z) : list Z := ztake (strlen l) l.
(** [text] is what the format produces: [vsnprintf] into [g_extbuf], then the
    string is appended, and a line end. *)
Definition StringAppend (s text : list Z) : list Z := s ++ ztake (klogBufferLen - 1) (cstr text) ++ [10].
Definition appends (texts : list (list Z)) (s : list Z) : list Z := foldl StringAppend s texts.

(** "label%u" *)
Definition fmt_u (label : string) (v : Z) : list Z := bytes_of label ++ decimal v.

(** ** RTCP *)
Definition RtcpPacket_Dump (h : CommonHeader) : list Z :=
  appends [fmt_u "    version(2): " (Rtcp.version h); fmt_u "    padding(1): " (padding h);
           fmt_u "    count(5): " (count h); fmt_u "    type(8): " (type_ h);
           fmt_u "    length(16): " (length_w h)] [].
Definition RtcpFeedback_Dump (h : FeedbackHeader) : list Z :=
  appends [fmt_u "    sender_ssrc: " (fb_sender_ssrc h); fmt_u "    media_ssrc: " (fb_media_ssrc h)] [].
Definition PliPsFb_Dump (p : PliPsFb) : list Z :=
  let s := appends [[10] ++ bytes_of "<PliPsFb>"] [] in
  let s := s ++ RtcpPacket_Dump (pli_comm_header p) in
  let s := s ++ RtcpFeedback_Dump (pli_fb_header p) in
  appends [bytes_of "</PliPsFb>"] s.
Definition RtcpReport_Dump (r : Report) : list Z :=
  appends [bytes_of "  <block>"; fmt_u "    fraction lost: " (fraction_lost r); fmt_u "    total lost: " (total_lost r);
           fmt_u "    last seq: " (last_seq r); fmt_u "    jitter: " (jitter r); fmt_u "    lsr: " (lsr r);
           fmt_u "    dlsr: " (dlsr r); bytes_of "  </block>"] [].
Definition RrPacket_Dump (p : RrPacket) : list Z :=
  let s := appends [[10] ++ bytes_of "<ReceiverReport>"] [] in
  let s := s ++ RtcpPacket_Dump (rr_comm_header p) in
  let s := appends [fmt_u "    sender_ssrc: " (rr_sender_ssrc p)] s in
  let s := foldl (λ s r, s ++ RtcpReport_Dump r) s (rr_reports p) in
  appends [bytes_of "</ReceiverReport>"] s.
Definition SrPacket_Dump (p : SrPacket) : list Z :=
  let s := appends [[10] ++ bytes_of "<SenderReport>"] [] in
  let s := s ++ RtcpPacket_Dump (sr_comm_header p) in
  let i := sr_send_info p in
  let s := appends [fmt_u "    sender_ssrc: " (si_ssrc i); fmt_u "    ntp_sec: " (ntp_sec i);
                    fmt_u "    ntp_frac: " (ntp_frac i); fmt_u "    rtp_ts: " (rtp_ts i);
                    fmt_u "    packet_count: " (packet_count i); fmt_u "    octet_count: " (octet_count i)] s in
  let s := foldl (λ s r, s ++ RtcpReport_Dump r) s (sr_reports p) in
  appends [bytes_of "</SenderReport>"] s.

Definition Item_lines (i : Item) : list (list Z) :=
  [bytes_of "    <item>"; fmt_u "    type: " (item_type i); fmt_u "    length: " (item_length i);
   bytes_of "    value: " ++ cstr (item_value i); bytes_of "    </item>"].
Definition Chunk_lines (c : Chunk) : list (list Z) :=
  [bytes_of "  <chunk>"; fmt_u "  ssrc: " (chunk_ssrc c)] ++ concat (Item_lines <$> chunk_items c) ++
  [bytes_of "  </chunk>"].
Definition SdesPacket_Dump (p : SdesPacket) : list Z :=
  let s := appends [[10] ++ bytes_of "<Sdes>"] [] in
  let s := s ++ RtcpPacket_Dump (sdes_comm_header p) in
  let s := appends (concat (Chunk_lines <$> sdes_chunks p)) s in
  appends [bytes_of "</Sdes>"] s.

(** ** RTP *)
(** "%#x": zero has no prefix. *)
Fixpoint hex_loop (fuel : nat) (v : Z) (acc : list Z) : list Z :=
  match fuel with
  | O => acc
  | S fuel => let acc := hex_digit (v mod 16) :: acc in if bool_decide (v < 16) then acc else hex_loop fuel (v / 16) acc
  end.
Definition fmt_x (v : Z) : list Z :=
  if bool_decide (v = 0) then [48] else bytes_of "0x" ++ hex_loop (S (Z.to_nat (Z.log2 v))) v [].
Definition RtpPacket_Dump (p : RtpPacket) : list Z :=
  let h := rtp_header p in
  let s := appends [[10] ++ bytes_of "<Rtp>"; fmt_u "    version: " (Rtp.version h); fmt_u "    pading: " (hdr_padding h);
                    fmt_u "    extension: " (hdr_extension h); fmt_u "    csrc_count: " (csrc_count h);
                    fmt_u "    marker: " (marker h); fmt_u "    payload_type: " (payload_type h);
                    fmt_u "    seq: " (sequence_number h); fmt_u "    timestamp: " (timestamp h);
                    fmt_u "    ssrc: " (ssrc h)] [] in
  let s := if bool_decide (hdr_extension h ≠ 0) then
             appends [bytes_of "  <Extension>"; bytes_of "    profile: " ++ fmt_x (profile (ext_header (extension p)));
                      fmt_u "    length: " (ext_length (ext_header (extension p))); bytes_of "  </Extension>"] s
           else s in
  appends [fmt_u "    payload_length: " (zlen (payload p)); bytes_of "</Rtp>"] s.

(** ** Lines that are appended whole *)
Definition short (text : list Z) : Prop := 0 ∉ text ∧ zlen text < klogBufferLen.
Lemma StringAppend_short s text : short text → StringAppend s text = s ++ text ++ [10].
Proof.
  intros [H0 Hl]. unfold StringAppend, cstr, strlen. rewrite std_find_notin by done.
  by rewrite (ztake_ge (zlen text) text), ztake_ge by lia.
Qed.

(** A label, and lines of labels with numbers. *)
Definition label_ok (label : string) : Prop := 0 ∉ bytes_of label ∧ zlen (bytes_of label) <= 100.
Definition fields := list (string * Z).
Definition field_texts (fs : fields) : list (list Z) := (λ '(label, v), fmt_u label v) <$> fs.
Definition field_lines (fs : fields) : list Z := mbind (λ '(label, v), fmt_u label v ++ [10]) fs.
Definition fields_ok (fs : fields) : Prop := Forall (λ '(label, v), label_ok label ∧ is_u32 v) fs.

Lemma fmt_u_short label v : label_ok label → is_u32 v → short (fmt_u label v).
Proof.
  intros [H0 Hl] Hv. unfold_u. split; unfold fmt_u.
  - rewrite not_elem_of_app. split; [done|]. apply decimal_no; lia.
  - rewrite zlen_app. pose proof (decimal_length 10 v). unfold klogBufferLen. lia.
Qed.
Lemma appends_fields fs s : fields_ok fs → appends (field_texts fs) s = s ++ field_lines fs.
Proof.
  intros Hf. revert s. induction Hf as [|[label v] fs [Hl Hv] _ IH]; intros s; [by rewrite app_nil_r|].
  change (appends (field_texts fs) (StringAppend s (fmt_u label v)) = s ++ (fmt_u label v ++ [10]) ++ field_lines fs).
  rewrite IH, StringAppend_short by (by apply fmt_u_short). by rewrite <-!app_assoc.
Qed.

(** The numbers of lines with the same labels can be read off. *)
Lemma fmt_u_inj label v w r r' :
  0 <= v → 0 <= w → (fmt_u label v ++ [10]) ++ r = (fmt_u label w ++ [10]) ++ r' → v = w ∧ r = r'.
Proof.
  intros Hv Hw E. unfold fmt_u in E. rewrite <-!app_assoc in E. apply app_inv_head in E. cbn [app] in E.
  apply split_at_mark in E as [E ->]; [|apply decimal_no; lia..]. split; [by apply decimal_inj|done].
Qed.
Lemma field_lines_inj fs fs' r r' :
  fs.*1 = fs'.*1 → fields_ok fs → fields_ok fs' → field_lines fs ++ r = field_lines fs' ++ r' → fs = fs' ∧ r = r'.
Proof.
  intros Hl Hf. revert fs' Hl. induction Hf as [|[label v] fs [_ Hv] _ IH]; intros [|[label' w] fs'] Hl Hf' E; try done.
  cbn [fmap list_fmap fst] in Hl. injection Hl as <- Hl. apply Forall_cons in Hf' as [[_ Hw] Hf'].
  change ((fmt_u label v ++ [10]) ++ field_lines fs) with (field_lines ((label, v) :: fs)) in *.
  unfold field_lines in E. cbn [mbind list_bind] in E. rewrite <-!(app_assoc (fmt_u _ _ ++ [10])) in E.
  unfold_u. apply fmt_u_inj in E as [-> E]; [|lia..]. by apply IH in E as [-> ->].
Qed.

(** ** The parts of a report *)
Definition header_fields (h : CommonHeader) : fields :=
  [("    version(2): ", Rtcp.version h); ("    padding(1): ", padding h); ("    count(5): ", count h);
   ("    type(8): ", type_ h); ("    length(16): ", length_w h)].
Definition info_fields (i : SendInfo) : fields :=
  [("    sender_ssrc: ", si_ssrc i); ("    ntp_sec: ", ntp_sec i); ("    ntp_frac: ", ntp_frac i);
   ("    rtp_ts: ", rtp_ts i); ("    packet_count: ", packet_count i); ("    octet_count: ", octet_count i)].
Definition report_fields (r : Report) : fields :=
  [("    fraction lost: ", fraction_lost r); ("    total lost: ", total_lost r); ("    last seq: ", last_seq r);
   ("    jitter: ", jitter r); ("    lsr: ", lsr r); ("    dlsr: ", dlsr r)].
(** Every number fits 32 bits, as the decoders deliver them. *)
Definition u32_fields (fs : fields) : Prop := Forall (λ f, is_u32 f.2) fs.

Ltac labels_ok :=
  match goal with
  | H : u32_fields ?fs |- fields_ok ?fs =>
      unfold u32_fields, fields_ok in *; cbv [header_fields info_fields report_fields] in *;
      rewrite !Forall_cons in *; cbn [snd] in H; split_and!; try tauto;
      try (split; [apply (bool_decide_unpack _); vm_compute; exact I|vm_compute; discriminate]); apply Forall_nil_2
  end.
Lemma header_ok h : u32_fields (header_fields h) → fields_ok (header_fields h).
Proof. intros H. labels_ok. Qed.
Lemma info_ok i : u32_fields (info_fields i) → fields_ok (info_fields i).
Proof. intros H. labels_ok. Qed.
Lemma report_ok r : u32_fields (report_fields r) → fields_ok (report_fields r).
Proof. intros H. labels_ok. Qed.

Lemma RtcpPacket_Dump_lines h : u32_fields (header_fields h) → RtcpPacket_Dump h = field_lines (header_fields h).
Proof. intros H%header_ok. exact (appends_fields (header_fields h) [] H). Qed.
Lemma appends_app a b s : appends (a ++ b) s = appends b (appends a s).
Proof. apply foldl_app. Qed.
Definition tag (name : string) : list Z := bytes_of name ++ [10].
Ltac short_text := split; [apply (bool_decide_unpack _); vm_compute; exact I|vm_compute; reflexivity].
Lemma RtcpReport_Dump_lines r :
  u32_fields (report_fields r) →
  RtcpReport_Dump r = tag "  <block>" ++ field_lines (report_fields r) ++ tag "  </block>".
Proof.
  intros H%report_ok.
  change (RtcpReport_Dump r) with
    (appends ([bytes_of "  <block>"] ++ field_texts (report_fields r) ++ [bytes_of "  </block>"]) []).
  rewrite !appends_app, appends_fields by done. unfold appends. cbn [foldl].
  rewrite !StringAppend_short by short_text. unfold tag. by rewrite <-!app_assoc.
Qed.

(** A block without its source. *)
Definition with_ssrc (s : Z) (r : Report) : Report :=
  mk_report s (fraction_lost r) (total_lost r) (last_seq r) (jitter r) (lsr r) (dlsr r).
Lemma header_inj h h' r r' :
  u32_fields (header_fields h) → u32_fields (header_fields h') →
  RtcpPacket_Dump h ++ r = RtcpPacket_Dump h' ++ r' → h = h' ∧ r = r'.
Proof.
  intros H H' E. rewrite !RtcpPacket_Dump_lines in E by done.
  apply field_lines_inj in E as [E ->]; [|done|by apply header_ok..].
  destruct h, h'. unfold header_fields in E. cbn in E. by injection E as -> -> -> -> ->.
Qed.
Lemma report_inj x y r r' :
  u32_fields (report_fields x) → u32_fields (report_fields y) →
  RtcpReport_Dump x ++ r = RtcpReport_Dump y ++ r' → with_ssrc 0 x = with_ssrc 0 y ∧ r = r'.
Proof.
  intros H H' E. rewrite !RtcpReport_Dump_lines, <-!app_assoc in E by done. apply app_inv_head in E.
  apply field_lines_inj in E as [E Er]; [|done|by apply report_ok..]. apply app_inv_head in Er as ->.
  unfold with_ssrc. unfold report_fields in E. by injection E as -> -> -> -> -> ->.
Qed.

Definition blocks (rs : list Report) : list Z := mbind RtcpReport_Dump rs.
Lemma foldl_blocks rs s : foldl (λ s r, s ++ RtcpReport_Dump r) s rs = s ++ blocks rs.
Proof.
  revert s. induction rs as [|r rs IH]; intros s; cbn [foldl]; [by rewrite app_nil_r|].
  rewrite IH. unfold blocks. cbn [mbind list_bind]. by rewrite app_assoc.
Qed.
(** A block starts with a blank, the end of a report does not. *)
Lemma block_head r : u32_fields (report_fields r) → ∃ t, RtcpReport_Dump r = 32 :: t.
Proof. intros H. rewrite RtcpReport_Dump_lines by done. by eexists. Qed.
Lemma block_texts_inj xs ys t t' :
  Forall (u32_fields ∘ report_fields) xs → Forall (u32_fields ∘ report_fields) ys →
  blocks xs ++ 60 :: t = blocks ys ++ 60 :: t' → (with_ssrc 0 <$> xs) = (with_ssrc 0 <$> ys).
Proof.
  intros Hx. revert ys. induction Hx as [|x xs Hx _ IH]; intros ys Hy E; destruct Hy as [|y ys Hy Hys].
  - done.
  - unfold blocks in E. cbn [mbind list_bind] in E. destruct (block_head y Hy) as [z Ez]. rewrite Ez in E. discriminate E.
  - unfold blocks in E. cbn [mbind list_bind] in E. destruct (block_head x Hx) as [z Ez]. rewrite Ez in E. discriminate E.
  - unfold blocks in E. cbn [mbind list_bind] in E. rewrite <-!app_assoc in E.
    apply report_inj in E as [Exy E]; [|done..]. cbn [fmap list_fmap]. by rewrite Exy, (IH ys).
Qed.

Lemma SrPacket_Dump_lines p :
  u32_fields (header_fields (sr_comm_header p)) → u32_fields (info_fields (sr_send_info p)) →
  SrPacket_Dump p =
    (10 :: tag "<SenderReport>") ++ RtcpPacket_Dump (sr_comm_header p) ++ field_lines (info_fields (sr_send_info p)) ++
    blocks (sr_reports p) ++ tag "</SenderReport>".
Proof.
  intros Hh Hi%info_ok. unfold SrPacket_Dump. cbv zeta. rewrite foldl_blocks.
  change (appends _ (_ ++ RtcpPacket_Dump (sr_comm_header p))) with
    (appends (field_texts (info_fields (sr_send_info p)))
       (appends [[10] ++ bytes_of "<SenderReport>"] [] ++ RtcpPacket_Dump (sr_comm_header p))) at 1.
  rewrite appends_fields by done. unfold appends. cbn [foldl]. rewrite !StringAppend_short by short_text.
  unfold tag. by rewrite <-!app_assoc.
Qed.

(** The dump of a sender report shows all of it but the sources of its
    blocks: two reports with the same text have the same header, the same
    sender information and the same blocks, their sources apart, which the
    text does not mention. *)
Theorem sr_dump_shows p q :
  u32_fields (header_fields (sr_comm_header p)) → u32_fields (info_fields (sr_send_info p)) →
  Forall (u32_fields ∘ report_fields) (sr_reports p) →
  u32_fields (header_fields (sr_comm_header q)) → u32_fields (info_fields (sr_send_info q)) →
  Forall (u32_fields ∘ report_fields) (sr_reports q) →
  SrPacket_Dump p = SrPacket_Dump q →
  sr_comm_header p = sr_comm_header q ∧ sr_send_info p = sr_send_info q ∧
  (with_ssrc 0 <$> sr_reports p) = (with_ssrc 0 <$> sr_reports q).
Proof.
  intros Hp1 Hp2 Hp3 Hq1 Hq2 Hq3 E. rewrite !SrPacket_Dump_lines in E by done. apply app_inv_head in E.
  apply header_inj in E as [-> E]; [|done..].
  apply field_lines_inj in E as [Ei E]; [|done|by apply info_ok..].
  split; [done|]. split; [|by apply block_texts_inj in E].
  destruct (sr_send_info p), (sr_send_info q). unfold info_fields in Ei. cbn in Ei.
  by injection Ei as -> -> -> -> -> ->.
Qed.
Lemma report_source_hidden s r : RtcpReport_Dump (with_ssrc s r) = RtcpReport_Dump r.
Proof. done. Qed.

Definition sample_report : SrPacket :=
  mk_sr (mk_common 1 0 2 200 12) (mk_send_info 7 1 2 3 4 5) [mk_report 9 1 2 3 4 5 6].
Lemma sr_dump_shows_witness :
  ∃ q, SrPacket_Dump sample_report = SrPacket_Dump q ∧ q ≠ sample_report ∧
    (with_ssrc 0 <$> sr_reports sample_report) = (with_ssrc 0 <$> sr_reports q).
Proof.
  exists (mk_sr (mk_common 1 0 2 200 12) (mk_send_info 7 1 2 3 4 5) [mk_report 8 1 2 3 4 5 6]).
  assert (E : SrPacket_Dump sample_report =
    SrPacket_Dump (mk_sr (mk_common 1 0 2 200 12) (mk_send_info 7 1 2 3 4 5) [mk_report 8 1 2 3 4 5 6])) by (vm_compute; reflexivity).
  split; [exact E|]. split; [intros H; discriminate H|].
  apply (sr_dump_shows sample_report
    (mk_sr (mk_common 1 0 2 200 12) (mk_send_info 7 1 2 3 4 5) [mk_report 8 1 2 3 4 5 6])); [..|exact E].
  all: try apply Forall_singleton; unfold compose, u32_fields, is_u32; apply (bool_decide_unpack _); vm_compute; exact I.
Defined.
