(* ===== verification/StunDump.v ===== *)
(** * The text of a STUN message: dump of webrtc/ice/stun_packet.cc, TempFmt of kernel/log/log_stream.cc

    The lines of the dump are formatted in the thread's array [g_extbuf], which
    the hexadecimal dumps use too; the array is threaded through.

    The theorems: the dump of every message a parser accepts stays inside the
    array, and what it says; a user name is printed as it came, so that a
    message can show lines of its choice; and a text made by TempFmt lasts
    until the next one. *)

From Stdlib Require Import ZArith Lia Bool.
From stdpp Require Import base numbers list strings.
From S2P Require Import Prelude Types StringPiece Format Buffer LogStream Logger Stun Dump.
Local Notation cstr := Dump.cstr.

(** ** Formatting in the array *)
(** What [vsnprintf] leaves in the array. *)
Definition stored (text ext : list Z) : list Z :=
  let t := ztake (klogBufferLen - 1) (cstr text) in t ++ [0] ++ zdrop (zlen t + 1) ext.
(** [StringAppend] on a string and the array. *)
Definition append_line (text : list Z) (st : list Z * list Z) : list Z * list Z :=
  (StringAppend st.1 text, stored text st.2).

(** [TempFmt] returns a pointer to the array; what it points to later is what
    is then in the array. *)
Definition TempFmt (text ext : list Z) : list Z := stored text ext.
Definition pointed (ext : list Z) : list Z := cstr ext.

(** "%#.3x" *)
Definition fmt_x3 (v : Z) : list Z :=
  let digits := if bool_decide (v = 0) then [] else hex_loop (S (Z.to_nat (Z.log2 v))) v [] in
  (if bool_decide (v = 0) then [] else bytes_of "0x") ++ replicate (3 - length digits) 48 ++ digits.

Definition klass_name (k : Klass) : list Z :=
  match k with
  | REQUEST => bytes_of "Request"
  | INDICATION => bytes_of "Indication"
  | SUCCESS_RESPONSE => bytes_of "SuccessResponse"
  | ERROR_RESPONSE => bytes_of "ErrorResponse"
  end.

(** ** dump *)
Definition method_line (p : StunPacket) : list Z :=
  if bool_decide (method_ p = BINDING) then bytes_of "  Binding " ++ klass_name (klass_ p)
  else bytes_of "  " ++ klass_name (klass_ p) ++ bytes_of " with unknown method " ++ fmt_x3 (u16 (method_ p)).
Definition line_if (b : bool) (text : list Z) : list (list Z) := if b then [text] else [].
(** The lines between the two hexadecimal dumps; "%d" takes an [int]. *)
Definition attribute_lines (p : StunPacket) : list (list Z) :=
  line_if (bool_decide (error_code_ p ≠ 0)) (bytes_of "  error_code: " ++ decimal (error_code_ p)) ++
  line_if (negb (sp_empty (username_ p))) (bytes_of "  username: " ++ AsString (username_ p)) ++
  line_if (bool_decide (priority_ p ≠ 0)) (bytes_of "  priority: " ++ signed_decimal (s32 (priority_ p))) ++
  line_if (bool_decide (ice_controlling_ p ≠ 0)) (bytes_of "  ice_controlling: " ++ fmt_x (ice_controlling_ p)) ++
  line_if (bool_decide (ice_controlled_ p ≠ 0)) (bytes_of "  ice_controlled: " ++ fmt_x (ice_controlled_ p)) ++
  line_if (has_use_candidate_ p) (bytes_of "  use_candidate").
Definition append_lines (texts : list (list Z)) (st : list Z * list Z) : list Z * list Z :=
  foldl (λ st text, append_line text st) st texts.
(** A line that ends with the hexadecimal dump of a slice. *)
Definition hex_line (label : string) (s : StringPiece) (st : list Z * list Z) : result (list Z * list Z) :=
  '(ext, hex) ← DumpHex s st.2;
  Ret (append_line (bytes_of label ++ hex) (st.1, ext)).
(** The string, and the array after it was made. *)
Definition dump_string (p : StunPacket) (ext : list Z) : result (list Z * list Z) :=
  let st := ([10] ++ bytes_of "<StunPacket>" ++ [10], ext) in
  let st := append_line (method_line p) st in
  let st := append_line (bytes_of "  size: " ++ signed_decimal (sp_size (packet_ p)) ++ bytes_of " bytes") st in
  st ← hex_line "  transaction_id: " (transaction_id_ p) st;
  let st := append_lines (attribute_lines p) st in
  st ← (if negb (sp_empty (message_integrity_ p)) then hex_line "  message_integrity: " (message_integrity_ p) st else Ret st);
  let st := append_lines (line_if (has_fingerprint_ p) (bytes_of "  has fingerprint: " ++ fmt_x (fingerprint_ p))) st in
  Ret (st.1 ++ bytes_of "</StunPacket>" ++ [10], st.2).
(** The whole function: the string is logged. *)
Definition dump (lc : LogCtx) (p : StunPacket) : result unit :=
  '(text, _) ← dump_string p (lc_ext lc);
  LOG_INFO lc [Str text].

(** ** What it says *)
Definition hex_text (s : StringPiece) : list Z := concat (hex2 <$> AsString s).
Definition dump_lines (p : StunPacket) : list (list Z) :=
  [method_line p; bytes_of "  size: " ++ signed_decimal (sp_size (packet_ p)) ++ bytes_of " bytes";
   bytes_of "  transaction_id: " ++ hex_text (transaction_id_ p)] ++ attribute_lines p ++
  line_if (negb (sp_empty (message_integrity_ p))) (bytes_of "  message_integrity: " ++ hex_text (message_integrity_ p)) ++
  line_if (has_fingerprint_ p) (bytes_of "  has fingerprint: " ++ fmt_x (fingerprint_ p)).
Definition dump_text (p : StunPacket) : list Z :=
  appends (dump_lines p) ([10] ++ bytes_of "<StunPacket>" ++ [10]) ++ bytes_of "</StunPacket>" ++ [10].

(** A slice the hexadecimal dump can print. *)
Definition hex_ok (s : StringPiece) : Prop := sp_wf s ∧ bytes_ok (AsString s) ∧ 0 < sp_size s <= 32767.

Lemma zlen_stored text ext : zlen ext = klogBufferLen → zlen (stored text ext) = klogBufferLen.
Proof.
  intros He. unfold stored. set (t := ztake _ _).
  assert (Ht : zlen t <= klogBufferLen - 1) by (unfold t; rewrite zlen_ztake_min by (unfold klogBufferLen; lia); lia).
  pose proof (zlen_nonneg t). rewrite !zlen_app, zlen_zdrop by lia. change (zlen [0]) with 1. lia.
Qed.
Lemma append_lines_eq texts st :
  (append_lines texts st).1 = appends texts st.1 ∧
  (zlen st.2 = klogBufferLen → zlen (append_lines texts st).2 = klogBufferLen).
Proof.
  revert st. induction texts as [|t texts IH]; intros st; [done|]. unfold append_lines, appends. cbn [foldl].
  destruct (IH (append_line t st)) as [H1 H2]. split; [done|]. intros He. apply H2. cbn. by apply zlen_stored.
Qed.
Lemma dump_hex_loop_length n i s ext ext' : dump_hex_loop n i s ext = Ret ext' → zlen ext' = zlen ext.
Proof.
  revert i ext. induction n as [|n IH]; intros i ext; cbn [dump_hex_loop]; [by intros [= <-]|].
  intros (b & _ & (e1 & E & ->%IH)%bind_Ret)%bind_Ret. unfold snprintf in E.
  case_bool_decide; [by injection E as <-|]. by destruct (memcpy_ok _ _ _ _ _ E) as [-> _].
Qed.
Lemma hex_line_ok label s st :
  hex_ok s → zlen st.2 = klogBufferLen →
  ∃ st', hex_line label s st = Ret st' ∧ st'.1 = StringAppend st.1 (bytes_of label ++ hex_text s) ∧ zlen st'.2 = klogBufferLen.
Proof.
  intros (Hwf & Hok & Hs) He. unfold hex_line.
  destruct (DumpHex_ok s Hwf st.2 Hok) as (ext' & E); [lia|unfold klogBufferLen in He; lia|].
  assert (He' : zlen ext' = klogBufferLen).
  { unfold DumpHex in E. apply bind_Ret in E as (e1 & E1 & [= -> _]). by apply dump_hex_loop_length in E1 as ->. }
  rewrite E. cbn [mbind result_bind]. eexists. split; [done|]. split; [done|]. cbn. by apply zlen_stored.
Qed.

(** The dump of a message with a transaction id, and an integrity code or none,
    never writes outside the array, whatever was in it; it is made of exactly
    the lines of what the message has. *)
Lemma dump_string_ok p ext :
  hex_ok (transaction_id_ p) → (sp_empty (message_integrity_ p) = true ∨ hex_ok (message_integrity_ p)) →
  zlen ext = klogBufferLen → ∃ ext', dump_string p ext = Ret (dump_text p, ext').
Proof.
  intros Ht Hi He. unfold dump_string. set (st0 := append_line _ (append_line _ _)).
  assert (H0 : zlen st0.2 = klogBufferLen) by (unfold st0; cbn [append_line snd]; by repeat apply zlen_stored).
  destruct (hex_line_ok "  transaction_id: " (transaction_id_ p) st0 Ht H0) as (st1 & -> & E1 & L1). cbn [mbind result_bind].
  destruct (append_lines_eq (attribute_lines p) st1) as [E2 L2]. specialize (L2 L1). set (st2 := append_lines _ st1) in *.
  assert (H3 : ∃ st3, (if negb (sp_empty (message_integrity_ p)) then hex_line "  message_integrity: " (message_integrity_ p) st2 else Ret st2) =
      Ret st3 ∧ st3.1 = appends (line_if (negb (sp_empty (message_integrity_ p))) (bytes_of "  message_integrity: " ++ hex_text (message_integrity_ p))) st2.1).
  { destruct (sp_empty (message_integrity_ p)) eqn:Ee; cbn [negb line_if]; [by exists st2|].
    destruct Hi as [|Hi]; [done|]. destruct (hex_line_ok "  message_integrity: " _ st2 Hi L2) as (st3 & -> & E3 & _). eauto. }
  destruct H3 as (st3 & -> & E3). cbn [mbind result_bind].
  destruct (append_lines_eq (line_if (has_fingerprint_ p) (bytes_of "  has fingerprint: " ++ fmt_x (fingerprint_ p))) st3) as [E4 _].
  rewrite E4, E3, E2, E1. eexists. do 2 f_equal. unfold dump_text, dump_lines, appends. by rewrite !foldl_app.
Qed.

(** ** How long it is *)
Definition lines_size (texts : list (list Z)) : Z := foldr (λ t n, zlen t + 1 + n) 0 texts.
Lemma lines_size_app a b : lines_size (a ++ b) = lines_size a + lines_size b.
Proof. induction a as [|t a IH]; [done|]. unfold lines_size in *. cbn [app foldr]. lia. Qed.
Lemma appends_size texts s : zlen (appends texts s) <= zlen s + lines_size texts.
Proof.
  revert s. induction texts as [|t texts IH]; intros s; [cbn; lia|]. unfold appends in *. cbn [foldl lines_size foldr].
  specialize (IH (StringAppend s t)). unfold lines_size in IH. revert IH. unfold StringAppend.
  rewrite !zlen_app. change (zlen [10]) with 1. unfold cstr.
  rewrite (zlen_ztake_min (klogBufferLen - 1)) by done. rewrite zlen_ztake_min by apply std_find_range. lia.
Qed.
Lemma line_if_size b t n : zlen t + 1 <= n → lines_size (line_if b t) <= n.
Proof. intros Hn. pose proof (zlen_nonneg t). destruct b; cbn; lia. Qed.

Lemma hex_loop_length fuel v acc : zlen (hex_loop fuel v acc) <= Z.of_nat fuel + zlen acc.
Proof.
  revert v acc. induction fuel as [|fuel IH]; intros v acc; cbn [hex_loop]; [lia|].
  case_bool_decide; [|etrans; [apply IH|]]; rewrite zlen_cons; lia.
Qed.
Lemma fmt_x_length v : is_u64 v → zlen (fmt_x v) <= 66.
Proof.
  unfold_u. intros Hv. unfold fmt_x. case_bool_decide; [done|]. rewrite zlen_app. change (zlen (bytes_of "0x")) with 2.
  pose proof (hex_loop_length (S (Z.to_nat (Z.log2 v))) v []) as Hl. rewrite zlen_nil in Hl.
  assert (Z.log2 v < 64) by (apply Z.log2_lt_pow2; lia). pose proof (Z.log2_nonneg v). lia.
Qed.
Lemma fmt_x3_length v : is_u16 v → zlen (fmt_x3 v) <= 30.
Proof.
  unfold_u. intros Hv. unfold fmt_x3. case_bool_decide; [done|]. rewrite !zlen_app. change (zlen (bytes_of "0x")) with 2.
  set (ds := hex_loop _ _ _). assert (zlen ds <= 16).
  { pose proof (hex_loop_length (S (Z.to_nat (Z.log2 v))) v []) as Hl. rewrite zlen_nil in Hl. fold ds in Hl.
    assert (Z.log2 v < 16) by (apply Z.log2_lt_pow2; lia). pose proof (Z.log2_nonneg v). lia. }
  unfold zlen in *. rewrite length_replicate. lia.
Qed.
Lemma signed_decimal_length v : - 2 ^ 31 <= v < 2 ^ 31 → zlen (signed_decimal v) <= 11.
Proof.
  intros Hv. unfold signed_decimal. case_bool_decide; [rewrite zlen_cons|].
  - pose proof (decimal_length 10 (- v)). lia.
  - pose proof (decimal_length 10 v). lia.
Qed.

(** The numbers and texts of a message that came over the wire. *)
Lemma last_value_legal t attrs mi fp v :
  Forall attr_ok attrs → legal mi fp attrs = true → last_value t attrs = Some v →
  ∃ a, a ∈ attrs ∧ a_type a = t ∧ a_value a = v ∧ attr_ok a ∧ length_legal a = true.
Proof.
  revert mi fp. induction attrs as [|a attrs IH]; intros mi fp Ha Hl Hv; [done|]. apply Forall_cons in Ha as [Ha Hok].
  cbn [legal] in Hl. apply andb_true_iff in Hl as [[_ Hlen]%andb_true_iff Hl]. cbn [last_value] in Hv.
  destruct (last_value t attrs) as [v'|] eqn:E.
  - injection Hv as ->. destruct (IH _ _ Hok Hl eq_refl) as (b & Hin & Hb). exists b. split; [by right|done].
  - case_bool_decide as Et; [|done]. injection Hv as <-. exists a. split; [by left|done].
Qed.
Lemma wire_holds a attrs : a ∈ attrs → zlen (a_value a) <= zlen (wire attrs).
Proof.
  induction attrs as [|b attrs IH]; intros Hin; [by apply elem_of_nil in Hin|].
  change (wire (b :: attrs)) with (wire_attr b ++ wire attrs). rewrite zlen_app.
  pose proof (zlen_nonneg (wire attrs)). pose proof (zlen_nonneg (wire_attr b)).
  apply elem_of_cons in Hin as [->|Hin]; [|specialize (IH Hin); lia].
  unfold wire_attr. rewrite !zlen_app. pose proof (zlen_nonneg (a_pad b)).
  pose proof (zlen_nonneg (be_bytes 2 (a_type b))). pose proof (zlen_nonneg (be_bytes 2 (zlen (a_value b)))). lia.
Qed.
Lemma int_of_u64 t attrs :
  Forall attr_ok attrs → legal false false attrs = true → t ∈ [ICE_CONTROLLING; ICE_CONTROLLED; FINGERPRINT] →
  is_u64 (int_of t attrs).
Proof.
  intros Ha Hl Ht. unfold int_of. destruct (last_value t attrs) as [v|] eqn:E; cbn [from_option]; [|unfold_u; lia].
  destruct (last_value_legal _ _ _ _ _ Ha Hl E) as (a & _ & Et & <- & (_ & _ & Hb & _) & Hlen).
  pose proof (be_val_range _ Hb) as Hr. unfold length_legal in Hlen. rewrite Et in Hlen.
  assert (Hz : zlen (a_value a) = 4 ∨ zlen (a_value a) = 8).
  { rewrite !elem_of_cons, elem_of_nil in Ht. destruct Ht as [->|[->|[->|[]]]]; apply bool_decide_eq_true in Hlen; auto. }
  unfold_u. destruct Hz as [Hz|Hz]; rewrite Hz in Hr; lia.
Qed.
Lemma error_of_range attrs mi fp : Forall attr_ok attrs → legal mi fp attrs = true → 0 <= error_of attrs < 10 ^ 5.
Proof.
  intros Ha Hl. unfold error_of. destruct (last_value ERROR_CODE attrs) as [v|] eqn:E; [|lia].
  destruct (last_value_legal _ _ _ _ _ Ha Hl E) as (a & _ & _ & <- & (_ & _ & Hb & _) & _).
  destruct (a_value a) as [|? [|? [|c [|n r]]]]; try lia. unfold bytes_ok in Hb. rewrite !Forall_cons in Hb.
  destruct Hb as (_ & _ & Hc & Hn & _). unfold_u. lia.
Qed.

Lemma dump_text_size p attrs :
  Forall attr_ok attrs → legal false false attrs = true → holds p attrs →
  - 2 ^ 31 <= sp_size (packet_ p) < 2 ^ 31 → zlen (AsString (transaction_id_ p)) = 12 →
  zlen (AsString (message_integrity_ p)) <= 20 →
  zlen (dump_text p) <= zlen (AsString (username_ p)) + 900.
Proof.
  intros Ha Hl Hh Hs Ht Hi. unfold dump_text, dump_lines, attribute_lines. rewrite zlen_app.
  pose proof (appends_size (dump_lines p) ([10] ++ bytes_of "<StunPacket>" ++ [10])) as H. revert H.
  unfold dump_lines, attribute_lines. rewrite !lines_size_app.
  change (zlen ([10] ++ bytes_of "<StunPacket>" ++ [10])) with 14. change (zlen (bytes_of "</StunPacket>" ++ [10])) with 14.
  assert (M : lines_size [method_line p; bytes_of "  size: " ++ signed_decimal (sp_size (packet_ p)) ++ bytes_of " bytes";
      bytes_of "  transaction_id: " ++ hex_text (transaction_id_ p)] <= 180).
  { cbn [lines_size foldr]. rewrite !zlen_app. unfold hex_text. rewrite zlen_hex, Ht.
    pose proof (signed_decimal_length _ Hs). pose proof (fmt_x3_length (u16 (method_ p)) (u16_range _)).
    change (zlen (bytes_of "  size: ")) with 8. change (zlen (bytes_of " bytes")) with 6.
    change (zlen (bytes_of "  transaction_id: ")) with 18. unfold method_line.
    assert (zlen (klass_name (klass_ p)) <= 15) by (by destruct (klass_ p)).
    case_bool_decide; rewrite !zlen_app; change (zlen (bytes_of "  Binding ")) with 10; change (zlen (bytes_of "  ")) with 2;
      change (zlen (bytes_of " with unknown method ")) with 21; lia. }
  assert (E1 : lines_size (line_if (bool_decide (error_code_ p ≠ 0)) (bytes_of "  error_code: " ++ decimal (error_code_ p))) <= 30).
  { apply line_if_size. rewrite zlen_app. change (zlen (bytes_of "  error_code: ")) with 14. rewrite (h_error _ _ Hh).
    pose proof (error_of_range _ _ _ Ha Hl). pose proof (decimal_length 5 (error_of attrs)). lia. }
  assert (E2 : lines_size (line_if (negb (sp_empty (username_ p))) (bytes_of "  username: " ++ AsString (username_ p))) <=
    zlen (AsString (username_ p)) + 13).
  { apply line_if_size. rewrite zlen_app. change (zlen (bytes_of "  username: ")) with 12. lia. }
  assert (E3 : lines_size (line_if (bool_decide (priority_ p ≠ 0)) (bytes_of "  priority: " ++ signed_decimal (s32 (priority_ p)))) <= 40).
  { apply line_if_size. rewrite zlen_app. change (zlen (bytes_of "  priority: ")) with 12.
    pose proof (signed_decimal_length (s32 (priority_ p))) as Hd. unfold s32 in *.
    pose proof (Z.mod_pos_bound (priority_ p + 2 ^ 31) (2 ^ 32)). lia. }
  assert (E4 : lines_size (line_if (bool_decide (ice_controlling_ p ≠ 0)) (bytes_of "  ice_controlling: " ++ fmt_x (ice_controlling_ p))) <= 100).
  { apply line_if_size. rewrite zlen_app. change (zlen (bytes_of "  ice_controlling: ")) with 19. rewrite (h_controlling _ _ Hh).
    pose proof (fmt_x_length _ (int_of_u64 ICE_CONTROLLING _ Ha Hl ltac:(by left))). lia. }
  assert (E5 : lines_size (line_if (bool_decide (ice_controlled_ p ≠ 0)) (bytes_of "  ice_controlled: " ++ fmt_x (ice_controlled_ p))) <= 100).
  { apply line_if_size. rewrite zlen_app. change (zlen (bytes_of "  ice_controlled: ")) with 18. rewrite (h_controlled _ _ Hh).
    pose proof (fmt_x_length _ (int_of_u64 ICE_CONTROLLED _ Ha Hl ltac:(right; by left))). lia. }
  assert (E6 : lines_size (line_if (has_use_candidate_ p) (bytes_of "  use_candidate")) <= 20) by (by apply line_if_size).
  assert (E7 : lines_size (line_if (negb (sp_empty (message_integrity_ p))) (bytes_of "  message_integrity: " ++ hex_text (message_integrity_ p))) <= 70).
  { apply line_if_size. rewrite zlen_app. change (zlen (bytes_of "  message_integrity: ")) with 21. unfold hex_text. rewrite zlen_hex. lia. }
  assert (E8 : lines_size (line_if (has_fingerprint_ p) (bytes_of "  has fingerprint: " ++ fmt_x (fingerprint_ p))) <= 100).
  { apply line_if_size. rewrite zlen_app. change (zlen (bytes_of "  has fingerprint: ")) with 19. rewrite (h_fingerprint _ _ Hh).
    pose proof (fmt_x_length _ (int_of_u64 FINGERPRINT _ Ha Hl ltac:(right; right; by left))). lia. }
  lia.
Qed.

(** [Parse] remembers the packet it was given. *)
Definition scan_of (r : scan + scan) : scan := match r with inl s | inr s => s end.
Lemma attr_case_packet data pos ty n s r :
  attr_case data pos ty n s = Ret r → packet_ (sc_self (scan_of r)) = packet_ (sc_self s).
Proof.
  unfold attr_case, continue_with, discard. intros E. repeat case_bool_decide; inv_bind; subst; done.
Qed.
Lemma attr_loop_packet fuel packet s r :
  attr_loop fuel packet s = Ret r → packet_ (sc_self (scan_of r)) = packet_ (sc_self s).
Proof.
  revert s. induction fuel as [|fuel IH]; intros s; cbn [attr_loop]; [done|]. case_bool_decide; [|by intros [= <-]].
  intros (v & Hround & E)%bind_Ret.
  assert (Hv : packet_ (sc_self (scan_of v)) = packet_ (sc_self s)).
  { unfold attr_round in Hround. apply bind_Ret in Hround as (ty & _ & Hround). apply bind_Ret in Hround as (n & _ & Hround).
    case_bool_decide; [by injection Hround as <-|]. destruct (sc_fingerprint s); [by injection Hround as <-|].
    destruct (sc_message_integrity s && _); [by injection Hround as <-|].
    apply bind_Ret in Hround as (w & Hc & Hround). apply attr_case_packet in Hc.
    by destruct w; injection Hround as <-. }
  destruct v as [s'|s']; [by injection E as <-|]. by rewrite (IH _ E).
Qed.
Lemma Parse_packet fuel packet self p : Parse fuel packet self = Ret (p, 0) → packet_ p = packet.
Proof.
  unfold Parse. intros (b & _ & E)%bind_Ret. destruct b; cbn [negb] in E; [|done].
  apply bind_Ret in E as (ty & _ & E). apply bind_Ret in E as (n & _ & E).
  destruct (bool_decide (n ≠ _) || _); [done|].
  apply bind_Ret in E as (d0 & _ & E). apply bind_Ret in E as (d1 & _ & E). apply bind_Ret in E as (r & Hl & E).
  apply attr_loop_packet in Hl. cbn in Hl. rewrite <-Hl. destruct r as [s|s]; [done|]. cbn [scan_of].
  case_bool_decide; [done|]. destruct (sc_fingerprint s); [|by injection E as <-].
  apply bind_Ret in E as (crc & _ & E). case_bool_decide; [done|]. by injection E as <-.
Qed.

(** The dump of a parsed packet of at most [max_stun] bytes fits a log line. *)
Definition max_stun : Z := 62000.
Lemma dump_ok lc packet klass method p :
  lc_ok lc → sp_wf packet → bytes_ok (AsString packet) → sp_size packet <= max_stun →
  Parse (parse_fuel packet) packet (StunPacket_new klass method) = Ret (p, 0) → dump lc p = Ret tt.
Proof.
  intros Hlc Hw Hb Hsz Hrun. unfold max_stun in *. pose proof (Parse_packet _ _ _ _ Hrun) as Hpk.
  destruct (Parse_ok packet Hw Hb ltac:(lia) klass method) as (p' & r & Hrun' & Hr). rewrite Hrun in Hrun'.
  injection Hrun' as <- <-. destruct Hr as [(_ & ty & tid & attrs & Hwf & Hh & _ & _ & Ht & Htw)|[? _]]; [|done].
  destruct (well_formed_view packet Hw ltac:(lia) _ _ _ Hwf) as (_ & _ & _ & _ & Hlen). cbn zeta in Hlen.
  destruct Hwf as (_ & _ & Htl & E & Hok & Hleg & _). rewrite E in Hb. unfold wire_header in Hb. rewrite !bytes_ok_app in Hb.
  assert (Hmi : zlen (AsString (message_integrity_ p)) <= 20 ∧
    (sp_empty (message_integrity_ p) = true ∨ hex_ok (message_integrity_ p))).
  { pose proof (zlen_AsString _ (h_integrity_wf _ _ Hh)) as Hz. pose proof (h_integrity _ _ Hh) as Hi. unfold text_of in Hi.
    unfold sp_empty, hex_ok, sp_size in *. rewrite <-Hz.
    destruct (last_value MESSAGE_INTEGRITY attrs) as [v|] eqn:Ev; cbn in Hi; rewrite Hi.
    - destruct (last_value_legal _ _ _ _ _ Hok Hleg Ev) as (a & _ & Et & <- & (_ & _ & Hab & _) & Hll).
      unfold length_legal in Hll. rewrite Et in Hll. apply bool_decide_eq_true in Hll. split; [lia|]. right.
      split_and!; [apply Hh|done|lia|lia].
    - split; [done|]. by left. }
  destruct Hmi as [Hm20 Hmi].
  assert (Hu : zlen (AsString (username_ p)) <= sp_size packet).
  { rewrite (h_username _ _ Hh). unfold text_of. pose proof (zlen_nonneg (wire attrs)).
    destruct (last_value USERNAME attrs) as [v|] eqn:Ev; cbn [default from_option id]; [|change (zlen []) with 0; lia].
    destruct (last_value_legal _ _ _ _ _ Hok Hleg Ev) as (a & Hin & _ & <- & _). apply wire_holds in Hin. lia. }
  assert (Htid : hex_ok (transaction_id_ p)).
  { split_and!; [done|rewrite Ht; tauto|..]; unfold sp_size; rewrite <-zlen_AsString, Ht by done; lia. }
  unfold dump. destruct (dump_string_ok p (lc_ext lc) Htid Hmi (lk_ext _ Hlc)) as (ext' & ->). cbn [mbind result_bind].
  apply LOG_INFO_ok; [done|by repeat constructor|]. unfold texts. cbn [fmap list_fmap concat item_text]. rewrite app_nil_r.
  destruct Hw. pose proof (dump_text_size p attrs Hok Hleg Hh). rewrite Hpk, Ht in *. unfold max_log, sp_size in *. lia.
Qed.

(** ** Lines of one's choice *)
Definition with_user (u : list Z) (candidate : bool) (p : StunPacket) : StunPacket :=
  mk_stun (packet_ p) (klass_ p) (method_ p) (transaction_id_ p) (StringPiece_string u) 0 0 0
    (has_nomination_ p) (nomination_ p) candidate (message_integrity_ p) (has_fingerprint_ p) (fingerprint_ p)
    (xor_mapped_address_ p) (error_code_ p) (password_ p).

(** The dump does not tell a message that asks for the use of its candidate
    from one that does not, and has a longer user name: the name is printed
    with its line ends. *)
Theorem dump_forged u p :
  u ≠ [] → 0 ∉ u → zlen u < 60000 →
  dump_text (with_user (u ++ [10] ++ bytes_of "  use_candidate") false p) = dump_text (with_user u true p).
Proof.
  intros Hu H0 Hl.
  assert (Hlab : ∀ l, 0 ∉ l → zlen l < 60100 → short (bytes_of "  username: " ++ l)).
  { intros l Hn Hz. split.
    - rewrite not_elem_of_app. split; [|done]. by apply (bool_decide_unpack _); vm_compute.
    - rewrite zlen_app. change (zlen (bytes_of "  username: ")) with 12. unfold klogBufferLen. lia. }
  assert (Hne : ∀ l, l ≠ [] → sp_empty (StringPiece_string l) = false).
  { intros [|x l] Hx; [done|]. unfold sp_empty, sp_size, StringPiece_string. cbn [length_]. rewrite zlen_cons.
    pose proof (zlen_nonneg l). apply bool_decide_eq_false. lia. }
  assert (Heq : ∀ s, appends [bytes_of "  username: " ++ u ++ [10] ++ bytes_of "  use_candidate"] s =
                     appends [bytes_of "  username: " ++ u; bytes_of "  use_candidate"] s).
  { assert (Hz : 0 ∉ bytes_of "  use_candidate") by (by apply (bool_decide_unpack _); vm_compute).
    assert (S1 : short (bytes_of "  use_candidate")) by (by split).
    assert (S2 : short (bytes_of "  username: " ++ u)) by (apply Hlab; [done|lia]).
    assert (S3 : short (bytes_of "  username: " ++ u ++ [10] ++ bytes_of "  use_candidate")).
    { apply Hlab; [|rewrite !zlen_app; change (zlen (bytes_of "  use_candidate")) with 15; change (zlen [10]) with 1; lia].
      rewrite !not_elem_of_app. split_and!; [done| |done]. by apply (bool_decide_unpack _); vm_compute. }
    intros s. unfold appends. cbn [foldl]. rewrite !StringAppend_short by done. by rewrite <-!app_assoc. }
  unfold dump_text, dump_lines, attribute_lines, with_user.
  cbn [klass_ method_ packet_ transaction_id_ error_code_ username_ priority_ ice_controlling_ ice_controlled_
       has_use_candidate_ message_integrity_ has_fingerprint_ fingerprint_ method_line].
  rewrite !Hne by (done || by destruct u). rewrite !AsString_string. cbn [negb line_if bool_decide app].
  change (bool_decide (0 ≠ 0)) with false. cbn [line_if app].
  unfold appends in *. cbn [foldl app] in *. rewrite !foldl_app. cbn [foldl]. by rewrite Heq.
Qed.

(** ** A temporary text *)
Lemma pointed_stored text ext : short text → pointed (stored text ext) = text.
Proof.
  intros [H0 Hl]. unfold pointed, stored. assert (Ec : cstr text = text).
  { unfold cstr, strlen. rewrite std_find_notin by done. by rewrite ztake_ge by lia. }
  rewrite Ec, ztake_ge by lia. unfold cstr, strlen. cbn [app]. rewrite std_find_app by done. by rewrite ztake_app_all.
Qed.
(** A text lasts until the next one is made: two pointers from TempFmt that
    are used together both show the second text. *)
Theorem TempFmt_shared first second ext :
  short first → short second →
  pointed (TempFmt first ext) = first ∧ pointed (TempFmt second (TempFmt first ext)) = second.
Proof. intros H1 H2. split; by apply pointed_stored. Qed.
