(* ===== verification/Ice.v ===== *)
(** * The ICE-lite server: webrtc/ice/ice_server.{h,cc}

    [ProcessStunPacket] parses an incoming packet, logs its dump and answers
    binding requests.  What [pc_->AsyncSend] is given is collected in [ice_sent]; the
    address of the peer connection is the field [pc_addr].  The theorem says
    which packets are answered, that every answer is itself a packet [Parse]
    accepts with the same transaction id, and when the server becomes
    connected. *)

From Stdlib Require Import ZArith Lia Bool.
From stdpp Require Import base numbers list.
From S2P Require Import Prelude Types StringPiece Buffer Logger InetAddress Crc32 Stun StunPack StunDump.

Inductive IceState : Type :=
  | NEW
  | CONNECTED.
#[global] Instance IceState_eq_dec : EqDecision IceState.
Proof. solve_decision. Defined.

Record IceServer : Type := mk_ice {
  pc_addr : InetAddress;
  ice_state_ : IceState;
  ice_password_ : list Z;
  send_buf_ : Buffer;
  ice_sent : list (list Z);
}.

Definition IceServer_new (addr : InetAddress) (password : list Z) : IceServer :=
  mk_ice addr NEW password default_buffer [].
Definition is_connected (s : IceServer) : bool := bool_decide (ice_state_ s = CONNECTED).

(** The answer: a default-initialised packet and its setters. *)
Definition binding_response (s : IceServer) (packet : StunPacket) : StunPacket :=
  let rsp := StunPacket_new REQUEST 0 in
  let rsp := set_class SUCCESS_RESPONSE rsp in
  let rsp := set_method BINDING rsp in
  let rsp := set_transaction_id (transaction_id_ packet) rsp in
  let rsp := set_xor_mapped_address (pc_addr s) rsp in
  set_password (StringPiece_string (ice_password_ s)) rsp.

Section process.
Context (hmac_sha1 : list Z → list Z → list Z).

Definition answer_request (s : IceServer) (packet : StunPacket) : result IceServer :=
  if negb (has_message_integrity packet) || bool_decide (priority_ packet = 0) ||
     sp_empty (username_ packet) then Ret s
  else if bool_decide (ice_controlled_ packet ≠ 0) then Ret s
  else
    let rsp := binding_response s packet in
    let send_buf := TakeAll (send_buf_ s) in
    '(send_buf, _) ← Pack hmac_sha1 send_buf rsp;
    let sent := ice_sent s ++ [AsString (slice send_buf)] in
    let state := if has_use_candidate_ packet then CONNECTED else ice_state_ s in
    Ret (mk_ice (pc_addr s) state (ice_password_ s) send_buf sent).

Definition ProcessStunPacket (lc : LogCtx) (s : IceServer) (stun_packet : StringPiece) : result IceServer :=
  '(packet, err) ← Parse (parse_fuel stun_packet) stun_packet (StunPacket_new REQUEST 0);
  if bool_decide (err ≠ 0) then Ret s
  else
  _ ← dump lc packet;
  if bool_decide (method_ packet ≠ BINDING) then Ret s
  else if negb (has_fingerprint_ packet) && bool_decide (klass_ packet ≠ INDICATION) then Ret s
  else match klass_ packet with
       | REQUEST => answer_request s packet
       | INDICATION | SUCCESS_RESPONSE | ERROR_RESPONSE => Ret s
       end.
End process.

(** ** Which packets are answered *)
Definition answerable (ty : Z) (attrs : list attr) : bool :=
  bool_decide (method_of ty = BINDING) && bool_decide (klass_of (ty / 256) (ty mod 256) = REQUEST) &&
  present FINGERPRINT attrs && nonempty (text_of MESSAGE_INTEGRITY attrs) &&
  bool_decide (int_of PRIORITY attrs ≠ 0) && nonempty (text_of USERNAME attrs) &&
  bool_decide (int_of ICE_CONTROLLED attrs = 0).

Record ice_wf (s : IceServer) : Prop := {
  iw_addr : addr_wf (pc_addr s) ∧ bytes_ok (pc_addr s);
  iw_buf : buf_wf (send_buf_ s);
}.

(** An answer to the transaction [tid]: a success response that parses, of at
    most 1000 bytes. *)
Definition is_answer (tid msg : list Z) : Prop :=
  zlen msg <= 1000 ∧
  ∃ q, Parse (parse_fuel (StringPiece_string msg)) (StringPiece_string msg) (StunPacket_new REQUEST 0) = Ret (q, 0) ∧
    klass_ q = SUCCESS_RESPONSE ∧ method_ q = BINDING ∧ AsString (transaction_id_ q) = tid ∧
    has_fingerprint_ q = true.

Lemma sp_empty_text s : sp_wf s → sp_empty s = negb (nonempty (AsString s)).
Proof.
  intros Hs. unfold sp_empty. rewrite <-zlen_AsString by done. rewrite nonempty_zlen.
  by rewrite negb_involutive.
Qed.

Section ice.
Context (hmac_sha1 : list Z → list Z → list Z) (Hd : digest_ok hmac_sha1).
Context (s : IceServer) (Hs : ice_wf s).

Lemma binding_response_packable packet :
  sp_wf (transaction_id_ packet) → zlen (AsString (transaction_id_ packet)) = 12 →
  bytes_ok (AsString (transaction_id_ packet)) → packable (binding_response s packet).
Proof using Hs.
  intros Hw Hl Hb. rewrite zlen_AsString in Hl by done.
  constructor; try done; try apply Hs; try (unfold_u; cbn; lia). constructor.
Qed.

(** Packing the answer does not fail, and its text parses as the answer. *)
Lemma answer_ok packet :
  packable (binding_response s packet) →
  ∃ buf', Pack hmac_sha1 (TakeAll (send_buf_ s)) (binding_response s packet) =
      Ret (buf', set_has_fingerprint (binding_response s packet)) ∧ buf_wf buf' ∧
    is_answer (AsString (transaction_id_ packet)) (AsString (slice buf')).
Proof using Hd Hs.
  intros Hp. destruct (TakeAll_ok _ (iw_buf _ Hs)) as [Hb Hc].
  destruct (@Pack_ok Buffer Buffer_queue hmac_sha1 Hd _ Hp (TakeAll (send_buf_ s)) Hb Hc) as (buf' & Hrun & Hb' & Hc').
  exists buf'. split_and!; [done..|]. split.
  { rewrite AsString_slice by done. cbn [bq_content Buffer_queue] in Hc'. rewrite Hc'. by apply packed_text_small. }
  destruct (packed_parses hmac_sha1 _ (StringPiece_string (AsString (slice buf'))) REQUEST 0 Hd Hp)
    as (q & Hq & [Hk Hm Ht _ _ _ _ _ _ _ Hf]); [done|auto with baize|by rewrite AsString_string|].
  by exists q.
Qed.

Lemma answer_request_ok packet attrs :
  holds packet attrs → packable (binding_response s packet) →
  let answered := nonempty (text_of MESSAGE_INTEGRITY attrs) &&
    bool_decide (int_of PRIORITY attrs ≠ 0) && nonempty (text_of USERNAME attrs) &&
    bool_decide (int_of ICE_CONTROLLED attrs = 0) in
  ∃ s', answer_request hmac_sha1 s packet = Ret s' ∧
    if answered then
      ice_wf s' ∧ ice_state_ s' = (if present USE_CANDIDATE attrs then CONNECTED else ice_state_ s) ∧
      ∃ msg, ice_sent s' = ice_sent s ++ [msg] ∧ is_answer (AsString (transaction_id_ packet)) msg
    else s' = s.
Proof using Hd Hs.
  intros Hh Hp answered. unfold answer_request, has_message_integrity.
  rewrite (sp_empty_text _ (h_integrity_wf _ _ Hh)), (sp_empty_text _ (h_username_wf _ _ Hh)).
  rewrite (h_integrity _ _ Hh), (h_username _ _ Hh), (h_priority _ _ Hh), (h_controlled _ _ Hh).
  rewrite negb_involutive. unfold answered.
  destruct (nonempty (text_of MESSAGE_INTEGRITY attrs)); cbn [negb orb andb]; [|by exists s].
  destruct (bool_decide_reflect (int_of PRIORITY attrs = 0)) as [E|E]; cbn [orb].
  { rewrite (bool_decide_false (int_of PRIORITY attrs ≠ 0)) by (intros Hn; by apply Hn). by exists s. }
  rewrite (bool_decide_true (int_of PRIORITY attrs ≠ 0)) by done.
  destruct (nonempty (text_of USERNAME attrs)); cbn [negb orb andb]; [|by exists s].
  destruct (bool_decide_reflect (int_of ICE_CONTROLLED attrs = 0)) as [E'|E'].
  2: { rewrite bool_decide_true by done. by exists s. }
  rewrite bool_decide_false by (intros Hn; by apply Hn).
  destruct (answer_ok packet Hp) as (buf' & -> & Hb & Ha). cbn [mbind result_bind].
  eexists. split; [done|]. split_and!.
  - constructor; [apply Hs|done].
  - cbn. by rewrite (h_use_candidate _ _ Hh).
  - by exists (AsString (slice buf')).
Qed.
End ice.

Lemma ProcessStunPacket_ok hmac_sha1 lc s packet :
  digest_ok hmac_sha1 → lc_ok lc → ice_wf s → sp_wf packet → bytes_ok (AsString packet) → sp_size packet <= max_stun →
  ∃ s', ProcessStunPacket hmac_sha1 lc s packet = Ret s' ∧ ice_wf s' ∧
    ((s' = s ∧ ∀ ty tid attrs, well_formed (AsString packet) ty tid attrs → answerable ty attrs = false) ∨
     (∃ ty tid attrs msg, well_formed (AsString packet) ty tid attrs ∧ answerable ty attrs = true ∧
        ice_sent s' = ice_sent s ++ [msg] ∧ is_answer tid msg ∧
        ice_state_ s' = if present USE_CANDIDATE attrs then CONNECTED else ice_state_ s)).
Proof.
  intros Hd Hlc Hs Hsw Hok Hmax. unfold ProcessStunPacket. assert (Hlen : sp_size packet <= 65532) by (unfold max_stun in *; lia).
  destruct (Parse_ok packet Hsw Hok Hlen REQUEST 0) as (p & r & Hrun & Hr). rewrite Hrun. cbn [mbind result_bind].
  destruct Hr as [(-> & ty & tid & attrs & Hw & Hh & Hm & Hk & Ht & Htw)|[-> Hno]].
  2: { exists s. split_and!; [done..|]. left. split; [done|]. intros ty tid attrs Hw. by apply Hno in Hw. }
  rewrite bool_decide_false by (intros Hn; by apply Hn).
  rewrite (dump_ok lc packet REQUEST 0 p) by done. cbn [mbind result_bind].
  assert (Hsilent : answerable ty attrs = false →
    ∃ s', Ret s = Ret s' ∧ ice_wf s' ∧
    ((s' = s ∧ ∀ ty tid attrs, well_formed (AsString packet) ty tid attrs → answerable ty attrs = false) ∨
     (∃ ty tid attrs msg, well_formed (AsString packet) ty tid attrs ∧ answerable ty attrs = true ∧
        ice_sent s' = ice_sent s ++ [msg] ∧ is_answer tid msg ∧
        ice_state_ s' = if present USE_CANDIDATE attrs then CONNECTED else ice_state_ s))).
  { intros Hna. exists s. split_and!; [done..|]. left. split; [done|]. intros ty' tid' attrs' Hw'.
    by destruct (well_formed_unique _ Hsw Hlen _ _ _ _ _ _ Hw Hw') as (<- & _ & <-). }
  unfold answerable in *. rewrite <-Hm, <-Hk, (h_has_fingerprint _ _ Hh) in *.
  destruct (bool_decide_reflect (method_ p = BINDING)) as [Em|Em].
  2: { rewrite bool_decide_true by done. by apply Hsilent. }
  rewrite (bool_decide_false (method_ p ≠ _)) by (intros Hn; by apply Hn).
  destruct (klass_ p) eqn:Ek; cbn [andb] in *; rewrite ?andb_false_r; try (by apply Hsilent).
  2-3: destruct (present FINGERPRINT attrs); by apply Hsilent.
  destruct (present FINGERPRINT attrs) eqn:Ef; cbn [negb andb]; [|by apply Hsilent].
  assert (Hp : packable (binding_response s p)).
  { destruct Hw as (_ & _ & Htl & E & _). apply binding_response_packable; [done..|congruence|].
    rewrite Ht. rewrite E in Hok. unfold wire_header in Hok. rewrite !bytes_ok_app in Hok. tauto. }
  destruct (answer_request_ok hmac_sha1 Hd s Hs p attrs Hh Hp) as (s' & -> & Hs').
  destruct (nonempty _ && _ && _ && _) eqn:Ea; [|subst s'].
  - destruct Hs' as (Hwf' & Hst & msg & Hsent & Hans). exists s'. split_and!; [done..|]. right.
    exists ty, tid, attrs, msg. rewrite <-Ht. split_and!; [by rewrite Ht|..]; try done.
    rewrite <-Hm, <-Hk, Em, Ef. exact Ea.
  - by apply Hsilent.
Qed.

(** C15: [ProcessStunPacket] is total on packets of at most 62000 bytes, whose
    dump fits the array of a log line together with at most 2000 bytes of
    names (the log has any level and state, a clock between 1970 and the year
    10000), and keeps its invariant.  It sends nothing and keeps its state unless the
    packet is a well-formed, fingerprinted binding request with an integrity
    code, a priority and a username that does not claim the controlled role;
    such a request gets exactly one answer, a success response for the same
    transaction that [Parse] accepts, and makes the server connected exactly
    when it nominates the candidate. *)
Theorem ProcessStunPacket_correct hmac_sha1 lc s packet :
  digest_ok hmac_sha1 → lc_ok lc → ice_wf s → sp_wf packet → bytes_ok (AsString packet) → sp_size packet <= max_stun →
  ∃ s', ProcessStunPacket hmac_sha1 lc s packet = Ret s' ∧ ice_wf s' ∧
    ((s' = s ∧ ∀ ty tid attrs, well_formed (AsString packet) ty tid attrs → answerable ty attrs = false) ∨
     (∃ ty tid attrs msg, well_formed (AsString packet) ty tid attrs ∧ answerable ty attrs = true ∧
        ice_sent s' = ice_sent s ++ [msg] ∧ is_answer tid msg ∧
        ice_state_ s' = if present USE_CANDIDATE attrs then CONNECTED else ice_state_ s)).
Proof. apply ProcessStunPacket_ok. Qed.

(** A request of a peer gets one answer. *)
Definition sample_server : IceServer :=
  IceServer_new (InetAddress_port zero_addr6 5000 true false) [112; 119].

Lemma sample_server_wf : ice_wf sample_server.
Proof.
  constructor; [split; [reflexivity|]|vm_compute; intuition discriminate].
  repeat (constructor; [vm_compute; intuition discriminate|]). constructor.
Qed.

Lemma ProcessStunPacket_correct_witness :
  ∃ s', ProcessStunPacket sample_digest sample_ctx sample_server
      (StringPiece_string (packed_text sample_digest sample_packet)) = Ret s' ∧
    ice_wf s' ∧ length (ice_sent s') = 1%nat.
Proof.
  destruct (ProcessStunPacket_correct sample_digest sample_ctx sample_server
    (StringPiece_string (packed_text sample_digest sample_packet)) sample_digest_ok sample_ctx_ok sample_server_wf
    (sp_wf_string _)) as (s' & H & Hwf & _).
  - rewrite AsString_string. apply packed_text_bytes; [exact sample_digest_ok|exact sample_packable].
  - vm_compute. discriminate.
  - exists s'. split; [exact H|]. split; [exact Hwf|]. vm_compute in H. injection H as <-. reflexivity.
Defined.
