(* ===== verification/Http.v ===== *)
(** * HTTP messages: http/http_message.{h,cc}

    [Decode] cuts one message off the front of a buffer, [Encode] writes one,
    [request_line] interprets the first line.  [std::map<string, string>] is a
    list of pairs with strictly increasing keys, the order in which [Encode]
    iterates.  The theorems of this file: on arbitrary input [Decode] is a
    reference decoder on the buffered text and either consumes a message, asks
    for more bytes or rejects, and the two ways in which it can leave defined
    behaviour are named; [request_line] is total.  HttpCodec holds the round
    trip with [Encode]. *)

From Stdlib Require Import ZArith Lia Bool.
From stdpp Require Import base numbers list.
From S2P Require Import Prelude Types StringPiece Buffer.

(** ** [std::map<string, string>] *)
Fixpoint str_ltb (a b : list Z) : bool :=
  match a, b with
  | _, [] => false
  | [], _ :: _ => true
  | x :: a, y :: b => bool_decide (x < y) || (bool_decide (x = y) && str_ltb a b)
  end.

Definition smap : Type := list (list Z * list Z).

(** [m[key] = value]. *)
Fixpoint map_set (m : smap) (key value : list Z) : smap :=
  match m with
  | [] => [(key, value)]
  | (k, v) :: m' =>
      if str_ltb key k then (key, value) :: m
      else if bool_decide (key = k) then (key, value) :: m'
      else (k, v) :: map_set m' key value
  end.

Fixpoint map_get (m : smap) (key : list Z) : option (list Z) :=
  match m with
  | [] => None
  | (k, v) :: m => if bool_decide (k = key) then Some v else map_get m key
  end.

(** ** The message *)
Inductive Method : Type := Method_kNone | kGet | kPost.
Inductive Version : Type := Version_kNone | kHttp11.
Inductive StatusCode : Type := StatusCode_kNone | k200.
Inductive StatusDescription : Type := StatusDescription_kNone | kOK.
#[global] Instance Method_eq_dec : EqDecision Method.
Proof. solve_decision. Defined.

Record RequestLine : Type := mk_request_line {
  rq_method : Method;
  rq_url : list Z;
  rq_query : smap;
  rq_version : Version;
}.
Record ResponseLine : Type := mk_response_line {
  rs_version : Version;
  rs_code : StatusCode;
  rs_description : StatusDescription;
}.
Record HttpMessage : Type := mk_http {
  first_line_ : list Z;
  headers_ : smap;
  body_ : list Z;
}.
Definition HttpMessage_new : HttpMessage := mk_http [] [] [].

(** ** Literals *)
Definition CRLF : list Z := [13; 10].
Definition CRLF2 : list Z := [13; 10; 13; 10].
(** "Content-Length" *)
Definition CONTENT_LENGTH : list Z := [67; 111; 110; 116; 101; 110; 116; 45; 76; 101; 110; 103; 116; 104].
(** "GET", "POST", "HTTP/1.1", "200 ", "OK" *)
Definition GET : list Z := [71; 69; 84].
Definition POST : list Z := [80; 79; 83; 84].
Definition HTTP11 : list Z := [72; 84; 84; 80; 47; 49; 46; 49].
Definition S200 : list Z := [50; 48; 48; 32].
Definition SOK : list Z := [79; 75].

Definition MakeResponseLine (line : ResponseLine) : list Z :=
  match rs_version line, rs_code line, rs_description line with
  | kHttp11, k200, kOK => (HTTP11 ++ [32]) ++ S200 ++ SOK
  | _, _, _ => []
  end.

(** The length of the first complete message, 0 when there is none yet, -1
    when its Content-Length cannot be read. *)
Definition CheckCompleted (message : StringPiece) : result Z :=
  let mem := sp_mem message in
  let pos := Find message (lit CRLF2) in
  if bool_decide (pos = sp_end message) then Ret 0
  else
    length_header ← StringPiece_range mem (sp_begin message) pos;
    let header_begin := Find length_header (lit CONTENT_LENGTH) in
    if bool_decide (header_begin = sp_end length_header) then Ret (pos - sp_begin message + 4)
    else
      length_header ← RemovePrefixUntil length_header header_begin;
      let header_end := Find length_header (lit CRLF) in
      if bool_decide (header_end = sp_end length_header) then Ret (-1)
      else
        length_header ← RemoveSuffixUntil length_header header_end;
        let tmp := Find_char length_header 58 in
        if bool_decide (tmp = sp_end length_header) then Ret (-1)
        else
          length ← StringPiece_range mem (tmp + 1) header_end;
          length ← TrimSpace length;
          '(tmp, len) ← ParseInt length 0;
          if bool_decide (tmp ≠ sp_end length) then Ret (-1)
          else
            body ← StringPiece_range mem (pos + 4) (sp_end message);
            if bool_decide (sp_size body < len) then Ret 0
            else Ret (pos - sp_begin message + 4 + len).

(** The header loop: the headers read so far with the rest of the slice, or
    with [tt] where the code returns -1. *)
Fixpoint header_loop (fuel : nat) (slice : StringPiece) (header_crlf headers_end : Z) (headers : smap)
    : result (smap * (StringPiece + unit)) :=
  match fuel with
  | O => OutOfFuel
  | S fuel =>
      if bool_decide (header_crlf ≠ headers_end) then
        header ← StringPiece_range (sp_mem slice) (sp_begin slice) header_crlf;
        let seg := Find_char header 58 in
        if bool_decide (seg = sp_end header) then Ret (headers, inr tt)
        else
          key ← StringPiece_range (sp_mem slice) (sp_begin header) seg;
          key ← TrimSpace key;
          value ← StringPiece_range (sp_mem slice) (seg + 1) (sp_end header);
          value ← TrimSpace value;
          let headers := map_set headers (AsString key) (AsString value) in
          slice ← RemovePrefixUntil slice (header_crlf + 2);
          header_loop fuel slice (Find slice (lit CRLF)) headers_end headers
      else Ret (headers, inl slice)
  end.

(** [Decode] once a message of [parsed_len] bytes is complete: the message
    object, the buffer and the returned length. *)
Definition decode_message (self : HttpMessage) (message : Buffer) (slice : StringPiece) (parsed_len : Z)
    : result (HttpMessage * Buffer * Z) :=
  let first_line_end := Find slice (lit CRLF) in
  if bool_decide (first_line_end = sp_end slice) then Ret (self, message, -1)
  else
    first_line ← StringPiece_range (sp_mem slice) (sp_begin slice) first_line_end;
    slice ← RemovePrefixUntil slice (first_line_end + 2);
    let headers_end := Find slice (lit CRLF2) in
    if bool_decide (headers_end = sp_end slice)
    then Ret (mk_http (AsString first_line) (headers_ self) (body_ self), message, -1)
    else
      let header_crlf := Find slice (lit CRLF) in
      if bool_decide (header_crlf = sp_end slice)
      then Ret (mk_http (AsString first_line) (headers_ self) (body_ self), message, -1)
      else
        '(headers, r) ← header_loop (S (Z.to_nat (sp_size slice))) slice header_crlf headers_end
                          (headers_ self);
        match r with
        | inr _ => Ret (mk_http (AsString first_line) headers (body_ self), message, -1)
        | inl slice =>
            slice ← RemovePrefixUntil slice (headers_end + 4);
            let before_body_len := headers_end - sp_begin first_line + 4 in
            let body_len := parsed_len - before_body_len in
            body ← string_at (sp_mem slice) (sp_begin slice) body_len;
            message ← Take message parsed_len;
            Ret (mk_http (AsString first_line) headers body, message, parsed_len)
        end.

Definition Decode (self : HttpMessage) (message : Buffer) : result (HttpMessage * Buffer * Z) :=
  let slice := slice message in
  parsed_len ← CheckCompleted slice;
  if bool_decide (parsed_len <= 0) then Ret (self, message, parsed_len)
  else decode_message self message slice parsed_len.

(** [Encode], for any byte queue; the returned length is that of the queue. *)
Section Encode.
Context {Q : Type} `{ByteQueue Q}.

Fixpoint encode_headers (message : Q) (headers : smap) : result Q :=
  match headers with
  | [] => Ret message
  | (key, value) :: headers =>
      message ← bq_append message key;
      message ← bq_append message [58; 32];
      message ← bq_append message value;
      message ← bq_append message CRLF;
      encode_headers message headers
  end.

Definition Encode (self : HttpMessage) (message : Q) : result (Q * Z) :=
  message ← bq_append message (first_line_ self);
  message ← bq_append message CRLF;
  message ← encode_headers message (headers_ self);
  message ← bq_append message CRLF;
  message ← bq_append message (body_ self);
  Ret (message, sp_size (bq_slice message)).
End Encode.

(** ** The request line *)

(** [for (auto& item : query_vector)]; [false] is the early return. *)
Fixpoint query_loop (items : list StringPiece) (query : smap) : result (smap * bool) :=
  match items with
  | [] => Ret (query, true)
  | item :: items =>
      let seg := Find_char item 61 in
      if bool_decide (seg = sp_end item) then Ret (query, false)
      else
        key ← string_at (sp_mem item) (sp_begin item) (seg - sp_begin item);
        value ← string_at (sp_mem item) (seg + 1) (sp_end item - (seg + 1));
        query_loop items (map_set query key value)
  end.

Definition request_line (self : HttpMessage) : result RequestLine :=
  let req := mk_request_line Method_kNone [] [] Version_kNone in
  let first_line := StringPiece_string (first_line_ self) in
  slice_vector ← Split_char first_line 32;
  match slice_vector with
  | [method; path; version] =>
      if negb (sp_eqb method (lit GET)) && negb (sp_eqb method (lit POST)) then Ret req
      else
        let m := if sp_eqb method (lit GET) then kGet else kPost in
        let finish req :=
          Ret (mk_request_line m (rq_url req) (rq_query req)
                 (if sp_eqb version (lit HTTP11) then kHttp11 else Version_kNone)) in
        let pos := Find_char path 63 in
        if bool_decide (pos = sp_end path) then
          finish (mk_request_line m (AsString path) [] Version_kNone)
        else
          url ← string_at (sp_mem path) (sp_begin path) (pos - sp_begin path);
          query ← StringPiece_range (sp_mem path) (pos + 1) (sp_end path);
          query_vector ← Split_char query 38;
          '(q, complete) ← query_loop query_vector [];
          if negb complete then Ret (mk_request_line m url q Version_kNone)
          else finish (mk_request_line m url q Version_kNone)
  | _ => Ret req
  end.

Definition set_response_line (line : StringPiece) (self : HttpMessage) : HttpMessage :=
  mk_http (AsString line) (headers_ self) (body_ self).
Definition set_headers (key value : StringPiece) (self : HttpMessage) : HttpMessage :=
  mk_http (first_line_ self) (map_set (headers_ self) (AsString key) (AsString value)) (body_ self).
Definition set_body (body : StringPiece) (self : HttpMessage) : HttpMessage :=
  mk_http (first_line_ self) (headers_ self) (AsString body).

(** ** Slices of a slice *)

(** Bytes [i] to [j] of the slice [s]. *)
Definition sub (s : StringPiece) (i j : Z) : StringPiece := mk_sp (sp_mem s) (ptr_ s + i) (j - i).

Section sub.
Context (s : StringPiece) (Hs : sp_wf s).
Let l := AsString s.

Lemma sub_wf i j : 0 <= i <= j → j <= zlen l → sp_wf (sub s i j).
Proof using Hs. intros. unfold l in *. rewrite zlen_AsString in * by done. by apply sp_wf_mk. Qed.
Lemma sub_text i j : 0 <= i <= j → j <= zlen l → AsString (sub s i j) = ztake (j - i) (zdrop i l).
Proof using Hs. intros. unfold l in *. rewrite zlen_AsString in * by done. by apply AsString_mk. Qed.
Lemma sub_all : sub s 0 (zlen l) = s.
Proof using Hs.
  unfold sub, l. rewrite zlen_AsString by done. destruct s. cbn. f_equal; lia.
Qed.
Lemma sub_begin i j : sp_begin (sub s i j) = sp_begin s + i.
Proof. done. Qed.
Lemma sub_end i j : sp_end (sub s i j) = sp_begin s + j.
Proof. unfold sp_end, sub, sp_begin. cbn. lia. Qed.
Lemma end_of : sp_end s = sp_begin s + zlen l.
Proof using Hs. unfold l, sp_end, sp_begin. rewrite zlen_AsString by done. done. Qed.

Lemma range_sub i j :
  i <= j → StringPiece_range (sp_mem s) (sp_begin s + i) (sp_begin s + j) = Ret (sub s i j).
Proof.
  intros. rewrite StringPiece_range_ok by lia. unfold sub, sp_begin. do 2 f_equal. lia.
Qed.
Lemma prefix_sub i j k :
  i <= k <= j → RemovePrefixUntil (sub s i j) (sp_begin s + k) = Ret (sub s k j).
Proof.
  intros. rewrite RemovePrefixUntil_ok by (rewrite sub_begin, sub_end; lia).
  rewrite sub_begin. unfold RemovePrefix, sub. cbn. do 2 f_equal; lia.
Qed.
Lemma suffix_sub i j k :
  i <= k <= j → RemoveSuffixUntil (sub s i j) (sp_begin s + k) = Ret (sub s i k).
Proof.
  intros. rewrite RemoveSuffixUntil_ok by (rewrite sub_begin, sub_end; lia).
  rewrite sub_end. unfold RemoveSuffix, sub. cbn. do 2 f_equal; lia.
Qed.
End sub.

Ltac no_zero := by rewrite <-(bool_decide_spec (0 ∉ _)).

(** ** [CheckCompleted] on the text *)

(** The declared body length of the header text [h], that is the text before
    the first empty line. *)
Inductive declared : Type :=
  | NoLength
  | BadLength
  | HugeLength
  | Length (n : Z).

Definition declared_length (h : list Z) : declared :=
  let q := std_search h CONTENT_LENGTH in
  if bool_decide (q = zlen h) then NoLength
  else
    let h := zdrop q h in
    let e := std_search h CRLF in
    if bool_decide (e = zlen h) then BadLength
    else
      let line := ztake e h in
      let c := std_find line 58 in
      if bool_decide (c = zlen line) then BadLength
      else
        let v := trim (zdrop (c + 1) line) in
        let ds := digit_prefix v in
        if bool_decide (dec_val ds > INT_MAX) then HugeLength
        else if bool_decide (zlen ds ≠ zlen v) then BadLength else Length (dec_val ds).

Definition check_spec (l : list Z) : result Z :=
  let p := std_search l CRLF2 in
  if bool_decide (p = zlen l) then Ret 0
  else match declared_length (ztake p l) with
       | NoLength => Ret (p + 4)
       | BadLength => Ret (-1)
       | HugeLength => Fault SignedOverflow
       | Length n => if bool_decide (zlen l - (p + 4) < n) then Ret 0 else Ret (p + 4 + n)
       end.

(** [ParseInt] into a zero, for any text. *)
Lemma ParseInt_zero s :
  sp_wf s →
  ParseInt s 0 =
    if bool_decide (dec_val (digit_prefix (AsString s)) > INT_MAX) then Fault SignedOverflow
    else Ret (sp_begin s + zlen (digit_prefix (AsString s)), dec_val (digit_prefix (AsString s))).
Proof.
  intros Hs. pose proof (ParseInt_ok s 0 Hs) as ->. cbn zeta.
  destruct (bool_decide_reflect (digit_prefix (AsString s) = [])) as [->|_].
  { rewrite bool_decide_false by (unfold_u; cbn; lia). change (zlen (@nil Z)) with 0. by rewrite Z.add_0_r. }
  bool_cases; try done; lia.
Qed.

(** The end of [CheckCompleted]: the value of a length header. *)
Lemma length_value_ok s i j p :
  sp_wf s → 0 <= i <= j → j <= zlen (AsString s) → p + 4 <= zlen (AsString s) →
  (length ← TrimSpace (sub s i j);
   '(tmp, len) ← ParseInt length 0;
   if bool_decide (tmp ≠ sp_end length) then Ret (-1)
   else body ← StringPiece_range (sp_mem s) (sp_begin s + p + 4) (sp_begin s + zlen (AsString s));
        if bool_decide (sp_size body < len) then Ret 0 else Ret (sp_begin s + p - sp_begin s + 4 + len)) =
  let v := trim (ztake (j - i) (zdrop i (AsString s))) in
  let ds := digit_prefix v in
  if bool_decide (dec_val ds > INT_MAX) then Fault SignedOverflow
  else if bool_decide (zlen ds ≠ zlen v) then Ret (-1)
  else if bool_decide (zlen (AsString s) - (p + 4) < dec_val ds) then Ret 0 else Ret (p + 4 + dec_val ds).
Proof.
  intros Hs Hij Hj Hp. destruct (TrimSpace_ok (sub s i j)) as (s' & -> & Hs' & Ht); [by apply sub_wf|].
  rewrite sub_text in Ht by done. cbn [mbind result_bind]. rewrite ParseInt_zero by done.
  rewrite (end_of s') by done. rewrite !Ht. cbn zeta. set (v := trim _). set (ds := digit_prefix v).
  destruct (bool_decide (dec_val ds > INT_MAX)); [done|]. cbn [mbind result_bind].
  rewrite (bool_decide_ext (sp_begin s' + zlen ds ≠ sp_begin s' + zlen v) (zlen ds ≠ zlen v)) by lia.
  destruct (bool_decide (zlen ds ≠ zlen v)); [done|].
  rewrite <-(Z.add_assoc (sp_begin s) p 4), range_sub by (done || lia). cbn [mbind result_bind].
  change (sp_size (sub s (p + 4) (zlen (AsString s)))) with (zlen (AsString s) - (p + 4)).
  destruct (bool_decide _); [done|]. f_equal. lia.
Qed.

Lemma CheckCompleted_ok s : sp_wf s → CheckCompleted s = check_spec (AsString s).
Proof.
  intros Hs. unfold CheckCompleted, check_spec. set (l := AsString s).
  rewrite !Find_lit by (apply (bool_decide_unpack _); done). fold l.
  rewrite end_of by done. fold l.
  pose proof (std_search_range l CRLF2) as Hp. set (p := std_search l CRLF2) in *.
  rewrite (bool_decide_ext (sp_begin s + p = sp_begin s + zlen l) (p = zlen l)) by lia.
  case_bool_decide as Hpe; [done|].
  assert (Hp4 : p + 4 <= zlen l).
  { destruct (std_search_found l CRLF2) as (k & _ & ?); [done|done|]. done. }
  rewrite <-(Z.add_0_r (sp_begin s)) at 1. rewrite range_sub by lia. cbn [mbind result_bind].
  rewrite sub_end, Find_lit, sub_text, sub_begin, Z.add_0_r, Z.sub_0_r, zdrop_0
    by (first [done|fold l; lia|apply (bool_decide_unpack _); done]). fold l.
  unfold declared_length. set (h := ztake p l). assert (Hh : zlen h = p) by (apply zlen_ztake; lia).
  pose proof (std_search_range h CONTENT_LENGTH) as Hq. set (q := std_search h CONTENT_LENGTH) in *.
  rewrite (bool_decide_ext (sp_begin s + q = sp_begin s + p) (q = zlen h)) by lia.
  case_bool_decide as Hqe; [f_equal; lia|].
  rewrite prefix_sub by lia. cbn [mbind result_bind].
  rewrite !Find_lit, sub_end, sub_text, sub_begin by (first [done|fold l; lia|apply (bool_decide_unpack _); done]). fold l.
  assert (Hqt : ztake (p - q) (zdrop q l) = zdrop q h) by (unfold h; by rewrite zdrop_ztake by lia).
  rewrite Hqt. assert (Hql : zlen (zdrop q h) = p - q) by (rewrite zlen_zdrop; lia).
  pose proof (std_search_range (zdrop q h) CRLF) as He. set (e := std_search (zdrop q h) CRLF) in *.
  rewrite (bool_decide_ext (sp_begin s + q + e = sp_begin s + p) (e = zlen (zdrop q h))) by lia.
  case_bool_decide as Hee; [done|].
  rewrite <-!(Z.add_assoc (sp_begin s) q e), suffix_sub by lia. cbn [mbind result_bind].
  unfold Find_char. rewrite sub_end, sub_text, sub_begin by (first [done|fold l; lia]). fold l.
  replace (q + e - q) with e by lia.
  assert (Hline : ztake e (zdrop q l) = ztake e (zdrop q h)).
  { rewrite <-Hqt. by rewrite ztake_ztake by lia. }
  rewrite Hline. set (line := ztake e (zdrop q h)) in *.
  assert (Hll : zlen line = e) by (apply zlen_ztake; lia).
  pose proof (std_find_range line 58) as Hc. set (c := std_find line 58) in *.
  rewrite (bool_decide_ext (sp_begin s + q + c = sp_begin s + (q + e)) (c = zlen line)) by lia.
  case_bool_decide as Hce; [done|].
  replace (sp_begin s + q + c + 1) with (sp_begin s + (q + c + 1)) by lia.
  rewrite range_sub by lia. cbn [mbind result_bind].
  etransitivity; [apply (length_value_ok s (q + c + 1) (q + e) p); first [done|fold l; lia]|].
  fold l. cbn zeta.
  assert (Hv : ztake (q + e - (q + c + 1)) (zdrop (q + c + 1) l) = zdrop (c + 1) line).
  { unfold line. rewrite zdrop_ztake by lia. rewrite <-Hqt, (zdrop_ztake (c + 1) (p - q)) by lia.
    rewrite ztake_ztake, zdrop_zdrop by lia. f_equal; [lia|f_equal; lia]. }
  rewrite Hv. repeat case_bool_decide; done.
Qed.

(** ** The header loop on the text *)

(** The first CRLF of a text that continues with CRLF. *)
Lemma search_crlf region rest : std_search (region ++ CRLF ++ rest) CRLF = std_search region CRLF.
Proof.
  induction region as [|x region IH]; [done|].
  assert (Hp : prefixb CRLF ((x :: region) ++ CRLF ++ rest) = prefixb CRLF (x :: region)).
  { destruct region; cbn; by rewrite ?andb_false_r. }
  change ((x :: region) ++ CRLF ++ rest) with (x :: (region ++ CRLF ++ rest)) in *.
  cbn [std_search]. rewrite Hp, IH. done.
Qed.

Definition header_lines (region : list Z) : list (list Z) := fields_by (S (length region)) CRLF region.

(** The header lines, of which the last one is not read. *)
Fixpoint read_headers (lines : list (list Z)) (headers : smap) : smap * bool :=
  match lines with
  | [] => (headers, true)
  | line :: rest =>
      match rest with
      | [] => (headers, true)
      | _ :: _ =>
          let c := std_find line 58 in
          if bool_decide (c = zlen line) then (headers, false)
          else read_headers rest (map_set headers (trim (ztake c line)) (trim (zdrop (c + 1) line)))
      end
  end.

(** One header: key and value of a line, as the code cuts them out. *)
Lemma header_step_ok s i c :
  sp_wf s → 0 <= i <= c → c <= zlen (AsString s) →
  let line := ztake (c - i) (zdrop i (AsString s)) in
  let f := std_find line 58 in
  f ≠ zlen line →
  ∃ key value,
    TrimSpace (sub s i (i + f)) = Ret key ∧ TrimSpace (sub s (i + f + 1) c) = Ret value ∧
    AsString key = trim (ztake f line) ∧ AsString value = trim (zdrop (f + 1) line).
Proof.
  intros Hs Hi Hc line f Hf. set (l := AsString s) in *.
  assert (Hl : zlen line = c - i) by (apply block_length; lia).
  pose proof (std_find_range line 58) as Hr. fold f in Hr.
  destruct (TrimSpace_ok (sub s i (i + f))) as (key & -> & _ & Hk); [apply sub_wf; [done|lia|fold l; lia]|].
  destruct (TrimSpace_ok (sub s (i + f + 1) c)) as (value & -> & _ & Hv);
    [apply sub_wf; [done|lia|fold l; lia]|].
  exists key, value. split_and!; [done..| |].
  - rewrite Hk, sub_text by (first [done|fold l; lia]). f_equal. unfold line. fold l.
    rewrite ztake_ztake by lia. f_equal. lia.
  - rewrite Hv, sub_text by (first [done|fold l; lia]). f_equal. unfold line. fold l.
    rewrite zdrop_ztake, zdrop_zdrop by lia. f_equal; [lia|f_equal; lia].
Qed.

Lemma read_headers_cons line rest headers :
  rest ≠ [] →
  read_headers (line :: rest) headers =
  if bool_decide (std_find line 58 = zlen line) then (headers, false)
  else read_headers rest (map_set headers (trim (ztake (std_find line 58) line))
                            (trim (zdrop (std_find line 58 + 1) line))).
Proof. by destruct rest. Qed.
Lemma fields_by_nonempty m pat l : (0 < m)%nat → fields_by m pat l ≠ [].
Proof. destruct m; [lia|done]. Qed.

Lemma header_loop_ok s fuel m i k headers :
  sp_wf s → 0 <= i <= k → (∃ rest, zdrop k (AsString s) = CRLF ++ rest) →
  k - i < Z.of_nat fuel → k - i < Z.of_nat m →
  ∃ i', i <= i' <= k ∧
    header_loop fuel (sub s i (zlen (AsString s)))
      (sp_begin s + (i + std_search (zdrop i (AsString s)) CRLF)) (sp_begin s + k) headers =
    let '(headers', ok) := read_headers (fields_by m CRLF (ztake (k - i) (zdrop i (AsString s)))) headers in
    Ret (headers', if ok then inl (sub s i' (zlen (AsString s))) else inr tt).
Proof.
  intros Hs Hik [rest Hk]. set (l := AsString s) in *.
  assert (Hk0 : 0 <= k) by lia. revert m i headers Hik.
  assert (Hkl : k + 2 <= zlen l).
  { pose proof (f_equal zlen Hk) as E. rewrite zlen_app in E. change (zlen CRLF) with 2 in E.
    pose proof (zlen_nonneg rest). destruct (decide (k <= zlen l)); [rewrite zlen_zdrop in E by lia; lia|].
    rewrite zdrop_ge in E by lia. rewrite zlen_nil in E. lia. }
  induction fuel as [|fuel IH]; intros m i headers Hik Hfuel Hm; [lia|].
  destruct m as [|m]; [lia|]. cbn [header_loop fields_by].
  set (region := ztake (k - i) (zdrop i l)).
  assert (Hrl : zlen region = k - i) by (apply block_length; lia).
  assert (Hsplit : zdrop i l = region ++ CRLF ++ rest).
  { rewrite <-Hk. apply zdrop_split. lia. }
  rewrite Hsplit, search_crlf, Hrl. pose proof (std_search_range region CRLF) as Hc.
  set (c := std_search region CRLF) in *.
  rewrite (bool_decide_ext (sp_begin s + (i + c) ≠ sp_begin s + k) (c ≠ k - i)) by lia.
  destruct (bool_decide_reflect (c ≠ k - i)) as [Hne|He].
  2: { exists i. split; [lia|]. rewrite bool_decide_true by lia. done. }
  rewrite (bool_decide_false (c = k - i)) by done.
  destruct (std_search_found region CRLF) as (kk & _ & Hc2); [done|fold c; lia|].
  fold c in Hc2. change (zlen CRLF) with 2 in Hc2.
  change (sp_mem (sub s i (zlen l))) with (sp_mem s). rewrite sub_begin.
  rewrite range_sub by lia. cbn [mbind result_bind]. unfold Find_char.
  rewrite sub_end, sub_text, sub_begin by (first [done|fold l; lia]). fold l.
  replace (i + c - i) with c by lia.
  assert (Hline : ztake c (zdrop i l) = ztake c region) by (unfold region; by rewrite ztake_ztake by lia).
  assert (Hll : zlen (ztake c region) = c) by (apply zlen_ztake; lia).
  change (zlen CRLF) with 2. rewrite read_headers_cons by (apply fields_by_nonempty; lia).
  rewrite Hline, Hll, <-!(Z.add_assoc (sp_begin s) i).
  pose proof (header_step_ok s i (i + c) Hs ltac:(lia) ltac:(fold l; lia)) as Hstep.
  cbn zeta in Hstep. fold l in Hstep. replace (i + c - i) with c in Hstep by lia.
  rewrite Hline, Hll in Hstep. pose proof (std_find_range (ztake c region) 58) as Hf.
  set (f := std_find (ztake c region) 58) in *.
  rewrite (bool_decide_ext (sp_begin s + (i + f) = sp_begin s + (i + c)) (f = c)) by lia.
  case_bool_decide as Hfc; [exists i; split; [lia|done]|].
  destruct (Hstep Hfc) as (key & value & Hkey & Hval & Htk & Htv).
  rewrite range_sub by lia. cbn [mbind result_bind]. rewrite Hkey. cbn [mbind result_bind].
  rewrite <-(Z.add_assoc (sp_begin s) (i + f) 1), range_sub by lia. cbn [mbind result_bind].
  rewrite Hval. cbn [mbind result_bind].
  rewrite <-(Z.add_assoc (sp_begin s) (i + c) 2), prefix_sub by lia. cbn [mbind result_bind].
  rewrite Find_lit, sub_begin, sub_text by (first [done|fold l; lia|apply (bool_decide_unpack _); done]).
  fold l. rewrite (ztake_ge (zlen l - (i + c + 2))) by (rewrite zlen_zdrop; lia).
  rewrite <-(Z.add_assoc (sp_begin s)).
  destruct (IH m (i + c + 2) (map_set headers (AsString key) (AsString value))) as (i' & Hi' & ->); [lia..|].
  exists i'. split; [lia|]. rewrite Htk, Htv.
  replace (ztake (k - (i + c + 2)) (zdrop (i + c + 2) l)) with (zdrop (c + 2) region); [done|].
  unfold region. rewrite zdrop_ztake, zdrop_zdrop by lia. f_equal; [lia|f_equal; lia].
Qed.

(** ** [Decode] on the text *)
Definition decode_spec (self : HttpMessage) (l : list Z) : result (HttpMessage * Z) :=
  n ← check_spec l;
  if bool_decide (n <= 0) then Ret (self, n)
  else
    let f := std_search l CRLF in
    let rest := zdrop (f + 2) l in
    let k := std_search rest CRLF2 in
    if bool_decide (k = zlen rest) then Ret (mk_http (ztake f l) (headers_ self) (body_ self), -1)
    else
      let '(headers, ok) := read_headers (header_lines (ztake k rest)) (headers_ self) in
      if negb ok then Ret (mk_http (ztake f l) headers (body_ self), -1)
      else
        let body_len := n - (f + 2 + k + 4) in
        if bool_decide (body_len < 0) then Fault Aborted
        else Ret (mk_http (ztake f l) headers (ztake body_len (zdrop (k + 4) rest)), n).

Lemma declared_nonneg h n : declared_length h = Length n → 0 <= n.
Proof.
  unfold declared_length. cbn zeta. repeat case_bool_decide; try done. intros [= <-].
  apply foldl_dec_mono; [apply digit_prefix_digits|lia].
Qed.

(** A message is only reported complete when it lies in the text. *)
Lemma check_spec_range l n :
  check_spec l = Ret n → n <= zlen l ∧
    (0 < n → std_search l CRLF2 + 4 <= n ∧ ∃ k, zdrop (std_search l CRLF2) l = CRLF2 ++ k).
Proof.
  unfold check_spec. pose proof (std_search_range l CRLF2). pose proof (zlen_nonneg l).
  case_bool_decide as Hp; [intros [= <-]; lia|].
  destruct (std_search_found l CRLF2) as (k & Hk & Hr); [done|done|]. change (zlen CRLF2) with 4 in Hr.
  destruct (declared_length _) as [| | |d] eqn:Hd; [intros [= <-]|intros [= <-]|done|].
  - split; [lia|]. intros _. split; [lia|by exists k].
  - lia.
  - apply declared_nonneg in Hd. case_bool_decide; intros [= <-]; [lia|].
    split; [lia|]. intros _. split; [lia|by exists k].
Qed.

Lemma crlf2_crlf l : std_search l CRLF2 ≠ zlen l → std_search l CRLF <= std_search l CRLF2.
Proof.
  intros Hne. destruct (std_search_found l CRLF2) as (k & Hk & _); [done|done|].
  pose proof (std_search_range l CRLF2).
  destruct (decide (std_search l CRLF <= std_search l CRLF2)) as [|Hgt]; [done|exfalso].
  pose proof (std_search_first l CRLF (std_search l CRLF2) ltac:(lia)) as Hf. by rewrite Hk in Hf.
Qed.

(** [Decode] does what [decode_spec] says of the buffered text, and then takes
    the message off the buffer. *)
Lemma Decode_ok self b :
  buf_wf b →
  Decode self b = ('(m, n) ← decode_spec self (content b); b' ← Take b n; Ret (m, b', n)).
Proof.
  intros Hb. pose proof (slice_wf b Hb) as Hs. unfold Decode, decode_spec.
  rewrite CheckCompleted_ok, AsString_slice by done. set (l := content b). set (s := slice b) in *.
  assert (Hl : AsString s = l) by apply AsString_slice.
  destruct (check_spec l) as [n|e|] eqn:Hn; cbn [mbind result_bind]; [|done|done].
  destruct (check_spec_range l n Hn) as [Hnl Hpos].
  assert (Htake : ∀ k, k <= 0 → Take b k = Ret b) by (intros k Hk; unfold Take; by rewrite bool_decide_false by lia).
  case_bool_decide as Hn0; [cbn [mbind result_bind]; by rewrite Htake|].
  destruct (Hpos ltac:(lia)) as [Hp4 [kk Hkk]]. clear Hpos.
  assert (Hp : std_search l CRLF2 ≠ zlen l) by (intros E; lia).
  pose proof (crlf2_crlf l Hp) as Hf. pose proof (std_search_range l CRLF) as Hf0.
  unfold decode_message. rewrite Find_lit, (end_of _ Hs), Hl by (apply (bool_decide_unpack _); done).
  set (f := std_search l CRLF) in *.
  rewrite bool_decide_false by lia.
  rewrite <-(Z.add_0_r (sp_begin s)) at 1. rewrite range_sub by lia. cbn [mbind result_bind].
  rewrite <-(sub_all s Hs) at 1. rewrite Hl, <-Z.add_assoc, prefix_sub by lia. cbn [mbind result_bind].
  rewrite sub_text by (first [done|rewrite ?Hl; lia]). rewrite Hl, zdrop_0, Z.sub_0_r.
  rewrite !Find_lit by (apply (bool_decide_unpack _); done).
  rewrite sub_text by (first [done|rewrite ?Hl; lia]). rewrite Hl, sub_begin, sub_end.
  rewrite (ztake_ge (zlen l - (f + 2))) by (rewrite zlen_zdrop; lia).
  set (rest := zdrop (f + 2) l). assert (Hrl : zlen rest = zlen l - (f + 2)) by (apply zlen_zdrop; lia).
  pose proof (std_search_range rest CRLF2) as Hk. set (k := std_search rest CRLF2) in *.
  rewrite (bool_decide_ext (sp_begin s + (f + 2) + k = sp_begin s + zlen l) (k = zlen rest)) by lia.
  case_bool_decide as Hke; [cbn [mbind result_bind]; by rewrite Htake|].
  destruct (std_search_found rest CRLF2) as (k2 & Hk2 & Hk4); [done|done|]. fold k in Hk2, Hk4.
  change (zlen CRLF2) with 4 in Hk4.
  pose proof (crlf2_crlf rest Hke) as Hcr. pose proof (std_search_range rest CRLF).
  rewrite (bool_decide_false (sp_begin s + (f + 2) + std_search rest CRLF = _)) by lia.
  destruct (header_loop_ok s (S (Z.to_nat (zlen l - (f + 2)))) (S (length (ztake k rest)))
    (f + 2) (f + 2 + k) (headers_ self)) as (i' & Hi' & Hloop).
  { done. } { lia. }
  { exists (CRLF ++ k2). rewrite Hl, <-(zdrop_zdrop k (f + 2)) by lia. exact Hk2. }
  { lia. } { unfold ztake. rewrite length_take. unfold zlen in *. lia. }
  rewrite Hl, <-!Z.add_assoc in Hloop. rewrite <-!Z.add_assoc.
  change (sp_size (sub s (f + 2) (zlen l))) with (zlen l - (f + 2)). fold rest in Hloop. rewrite Hloop.
  replace (f + (2 + k) - (f + 2)) with k by lia. fold (header_lines (ztake k rest)).
  destruct (read_headers (header_lines (ztake k rest)) (headers_ self)) as [headers ok].
  cbn [mbind result_bind]. destruct ok; cbn [negb]; [|cbn [mbind result_bind]; by rewrite Htake].
  rewrite prefix_sub by lia. cbn [mbind result_bind]. rewrite !sub_begin, Z.add_0_r.
  replace (n - (sp_begin s + (f + (2 + k)) - sp_begin s + 4)) with (n - (f + (2 + (k + 4)))) by lia.
  set (body_len := n - (f + (2 + (k + 4)))). unfold string_at.
  change (sp_mem (sub s (f + (2 + (k + 4))) (zlen l))) with (sp_mem s).
  case_bool_decide as Hneg; [done|].
  pose proof Hs as (Hs1 & Hs2 & Hs3). pose proof (zlen_AsString s Hs) as Hsl. rewrite Hl in Hsl.
  rewrite bool_decide_true by (unfold sp_begin; lia). cbn [mbind result_bind].
  replace (ztake body_len (zdrop (sp_begin s + (f + (2 + (k + 4)))) (sp_mem s)))
    with (ztake body_len (zdrop (k + 4) rest)); [done|].
  unfold rest. rewrite zdrop_zdrop by lia. rewrite <-Hl. unfold AsString, sp_begin.
  rewrite zdrop_ztake, zdrop_zdrop, ztake_ztake by lia. f_equal. f_equal. lia.
Qed.

Lemma decode_spec_range self l m n : decode_spec self l = Ret (m, n) → n <= zlen l.
Proof.
  unfold decode_spec. destruct (check_spec l) as [n'| |] eqn:Hn; cbn [mbind result_bind]; [|done..].
  pose proof (check_spec_range l n' Hn) as [? _]. pose proof (zlen_nonneg l). cbn zeta.
  repeat (case_bool_decide || case_match); try done; intros [= <- <-]; lia.
Qed.
Lemma decode_spec_fuel self l : decode_spec self l ≠ OutOfFuel.
Proof.
  unfold decode_spec. destruct (check_spec l) eqn:Hn; cbn [mbind result_bind]; cbn zeta.
  - repeat (case_bool_decide || case_match); done.
  - done.
  - unfold check_spec in Hn. cbn zeta in Hn. repeat (case_bool_decide || case_match); done.
Qed.

(** ** The faults of [Decode] *)

(** An empty header line is rejected: it has no colon. *)
Lemma read_headers_empty lines headers : lines ≠ [] → (read_headers ([] :: lines) headers).2 = false.
Proof. intros. by rewrite read_headers_cons. Qed.

Lemma blank_lines l n :
  check_spec l = Ret n → 0 < n →
  let f := std_search l CRLF in
  let rest := zdrop (f + 2) l in
  let k := std_search rest CRLF2 in
  k ≠ zlen rest → n < f + 2 + k + 4 →
  std_search l CRLF2 = f ∧ (∃ r, rest = CRLF ++ r).
Proof.
  intros Hn Hn0 f rest k Hke Hlt. destruct (check_spec_range l n Hn) as [Hnl Hpos].
  destruct (Hpos Hn0) as [Hp4 [kk Hkk]]. set (p := std_search l CRLF2) in *.
  assert (Hpr : 0 <= p <= zlen l) by apply std_search_range.
  assert (Hpne : p ≠ zlen l) by lia. pose proof (crlf2_crlf l Hpne) as Hf. fold f p in Hf.
  pose proof (std_search_range l CRLF) as Hf0. fold f in Hf0.
  destruct (std_search_found l CRLF) as (r0 & Hr0 & _); [done|fold f; lia|]. fold f in Hr0.
  assert (Hpf : p = f).
  { destruct (decide (p = f)); [done|exfalso]. destruct (decide (p = f + 1)) as [E|].
    - rewrite E, <-zdrop_zdrop, Hr0 in Hkk by lia. by cbn in Hkk.
    - pose proof (std_search_first rest CRLF2 (p - (f + 2)) ltac:(fold k; lia)) as Hno.
      unfold rest in Hno. rewrite zdrop_zdrop in Hno by lia. replace (f + 2 + (p - (f + 2))) with p in Hno by lia.
      by rewrite Hkk in Hno. }
  split; [done|]. exists kk. unfold rest. rewrite <-Hpf, <-zdrop_zdrop, Hkk by lia. done.
Qed.

Lemma decode_spec_fault self l e :
  decode_spec self l = Fault e →
  (e = SignedOverflow ∧ declared_length (ztake (std_search l CRLF2) l) = HugeLength) ∨
  (e = Aborted ∧ ∃ r, zdrop (std_search l CRLF) l = CRLF ++ CRLF2 ++ r).
Proof.
  unfold decode_spec. destruct (check_spec l) as [n|e'|] eqn:Hn; cbn [mbind result_bind]; [| |done].
  2: { intros [= <-]. left. unfold check_spec in Hn. cbn zeta in Hn.
       repeat (case_bool_decide || case_match); try done. by injection Hn as <-. }
  case_bool_decide as Hn0; [done|]. cbn zeta. set (f := std_search l CRLF). set (rest := zdrop (f + 2) l).
  set (k := std_search rest CRLF2). case_bool_decide as Hke; [done|].
  destruct (read_headers _ _) as [headers ok] eqn:Hread. destruct ok; cbn [negb]; [|done].
  case_bool_decide as Hneg; [|done]. intros [= <-]. right. split; [done|].
  destruct (blank_lines l n Hn ltac:(lia) Hke ltac:(fold f rest k; lia)) as [Hpf [r Hr]]. fold f rest in Hpf, Hr.
  destruct (std_search_found rest CRLF2) as (r2 & Hr2 & Hk4); [done|done|]. fold k in Hr2, Hk4.
  assert (Hk0 : k = 0).
  { destruct (decide (k = 0)) as [|Hk0]; [done|exfalso]. pose proof (std_search_range rest CRLF2). fold k in H.
    assert (Hreg : ∃ region', ztake k rest = CRLF ++ region').
    { destruct (decide (k = 1)) as [E|]; [rewrite E, Hr in Hr2; by cbn in Hr2|].
      rewrite Hr. exists (ztake (k - 2) r). change (k - 2) with (k - zlen CRLF).
      rewrite (ztake_split (zlen CRLF) k) by (change (zlen CRLF) with 2; lia).
      by rewrite ztake_app_all, zdrop_app_all. }
    destruct Hreg as [region' Hreg]. rewrite Hreg in Hread. unfold header_lines in Hread.
    assert (Hfb : fields_by (S (length (CRLF ++ region'))) CRLF (CRLF ++ region') =
      [] :: fields_by (length (CRLF ++ region')) CRLF region').
    { cbn [fields_by]. change (std_search (CRLF ++ region') CRLF) with 0. rewrite bool_decide_false; [done|].
      rewrite zlen_app. change (zlen CRLF) with 2. pose proof (zlen_nonneg region'). lia. }
    rewrite Hfb in Hread. apply (f_equal snd) in Hread. by rewrite read_headers_empty in Hread. }
  rewrite Hk0, zdrop_0 in Hr2. exists r2. rewrite <-Hr2. unfold rest.
  destruct (std_search_found l CRLF) as (r0 & Hr0 & Hf2); [done| |].
  { fold f. intros E. unfold rest in Hr2. rewrite zdrop_ge in Hr2 by lia. done. }
  fold f in Hr0, Hf2. rewrite Hr0. f_equal. pose proof (std_search_range l CRLF) as Hf0. fold f in Hf0.
  rewrite <-zdrop_zdrop, Hr0 by lia. done.
Qed.

(** C6: [Decode] on a well-formed buffer is the reference decoder on the
    buffered text: it returns the message and its length and takes exactly
    those bytes off the buffer, or returns 0 or -1 and leaves the buffer as it
    is.  It leaves defined behaviour in two cases only: a Content-Length above
    [INT_MAX], and a first line that is followed by two empty lines, where
    the length of the body comes out negative. *)
Theorem http_Decode_correct self b :
  buf_wf b →
  match decode_spec self (content b) with
  | Ret (m, n) => ∃ b', Decode self b = Ret (m, b', n) ∧ buf_wf b' ∧ content b' = zdrop n (content b)
  | Fault e => Decode self b = Fault e ∧
      ((e = SignedOverflow ∧
        declared_length (ztake (std_search (content b) CRLF2) (content b)) = HugeLength) ∨
       (e = Aborted ∧ ∃ r, zdrop (std_search (content b) CRLF) (content b) = CRLF ++ CRLF2 ++ r))
  | OutOfFuel => False
  end.
Proof.
  intros Hb. rewrite Decode_ok by done. pose proof (decode_spec_fault self (content b)) as Hfault.
  destruct (decode_spec self (content b)) as [[m n]|e|] eqn:Hd; cbn [mbind result_bind].
  - assert (Hle : n <= zlen (content b)) by (by eapply decode_spec_range).
    pose proof (Take_agrees b n Hb) as Ht. rewrite bool_decide_true in Ht by done.
    unfold agrees in Ht. destruct (Take b n) as [b'| |]; [|done..]. exists b'. cbn. tauto.
  - split; [done|]. by apply Hfault.
  - by apply decode_spec_fuel in Hd.
Qed.

(** The text X CRLF A:b CRLF C:d CRLF CRLF. *)
Definition sample_text : list Z := [88; 13; 10; 65; 58; 98; 13; 10; 67; 58; 100; 13; 10; 13; 10].

Lemma http_Decode_correct_witness :
  ∃ b', Decode HttpMessage_new (mk_buffer (replicate 8 0 ++ sample_text) 8 23) =
    Ret (mk_http [88] [([65], [98])] [], b', 15) ∧ buf_wf b'.
Proof.
  pose proof (http_Decode_correct HttpMessage_new (mk_buffer (replicate 8 0 ++ sample_text) 8 23)) as H.
  replace (decode_spec HttpMessage_new (content (mk_buffer (replicate 8 0 ++ sample_text) 8 23)))
    with (Ret (mk_http [88] [([65], [98])] [], 15)) in H by (vm_compute; reflexivity).
  destruct H as (b' & H1 & H2 & _); [vm_compute; intuition discriminate|].
  exists b'. split; [exact H1|exact H2].
Defined.

(** ** The request line on the text *)
Fixpoint read_query (items : list (list Z)) (query : smap) : smap * bool :=
  match items with
  | [] => (query, true)
  | item :: items =>
      let c := std_find item 61 in
      if bool_decide (c = zlen item) then (query, false)
      else read_query items (map_set query (ztake c item) (zdrop (c + 1) item))
  end.

Definition request_spec (line : list Z) : RequestLine :=
  match non_empty_fields (fields 32 line) with
  | [method; path; version] =>
      if bool_decide (method = GET ∨ method = POST) then
        let m := if bool_decide (method = GET) then kGet else kPost in
        let v := if bool_decide (version = HTTP11) then kHttp11 else Version_kNone in
        let p := std_find path 63 in
        if bool_decide (p = zlen path) then mk_request_line m path [] v
        else
          let '(query, complete) := read_query (non_empty_fields (fields 38 (zdrop (p + 1) path))) [] in
          mk_request_line m (ztake p path) query (if complete then v else Version_kNone)
      else mk_request_line Method_kNone [] [] Version_kNone
  | _ => mk_request_line Method_kNone [] [] Version_kNone
  end.

Lemma sp_eqb_lit s pat : sp_wf s → 0 ∉ pat → sp_eqb s (lit pat) = bool_decide (AsString s = pat).
Proof.
  intros Hs H0. apply eq_bool_prop_intro. rewrite !Is_true_true, bool_decide_eq_true.
  rewrite sp_eqb_spec, AsString_lit; [done|done|done|].
  unfold lit, StringPiece_cstr, sp_wf, strlen. cbn [sp_mem ptr_ length_].
  rewrite std_find_app, zlen_app by done. change (zlen [0]) with 1. pose proof (zlen_nonneg pat). lia.
Qed.

Lemma query_loop_ok items query :
  Forall sp_wf items → query_loop items query = Ret (read_query (AsString <$> items) query).
Proof.
  intros Hw. revert query. induction Hw as [|s items Hs _ IH]; intros query; [done|].
  cbn [query_loop fmap list_fmap read_query]. unfold Find_char. rewrite (end_of s Hs).
  pose proof (std_find_range (AsString s) 61) as Hr. set (c := std_find (AsString s) 61) in *.
  rewrite (bool_decide_ext (sp_begin s + c = sp_begin s + zlen (AsString s)) (c = zlen (AsString s))) by lia.
  case_bool_decide; [done|].
  pose proof (string_at_sub s 0 c Hs ltac:(lia) ltac:(lia)) as H1. rewrite Z.add_0_r, Z.sub_0_r in H1.
  replace (sp_begin s + c - sp_begin s) with c by lia. rewrite H1. cbn [mbind result_bind].
  rewrite <-(Z.add_assoc (sp_begin s) c 1).
  replace (sp_begin s + zlen (AsString s) - (sp_begin s + (c + 1))) with (zlen (AsString s) - (c + 1)) by lia.
  rewrite string_at_sub by (done || lia). cbn [mbind result_bind]. rewrite zdrop_0.
  rewrite (ztake_ge (zlen (AsString s) - (c + 1))) by (rewrite zlen_zdrop; lia). apply IH.
Qed.

(** [request_line] never fails: it is the method, the path and the query
    fields of a line of three words with a known method, the query being read
    up to its first field without an equals sign. *)
Theorem request_line_correct self : request_line self = Ret (request_spec (first_line_ self)).
Proof.
  unfold request_line, request_spec.
  destruct (Split_char_ok (StringPiece_string (first_line_ self)) 32 (sp_wf_string _))
    as (pieces & -> & Ht & Hw). cbn [mbind result_bind]. rewrite AsString_string in Ht. rewrite <-Ht.
  destruct pieces as [|method [|path [|version [|]]]]; try done. cbn [fmap list_fmap].
  rewrite !Forall_cons_iff in Hw. destruct Hw as (Hm & Hp & Hv & _).
  rewrite !sp_eqb_lit by (first [done|apply (bool_decide_unpack _); done]).
  rewrite (bool_decide_ext (AsString method = GET ∨ AsString method = POST)
    (bool_decide (AsString method = GET) || bool_decide (AsString method = POST) = true))
    by (by rewrite orb_true_iff, !bool_decide_eq_true).
  rewrite <-negb_orb. destruct (bool_decide (AsString method = GET) || _); cbn [negb];
    [rewrite (bool_decide_true (true = true)) by done|by rewrite (bool_decide_false (false = true))].
  unfold Find_char. rewrite (end_of path Hp).
  pose proof (std_find_range (AsString path) 63) as Hr. set (p := std_find (AsString path) 63) in *.
  rewrite (bool_decide_ext (sp_begin path + p = sp_begin path + zlen (AsString path)) (p = zlen (AsString path))) by lia.
  case_bool_decide; [done|].
  pose proof (string_at_sub path 0 p Hp ltac:(lia) ltac:(lia)) as H1. rewrite Z.add_0_r, Z.sub_0_r in H1.
  replace (sp_begin path + p - sp_begin path) with p by lia. rewrite H1. cbn [mbind result_bind].
  rewrite <-(Z.add_assoc (sp_begin path) p 1), range_sub by lia. cbn [mbind result_bind].
  destruct (Split_char_ok (sub path (p + 1) (zlen (AsString path))) 38) as (items & -> & Hi & Hiw);
    [apply sub_wf; [done|lia|lia]|].
  cbn [mbind result_bind]. rewrite query_loop_ok, Hi by done. rewrite sub_text by (done || lia).
  rewrite (ztake_ge (zlen (AsString path) - (p + 1))) by (rewrite zlen_zdrop; lia). rewrite zdrop_0.
  cbn [mbind result_bind]. destruct (read_query _ _) as [q []]; done.
Qed.
