(* ===== verification/HttpCodec.v ===== *)
(** * HTTP round trip: [Encode] then [Decode] of http/http_message.cc

    The ordered map of the headers, the text [Encode] writes into a byte
    queue, and what [Decode] makes of it: the round trip up to the last
    header, which [Decode] does not store, the rejection of a Content-Length
    in the last place, and the two empty lines that end the program. *)

From Stdlib Require Import ZArith Lia Bool Sorting.Sorted.
From stdpp Require Import base numbers list.
From S2P Require Import Prelude Types StringPiece Buffer Http.

(** ** Ordered maps *)
Lemma str_ltb_irrefl a : str_ltb a a = false.
Proof. induction a as [|x a IH]; [done|]. cbn. rewrite IH, andb_false_r, orb_false_r. apply bool_decide_false. lia. Qed.
Lemma str_ltb_asym a b : str_ltb a b = true → str_ltb b a = false.
Proof.
  revert b. induction a as [|x a IH]; intros [|y b]; cbn; try done. intros H.
  repeat case_bool_decide; cbn in *; try lia; try done. by apply IH.
Qed.
Lemma str_ltb_trans a b c : str_ltb a b = true → str_ltb b c = true → str_ltb a c = true.
Proof.
  revert b c. induction a as [|x a IH]; intros [|y b] [|z c]; cbn; try done.
  intros H1 H2. repeat case_bool_decide; cbn in *; try lia; try done. by eapply IH.
Qed.
Lemma str_ltb_total a b : str_ltb a b = false → a ≠ b → str_ltb b a = true.
Proof.
  revert b. induction a as [|x a IH]; intros [|y b]; cbn; try done. intros H Hne.
  repeat case_bool_decide; cbn in *; try lia; try done. apply IH; [done|]. congruence.
Qed.

(** The invariant of the map: keys strictly increase. *)
Definition keys_sorted (m : smap) : Prop := StronglySorted (λ a b, str_ltb a.1 b.1 = true) m.

Lemma map_set_lower m key value k :
  str_ltb k key = true → Forall (λ b, str_ltb k b.1 = true) m →
  Forall (λ b, str_ltb k b.1 = true) (map_set m key value).
Proof.
  intros Hk. induction 1 as [|[k' v'] m Hk' Hm IH]; cbn [map_set]; [by repeat constructor|].
  repeat case_match; repeat constructor; try done.
Qed.
Lemma map_set_sorted m key value : keys_sorted m → keys_sorted (map_set m key value).
Proof.
  induction 1 as [|[k v] m Hm IH Hlo]; cbn [map_set]; [repeat constructor|].
  destruct (str_ltb key k) eqn:Hlt.
  - constructor; [by constructor|]. constructor; [done|].
    eapply Forall_impl; [exact Hlo|]. intros [k' v'] ?. by eapply str_ltb_trans.
  - case_bool_decide as E; [subst; by constructor|].
    constructor; [done|]. apply map_set_lower; [by apply str_ltb_total|done].
Qed.
Lemma map_get_set m key value key' :
  keys_sorted m →
  map_get (map_set m key value) key' = if bool_decide (key = key') then Some value else map_get m key'.
Proof.
  induction 1 as [|[k v] m Hm IH Hlo]; cbn [map_set map_get]; [done|].
  destruct (str_ltb key k) eqn:Hlt; cbn [map_get]; [done|].
  destruct (bool_decide_reflect (key = k)) as [E|E]; cbn [map_get].
  - subst. by repeat case_bool_decide.
  - rewrite IH. repeat case_bool_decide; try done. congruence.
Qed.

(** A key above all others goes to the end. *)
Lemma map_set_last m key value :
  Forall (λ b, str_ltb b.1 key = true) m → map_set m key value = m ++ [(key, value)].
Proof.
  induction 1 as [|[k v] m Hk _ IH]; cbn [map_set app]; [done|]. cbn in Hk.
  rewrite (str_ltb_asym _ _ Hk), bool_decide_false by (intros ->; by rewrite str_ltb_irrefl in Hk).
  by rewrite IH.
Qed.
Lemma keys_sorted_snoc m h : keys_sorted (m ++ [h]) → Forall (λ b, str_ltb b.1 h.1 = true) m.
Proof.
  induction m as [|b m IH]; intros Hs; [done|]. apply StronglySorted_inv in Hs as [Hs Hb].
  constructor; [|by apply IH]. apply Forall_app in Hb as [_ Hb]. by rewrite Forall_singleton in Hb.
Qed.
Lemma keys_sorted_app_l m m' : keys_sorted (m ++ m') → keys_sorted m.
Proof.
  induction m as [|b m IH]; intros Hs; [constructor|]. apply StronglySorted_inv in Hs as [Hs Hb].
  constructor; [by apply IH|]. by apply Forall_app in Hb as [? _].
Qed.
(** Storing the pairs of a map in order gives the map. *)
Lemma map_set_all m : keys_sorted m → foldl (λ m h, map_set m h.1 h.2) [] m = m.
Proof.
  induction m as [|h m IH] using rev_ind; intros Hs; [done|]. rewrite foldl_app. cbn [foldl].
  rewrite IH by (by eapply keys_sorted_app_l). rewrite map_set_last by (by apply keys_sorted_snoc).
  by destruct h.
Qed.

(** ** What [Encode] writes *)
Definition line_of (h : list Z * list Z) : list Z := h.1 ++ [58; 32] ++ h.2.
Definition joined (lines : list (list Z)) : list Z := mbind (λ line, CRLF ++ line) lines.
(** Everything before the empty line. *)
Definition head_text (m : HttpMessage) : list Z := first_line_ m ++ joined (line_of <$> headers_ m).
Definition encoded (m : HttpMessage) : list Z := head_text m ++ CRLF2 ++ body_ m.

Lemma encode_headers_ok {Q} `{ByteQueue Q} hs (q : Q) :
  bq_wf q → zlen (bq_content q) + zlen (mbind (λ h, line_of h ++ CRLF) hs) <= max_content →
  ∃ q', encode_headers q hs = Ret q' ∧ bq_wf q' ∧
    bq_content q' = bq_content q ++ mbind (λ h, line_of h ++ CRLF) hs.
Proof.
  revert q. induction hs as [|[k v] hs IH]; intros q Hq Hfit; cbn [encode_headers].
  { exists q. cbn. by rewrite app_nil_r. }
  cbn [mbind list_bind] in Hfit. unfold line_of in Hfit at 1. cbn [fst snd] in Hfit. rewrite !zlen_app in Hfit.
  fold (mbind (M := list) (λ h, line_of h ++ CRLF) hs) in Hfit.
  pose proof (zlen_nonneg k) as N1. pose proof (zlen_nonneg v) as N2. pose proof (zlen_nonneg CRLF) as N3.
  pose proof (zlen_nonneg [58; 32]) as N4. pose proof (zlen_nonneg (mbind (M := list) (λ h, line_of h ++ CRLF) hs)) as N5.
  destruct (bq_append_law q k Hq) as (q1 & -> & H1 & C1); [lia|]. apply (f_equal zlen) in C1 as Z1. rewrite zlen_app in Z1.
  cbn [mbind result_bind].
  destruct (bq_append_law q1 [58; 32] H1) as (q2 & -> & H2 & C2); [lia|]. apply (f_equal zlen) in C2 as Z2. rewrite zlen_app in Z2.
  cbn [mbind result_bind].
  destruct (bq_append_law q2 v H2) as (q3 & -> & H3 & C3); [lia|]. apply (f_equal zlen) in C3 as Z3. rewrite zlen_app in Z3.
  cbn [mbind result_bind].
  destruct (bq_append_law q3 CRLF H3) as (q4 & -> & H4 & C4); [lia|]. apply (f_equal zlen) in C4 as Z4. rewrite zlen_app in Z4.
  cbn [mbind result_bind].
  destruct (IH q4 H4) as (q5 & -> & H5 & C5); [lia|]. exists q5. split_and!; [done..|].
  rewrite C5, C4, C3, C2, C1. unfold line_of. cbn [mbind list_bind fst snd]. by rewrite <-!app_assoc.
Qed.

Lemma joined_crlf lines : CRLF ++ mbind (λ line, line ++ CRLF) lines = joined lines ++ CRLF.
Proof.
  induction lines as [|line lines IH]; [done|]. unfold joined in *. cbn [mbind list_bind].
  rewrite <-!app_assoc. do 2 f_equal. exact IH.
Qed.

(** The parts [Encode] appends, one after the other. *)
Lemma encoded_parts m :
  encoded m = first_line_ m ++ CRLF ++ mbind (λ h, line_of h ++ CRLF) (headers_ m) ++ CRLF ++ body_ m.
Proof.
  unfold encoded, head_text. rewrite <-!app_assoc. f_equal.
  pose proof (joined_crlf (line_of <$> headers_ m)) as J. rewrite list_fmap_bind in J.
  change CRLF2 with (CRLF ++ CRLF). rewrite <-!app_assoc. rewrite (app_assoc CRLF (mbind _ _)).
  unfold compose in J. rewrite J. by rewrite <-!app_assoc.
Qed.
Lemma Encode_ok {Q} `{ByteQueue Q} m (q : Q) :
  bq_wf q → zlen (bq_content q) + zlen (encoded m) <= max_content →
  ∃ q', Encode m q = Ret (q', zlen (bq_content q')) ∧ bq_wf q' ∧
    bq_content q' = bq_content q ++ encoded m.
Proof.
  intros Hq Hfit. rewrite encoded_parts in *. rewrite !zlen_app in Hfit. unfold Encode.
  set (hs := mbind (M := list) _ (headers_ m)) in *.
  pose proof (zlen_nonneg (first_line_ m)) as N1. pose proof (zlen_nonneg CRLF) as N2. pose proof (zlen_nonneg hs) as N3.
  pose proof (zlen_nonneg (body_ m)) as N4.
  destruct (bq_append_law q (first_line_ m) Hq) as (q1 & -> & H1 & C1); [lia|]. apply (f_equal zlen) in C1 as Z1. rewrite zlen_app in Z1.
  cbn [mbind result_bind].
  destruct (bq_append_law q1 CRLF H1) as (q2 & -> & H2 & C2); [lia|]. apply (f_equal zlen) in C2 as Z2. rewrite zlen_app in Z2.
  cbn [mbind result_bind].
  destruct (encode_headers_ok (headers_ m) q2 H2) as (q3 & -> & H3 & C3); [fold hs; lia|]. apply (f_equal zlen) in C3 as Z3.
  fold hs in C3, Z3. rewrite zlen_app in Z3. cbn [mbind result_bind].
  destruct (bq_append_law q3 CRLF H3) as (q4 & -> & H4 & C4); [lia|]. apply (f_equal zlen) in C4 as Z4. rewrite zlen_app in Z4.
  cbn [mbind result_bind].
  destruct (bq_append_law q4 (body_ m) H4) as (q5 & -> & H5 & C5); [lia|]. cbn [mbind result_bind].
  exists q5. destruct (bq_slice_law q5 H5) as [Hs Ht]. split_and!; [|done|].
  - unfold sp_size. by rewrite <-zlen_AsString, Ht.
  - rewrite C5, C4, C3, C2, C1. by rewrite <-!app_assoc.
Qed.

(** ** Searches in encoded text *)
Definition plain (l : list Z) : Prop := 13 ∉ l.

Lemma search_crlf2_joined F lines X :
  plain F → Forall (λ L, plain L ∧ L ≠ []) lines →
  std_search (F ++ joined lines ++ CRLF2 ++ X) CRLF2 = zlen (F ++ joined lines).
Proof.
  intros HF Hl. revert F HF. induction Hl as [|L lines [HL Hne] _ IH]; intros F HF.
  { unfold joined. cbn [mbind list_bind app]. rewrite app_nil_r. by apply std_search_app. }
  change (joined (L :: lines)) with ((CRLF ++ L) ++ joined lines). rewrite <-!app_assoc.
  unfold CRLF2 at 2. rewrite std_search_skip by done.
  destruct L as [|c L]; [done|]. apply not_elem_of_cons in HL as [Hc HL].
  rewrite !zlen_app. change (zlen CRLF) with 2.
  change (CRLF ++ (c :: L) ++ joined lines ++ CRLF2 ++ X) with (13 :: 10 :: ((c :: L) ++ joined lines ++ CRLF2 ++ X)).
  cbn [std_search]. 
  assert (Hp : prefixb [13; 10; 13; 10] (13 :: 10 :: ((c :: L) ++ joined lines ++ CRLF2 ++ X)) = false).
  { cbn. rewrite (bool_decide_false (13 = c)) by done. done. }
  rewrite Hp. change (prefixb [13; 10; 13; 10] (10 :: ((c :: L) ++ joined lines ++ CRLF2 ++ X))) with false.
  cbv iota. fold CRLF2. rewrite IH by (apply not_elem_of_cons; split; done). rewrite zlen_app. lia.
Qed.

Lemma fields_by_joined m L lines :
  plain L → Forall plain lines → (length lines < m)%nat →
  fields_by m CRLF (L ++ joined lines) = L :: lines.
Proof.
  intros HL Hl. revert m L HL. induction Hl as [|L' lines HL' _ IH]; intros m L HL Hm;
    (destruct m as [|m]; [cbn in *; lia|]); cbn [fields_by].
  - unfold joined. cbn [mbind list_bind]. rewrite app_nil_r.
    unfold CRLF at 1 2 3. rewrite std_search_none by done. by rewrite ztake_ge, bool_decide_true by lia.
  - change (joined (L' :: lines)) with ((CRLF ++ L') ++ joined lines). rewrite <-!app_assoc.
    assert (Hk : std_search (L ++ CRLF ++ L' ++ joined lines) CRLF = zlen L) by (by apply std_search_app).
    rewrite Hk. rewrite bool_decide_false.
    2: { rewrite !zlen_app. change (zlen CRLF) with 2. pose proof (zlen_nonneg (L' ++ joined lines)) as Hz.
         rewrite zlen_app in Hz. lia. }
    rewrite ztake_app_all by done. f_equal. rewrite app_assoc, zdrop_app_all by (by rewrite zlen_app).
    apply IH; [done|]. cbn in Hm. lia.
Qed.

(** ** Headers of encoded text *)
Record header_ok (h : list Z * list Z) : Prop := {
  hk_key : plain h.1;
  hk_colon : 58 ∉ h.1;
  hk_key_trim : trim h.1 = h.1;
  hk_value : plain h.2;
  hk_value_trim : trim h.2 = h.2;
}.

Lemma plain_line h : header_ok h → plain (line_of h) ∧ line_of h ≠ [].
Proof.
  intros [Hk _ _ Hv _]. unfold plain, line_of. split.
  - rewrite !elem_of_app. intros [?|[H|?]]; [done| |done].
    by rewrite !elem_of_cons, elem_of_nil in H; destruct H as [?|[?|?]].
  - by destruct h.1.
Qed.

Lemma line_parts h :
  header_ok h →
  std_find (line_of h) 58 = zlen h.1 ∧ zlen h.1 ≠ zlen (line_of h) ∧
  trim (ztake (zlen h.1) (line_of h)) = h.1 ∧ trim (zdrop (zlen h.1 + 1) (line_of h)) = h.2.
Proof.
  intros [Hk Hc Hkt Hv Hvt]. unfold line_of. split_and!.
  - by apply (std_find_app h.1 (32 :: h.2)).
  - rewrite !zlen_app. change (zlen [58; 32]) with 2. pose proof (zlen_nonneg h.2). lia.
  - by rewrite ztake_app_all.
  - change ([58; 32] ++ h.2) with ([58] ++ 32 :: h.2). rewrite app_assoc, zdrop_app_all by (by rewrite zlen_app).
    rewrite <-Hvt at 2. unfold trim. by cbn [skip_space isspace].
Qed.

Lemma read_headers_lines hs headers :
  hs ≠ [] → Forall header_ok hs →
  read_headers (line_of <$> hs) headers = (foldl (λ m h, map_set m h.1 h.2) headers (removelast hs), true).
Proof.
  intros Hne Hok. revert headers. induction Hok as [|h hs Hh Hok IH]; intros headers; [done|].
  destruct hs as [|h' hs]; [done|]. rewrite fmap_cons, read_headers_cons by done.
  destruct (line_parts h Hh) as (-> & Hz & -> & ->). rewrite bool_decide_false by done.
  rewrite IH by done. done.
Qed.

Lemma length_joined lines : (length lines <= length (joined lines))%nat.
Proof.
  induction lines as [|L lines IH]; [done|]. change (joined (L :: lines)) with ((CRLF ++ L) ++ joined lines).
  rewrite !length_app. cbn. lia.
Qed.
Lemma keys_sorted_removelast m : keys_sorted m → keys_sorted (removelast m).
Proof.
  destruct m as [|h m _] using rev_ind; [done|]. rewrite removelast_last. apply keys_sorted_app_l.
Qed.

(** A message that can be put on the wire: one line without CR each, trimmed
    keys and values, at least one header, and headers that announce the
    length of the body. *)
Record encodable (m : HttpMessage) : Prop := {
  en_first : plain (first_line_ m);
  en_some : headers_ m ≠ [];
  en_headers : Forall header_ok (headers_ m);
  en_sorted : keys_sorted (headers_ m);
  en_frame : declared_length (head_text m) = Length (zlen (body_ m)) ∨
             (declared_length (head_text m) = NoLength ∧ body_ m = []);
}.

Section encoded.
Context (m : HttpMessage) (Hm : encodable m) (extra : list Z).
Let text := encoded m ++ extra.

Lemma lines_ok : Forall (λ L, plain L ∧ L ≠ []) (line_of <$> headers_ m).
Proof using Hm. apply Forall_fmap. eapply Forall_impl; [apply Hm|]. intros h. apply plain_line. Qed.

Lemma search_head : std_search text CRLF2 = zlen (head_text m).
Proof using Hm.
  unfold text, encoded, head_text. rewrite <-!app_assoc.
  apply search_crlf2_joined; [apply Hm|apply lines_ok].
Qed.

Lemma check_encoded : check_spec text = Ret (zlen (encoded m)).
Proof using Hm.
  unfold check_spec. rewrite search_head.
  assert (Hz : zlen text = zlen (head_text m) + 4 + zlen (body_ m) + zlen extra).
  { unfold text, encoded. rewrite !zlen_app. change (zlen CRLF2) with 4. lia. }
  pose proof (zlen_nonneg (body_ m)). pose proof (zlen_nonneg extra).
  rewrite bool_decide_false by lia.
  assert (Ht : ztake (zlen (head_text m)) text = head_text m).
  { unfold text, encoded. rewrite <-!app_assoc. by apply ztake_app_all. }
  rewrite Ht. assert (He : zlen (encoded m) = zlen (head_text m) + 4 + zlen (body_ m)).
  { unfold encoded. rewrite !zlen_app. change (zlen CRLF2) with 4. lia. }
  destruct (en_frame _ Hm) as [->|[-> Hb]].
  - rewrite bool_decide_false by lia. f_equal. lia.
  - rewrite He, Hb, zlen_nil. f_equal. lia.
Qed.

Lemma decode_encoded :
  decode_spec HttpMessage_new text =
  Ret (mk_http (first_line_ m) (removelast (headers_ m)) (body_ m), zlen (encoded m)).
Proof using Hm.
  unfold decode_spec. rewrite check_encoded. cbn [mbind result_bind].
  destruct Hm as [Hf Hne Hok Hs _]. pose proof lines_ok as Hlines.
  destruct (headers_ m) as [|h hs] eqn:Eh; [done|].
  assert (Hzf : std_search text CRLF = zlen (first_line_ m)).
  { unfold text, encoded, head_text. rewrite Eh. cbn [fmap list_fmap].
    change (joined (line_of h :: (line_of <$> hs))) with ((CRLF ++ line_of h) ++ joined (line_of <$> hs)).
    rewrite <-!app_assoc. by apply std_search_app. }
  set (region := line_of h ++ joined (line_of <$> hs)).
  assert (Hrest : zdrop (std_search text CRLF + 2) text = region ++ CRLF2 ++ body_ m ++ extra).
  { rewrite Hzf. unfold text, encoded, head_text. rewrite Eh. cbn [fmap list_fmap].
    change (joined (line_of h :: (line_of <$> hs))) with ((CRLF ++ line_of h) ++ joined (line_of <$> hs)).
    rewrite <-!app_assoc, (app_assoc (first_line_ m)), zdrop_app_all by (by rewrite zlen_app).
    unfold region. by rewrite <-!app_assoc. }
  assert (Hhead : zlen (head_text m) = zlen (first_line_ m) + 2 + zlen region).
  { unfold head_text, region. rewrite Eh. cbn [fmap list_fmap].
    change (joined (line_of h :: (line_of <$> hs))) with ((CRLF ++ line_of h) ++ joined (line_of <$> hs)).
    rewrite !zlen_app. change (zlen CRLF) with 2. lia. }
  assert (Hz : zlen (encoded m) = zlen (head_text m) + 4 + zlen (body_ m)).
  { unfold encoded. rewrite !zlen_app. change (zlen CRLF2) with 4. lia. }
  rewrite Hrest. apply Forall_cons_iff in Hlines as [[Hp1 _] Hlines].
  assert (Hk : std_search (region ++ CRLF2 ++ body_ m ++ extra) CRLF2 = zlen region).
  { unfold region. rewrite <-app_assoc. by apply search_crlf2_joined. }
  rewrite Hk. pose proof (zlen_nonneg (first_line_ m)). pose proof (zlen_nonneg region).
  pose proof (zlen_nonneg (body_ m)). pose proof (zlen_nonneg extra).
  rewrite bool_decide_false by lia. rewrite bool_decide_false.
  2: { rewrite !zlen_app. change (zlen CRLF2) with 4. lia. }
  rewrite ztake_app_all by done.
  assert (Hlines' : header_lines region = line_of <$> (h :: hs)).
  { unfold header_lines, region. apply fields_by_joined; [done| |].
    - eapply Forall_impl; [exact Hlines|]. by intros ? [? _].
    - rewrite length_app, length_fmap. pose proof (length_joined (line_of <$> hs)) as Hj.
      rewrite length_fmap in Hj. lia. }
  rewrite Hlines', read_headers_lines by done. cbn [negb].
  rewrite map_set_all by (by apply keys_sorted_removelast).
  rewrite Hzf, bool_decide_false by lia.
  assert (Hfl : ztake (zlen (first_line_ m)) text = first_line_ m).
  { unfold text, encoded, head_text. rewrite <-!app_assoc. by apply ztake_app_all. }
  rewrite Hfl. do 3 f_equal. rewrite app_assoc, zdrop_app_all by (rewrite zlen_app; done).
  rewrite ztake_app_all; [done|]. lia.
Qed.
End encoded.

(** C20: what [Encode] writes into an empty buffer, followed by anything,
    [Decode] reads back into a fresh message: the same first line and body and
    all headers but the last one, which the header loop never stores; the
    buffer is left with exactly what followed.  The message has to be
    [encodable]: it has at least one header; no carriage return stands in the
    first line, a key or a value; keys hold no colon, and keys and values no
    space at either end; the keys are sorted, as in the map; and the text of
    the head declares the length of the body by a Content-Length that is not
    in the last header, or declares none and the body is empty.  Message and
    what follows are together at most 2^30 - 8 bytes, below which no buffer
    index overflows.  (A Content-Length in the last header makes [Decode]
    reject the message: [Content_Length_position].) *)
Theorem Encode_Decode_roundtrip m q extra :
  encodable m → buf_wf q → content q = [] → zlen (encoded m) + zlen extra <= max_content →
  ∃ q' n q'' q3,
    Encode m q = Ret (q', n) ∧ n = zlen (encoded m) ∧ Append q' extra (zlen extra) = Ret q'' ∧
    Decode HttpMessage_new q'' =
      Ret (mk_http (first_line_ m) (removelast (headers_ m)) (body_ m), q3, n) ∧
    buf_wf q3 ∧ content q3 = extra.
Proof.
  intros Hm Hq Hc Hfit. pose proof (zlen_nonneg extra) as Hx.
  destruct (@Encode_ok Buffer Buffer_queue m q Hq) as (q' & He & Hq' & Hc').
  { cbn [bq_content Buffer_queue]. rewrite Hc. change (zlen []) with 0. lia. }
  cbn [bq_content bq_wf Buffer_queue] in *. rewrite Hc in Hc'. cbn [app] in Hc'.
  destruct (Append_all_ok q' extra Hq') as (q'' & Ha & Hq'' & Hc''); [rewrite Hc'; lia|]. rewrite Hc' in Hc''.
  pose proof (decode_encoded m Hm extra) as Hd. rewrite <-Hc'' in Hd.
  pose proof (Take_agrees q'' (zlen (encoded m)) Hq'') as Ht.
  rewrite Hc'', bool_decide_true in Ht by (rewrite zlen_app; pose proof (zlen_nonneg extra); lia).
  rewrite zdrop_app_all in Ht by done. unfold agrees in Ht.
  destruct (Take q'' (zlen (encoded m))) as [q3| |] eqn:E; [|done..].
  exists q', (zlen (encoded m)), q'', q3. split_and!; [by rewrite He, Hc'|done..| |apply Ht|apply Ht].
  rewrite Decode_ok, Hd by done. cbn [mbind result_bind]. by rewrite E.
Qed.

(** "A: b", "Content-Length: 2", "Z: c" with a two-byte body. *)
Definition sample_message : HttpMessage :=
  mk_http [71; 32; 47] [([65], [98]); (CONTENT_LENGTH, [50]); ([90], [99])] [104; 105].

Lemma sample_encodable : encodable sample_message.
Proof.
  constructor.
  - apply (bool_decide_unpack _). reflexivity.
  - done.
  - repeat (constructor; [constructor; first [reflexivity|apply (bool_decide_unpack _); reflexivity]|]).
    constructor.
  - repeat constructor.
  - left. reflexivity.
Qed.

Lemma Encode_Decode_roundtrip_witness :
  ∃ q q' n, Decode HttpMessage_new q =
    Ret (mk_http [71; 32; 47] [([65], [98]); (CONTENT_LENGTH, [50])] [104; 105], q', n) ∧ content q' = [7].
Proof.
  destruct (Encode_Decode_roundtrip sample_message (mk_buffer (replicate 8 0) 8 8) [7] sample_encodable)
    as (q1 & n & q2 & q3 & _ & _ & _ & H4 & _ & H5).
  - vm_compute. intuition discriminate.
  - reflexivity.
  - vm_compute. discriminate.
  - exists q2, q3, n. split; [exact H4|exact H5].
Defined.

(** A first line followed by two empty lines ends the program: the body
    length is negative and the string constructor throws. *)
Theorem Decode_blank_lines_abort self b line rest :
  buf_wf b → plain line → std_search line CONTENT_LENGTH = zlen line →
  content b = line ++ CRLF ++ CRLF2 ++ rest → Decode self b = Fault Aborted.
Proof.
  intros Hb Hl Hcl Hc. rewrite Decode_ok by done.
  assert (Hd : decode_spec self (content b) = Fault Aborted); [|by rewrite Hd].
  rewrite Hc. unfold decode_spec, check_spec.
  assert (Hp : std_search (line ++ CRLF ++ CRLF2 ++ rest) CRLF2 = zlen line)
    by (apply (std_search_app line 13 [10; 13; 10] (CRLF ++ rest)); done).
  assert (Hf : std_search (line ++ CRLF ++ CRLF2 ++ rest) CRLF = zlen line) by (by apply std_search_app).
  rewrite Hp, Hf. assert (Hz : zlen (line ++ CRLF ++ CRLF2 ++ rest) = zlen line + 6 + zlen rest).
  { rewrite !zlen_app. change (zlen CRLF) with 2. change (zlen CRLF2) with 4. lia. }
  pose proof (zlen_nonneg rest). pose proof (zlen_nonneg line).
  rewrite (bool_decide_false (zlen line = _)) by lia. rewrite ztake_app_all by done.
  unfold declared_length. rewrite Hcl, (bool_decide_true (zlen line = zlen line)) by done.
  cbn [mbind result_bind]. rewrite bool_decide_false by lia. rewrite app_assoc, zdrop_app_all by (by rewrite zlen_app).
  change (std_search (CRLF2 ++ rest) CRLF2) with 0. rewrite bool_decide_false.
  2: { rewrite zlen_app. change (zlen CRLF2) with 4. lia. }
  rewrite ztake_0. change (read_headers (header_lines []) (headers_ self)) with (headers_ self, true).
  cbn [negb]. by rewrite bool_decide_true by lia.
Qed.

Lemma Decode_blank_lines_abort_witness :
  Decode HttpMessage_new (mk_buffer (replicate 8 0 ++ [88; 13; 10; 13; 10; 13; 10]) 8 15) = Fault Aborted.
Proof.
  apply (Decode_blank_lines_abort HttpMessage_new
    (mk_buffer (replicate 8 0 ++ [88; 13; 10; 13; 10; 13; 10]) 8 15) [88] []).
  - vm_compute. intuition discriminate.
  - apply (bool_decide_unpack _). reflexivity.
  - reflexivity.
  - reflexivity.
Defined.

(** ** Content-Length and its position *)

(** A pattern whose first byte does not recur in it, after a text without it. *)
Lemma std_search_sep A p pat B :
  p ∉ pat → std_search A (p :: pat) = zlen A →
  std_search (A ++ (p :: pat) ++ B) (p :: pat) = zlen A.
Proof.
  intros Hp. induction A as [|c A IH]; intros HA.
  { apply (std_search_app [] p pat B). apply not_elem_of_nil. }
  cbn [std_search] in HA. rewrite zlen_cons in HA. pose proof (zlen_nonneg A).
  destruct (prefixb (p :: pat) (c :: A)) eqn:E; [lia|].
  change ((c :: A) ++ (p :: pat) ++ B) with (c :: (A ++ (p :: pat) ++ B)). cbn [std_search].
  assert (Hpf : prefixb (p :: pat) (c :: (A ++ (p :: pat) ++ B)) = false).
  { apply not_true_is_false. intros [k Hk]%prefixb_spec. injection Hk as -> Hk.
    symmetry in Hk. apply app_eq_app in Hk as (r & [[-> Hr]|[Hr1 Hr2]]).
    - destruct r as [|x r].
      + rewrite app_nil_r in E. apply not_true_iff_false in E. apply E. apply prefixb_spec. exists []. by rewrite !app_nil_r.
      + cbn in Hr. injection Hr as -> _. apply Hp. apply elem_of_app. right. by left.
    - apply not_true_iff_false in E. apply E. apply prefixb_spec. exists r. by rewrite Hr1. }
  rewrite Hpf, IH, zlen_cons by lia. done.
Qed.

Lemma digit_prefix_all ds : Forall (λ c, isdigit c = true) ds → digit_prefix ds = ds.
Proof. induction 1 as [|c ds Hc _ IH]; [done|]. cbn. by rewrite Hc, IH. Qed.

Lemma trim_digits ds : Forall (λ c, isdigit c = true) ds → ds ≠ [] → trim (32 :: ds) = ds.
Proof.
  intros Hds Hne.
  destruct ds as [|c ds'] using rev_ind; [done|]. clear IHds'.
  apply Forall_app in Hds as [H1 H2]. rewrite Forall_singleton in H2.
  assert (Hnd : ∀ c', isdigit c' = true → isspace c' = false).
  { intros c'. unfold isdigit, isspace. rewrite bool_decide_eq_true, bool_decide_eq_false. lia. }
  assert (Hskip : ∀ l, Forall (λ c, isdigit c = true) l → skip_space l = l).
  { intros l Hl. destruct Hl as [|x l Hx _]; [done|]. cbn. by rewrite Hnd. }
  unfold trim. change (skip_space (32 :: ds' ++ [c])) with (skip_space (ds' ++ [c])).
  rewrite (Hskip (ds' ++ [c])) by (apply Forall_app; split; [done|by apply Forall_singleton]).
  rewrite reverse_snoc. cbn [skip_space]. rewrite Hnd by done.
  by rewrite reverse_cons, reverse_involutive.
Qed.

Section content_length.
Context (A ds : list Z) (HA : std_search A CONTENT_LENGTH = zlen A).
Context (Hds : Forall (λ c, isdigit c = true) ds) (Hne : ds ≠ []) (Hmax : dec_val ds <= INT_MAX).
Let field := CONTENT_LENGTH ++ [58; 32] ++ ds.

Lemma digits_plain : 13 ∉ ds.
Proof using Hds. intros Hin. rewrite Forall_forall in Hds. by specialize (Hds 13 Hin). Qed.

Lemma field_found tail :
  std_search (A ++ field ++ tail) CONTENT_LENGTH = zlen A ∧ zlen A ≠ zlen (A ++ field ++ tail) ∧
  zdrop (zlen A) (A ++ field ++ tail) = field ++ tail ∧ 13 ∉ field ∧ 14 < zlen field.
Proof using HA Hds.
  pose proof (zlen_nonneg tail). pose proof (zlen_nonneg ds).
  assert (Hfl : 14 < zlen field).
  { unfold field. rewrite !zlen_app. change (zlen CONTENT_LENGTH) with 14. change (zlen [58; 32]) with 2. lia. }
  split_and!; [|rewrite !zlen_app; lia|by apply zdrop_app_all| |done].
  - unfold field. rewrite <-!app_assoc. apply std_search_sep; [apply (bool_decide_unpack _); done|done].
  - unfold field. rewrite !elem_of_app. intros [H1|[H1|H1]]; [| |by apply digits_plain in H1];
      revert H1; apply (bool_decide_unpack _); done.
Qed.

(** The field as the last header, and before another one. *)
Lemma declared_last : declared_length (A ++ field) = BadLength.
Proof using HA Hds.
  destruct (field_found []) as (Hq & Hne' & Hd & Hpl & _). rewrite !app_nil_r in *.
  unfold declared_length. rewrite Hq, bool_decide_false by done. cbn zeta. rewrite Hd.
  unfold CRLF. rewrite std_search_none by done. by rewrite bool_decide_true.
Qed.

Lemma declared_mid k : declared_length (A ++ field ++ CRLF ++ k) = Length (dec_val ds).
Proof using HA Hds Hne Hmax.
  destruct (field_found (CRLF ++ k)) as (Hq & Hne' & Hd & Hpl & Hfl).
  unfold declared_length. rewrite Hq, bool_decide_false by done. cbn zeta. rewrite Hd.
  assert (He : std_search (field ++ CRLF ++ k) CRLF = zlen field) by (by apply std_search_app).
  rewrite He, ztake_app_all by done. rewrite bool_decide_false.
  2: { rewrite !zlen_app. change (zlen CRLF) with 2. pose proof (zlen_nonneg k). lia. }
  assert (Hc : std_find field 58 = 14).
  { unfold field. apply (std_find_app CONTENT_LENGTH (32 :: ds) 58). apply (bool_decide_unpack _). done. }
  rewrite Hc, bool_decide_false by lia. change (zdrop (14 + 1) field) with (32 :: ds).
  rewrite trim_digits, digit_prefix_all by done. rewrite bool_decide_false by lia.
  by rewrite bool_decide_false by (intros Hn; by apply Hn).
Qed.
End content_length.

Lemma joined_app l l' : joined (l ++ l') = joined l ++ joined l'.
Proof. apply bind_app. Qed.

(** A Content-Length header is understood only when another header
    follows it.  As the last header of a message it makes [Decode] reject what
    [Encode] wrote, whatever follows and however long the body is. *)
Theorem Content_Length_position m h1 ds h2 self b extra :
  headers_ m = h1 ++ (CONTENT_LENGTH, ds) :: h2 →
  Forall (λ c, isdigit c = true) ds → ds ≠ [] → dec_val ds <= INT_MAX →
  plain (first_line_ m) → Forall header_ok (headers_ m) →
  (let before := first_line_ m ++ joined (line_of <$> h1) ++ CRLF in
   std_search before CONTENT_LENGTH = zlen before) →
  buf_wf b → content b = encoded m ++ extra →
  (h2 ≠ [] → declared_length (head_text m) = Length (dec_val ds)) ∧
  (h2 = [] → Decode self b = Ret (self, b, -1)).
Proof.
  intros Hm Hds Hne Hmax Hf Hok Hbefore Hb Hc. cbn zeta in Hbefore.
  assert (Hhead : head_text m = (first_line_ m ++ joined (line_of <$> h1) ++ CRLF) ++
    (CONTENT_LENGTH ++ [58; 32] ++ ds) ++ joined (line_of <$> h2)).
  { unfold head_text. rewrite Hm, fmap_app, fmap_cons, joined_app.
    change (joined (line_of (CONTENT_LENGTH, ds) :: (line_of <$> h2)))
      with ((CRLF ++ line_of (CONTENT_LENGTH, ds)) ++ joined (line_of <$> h2)).
    unfold line_of at 2. cbn [fst snd]. by rewrite <-!app_assoc. }
  split; intros Hh2.
  - destruct h2 as [|h h2]; [done|]. rewrite Hhead.
    change (joined (line_of <$> h :: h2)) with ((CRLF ++ line_of h) ++ joined (line_of <$> h2)).
    rewrite <-(app_assoc CRLF). by apply declared_mid.
  - subst h2. rewrite Decode_ok, Hc by done. unfold decode_spec, check_spec.
    assert (Hlines : Forall (λ L, plain L ∧ L ≠ []) (line_of <$> headers_ m)).
    { apply Forall_fmap. eapply Forall_impl; [exact Hok|]. intros h. apply plain_line. }
    assert (Hp : std_search (encoded m ++ extra) CRLF2 = zlen (head_text m)).
    { unfold encoded, head_text. rewrite <-!app_assoc. by apply search_crlf2_joined. }
    rewrite Hp. assert (Ht : ztake (zlen (head_text m)) (encoded m ++ extra) = head_text m).
    { unfold encoded. rewrite <-!app_assoc. by apply ztake_app_all. }
    rewrite Ht. assert (Hd : declared_length (head_text m) = BadLength).
    { rewrite Hhead. change (joined (line_of <$> [])) with (@nil Z). rewrite app_nil_r. by apply declared_last. }
    rewrite Hd, (bool_decide_false (zlen (head_text m) = _)).
    2: { unfold encoded. rewrite !zlen_app. change (zlen CRLF2) with 4.
         pose proof (zlen_nonneg (body_ m)). pose proof (zlen_nonneg extra). lia. }
    cbn [mbind result_bind]. rewrite bool_decide_true by lia. done.
Qed.

Lemma Content_Length_position_witness :
  Decode HttpMessage_new (mk_buffer (replicate 8 0 ++ encoded (mk_http [71] [(CONTENT_LENGTH, [48])] [])) 8 32) =
  Ret (HttpMessage_new, mk_buffer (replicate 8 0 ++ encoded (mk_http [71] [(CONTENT_LENGTH, [48])] [])) 8 32, -1).
Proof.
  refine (proj2 (Content_Length_position (mk_http [71] [(CONTENT_LENGTH, [48])] []) [] [48] []
    HttpMessage_new _ [] _ _ _ _ _ _ _ _ _) eq_refl).
  - reflexivity.
  - repeat constructor.
  - discriminate.
  - vm_compute. discriminate.
  - apply (bool_decide_unpack _). reflexivity.
  - repeat (constructor; [constructor; first [reflexivity|apply (bool_decide_unpack _); reflexivity]|]). constructor.
  - reflexivity.
  - vm_compute. intuition discriminate.
  - reflexivity.
Defined.
