(* ===== verification/HttpStream.v ===== *)
(** * HTTP streams: http/http_stream.{h,cc}

    [AsyncRead] decodes one message from what has been buffered and reads more
    while it is incomplete, over TCP or TLS; [AsyncWrite] encodes a message and
    writes it.  The theorems: however the bytes of a message are cut into
    reads, the same message is delivered and the rest stays buffered; a message
    written by one end is the message the other end reads. *)

From Stdlib Require Import ZArith Lia Bool.
From stdpp Require Import base numbers list.
From S2P Require Import Prelude Types StringPiece Buffer InetAddress Stream Http HttpCodec.

Record HttpStream : Type := mk_stream {
  read_buf_ : Buffer;
  write_buf_ : Buffer;
  (** whether [tls_stream_] is set *)
  tls_stream_ : bool;
}.
Definition HttpStream_new : HttpStream := mk_stream default_buffer default_buffer false.

(** The context and the SSL object may be null. *)
Definition UpgradeHttps (ctx ssl : bool) (trace : list handshake_result) (s : HttpStream)
    : result (HttpStream * Z) :=
  tls ← tls_AsServer true ctx ssl trace;
  Ret (mk_stream (read_buf_ s) (write_buf_ s) tls, if (tls : bool) then 0 else -1).

(** One read into the buffer: [tls_stream_->AsyncRead] into its free space and
    [AddReadableLength], or [tcp_stream_->AsyncRead]; the count returned and
    whether it timed out. *)
Definition fill (tls : bool) (trace : list (attempt io_result)) (buf : Buffer)
    : result (Buffer * Z * bool * list (attempt io_result)) :=
  if tls then
    '(mem, rn, timeout, trace) ←
      tls_AsyncRead_ms (write_index buf) (writable_bytes buf) trace (buffer_ buf);
    let buf := mk_buffer mem (reader_index_ buf) (writer_index_ buf) in
    if (timeout : bool) || bool_decide (rn <= 0) then Ret (buf, rn, timeout, trace)
    else buf ← AddReadableLength buf rn; Ret (buf, rn, timeout, trace)
  else tcp_AsyncRead_buf_ms trace buf.

(** [while (1)]: every round but the last reads a byte at least, so the bytes
    and the answers of the trace bound them. *)
Fixpoint budget (trace : list (attempt io_result)) : nat :=
  match trace with
  | [] => 0
  | a :: trace => S (match answer a with IoOk bytes => length bytes | IoErr _ => 0 end) + budget trace
  end.
Fixpoint read_loop (fuel : nat) (tls : bool) (trace : list (attempt io_result)) (message : HttpMessage)
    (read_buf : Buffer) : result (HttpMessage * Buffer * Z * bool * list (attempt io_result)) :=
  match fuel with
  | O => OutOfFuel
  | S fuel =>
      '(message, read_buf, parsed_len) ← Decode message read_buf;
      if bool_decide (parsed_len < 0) then Ret (message, read_buf, parsed_len, false, trace)
      else if bool_decide (parsed_len = 0) then
        '(read_buf, rn, timeout, trace) ← fill tls trace read_buf;
        if (timeout : bool) then Ret (message, read_buf, -1, true, trace)
        else if bool_decide (rn <= 0) then Ret (message, read_buf, rn, false, trace)
        else read_loop fuel tls trace message read_buf
      else Ret (message, read_buf, parsed_len, false, trace)
  end.
Definition AsyncRead (trace : list (attempt io_result)) (message : HttpMessage) (s : HttpStream)
    : result (HttpMessage * HttpStream * Z * bool * list (attempt io_result)) :=
  '(message, read_buf, rn, timeout, trace) ←
    read_loop (S (budget trace)) (tls_stream_ s) trace message (read_buf_ s);
  Ret (message, mk_stream read_buf (write_buf_ s) (tls_stream_ s), rn, timeout, trace).

(** [AsyncWrite]; [wire] is what the peer is sent. *)
Definition http_AsyncWrite (trace : list write_result) (message : HttpMessage) (s : HttpStream)
    : result (HttpStream * Z * list Z) :=
  '(write_buf, _) ← Encode message (write_buf_ s);
  '(len, wire) ← AsyncWrite (tls_stream_ s) trace (AsString (slice write_buf)) (readable_bytes write_buf) 0 [];
  if bool_decide (len ≠ readable_bytes write_buf)
  then Ret (mk_stream (read_buf_ s) write_buf (tls_stream_ s), -1, wire)
  else Ret (mk_stream (read_buf_ s) (TakeAll write_buf) (tls_stream_ s), 0, wire).

Lemma zlen_encoded m : zlen (encoded m) = zlen (head_text m) + 4 + zlen (body_ m).
Proof. unfold encoded. rewrite !zlen_app. change (zlen CRLF2) with 4. lia. Qed.
Lemma encoded_pos m : 0 < zlen (encoded m).
Proof. rewrite zlen_encoded. pose proof (zlen_nonneg (head_text m)). pose proof (zlen_nonneg (body_ m)). lia. Qed.

(** With room for the message and no failure, exactly it is sent. *)
Lemma http_AsyncWrite_ok m trace s :
  buf_wf (write_buf_ s) → content (write_buf_ s) = [] → zlen (encoded m) <= max_content →
  Forall (λ a, ¬ refused (tls_stream_ s) a) trace → zlen (encoded m) <= total_room trace →
  ∃ wb, http_AsyncWrite trace m s = Ret (mk_stream (read_buf_ s) wb (tls_stream_ s), 0, encoded m) ∧
    buf_wf wb ∧ content wb = [].
Proof.
  intros Hw Hc Hfit Hok Hroom. unfold http_AsyncWrite.
  destruct (@Encode_ok Buffer Buffer_queue m (write_buf_ s) Hw) as (q & -> & Hq & Hcq).
  { cbn [bq_content Buffer_queue]. rewrite Hc. exact Hfit. }
  cbn [bq_content bq_wf Buffer_queue] in *. rewrite Hc in Hcq. cbn [app] in Hcq. cbn [mbind result_bind].
  rewrite AsString_slice, <-zlen_content, Hcq by done. pose proof (encoded_pos m).
  rewrite AsyncWrite_all by (done || lia). cbn [mbind result_bind]. rewrite bool_decide_false by lia.
  exists (TakeAll q). split; [done|]. by apply TakeAll_ok.
Qed.

(** ** Incomplete messages *)
Section prefix.
Context (m : HttpMessage) (Hm : encodable m).

(** The end of the headers is not found in a text that ends before it. *)
Lemma search_incomplete k :
  0 <= k < zlen (head_text m) + 4 → std_search (ztake k (encoded m)) CRLF2 = zlen (ztake k (encoded m)).
Proof using Hm.
  intros Hk. pose proof (zlen_encoded m) as Hz. pose proof (zlen_nonneg (body_ m)).
  pose proof (search_head m Hm []) as Hh. rewrite app_nil_r in Hh.
  apply std_search_cut; [done|lia|]. rewrite Hh. change (zlen CRLF2) with 4. lia.
Qed.

Lemma check_incomplete k : 0 <= k < zlen (encoded m) → check_spec (ztake k (encoded m)) = Ret 0.
Proof using Hm.
  intros Hk. pose proof (zlen_encoded m) as Hz. unfold check_spec. cbn zeta.
  destruct (decide (k < zlen (head_text m) + 4)) as [Hs|Hs].
  { by rewrite search_incomplete, bool_decide_true by lia. }
  assert (Ep : ztake k (encoded m) = head_text m ++ CRLF2 ++ ztake (k - (zlen (head_text m) + 4)) (body_ m)).
  { unfold encoded. rewrite app_assoc, (ztake_split (zlen (head_text m ++ CRLF2)) k)
      by (pose proof (zlen_nonneg (head_text m)); rewrite zlen_app; change (zlen CRLF2) with 4; lia).
    rewrite ztake_app_all, zdrop_app_all, zlen_app by done. change (zlen CRLF2) with 4. by rewrite <-app_assoc. }
  set (rest := ztake _ (body_ m)) in Ep.
  assert (Hrest : zlen rest = k - (zlen (head_text m) + 4)) by (apply zlen_ztake; lia).
  assert (Hh : std_search (ztake k (encoded m)) CRLF2 = zlen (head_text m)).
  { rewrite Ep. unfold head_text. rewrite <-app_assoc. apply search_crlf2_joined; [apply Hm|by apply lines_ok]. }
  rewrite Hh, zlen_ztake by lia. rewrite bool_decide_false by lia.
  rewrite Ep, ztake_app_all by done. destruct (en_frame _ Hm) as [->|[-> Hb]].
  - by rewrite bool_decide_true by lia.
  - rewrite Hb, zlen_nil in *. lia.
Qed.

(** [Decode] waits for the rest of a message, whatever it already holds. *)
Lemma Decode_incomplete self b k :
  buf_wf b → content b = ztake k (encoded m) → 0 <= k < zlen (encoded m) → Decode self b = Ret (self, b, 0).
Proof using Hm.
  intros Hb Hc Hk. rewrite Decode_ok, Hc by done. unfold decode_spec. rewrite check_incomplete by done.
  reflexivity.
Qed.
End prefix.

(** ** Reading in pieces *)

Definition roomy (tls : bool) (buf : Buffer) : Prop :=
  buf_wf buf ∧ (tls = true → 1024 <= writable_bytes buf).

(** Bytes stored behind the content do not change it. *)
Lemma stored_behind b src :
  buf_wf b → zlen src <= writable_bytes b →
  ∃ mem, memcpy (buffer_ b) (write_index b) src (zlen src) = Ret mem ∧ zlen mem = zlen (buffer_ b) ∧
    let b' := mk_buffer mem (reader_index_ b) (writer_index_ b) in
    buf_wf b' ∧ content b' = content b ∧ writable_bytes b' = writable_bytes b ∧
    ztake (zlen src) (zdrop (writer_index_ b) mem) = src.
Proof.
  intros Hb Hfit. pose proof (zlen_nonneg src).
  destruct (write_back b src (zlen src)) as (E & Hz & _); [done|lia|done|]. cbn zeta in *.
  rewrite (ztake_ge (zlen src) src) in * by lia. eexists. split; [exact E|]. split; [exact Hz|]. cbn zeta.
  set (mem := _ ++ src ++ _) in *. buf_unfold.
  assert (Hm : ztake (writer_index_ b) (buffer_ b) ++ src ++ zdrop (writer_index_ b + zlen src) (buffer_ b) = mem) by done.
  assert (Hl : zlen (ztake (writer_index_ b) (buffer_ b)) = writer_index_ b) by (apply zlen_ztake; lia).
  split_and!; [lia..| |lia|].
  - unfold content. buf_unfold. rewrite <-Hm.
    rewrite zdrop_app_le by lia. rewrite ztake_app_le by (rewrite zlen_zdrop; lia).
    rewrite zdrop_ztake by lia. by rewrite ztake_ztake by lia.
  - rewrite <-Hm, zdrop_app_all by done. by apply ztake_app_all.
Qed.

Lemma budget_app t1 t2 : budget (t1 ++ t2) = (budget t1 + budget t2)%nat.
Proof. induction t1 as [|a t1 IH]; [done|]. cbn [app budget]. rewrite IH. lia. Qed.

(** What a TLS read leaves is delivered later. *)
Lemma left_over_delivers count c t trace cs :
  0 < count → 0 < zlen c → delivers true trace cs →
  ∃ cs', delivers true (left_over count (mk_attempt (IoOk c) t) ++ trace) cs' ∧
    ztake count c ++ concat cs' = c ++ concat cs ∧
    (budget (left_over count (mk_attempt (IoOk c) t) ++ trace) < S (length c) + budget trace)%nat.
Proof.
  intros Hcount Hc Hd. unfold left_over. cbn [answer timed_out]. case_bool_decide as E.
  - exists (zdrop count c :: cs). split_and!.
    + constructor; [rewrite zlen_zdrop; lia|done].
    + cbn [concat]. by rewrite app_assoc, ztake_zdrop.
    + cbn [app budget answer]. assert (zlen (zdrop count c) < zlen c) by (rewrite zlen_zdrop; lia). unfold zlen in *. lia.
  - exists cs. rewrite ztake_ge by lia. split_and!; [done..|]. cbn [app]. lia.
Qed.

(** One read appends some of what is to come: over TCP the next piece, over
    TLS as much of it as fits. *)
Lemma fill_piece tls trace c cs rest buf :
  delivers true trace (c :: cs) → roomy tls buf → zlen (content buf) + zlen c <= max_content →
  ∃ buf' trace' cs' got, fill tls (trace ++ rest) buf = Ret (buf', zlen got, false, trace' ++ rest) ∧
    roomy tls buf' ∧ content buf' = content buf ++ got ∧ 0 < zlen got ∧ got ++ concat cs' = c ++ concat cs ∧
    delivers true trace' cs' ∧ (budget trace' < budget trace)%nat.
Proof.
  intros (pre & t & trace' & -> & Hpre & Hc & Hd)%delivers_cons [Hb Hroom] Hfit.
  unfold fill. rewrite <-app_assoc. cbn [app]. rewrite budget_app. cbn [budget answer]. destruct tls.
  - specialize (Hroom eq_refl). set (count := writable_bytes buf) in *.
    destruct (left_over_delivers count c t trace' cs) as (cs' & Hd' & Ecs & Hbud); [lia|done|done|].
    assert (Hgot : 0 < zlen (ztake count c) <= count) by (unfold zlen, ztake in *; rewrite length_take; lia).
    assert (Hgc : zlen (ztake count c) <= zlen c) by (unfold zlen, ztake in *; rewrite length_take; lia).
    destruct (stored_behind buf (ztake count c)) as (mem & E & Hz & Hb' & Hc' & Hw' & Hs); [done|unfold count in *; lia|].
    unfold tls_AsyncRead_ms. rewrite retry_waits_mem by done.
    rewrite (retry_read_done _ _ _ _ _ _ _ mem) by (done || lia).
    cbn [mbind result_bind orb]. rewrite bool_decide_false by lia.
    destruct (AddReadableLength_correct (mk_buffer mem (reader_index_ buf) (writer_index_ buf)) (zlen (ztake count c)))
      as (b2 & -> & Hb2 & Hr2 & Hc2); [done|rewrite Hw'; unfold count in *; lia| |rewrite Hc'; lia|].
    { cbn [buffer_]. unfold count in *. buf_unfold. lia. }
    cbn [mbind result_bind]. cbn [writer_index_ buffer_] in Hc2. rewrite Hc', Hs in Hc2.
    exists b2, (left_over count (mk_attempt (IoOk c) t) ++ trace'), cs', (ztake count c).
    rewrite <-app_assoc. split_and!; [done|done|done|lia|done|done|lia].
  - unfold tcp_AsyncRead_buf_ms. rewrite retry_waits by done.
    destruct (ReadFd_ok buf c Hb Hfit) as (b2 & E & Hb2 & Hc2). rewrite (retry_done _ _ _ _ _ _ b2 (zlen c)) by (done || lia).
    exists b2, trace', cs, c. split_and!; [done|by split|done|lia|done|done|lia].
Qed.

Section pieces.
Context (m : HttpMessage) (Hm : encodable m).

(** What the reader gets of [m]: the header loop drops the last header. *)
Definition received : HttpMessage := mk_http (first_line_ m) (removelast (headers_ m)) (body_ m).

Lemma Decode_complete b extra :
  buf_wf b → content b = encoded m ++ extra →
  ∃ b', Decode HttpMessage_new b = Ret (received, b', zlen (encoded m)) ∧ buf_wf b' ∧ content b' = extra ∧
    writable_bytes b <= writable_bytes b'.
Proof using Hm.
  intros Hb Hc. rewrite Decode_ok, Hc, (decode_encoded m Hm extra) by done. cbn [mbind result_bind].
  pose proof (Take_agrees b (zlen (encoded m)) Hb) as Ht.
  rewrite Hc, bool_decide_true in Ht by (rewrite zlen_app; pose proof (zlen_nonneg extra); lia).
  rewrite zdrop_app_all in Ht by done. unfold agrees in Ht.
  destruct (Take b (zlen (encoded m))) as [b'| |] eqn:Et; [|done..]. exists b'. cbn [mbind result_bind].
  apply Take_room in Et; [|done]. tauto.
Qed.

(** What is buffered holds the message, or the beginning of it. *)
Lemma buffered_message (c later extra : list Z) :
  c ++ later = encoded m ++ extra →
  (∃ k, c = encoded m ++ k ∧ k ++ later = extra) ∨ (c = ztake (zlen c) (encoded m) ∧ zlen c < zlen (encoded m)).
Proof using.
  intros E. destruct (decide (zlen (encoded m) <= zlen c)) as [Hge|Hlt].
  - left. assert (Hc : c = encoded m ++ zdrop (zlen (encoded m)) c).
    { rewrite <-(ztake_zdrop (zlen (encoded m)) c) at 1. f_equal.
      apply (f_equal (ztake (zlen (encoded m)))) in E. by rewrite ztake_app_le, ztake_app_all in E by done. }
    eexists. split; [exact Hc|]. rewrite Hc, <-app_assoc in E. by apply app_inv_head in E.
  - right. split; [|lia]. apply (f_equal (ztake (zlen c))) in E. by rewrite ztake_app_all, ztake_app_le in E by (done || lia).
Qed.

Lemma read_loop_then tls cs fuel trace rest buf extra :
  delivers true trace cs → roomy tls buf → (budget trace < fuel)%nat →
  content buf ++ concat cs = encoded m ++ extra → zlen (encoded m) + zlen extra <= max_content →
  ∃ buf' trace' cs', read_loop fuel tls (trace ++ rest) HttpMessage_new buf =
      Ret (received, buf', zlen (encoded m), false, trace' ++ rest) ∧
    delivers true trace' cs' ∧ roomy tls buf' ∧ content buf' ++ concat cs' = extra.
Proof using Hm.
  intros Hd Hr Hfuel E Hfit. revert cs trace buf Hd Hr Hfuel E.
  induction fuel as [|fuel IH]; intros cs trace buf Hd [Hb Hr] Hfuel E; [lia|]. cbn [read_loop].
  pose proof (encoded_pos m) as He.
  destruct (buffered_message _ _ _ E) as [(k & Hc & Hk)|[Hc Hlt]].
  - destruct (Decode_complete buf k Hb Hc) as (b' & -> & Hb' & Hc' & Hw').
    cbn [mbind result_bind]. rewrite !bool_decide_false by lia. exists b', trace, cs.
    split_and!; [done..|split; [done|intros; specialize (Hr ltac:(done)); lia]|]. by rewrite Hc'.
  - rewrite (Decode_incomplete m Hm HttpMessage_new buf (zlen (content buf))) by (done || (pose proof (zlen_nonneg (content buf)); lia)).
    cbn [mbind result_bind]. rewrite (bool_decide_false (0 < 0)), (bool_decide_true (0 = 0)) by lia.
    apply (f_equal zlen) in E as Hz. rewrite !zlen_app in Hz. pose proof (zlen_nonneg extra).
    destruct cs as [|c cs]; [change (zlen (concat [])) with 0 in Hz; lia|].
    cbn [concat] in Hz, E. rewrite zlen_app in Hz. pose proof (zlen_nonneg (concat cs)).
    destruct (fill_piece tls trace c cs rest buf Hd (conj Hb Hr)) as (b' & trace' & cs' & got & -> & Hr' & Hc' & Hpos & Hcs & Hd' & Hl);
      [lia|].
    cbn [mbind result_bind]. rewrite (bool_decide_false (zlen got <= 0)) by lia. apply (IH cs'); [done|done|lia|].
    by rewrite Hc', <-app_assoc, Hcs.
Qed.
Lemma read_loop_pieces tls cs fuel trace buf extra :
  delivers true trace cs → roomy tls buf → (budget trace < fuel)%nat →
  content buf ++ concat cs = encoded m ++ extra → zlen (encoded m) + zlen extra <= max_content →
  ∃ buf' trace' cs', read_loop fuel tls trace HttpMessage_new buf =
      Ret (received, buf', zlen (encoded m), false, trace') ∧
    delivers true trace' cs' ∧ roomy tls buf' ∧ content buf' ++ concat cs' = extra.
Proof using Hm.
  intros Hd Hr Hf E Hfit. destruct (read_loop_then tls cs fuel trace [] buf extra Hd Hr Hf E Hfit) as (b' & t' & cs' & H & H').
  rewrite !app_nil_r in H. by exists b', t', cs'.
Qed.
End pieces.

(** However the bytes on the wire are cut into reads, and whatever waiting
    there is between them, over TCP and over TLS: when they start with an
    encoded message, [AsyncRead] returns that message (less the header that
    [Decode] drops) and its length, without a timeout, and what it has buffered
    followed by what is still to be read is exactly what comes after the
    message, so that the next call reads the next message. *)
Theorem AsyncRead_pieces m s trace cs extra :
  encodable m → roomy (tls_stream_ s) (read_buf_ s) → delivers true trace cs →
  content (read_buf_ s) ++ concat cs = encoded m ++ extra → zlen (encoded m) + zlen extra <= max_content →
  ∃ s' trace' cs', AsyncRead trace HttpMessage_new s = Ret (received m, s', zlen (encoded m), false, trace') ∧
    delivers true trace' cs' ∧ content (read_buf_ s') ++ concat cs' = extra.
Proof.
  intros Hm Hr Hd E Hfit. unfold AsyncRead.
  destruct (read_loop_pieces m Hm _ cs (S (budget trace)) trace (read_buf_ s) extra Hd Hr ltac:(lia) E Hfit)
    as (b' & trace' & cs' & -> & Hd' & _ & E').
  cbn [mbind result_bind]. by eexists _, trace', cs'.
Qed.

Lemma default_roomy tls : roomy tls default_buffer.
Proof.
  unfold roomy, default_buffer, buf_wf, writable_bytes. cbn [buffer_ reader_index_ writer_index_].
  rewrite zlen_replicate. unfold kCheapPrepend, kInitialSize, INT_MAX. lia.
Qed.

Definition sample_trace : list (attempt io_result) :=
  [mk_attempt (IoOk (ztake 9 (encoded sample_message))) false; mk_attempt (IoErr EAGAIN) false;
   mk_attempt (IoErr EINTR) true; mk_attempt (IoOk (zdrop 9 (encoded sample_message) ++ [71])) false].

Lemma AsyncRead_pieces_witness :
  ∃ s' trace' cs', AsyncRead sample_trace HttpMessage_new HttpStream_new =
      Ret (received sample_message, s', zlen (encoded sample_message), false, trace') ∧
    content (read_buf_ s') ++ concat cs' = [71].
Proof.
  destruct (AsyncRead_pieces sample_message HttpStream_new sample_trace
    [ztake 9 (encoded sample_message); zdrop 9 (encoded sample_message) ++ [71]] [71]) as (s' & t & cs & H1 & _ & H2).
  - apply sample_encodable.
  - apply default_roomy.
  - apply delivers_piece; [vm_compute; reflexivity|].
    apply delivers_wait; [exists EAGAIN; by split|]. apply delivers_wait; [exists EINTR; by split|].
    apply delivers_piece; [vm_compute; reflexivity|]. apply delivers_nil.
  - vm_compute. reflexivity.
  - vm_compute. discriminate.
  - exists s', t, cs. split; [exact H1|exact H2].
Defined.

(** C21: from end to end: a message written by one stream, with any answers of
    its kernel that have room for it and no failure, and read by another in any
    non-empty pieces with any waiting that does not time out between them,
    over TCP or TLS on either side (where a piece above the free space is read
    in several rounds), arrives, less the last header, which the decoder
    drops, and the writer's buffer is empty again.  The message has to be
    [encodable] (at least one header, no carriage return in a line, keys
    without a colon, keys and values trimmed, keys sorted, a Content-Length
    that matches the body and is not in the last header, or none and no body)
    and at most 2^30 - 8 bytes long; both buffers are empty at the start, and
    the reader's has 1024 free bytes when it reads over TLS. *)
Theorem http_transfer m w r wtrace rtrace cs :
  encodable m → zlen (encoded m) <= max_content →
  buf_wf (write_buf_ w) → content (write_buf_ w) = [] →
  Forall (λ a, ¬ refused (tls_stream_ w) a) wtrace → zlen (encoded m) <= total_room wtrace →
  roomy (tls_stream_ r) (read_buf_ r) → content (read_buf_ r) = [] → delivers true rtrace cs →
  concat cs = encoded m →
  ∃ w' r' rtrace', http_AsyncWrite wtrace m w = Ret (w', 0, concat cs) ∧ content (write_buf_ w') = [] ∧
    AsyncRead rtrace HttpMessage_new r = Ret (received m, r', zlen (encoded m), false, rtrace') ∧
    content (read_buf_ r') = [].
Proof.
  intros Hm Hfit Hw Hwc Hok Hroom Hr Hrc Hd E.
  destruct (http_AsyncWrite_ok m wtrace w Hw Hwc Hfit Hok Hroom) as (wb & Hwrite & _ & Hwe).
  destruct (read_loop_pieces m Hm _ cs (S (budget rtrace)) rtrace (read_buf_ r) [] Hd Hr ltac:(lia))
    as (b' & rtrace' & cs' & Hread & _ & _ & Hrest); [by rewrite Hrc, E, app_nil_r|change (zlen []) with 0; lia|].
  apply app_nil in Hrest as [Hrest _].
  unfold AsyncRead. rewrite Hread. cbn [mbind result_bind]. rewrite E. by eexists _, _, rtrace'.
Qed.

Lemma http_transfer_witness :
  ∃ w' r' t, http_AsyncWrite [WriteOk 20 0; WriteErr EAGAIN; WriteOk 100 0] sample_message HttpStream_new =
      Ret (w', 0, concat [encoded sample_message]) ∧ content (write_buf_ w') = [] ∧
    AsyncRead [mk_attempt (IoOk (encoded sample_message)) false] HttpMessage_new HttpStream_new =
      Ret (received sample_message, r', zlen (encoded sample_message), false, t) ∧ content (read_buf_ r') = [].
Proof.
  apply (http_transfer sample_message HttpStream_new HttpStream_new).
  - apply sample_encodable.
  - vm_compute. discriminate.
  - apply (default_roomy false).
  - reflexivity.
  - repeat constructor; cbn; unfold hard, EAGAIN; lia.
  - vm_compute. discriminate.
  - apply default_roomy.
  - reflexivity.
  - apply delivers_piece; [vm_compute; reflexivity|]. apply delivers_nil.
  - vm_compute. reflexivity.
Defined.
