(* ===== verification/HttpHello.v ===== *)
(** * The hello servers: http/example/{http_hello,https_hello}.cc

    A connection that logs every request and answers it with the same message,
    over TCP or, after a handshake, over TLS.  The theorem: whatever pieces the requests
    arrive in, pipelined or not, every request gets one response, in order,
    until the peer closes. *)

From Stdlib Require Import ZArith Lia Bool.
From stdpp Require Import base numbers list strings.
From S2P Require Import Prelude Types StringPiece Buffer LogStream Logger InetAddress Stream Http HttpCodec HttpStream.

Definition hello_response : HttpMessage :=
  let rsp_line_string := MakeResponseLine (mk_response_line kHttp11 k200 kOK) in
  let rsp := HttpMessage_new in
  let rsp := set_response_line (StringPiece_string rsp_line_string) rsp in
  let rsp := set_headers (lit (bytes_of "Content-Type")) (lit (bytes_of "text/plain; charset=utf-8")) rsp in
  let rsp := set_headers (lit (bytes_of "Content-Length")) (lit (bytes_of "5")) rsp in
  set_body (lit (bytes_of "hello")) rsp.

(** The lines about a request. *)
Fixpoint log_heads (lc : LogCtx) (headers : smap) : result unit :=
  match headers with
  | [] => Ret tt
  | head :: headers =>
      _ ← LOG_INFO lc [cstr (bytes_of "header: {"); Str head.1; cstr (bytes_of ":"); Str head.2; cstr (bytes_of "}")];
      log_heads lc headers
  end.
Definition log_request (lc : LogCtx) (req : HttpMessage) : result unit :=
  _ ← LOG_INFO lc [Str (first_line_ req)];
  _ ← log_heads lc (headers_ req);
  LOG_INFO lc [cstr (bytes_of "body: "); Str (body_ req)].

(** [while (1)]: [writes] has the answers of each [AsyncWrite]. *)
Fixpoint hello_loop (lc : LogCtx) (writes : list (list write_result)) (reads : list (attempt io_result)) (stream : HttpStream)
    (wire : list Z) : result (list Z) :=
  '(req, stream, rn, timeout, reads) ← AsyncRead reads HttpMessage_new stream;
  if (timeout : bool) then Ret wire
  else if bool_decide (rn <= 0) then Ret wire
  else
    _ ← request_line req;
    _ ← log_request lc req;
    match writes with
    | [] => OutOfFuel
    | w :: writes =>
        '(stream, wn, sent) ← http_AsyncWrite w hello_response stream;
        if bool_decide (wn < 0) then Ret (wire ++ sent) else hello_loop lc writes reads stream (wire ++ sent)
    end.
Definition HttpConnection (lc : LogCtx) (writes : list (list write_result)) (reads : list (attempt io_result)) (stream : HttpStream)
    : result (list Z) := hello_loop lc writes reads stream [].
Definition HttpsConnection (lc : LogCtx) (ctx ssl : bool) (handshake : list handshake_result) (writes : list (list write_result))
    (reads : list (attempt io_result)) (stream : HttpStream) : result (list Z) :=
  '(stream, err) ← UpgradeHttps ctx ssl handshake stream;
  if bool_decide (err < 0) then Ret [] else hello_loop lc writes reads stream [].

(** ** Every request is answered *)
Lemma fill_end tls trace t rest buf :
  delivers true trace [] → buf_wf buf → zlen (content buf) <= max_content →
  ∃ buf', fill tls (trace ++ mk_attempt (IoOk []) t :: rest) buf = Ret (buf', 0, false, rest).
Proof.
  intros Hd Hb Hfit. unfold fill. destruct tls.
  - apply delivers_done in Hd. unfold tls_AsyncRead_ms. rewrite retry_waits_mem by done.
    destruct (stored_behind buf [] Hb) as (mem & E & _); [change (zlen []) with 0; buf_unfold; lia|].
    assert (Hw : 0 <= writable_bytes buf) by (buf_unfold; lia).
    assert (E0 : ztake (writable_bytes buf) [] = @nil Z) by (unfold ztake; apply take_nil).
    rewrite (retry_read_done _ _ _ _ _ _ _ mem); [|done|by rewrite E0].
    cbn [mbind result_bind orb]. rewrite E0. unfold left_over. cbn [answer].
    rewrite (bool_decide_false (_ < zlen [])) by (change (zlen []) with 0; lia). by eexists.
  - destruct (tcp_read_end true trace t rest buf Hd Hb Hfit) as (buf' & E & _). eauto.
Qed.

Lemma no_pieces limited trace cs : delivers limited trace cs → concat cs = [] → cs = [].
Proof.
  destruct cs as [|c cs]; [done|]. intros (_ & _ & _ & _ & _ & Hc & _)%delivers_cons [-> _]%app_nil. by vm_compute in Hc.
Qed.

(** ** The lines fit *)
Lemma encoded_header m h : h ∈ headers_ m → zlen h.1 + zlen h.2 <= zlen (encoded m).
Proof.
  intros Hin. rewrite encoded_parts, !zlen_app. pose proof (zlen_nonneg (first_line_ m)). pose proof (zlen_nonneg (body_ m)).
  change (zlen CRLF) with 2. apply list_elem_of_split in Hin as (h1 & h2 & ->). rewrite bind_app, bind_cons, !zlen_app.
  set (a := zlen (mbind _ h1)). set (b := zlen (mbind _ h2)). assert (0 <= a ∧ 0 <= b) by (split; apply zlen_nonneg).
  unfold line_of. rewrite !zlen_app. change (zlen CRLF) with 2. change (zlen [58; 32]) with 2. lia.
Qed.
Lemma log_request_ok lc m : lc_ok lc → zlen (encoded m) <= 62000 → log_request lc (received m) = Ret tt.
Proof.
  intros Hlc Hm. assert (Hparts : zlen (first_line_ m) + zlen (body_ m) <= zlen (encoded m)).
  { rewrite encoded_parts, !zlen_app. change (zlen CRLF) with 2. pose proof (zlen_nonneg (mbind (M := list) (λ h, line_of h ++ CRLF) (headers_ m))). lia. }
  pose proof (zlen_nonneg (first_line_ m)). pose proof (zlen_nonneg (body_ m)).
  assert (Hh : Forall (λ h, zlen h.1 + zlen h.2 <= 62000) (removelast (headers_ m))).
  { apply Forall_forall. intros h Hin. etrans; [apply (encoded_header m)|done].
    destruct (headers_ m) as [|x l _] using rev_ind; [done|]. rewrite removelast_last in Hin. apply elem_of_app. by left. }
  unfold log_request, received. cbn [first_line_ headers_ body_].
  assert (Hfit : ∀ its, Forall item_wf its → zlen (texts its) <= max_log → LOG_INFO lc its = Ret tt)
    by (intros; by apply LOG_INFO_ok).
  assert (L1 : LOG_INFO lc [Str (first_line_ m)] = Ret tt).
  { apply Hfit; [by repeat constructor|]. unfold texts, max_log. cbn [fmap list_fmap concat item_text]. rewrite app_nil_r. lia. }
  assert (L2 : log_heads lc (removelast (headers_ m)) = Ret tt).
  { induction Hh as [|h hs Hh _ IH]; [done|]. cbn [log_heads]. rewrite (bind_Ret_step _ _ tt); [exact IH|].
    apply Hfit; [by repeat constructor|]. unfold texts, max_log. cbn [fmap list_fmap concat]. rewrite !zlen_app, zlen_nil.
    change (zlen (item_text (cstr (bytes_of "header: {")))) with 9. change (zlen (item_text (cstr (bytes_of ":")))) with 1.
    change (zlen (item_text (cstr (bytes_of "}")))) with 1. cbn [item_text]. lia. }
  rewrite (bind_Ret_step _ _ _ L1), (bind_Ret_step _ _ _ L2).
  apply Hfit; [by repeat constructor|]. unfold texts, max_log. cbn [fmap list_fmap concat].
  rewrite !zlen_app, zlen_nil. change (zlen (item_text (cstr (bytes_of "body: ")))) with 6. cbn [item_text]. lia.
Qed.

Section hello.
Context (lc : LogCtx) (Hlc : lc_ok lc) (t : bool) (rest : list (attempt io_result)).
Local Notation fin := (mk_attempt (IoOk []) t :: rest).

(** The peer has closed and nothing is buffered. *)
Lemma hello_end writes reads s wire :
  delivers true reads [] → buf_wf (read_buf_ s) → content (read_buf_ s) = [] →
  hello_loop lc writes (reads ++ fin) s wire = Ret wire.
Proof using.
  intros Hd Hb Hc.
  destruct (fill_end (tls_stream_ s) reads t rest (read_buf_ s) Hd Hb) as (buf' & E); [by rewrite Hc|].
  assert (Hr : AsyncRead (reads ++ fin) HttpMessage_new s =
    Ret (HttpMessage_new, mk_stream buf' (write_buf_ s) (tls_stream_ s), 0, false, rest)).
  { unfold AsyncRead. cbn [read_loop].
    rewrite (Decode_incomplete sample_message sample_encodable HttpMessage_new (read_buf_ s) 0);
      [|done|by rewrite Hc|by pose proof (encoded_pos sample_message)].
    cbn [mbind result_bind]. rewrite (bool_decide_false (0 < 0)), (bool_decide_true (0 = 0)) by lia.
    by rewrite (bind_Ret_step _ _ _ E). }
  destruct writes; cbn [hello_loop]; by rewrite (bind_Ret_step _ _ _ Hr).
Qed.

Lemma hello_all ms writes reads cs s wire :
  Forall (λ m, encodable m ∧ zlen (encoded m) <= 62000) ms → roomy (tls_stream_ s) (read_buf_ s) →
  buf_wf (write_buf_ s) → content (write_buf_ s) = [] →
  delivers true reads cs → content (read_buf_ s) ++ concat cs = concat (encoded <$> ms) →
  zlen (concat (encoded <$> ms)) <= max_content →
  Forall2 (λ w _, Forall (λ a, ¬ refused (tls_stream_ s) a) w ∧ zlen (encoded hello_response) <= total_room w) writes ms →
  hello_loop lc writes (reads ++ fin) s wire = Ret (wire ++ concat (replicate (length ms) (encoded hello_response))).
Proof using Hlc.
  intros Hms. revert writes reads cs s wire.
  induction Hms as [|m ms [Hm Hsmall] Hms IH]; intros writes reads cs s wire Hr Hw Hwc Hd E Hfit H2.
  - apply app_nil in E as [Hc E]. apply (no_pieces _ _ _ Hd) in E as ->.
    rewrite hello_end by (done || apply Hr). cbn. by rewrite app_nil_r.
  - inversion H2 as [|w ? writes' ? [Hok Hroom] H2']; subst. cbn [fmap list_fmap concat] in E, Hfit. rewrite zlen_app in Hfit.
    destruct (read_loop_then m Hm (tls_stream_ s) cs (S (budget (reads ++ fin))) reads fin (read_buf_ s)
                (concat (encoded <$> ms)) Hd Hr) as (b' & reads' & cs' & Er & Hd' & Hr' & E');
      [rewrite budget_app; lia|done|done|].
    assert (Ha : AsyncRead (reads ++ fin) HttpMessage_new s =
      Ret (received m, mk_stream b' (write_buf_ s) (tls_stream_ s), zlen (encoded m), false, reads' ++ fin)).
    { unfold AsyncRead. by rewrite (bind_Ret_step _ _ _ Er). }
    cbn [hello_loop]. rewrite (bind_Ret_step _ _ _ Ha). cbv beta iota. pose proof (encoded_pos m).
    rewrite bool_decide_false by lia. rewrite request_line_correct. cbn [mbind result_bind].
    rewrite log_request_ok by done. cbn [mbind result_bind].
    destruct (http_AsyncWrite_ok hello_response w (mk_stream b' (write_buf_ s) (tls_stream_ s)) Hw Hwc) as (wb & Ew & Hwb & Hwe);
      [by vm_compute|done|done|].
    rewrite (bind_Ret_step _ _ _ Ew). cbv beta iota. rewrite bool_decide_false by lia.
    rewrite (IH writes' reads' cs') by (done || lia). cbn [length replicate concat]. by rewrite app_assoc.
Qed.
End hello.

(** C22: over TCP and over TLS, however the bytes of a sequence of requests are
    cut into non-empty reads, whether they come one by one or pipelined, a
    hello connection answers each of them with the same response, in order,
    and ends when the peer closes.  Each request is [encodable] (at least one
    header, no carriage return in a line, keys without a colon, keys and values
    trimmed, keys sorted, a Content-Length that matches the body and is not in
    the last header, or none and no body) and at most 62000 bytes long, so that
    the log lines of its first line, headers and body fit their array; the
    requests together are at most 2^30 - 8 bytes; no read times out and no
    write fails; the log has any level and state and a clock between 1970 and
    the year 10000. *)
Theorem hello_pipelined lc tls ms writes reads cs t rest :
  lc_ok lc → Forall (λ m, encodable m ∧ zlen (encoded m) <= 62000) ms →
  delivers true reads cs → concat cs = concat (encoded <$> ms) → zlen (concat cs) <= max_content →
  Forall2 (λ w _, Forall (λ a, ¬ refused tls a) w ∧ zlen (encoded hello_response) <= total_room w) writes ms →
  let s := mk_stream default_buffer default_buffer tls in
  hello_loop lc writes (reads ++ mk_attempt (IoOk []) t :: rest) s [] =
    Ret (concat (replicate (length ms) (encoded hello_response))).
Proof.
  intros Hlc Hms Hd E Hfit H2 s. rewrite E in Hfit.
  apply (hello_all lc Hlc t rest ms writes reads cs s []);
    [done|apply default_roomy|exact default_buffer_wf|exact default_buffer_content|done|exact E|done|done].
Qed.

Lemma hello_pipelined_witness :
  hello_loop sample_ctx [[WriteOk 1000 0]; [WriteOk 10 0; WriteErr EAGAIN; WriteOk 1000 0]]
    [mk_attempt (IoOk (encoded sample_message ++ ztake 5 (encoded sample_message))) false;
     mk_attempt (IoErr EAGAIN) false;
     mk_attempt (IoOk (zdrop 5 (encoded sample_message))) false; mk_attempt (IoOk []) false]
    (mk_stream default_buffer default_buffer true) [] =
  Ret (encoded hello_response ++ encoded hello_response).
Proof.
  refine (hello_pipelined sample_ctx true [sample_message; sample_message] _
    [mk_attempt (IoOk (encoded sample_message ++ ztake 5 (encoded sample_message))) false;
     mk_attempt (IoErr EAGAIN) false;
     mk_attempt (IoOk (zdrop 5 (encoded sample_message))) false]
    [encoded sample_message ++ ztake 5 (encoded sample_message); zdrop 5 (encoded sample_message)] false [] sample_ctx_ok _ _ _ _ _).
  - repeat (constructor; [split; [apply sample_encodable|vm_compute; discriminate]|]). constructor.
  - apply delivers_piece; [vm_compute; reflexivity|].
    apply delivers_wait; [exists EAGAIN; by split|].
    apply delivers_piece; [vm_compute; reflexivity|]. constructor.
  - vm_compute. reflexivity.
  - vm_compute. discriminate.
  - repeat apply Forall2_cons_2; [..|apply Forall2_nil_2];
      (split; [rewrite !Forall_cons; unfold refused, hard, EAGAIN, EINTR; split_and!; try lia; by apply Forall_nil
              |vm_compute; discriminate]).
Defined.
