(* ===== verification/Dtls.v ===== *)
(** * The DTLS transport: webrtc/dtls/dtls_transport.{h,cc}

    The handshake itself is OpenSSL's: the [SSL] object with its two memory
    BIOs is a parameter, as the record of the calls the transport makes.  A
    call that runs the handshake reports the info callbacks it raised, which
    the transport handles in [OnSslInfo].  What is sent to the peer connection
    is collected in [dt_sent], and the timer is its armed delay.

    [UpdateTimeout] and [HandleTimeout] call each other, so they carry fuel;
    four calls are enough when a retransmission re-arms OpenSSL's timer. *)

From Stdlib Require Import ZArith Lia Bool.
From stdpp Require Import base numbers relations list.
From S2P Require Import Prelude Types StringPiece.

Definition IsDtls (packet : StringPiece) : result bool :=
  and_then (bool_decide (sp_size packet >= 13))
    (d0 ← sp_index packet 0; Ret (bool_decide (d0 > 19) && bool_decide (d0 < 64))).

(** The retransmission back-off given to OpenSSL: 100 ms doubled up to 10 s. *)
Definition OnSslDtlsTimer (timer_us : Z) : Z :=
  if bool_decide (timer_us = 0) then 100000
  else if bool_decide (timer_us >= 10000000) then 10000000
  else u32 (2 * timer_us).

Inductive DtlsState : Type := NEW | CONNECTING | CONNECTED | FAILED | CLOSED.
#[global] Instance DtlsState_eq_dec : EqDecision DtlsState.
Proof. solve_decision. Defined.
Inductive Role : Type := CLIENT | SERVER.
#[global] Instance Role_eq_dec : EqDecision Role.
Proof. solve_decision. Defined.

(** Constants of the OpenSSL headers. *)
Definition SSL_CB_LOOP : Z := 0x01.
Definition SSL_CB_EXIT : Z := 0x02.
Definition SSL_CB_HANDSHAKE_START : Z := 0x10.
Definition SSL_CB_HANDSHAKE_DONE : Z := 0x20.
Definition SSL_CB_ALERT : Z := 0x4000.
Definition SSL_ERROR_SSL : Z := 1.
Definition SSL_ERROR_SYSCALL : Z := 5.
Definition SSL_RECEIVED_SHUTDOWN : Z := 2.

(** The calls on an SSL object; [list Z] of a handshake call are the [where]
    codes of the info callbacks it raised, in order. *)
Record OpenSSL (SSL : Type) : Type := mk_openssl {
  SSL_set_connect_state : SSL → SSL;
  SSL_set_accept_state : SSL → SSL;
  SSL_do_handshake : SSL → SSL * list Z;
  BIO_write : SSL → list Z → SSL;
  SSL_read : SSL → SSL * Z * list Z;
  SSL_get_error : SSL → Z → Z;
  SSL_get_shutdown : SSL → Z;
  BIO_get_mem_data : SSL → list Z;
  BIO_reset : SSL → SSL;
  DTLSv1_get_timeout : SSL → Z * Z;
  DTLSv1_handle_timeout : SSL → SSL * Z * list Z;
  SSL_get_selected_srtp_profile : SSL → option (list Z);
  SSL_export_keying_material : SSL → Z → option (list Z);
}.
Arguments SSL_set_connect_state {SSL} o s.
Arguments SSL_set_accept_state {SSL} o s.
Arguments SSL_do_handshake {SSL} o s.
Arguments BIO_write {SSL} o s data.
Arguments SSL_read {SSL} o s.
Arguments SSL_get_error {SSL} o s ret.
Arguments SSL_get_shutdown {SSL} o s.
Arguments BIO_get_mem_data {SSL} o s.
Arguments BIO_reset {SSL} o s.
Arguments DTLSv1_get_timeout {SSL} o s.
Arguments DTLSv1_handle_timeout {SSL} o s.
Arguments SSL_get_selected_srtp_profile {SSL} o s.
Arguments SSL_export_keying_material {SSL} o s n.

(** "SRTP_AEAD_AES_128_GCM" and "SRTP_AES128_CM_SHA1_80" *)
Definition SRTP_AEAD_AES_128_GCM : list Z :=
  [83; 82; 84; 80; 95; 65; 69; 65; 68; 95; 65; 69; 83; 95; 49; 50; 56; 95; 71; 67; 77].
Definition SRTP_AES128_CM_SHA1_80 : list Z :=
  [83; 82; 84; 80; 95; 65; 69; 83; 49; 50; 56; 95; 67; 77; 95; 83; 72; 65; 49; 95; 56; 48].

Section transport.
Context {SSL : Type} (o : OpenSSL SSL).

Record DtlsTransport : Type := mk_dtls {
  ssl_ : SSL;
  state_ : DtlsState;
  role_ : Role;
  HandshakeDone_ : bool;
  ExtractSrtpKey_ : bool;
  use_srtp_ : list Z;
  srtp_local_master_ : list Z;
  srtp_remote_master_ : list Z;
  srtp_master_len_ : Z;
  timer_ : option Z;
  dt_sent : list (list Z);
}.

(** The constructed transport; its role is not initialised. *)
Definition DtlsTransport_new (s : SSL) (role : Role) : DtlsTransport :=
  mk_dtls s NEW role false false [] (replicate 64 0) (replicate 64 0) 0 None [].

Definition with_ssl (s : SSL) (d : DtlsTransport) : DtlsTransport :=
  mk_dtls s (state_ d) (role_ d) (HandshakeDone_ d) (ExtractSrtpKey_ d) (use_srtp_ d)
    (srtp_local_master_ d) (srtp_remote_master_ d) (srtp_master_len_ d) (timer_ d) (dt_sent d).
Definition with_state (st : DtlsState) (d : DtlsTransport) : DtlsTransport :=
  mk_dtls (ssl_ d) st (role_ d) (HandshakeDone_ d) (ExtractSrtpKey_ d) (use_srtp_ d)
    (srtp_local_master_ d) (srtp_remote_master_ d) (srtp_master_len_ d) (timer_ d) (dt_sent d).
Definition with_timer (t : option Z) (d : DtlsTransport) : DtlsTransport :=
  mk_dtls (ssl_ d) (state_ d) (role_ d) (HandshakeDone_ d) (ExtractSrtpKey_ d) (use_srtp_ d)
    (srtp_local_master_ d) (srtp_remote_master_ d) (srtp_master_len_ d) t (dt_sent d).

Definition is_running (d : DtlsTransport) : bool :=
  match state_ d with
  | NEW => false
  | CONNECTING | CONNECTED => true
  | FAILED | CLOSED => false
  end.
Definition is_connected (d : DtlsTransport) : bool := bool_decide (state_ d = CONNECTED).
Definition srtp_local_master (d : DtlsTransport) : StringPiece :=
  StringPiece_len (srtp_local_master_ d) 0 (srtp_master_len_ d).
Definition srtp_remote_master (d : DtlsTransport) : StringPiece :=
  StringPiece_len (srtp_remote_master_ d) 0 (srtp_master_len_ d).

(** Only the last branch changes the object; the others are logging. *)
Definition OnSslInfo (d : DtlsTransport) (where_ : Z) : DtlsTransport :=
  if bool_decide (Z.land where_ SSL_CB_LOOP ≠ 0) then d
  else if bool_decide (Z.land where_ SSL_CB_ALERT ≠ 0) then d
  else if bool_decide (Z.land where_ SSL_CB_EXIT ≠ 0) then d
  else if bool_decide (Z.land where_ SSL_CB_HANDSHAKE_START ≠ 0) then d
  else if bool_decide (Z.land where_ SSL_CB_HANDSHAKE_DONE ≠ 0) then
    mk_dtls (ssl_ d) (state_ d) (role_ d) true (ExtractSrtpKey_ d) (use_srtp_ d)
      (srtp_local_master_ d) (srtp_remote_master_ d) (srtp_master_len_ d) (timer_ d) (dt_sent d)
  else d.
Definition callbacks (d : DtlsTransport) (ws : list Z) : DtlsTransport := foldl OnSslInfo d ws.

Definition SendBioData (d : DtlsTransport) : DtlsTransport :=
  let data := BIO_get_mem_data o (ssl_ d) in
  if bool_decide (zlen data <= 0) then d
  else
    mk_dtls (BIO_reset o (ssl_ d)) (state_ d) (role_ d) (HandshakeDone_ d) (ExtractSrtpKey_ d)
      (use_srtp_ d) (srtp_local_master_ d) (srtp_remote_master_ d) (srtp_master_len_ d) (timer_ d)
      (dt_sent d ++ [data]).

Definition timeout_ms (s : SSL) : Z :=
  let '(tv_sec, tv_usec) := DTLSv1_get_timeout o s in u64 (tv_sec * 1000 + Z.quot tv_usec 1000).

(** [HandleTimeout] always returns [kTimerStop]. *)
Fixpoint UpdateTimeout (fuel : nat) (d : DtlsTransport) : result (DtlsTransport * bool) :=
  match fuel with
  | O => OutOfFuel
  | S fuel =>
      if HandshakeDone_ d then Ret (d, true)
      else
        let ms := timeout_ms (ssl_ d) in
        if bool_decide (ms = 0) then d ← HandleTimeout fuel d; Ret (d, true)
        else if bool_decide (ms < 5000) then Ret (with_timer (Some ms) d, true)
        else Ret (with_state FAILED d, false)
  end
with HandleTimeout (fuel : nat) (d : DtlsTransport) : result DtlsTransport :=
  match fuel with
  | O => OutOfFuel
  | S fuel =>
      if HandshakeDone_ d then Ret d
      else
        let '(s, ret, ws) := DTLSv1_handle_timeout o (ssl_ d) in
        let d := callbacks (with_ssl s d) ws in
        if bool_decide (ret = 1) then
          '(d, _) ← UpdateTimeout fuel (SendBioData d);
          Ret d
        else if bool_decide (ret = -1) then Ret (with_state FAILED d)
        else Ret d
  end.

Definition Initialize (fuel : nat) (role : Role) (d : DtlsTransport) : result DtlsTransport :=
  let d := mk_dtls (ssl_ d) CONNECTING role (HandshakeDone_ d) (ExtractSrtpKey_ d) (use_srtp_ d)
    (srtp_local_master_ d) (srtp_remote_master_ d) (srtp_master_len_ d) (timer_ d) (dt_sent d) in
  match role with
  | CLIENT =>
      let '(s, ws) := SSL_do_handshake o (SSL_set_connect_state o (ssl_ d)) in
      '(d, _) ← UpdateTimeout fuel (SendBioData (callbacks (with_ssl s d) ws));
      Ret d
  | SERVER =>
      let '(s, ws) := SSL_do_handshake o (SSL_set_accept_state o (ssl_ d)) in
      Ret (callbacks (with_ssl s d) ws)
  end.

(** [memcpy] of [n] bytes into a fixed array. *)
Definition memcpy_at (dst : list Z) (p : Z) (src : list Z) (q n : Z) : result (list Z) :=
  if bool_decide (0 <= q ∧ q + n <= zlen src) then store dst p (ztake n (zdrop q src))
  else Fault OutOfBounds.

(** Offsets into the exported material: the client's key and salt come
    first (RFC 5764, section 4.2). *)
Definition key_offsets (role : Role) (key_len salt_len : Z) : Z * Z * Z * Z :=
  match role with
  | SERVER =>
      let remote_key := 0 in
      let local_key := remote_key + key_len in
      let remote_salt := local_key + key_len in
      let local_salt := remote_salt + salt_len in
      (local_key, local_salt, remote_key, remote_salt)
  | CLIENT =>
      let local_key := 0 in
      let remote_key := local_key + key_len in
      let local_salt := remote_key + key_len in
      let remote_salt := local_salt + salt_len in
      (local_key, local_salt, remote_key, remote_salt)
  end.

(** The profile's key and salt lengths. *)
Definition profile_lengths (name : list Z) : option (Z * Z) :=
  if bool_decide (name = SRTP_AEAD_AES_128_GCM) then Some (16, 12)
  else if bool_decide (name = SRTP_AES128_CM_SHA1_80) then Some (16, 14)
  else None.

Definition ExtractSrtpKey (d : DtlsTransport) : result (DtlsTransport * bool) :=
  match SSL_get_selected_srtp_profile o (ssl_ d) with
  | None => Ret (d, false)
  | Some name =>
      let named n := mk_dtls (ssl_ d) (state_ d) (role_ d) (HandshakeDone_ d) (ExtractSrtpKey_ d)
        name (srtp_local_master_ d) (srtp_remote_master_ d) n (timer_ d) (dt_sent d) in
      match profile_lengths name with
      | None => Ret (named (srtp_master_len_ d), false)
      | Some (key_len, salt_len) =>
          let d := named (key_len + salt_len) in
          match SSL_export_keying_material o (ssl_ d) (srtp_master_len_ d * 2) with
          | None => Ret (d, false)
          | Some exported =>
              material ← store (replicate 64 0) 0 exported;
              let '(lk, ls, rk, rs) := key_offsets (role_ d) key_len salt_len in
              local ← memcpy_at (srtp_local_master_ d) 0 material lk key_len;
              local ← memcpy_at local key_len material ls salt_len;
              remote ← memcpy_at (srtp_remote_master_ d) 0 material rk key_len;
              remote ← memcpy_at remote key_len material rs salt_len;
              Ret (mk_dtls (ssl_ d) CONNECTED (role_ d) (HandshakeDone_ d) (ExtractSrtpKey_ d)
                     (use_srtp_ d) local remote (srtp_master_len_ d) (timer_ d) (dt_sent d), true)
          end
      end
  end.

Definition CheckStatus (ret : Z) (d : DtlsTransport) : result (DtlsTransport * bool) :=
  let err := SSL_get_error o (ssl_ d) ret in
  if HandshakeDone_ d && negb (ExtractSrtpKey_ d) then
    let d := mk_dtls (ssl_ d) (state_ d) (role_ d) (HandshakeDone_ d) true (use_srtp_ d)
      (srtp_local_master_ d) (srtp_remote_master_ d) (srtp_master_len_ d) None (dt_sent d) in
    ExtractSrtpKey d
  else if bool_decide (Z.land (SSL_get_shutdown o (ssl_ d)) SSL_RECEIVED_SHUTDOWN ≠ 0) ||
          bool_decide (err = SSL_ERROR_SSL) || bool_decide (err = SSL_ERROR_SYSCALL) then
    Ret (with_state (if bool_decide (state_ d = CONNECTED) then CLOSED else FAILED) d, false)
  else Ret (d, true).

Definition ProcessDtlsPacket (fuel : nat) (packet : StringPiece) (d : DtlsTransport)
    : result DtlsTransport :=
  if negb (is_running d) then Ret d
  else
    let s := BIO_write o (ssl_ d) (AsString packet) in
    let '(s, read, ws) := SSL_read o s in
    let d := SendBioData (callbacks (with_ssl s d) ws) in
    '(d, ok) ← CheckStatus read d;
    if negb ok then Ret d
    else '(d, _) ← UpdateTimeout fuel d; Ret d.
End transport.

Arguments DtlsTransport : clear implicits.

(** ** What OpenSSL documents *)
Record openssl_ok {SSL} (o : OpenSSL SSL) : Prop := {
  (** [SSL_export_keying_material] fills the requested length. *)
  export_length : ∀ s n m, SSL_export_keying_material o s n = Some m → zlen m = n;
  (** A retransmission re-arms the timer with what [OnSslDtlsTimer] gives,
      which is at least 100 ms. *)
  timeout_rearmed : ∀ s s' ws, DTLSv1_handle_timeout o s = (s', 1, ws) →
    timeout_ms o s' ≠ 0 ∧ timeout_ms o (BIO_reset o s') ≠ 0;
}.

(** ** Master keys *)
(** The master of one side: its key followed by its salt. *)
Definition master (m : list Z) (key salt key_len salt_len : Z) : list Z :=
  ztake key_len (zdrop key m) ++ ztake salt_len (zdrop salt m).

Lemma store_prefix (dst v : list Z) :
  zlen v <= zlen dst → store dst 0 v = Ret (v ++ zdrop (zlen v) dst).
Proof. intros. unfold store. rewrite bool_decide_true by (pose proof (zlen_nonneg v); lia). done. Qed.

Lemma memcpy_at_ok (dst pre post src : list Z) p q n :
  0 <= q → 0 <= n → q + n <= zlen src → zlen pre = p → dst = pre ++ post → n <= zlen post →
  memcpy_at dst p src q n = Ret (pre ++ ztake n (zdrop q src) ++ zdrop n post).
Proof.
  intros Hq Hn Hsrc Hp -> Hpost. unfold memcpy_at, store. rewrite bool_decide_true by lia.
  assert (E : zlen (ztake n (zdrop q src)) = n) by (apply block_length; lia).
  rewrite E, zlen_app. pose proof (zlen_nonneg pre).
  rewrite bool_decide_true by lia.
  rewrite ztake_app_all, zdrop_app_ge by lia. do 4 f_equal. lia.
Qed.

Section masters.
Context {SSL : Type} (o : OpenSSL SSL) (Ho : openssl_ok o).
Implicit Types d : DtlsTransport SSL.

Definition arrays_ok d : Prop := zlen (srtp_local_master_ d) = 64 ∧ zlen (srtp_remote_master_ d) = 64.

Lemma profile_lengths_range name k sl :
  profile_lengths name = Some (k, sl) → k = 16 ∧ (sl = 12 ∨ sl = 14).
Proof. unfold profile_lengths. bool_cases; naive_solver. Qed.

Lemma copy_master (dst material m : list Z) key salt k sl :
  zlen dst = 64 → k = 16 → sl = 12 ∨ sl = 14 → zlen m = 2 * (k + sl) →
  material = m ++ zdrop (zlen m) (replicate 64 0) →
  0 <= key → key + k <= zlen m → 0 <= salt → salt + sl <= zlen m →
  ∃ res, (x ← memcpy_at dst 0 material key k; memcpy_at x k material salt sl) = Ret res ∧
    zlen res = 64 ∧ ztake (k + sl) res = master m key salt k sl.
Proof.
  intros Hd Hk Hsl Hm -> Hk0 Hkm Hs0 Hsm.
  assert (Hz : zlen (m ++ zdrop (zlen m) (replicate 64 0)) = 64).
  { rewrite zlen_app, zlen_zdrop; [unfold zlen at 2; rewrite length_replicate; lia|].
    split; [apply zlen_nonneg|]. unfold zlen at 2. rewrite length_replicate. lia. }
  rewrite (memcpy_at_ok dst [] dst) by (done || lia). cbn [mbind result_bind app].
  set (a := ztake k (zdrop key (m ++ _))).
  assert (Ha : zlen a = k) by (apply block_length; lia).
  rewrite (memcpy_at_ok _ a (zdrop k dst)) by (done || rewrite ?zlen_zdrop; lia).
  eexists. split; [reflexivity|].
  set (b := ztake sl (zdrop salt (m ++ _))).
  assert (Hb : zlen b = sl) by (apply block_length; lia).
  split.
  - rewrite !zlen_app, Ha, Hb, !zlen_zdrop by (rewrite ?zlen_zdrop; lia). lia.
  - rewrite app_assoc, ztake_app_all by (rewrite zlen_app; lia). unfold master, a, b.
    rewrite !zdrop_app_le by lia. rewrite !ztake_app_le by (rewrite zlen_zdrop; lia). done.
Qed.

(** With a known profile and exported material the transport connects and
    its masters are the two sides' keys and salts. *)
Lemma ExtractSrtpKey_ok d name k sl m :
  arrays_ok d → SSL_get_selected_srtp_profile o (ssl_ d) = Some name →
  profile_lengths name = Some (k, sl) →
  SSL_export_keying_material o (ssl_ d) ((k + sl) * 2) = Some m →
  ∃ d', ExtractSrtpKey o d = Ret (d', true) ∧ state_ d' = CONNECTED ∧ arrays_ok d' ∧
    use_srtp_ d' = name ∧ srtp_master_len_ d' = k + sl ∧
    HandshakeDone_ d' = HandshakeDone_ d ∧ ExtractSrtpKey_ d' = ExtractSrtpKey_ d ∧
    let '(lk, ls, rk, rs) := key_offsets (role_ d) k sl in
    AsString (srtp_local_master d') = master m lk ls k sl ∧
    AsString (srtp_remote_master d') = master m rk rs k sl.
Proof using Ho.
  intros [Hl Hr] Hp Hpl Hx. pose proof (export_length o Ho _ _ _ Hx) as Hm.
  destruct (profile_lengths_range _ _ _ Hpl) as [Hk Hsl].
  unfold ExtractSrtpKey. rewrite Hp, Hpl. cbn [ssl_ srtp_master_len_ srtp_local_master_
    srtp_remote_master_ role_]. rewrite Hx.
  rewrite store_prefix by (rewrite Hm; unfold zlen; rewrite length_replicate; lia).
  cbn [mbind result_bind]. set (material := m ++ _).
  destruct (key_offsets (role_ d) k sl) as [[[lk ls] rk] rs] eqn:Eoff.
  assert (0 <= lk ∧ lk + k <= zlen m ∧ 0 <= ls ∧ ls + sl <= zlen m ∧
          0 <= rk ∧ rk + k <= zlen m ∧ 0 <= rs ∧ rs + sl <= zlen m) as (?&?&?&?&?&?&?&?)
    by (destruct (role_ d); injection Eoff as <- <- <- <-; lia).
  destruct (copy_master (srtp_local_master_ d) material m lk ls k sl) as (loc & Eloc & Zl & Tl);
    [done || lia..|].
  destruct (copy_master (srtp_remote_master_ d) material m rk rs k sl) as (rem & Erem & Zr & Tr);
    [done || lia..|].
  apply bind_Ret in Eloc as (x & -> & Eloc). cbn [mbind result_bind]. rewrite Eloc.
  cbn [mbind result_bind].
  apply bind_Ret in Erem as (y & -> & Erem). cbn [mbind result_bind]. rewrite Erem.
  cbn [mbind result_bind]. eexists. split; [reflexivity|].
  unfold arrays_ok, srtp_local_master, srtp_remote_master, StringPiece_len, AsString.
  cbn [state_ srtp_local_master_ srtp_remote_master_ use_srtp_ srtp_master_len_ HandshakeDone_
    ExtractSrtpKey_ sp_mem ptr_ length_]. rewrite !zdrop_0. split_and!; done.
Qed.
End masters.

(** ** Timeouts: what the timeout handlers leave alone, and that they return *)
Section timeouts.
Context {SSL : Type} (o : OpenSSL SSL) (Ho : openssl_ok o).
Implicit Types d : DtlsTransport SSL.

(** The keys are untouched; the state may only become [FAILED]. *)
Record kept d d' : Prop := {
  k_role : role_ d' = role_ d;
  k_done : HandshakeDone_ d = true → HandshakeDone_ d' = true;
  k_extract : ExtractSrtpKey_ d' = ExtractSrtpKey_ d;
  k_profile : use_srtp_ d' = use_srtp_ d;
  k_local : srtp_local_master_ d' = srtp_local_master_ d;
  k_remote : srtp_remote_master_ d' = srtp_remote_master_ d;
  k_len : srtp_master_len_ d' = srtp_master_len_ d;
  k_state : state_ d' = state_ d ∨ state_ d' = FAILED ∧ HandshakeDone_ d = false;
}.

#[local] Instance kept_refl : Reflexive kept.
Proof. intros d. constructor; auto. Qed.
Lemma kept_trans d1 d2 d3 : kept d1 d2 → kept d2 d3 → kept d1 d3.
Proof.
  intros [] []. constructor; try congruence; try (intros; auto; fail).
  destruct k_state0 as [E|[E E']], k_state1 as [F|[F F']]; try (left; congruence); right;
    (split; [congruence|]); [|done|done].
  destruct (HandshakeDone_ d1); [|done]. by rewrite k_done0 in F'.
Qed.

Lemma kept_callbacks d ws : kept d (callbacks d ws).
Proof.
  revert d. induction ws as [|w ws IH]; intros d; [reflexivity|]. eapply kept_trans; [|apply IH].
  unfold OnSslInfo. bool_cases; try reflexivity. constructor; auto.
Qed.
Lemma kept_SendBioData d : kept d (SendBioData o d).
Proof. unfold SendBioData. bool_cases; [reflexivity|]. constructor; auto. Qed.
Lemma kept_with_ssl d s : kept d (with_ssl s d).
Proof. constructor; auto. Qed.
Lemma kept_with_timer d t : kept d (with_timer t d).
Proof. constructor; auto. Qed.
Lemma kept_failed d : HandshakeDone_ d = false → kept d (with_state FAILED d).
Proof. constructor; auto. Qed.

Lemma timeout_SendBioData d :
  timeout_ms o (ssl_ d) ≠ 0 → timeout_ms o (BIO_reset o (ssl_ d)) ≠ 0 →
  timeout_ms o (ssl_ (SendBioData o d)) ≠ 0.
Proof. unfold SendBioData. by bool_cases. Qed.
Lemma ssl_callbacks d ws : ssl_ (callbacks d ws) = ssl_ d.
Proof.
  revert d. induction ws as [|w ws IH]; intros d; [done|]. change (ssl_ (callbacks (OnSslInfo d w) ws) = ssl_ d).
  rewrite IH. unfold OnSslInfo. by bool_cases.
Qed.

Lemma HandleTimeout_S fuel d :
  HandleTimeout o (S fuel) d =
  if HandshakeDone_ d then Ret d
  else
    let '(s, ret, ws) := DTLSv1_handle_timeout o (ssl_ d) in
    let d := callbacks (with_ssl s d) ws in
    if bool_decide (ret = 1) then '(d, _) ← UpdateTimeout o fuel (SendBioData o d); Ret d
    else if bool_decide (ret = -1) then Ret (with_state FAILED d)
    else Ret d.
Proof. done. Qed.
Lemma UpdateTimeout_S fuel d :
  UpdateTimeout o (S fuel) d =
  if HandshakeDone_ d then Ret (d, true)
  else
    let ms := timeout_ms o (ssl_ d) in
    if bool_decide (ms = 0) then d ← HandleTimeout o fuel d; Ret (d, true)
    else if bool_decide (ms < 5000) then Ret (with_timer (Some ms) d, true)
    else Ret (with_state FAILED d, false).
Proof. done. Qed.

(** Once the timer is armed, [UpdateTimeout] makes no further call. *)
Lemma UpdateTimeout_armed fuel d :
  timeout_ms o (ssl_ d) ≠ 0 → ∃ d' b, UpdateTimeout o (S fuel) d = Ret (d', b) ∧ kept d d'.
Proof.
  intros Hms. rewrite UpdateTimeout_S. destruct (HandshakeDone_ d) eqn:Ed.
  { do 2 eexists. split; [done|reflexivity]. }
  cbn zeta. rewrite bool_decide_false by done. destruct (bool_decide (timeout_ms o (ssl_ d) < 5000)).
  - do 2 eexists. split; [done|apply kept_with_timer].
  - do 2 eexists. split; [done|]. by apply kept_failed.
Qed.

Lemma HandleTimeout_total fuel d :
  ∃ d', HandleTimeout o (S (S fuel)) d = Ret d' ∧ kept d d'.
Proof using Ho.
  rewrite HandleTimeout_S. destruct (HandshakeDone_ d) eqn:Ed.
  { eexists. split; [done|reflexivity]. }
  destruct (DTLSv1_handle_timeout o (ssl_ d)) as [[s ret] ws] eqn:Eh. cbn zeta.
  assert (Hk : kept d (callbacks (with_ssl s d) ws))
    by (eapply kept_trans; [apply kept_with_ssl|apply kept_callbacks]).
  destruct (bool_decide_reflect (ret = 1)) as [->|].
  - destruct (timeout_rearmed o Ho _ _ _ Eh) as [H1 H2].
    destruct (UpdateTimeout_armed fuel (SendBioData o (callbacks (with_ssl s d) ws))) as (d' & b & -> & Hd').
    { apply timeout_SendBioData; by rewrite ssl_callbacks. }
    cbn [mbind result_bind]. eexists. split; [done|].
    eapply kept_trans; [exact Hk|]. eapply kept_trans; [apply kept_SendBioData|done].
  - destruct (bool_decide (ret = -1)); eexists; (split; [done|]); [|done].
    constructor; try apply Hk. by right.
Qed.

Lemma UpdateTimeout_total fuel d :
  ∃ d' b, UpdateTimeout o (S (S (S fuel))) d = Ret (d', b) ∧ kept d d'.
Proof using Ho.
  destruct (decide (timeout_ms o (ssl_ d) = 0)) as [E|E]; [|by apply UpdateTimeout_armed].
  rewrite UpdateTimeout_S. destruct (HandshakeDone_ d).
  { do 2 eexists. split; [done|reflexivity]. }
  cbn zeta. rewrite bool_decide_true by done.
  destruct (HandleTimeout_total fuel d) as (d' & -> & Hk). cbn [mbind result_bind]. by do 2 eexists.
Qed.
End timeouts.

(** ** The life of a transport *)
Section life.
Context {SSL : Type} (o : OpenSSL SSL) (Ho : openssl_ok o).
Implicit Types d : DtlsTransport SSL.

(** The events of a transport: a packet from the peer, or its timer. *)
Inductive dtls_step d : DtlsTransport SSL → Prop :=
  | on_packet packet d' : ProcessDtlsPacket o 3 packet d = Ret d' → dtls_step d d'
  | on_timer ms d' :
      timer_ d = Some ms → HandleTimeout o 3 (with_timer None d) = Ret d' → dtls_step d d'.

Definition keyed d : Prop :=
  ∃ k sl, profile_lengths (use_srtp_ d) = Some (k, sl) ∧ srtp_master_len_ d = k + sl.

(** The keys have been extracted: connected, or closed after that. *)
Definition secured d : Prop := state_ d = CONNECTED ∨ state_ d = CLOSED.

Record dtls_inv d : Prop := {
  di_new : state_ d ≠ NEW;
  di_arrays : arrays_ok d;
  di_extract : ExtractSrtpKey_ d = true → HandshakeDone_ d = true;
  di_secured : secured d → ExtractSrtpKey_ d = true ∧ keyed d;
}.

Lemma kept_inv d d' : kept d d' → dtls_inv d → dtls_inv d'.
Proof.
  intros [] []. unfold secured, keyed, arrays_ok in *.
  constructor; unfold secured, keyed, arrays_ok; rewrite ?k_extract0, ?k_profile0, ?k_local0, ?k_remote0, ?k_len0;
    destruct k_state0 as [E|[E _]]; rewrite ?E; try done; auto. by intros [|].
Qed.

Lemma kept_secured d d' : kept d d' → dtls_inv d → secured d → secured d'.
Proof.
  intros Hk Hd Hs. destruct (k_state _ _ Hk) as [E|[_ F]]; unfold secured in *; [by rewrite E|].
  destruct (di_secured _ Hd Hs) as [Hx _]. by rewrite (di_extract _ Hd Hx) in F.
Qed.

Lemma ExtractSrtpKey_total d :
  arrays_ok d → state_ d ≠ CONNECTED →
  ∃ d' b, ExtractSrtpKey o d = Ret (d', b) ∧ arrays_ok d' ∧
    HandshakeDone_ d' = HandshakeDone_ d ∧ ExtractSrtpKey_ d' = ExtractSrtpKey_ d ∧
    (state_ d' = state_ d ∨ state_ d' = CONNECTED ∧ keyed d').
Proof using Ho.
  intros Ha Hc. destruct (SSL_get_selected_srtp_profile o (ssl_ d)) as [name|] eqn:Ep; cycle 1.
  { unfold ExtractSrtpKey. rewrite Ep. do 2 eexists. split; [done|]. auto. }
  destruct (profile_lengths name) as [[k sl]|] eqn:Epl; cycle 1.
  { unfold ExtractSrtpKey. rewrite Ep, Epl. do 2 eexists. split; [done|]. auto. }
  destruct (SSL_export_keying_material o (ssl_ d) ((k + sl) * 2)) as [m|] eqn:Ex; cycle 1.
  { unfold ExtractSrtpKey. rewrite Ep, Epl. cbn [ssl_ srtp_master_len_]. rewrite Ex.
    do 2 eexists. split; [done|]. auto. }
  destruct (ExtractSrtpKey_ok o Ho d name k sl m) as (d' & -> & ? & ? & Hn & Hl & ? & ? & _); [done..|].
  do 2 eexists. split; [done|]. split_and!; [done..|]. right. split; [done|].
  exists k, sl. by rewrite Hn.
Qed.

Lemma CheckStatus_total ret d :
  dtls_inv d → is_running d = true →
  ∃ d' b, CheckStatus o ret d = Ret (d', b) ∧ dtls_inv d' ∧ (secured d → secured d').
Proof using Ho.
  intros Hd Hrun. unfold CheckStatus.
  destruct (HandshakeDone_ d && negb (ExtractSrtpKey_ d)) eqn:E.
  - apply andb_true_iff in E as [Ed Ee]. apply negb_true_iff in Ee.
    set (d1 := mk_dtls _ _ _ _ _ _ _ _ _ _ _).
    assert (Hnc : state_ d ≠ CONNECTED) by (intros F; destruct (di_secured _ Hd) as [F' _]; [by left|congruence]).
    destruct (ExtractSrtpKey_total d1) as (d' & b & -> & Ha & Hd' & He' & Hs);
      [apply Hd|done|]. exists d', b. split; [done|].
    cbn [d1 HandshakeDone_ ExtractSrtpKey_ state_] in *.
    split; cycle 1.
    { intros Hsec. destruct (di_secured _ Hd Hsec). congruence. }
    constructor; [|done|congruence|].
    + destruct Hs as [->|[-> _]]; [apply Hd|done].
    + intros Hs'. split; [congruence|]. destruct Hs as [F|[_ ?]]; [|done].
      destruct (di_secured _ Hd) as [G _]; [|congruence]. unfold secured in *. by rewrite <-F.
  - destruct (_ || _); [|eauto]. do 2 eexists. split; [done|]. destruct Hd.
    unfold is_running in Hrun. split.
    + constructor; cbn; try done; [by case_bool_decide|].
      intros Hsec. apply di_secured0. unfold secured in *. cbn in Hsec. case_bool_decide; [by left|naive_solver].
    + intros [F|F]; [|by rewrite F in Hrun]. right. cbn. by rewrite bool_decide_true.
Qed.

Lemma ProcessDtlsPacket_total packet d :
  dtls_inv d → ∃ d', ProcessDtlsPacket o 3 packet d = Ret d' ∧ dtls_inv d' ∧
    (is_running d = false → d' = d) ∧ (secured d → secured d').
Proof using Ho.
  intros Hd. unfold ProcessDtlsPacket. destruct (is_running d) eqn:Er; cbn [negb]; [|eauto 10].
  destruct (SSL_read o (BIO_write o (ssl_ d) (AsString packet))) as [[s read] ws].
  set (d1 := SendBioData o (callbacks (with_ssl s d) ws)).
  assert (Hk : kept d d1).
  { eapply kept_trans; [apply kept_with_ssl|]. eapply kept_trans; [apply kept_callbacks|].
    apply kept_SendBioData. }
  assert (Hr1 : is_running d1 = true).
  { unfold is_running in *. unfold d1, SendBioData.
    assert (Hs : state_ (callbacks (with_ssl s d) ws) = state_ d).
    { generalize (with_ssl s d) (eq_refl : state_ (with_ssl s d) = state_ d). clear.
      induction ws as [|w ws IH]; intros d2 E; [done|]. apply (IH (OnSslInfo d2 w)).
      unfold OnSslInfo. by bool_cases. }
    bool_cases; cbn; by rewrite Hs. }
  pose proof (kept_inv _ _ Hk Hd) as Hd1.
  assert (Hs1 : secured d → secured d1) by (by apply kept_secured).
  destruct (CheckStatus_total read d1 Hd1 Hr1) as (d2 & b & -> & Hd2 & Hs2).
  cbn [mbind result_bind]. destruct b; cbn [negb]; [|exists d2; split_and!; auto; done].
  destruct (UpdateTimeout_total o Ho 0 d2) as (d3 & b & -> & Hk3). cbn [mbind result_bind].
  exists d3. split_and!; [done|by eapply kept_inv|done|].
  intros Hsec. apply (kept_secured d2); auto.
Qed.

Lemma on_timer_total d :
  dtls_inv d → ∃ d', HandleTimeout o 3 (with_timer None d) = Ret d' ∧ dtls_inv d' ∧
    (is_running d = false → state_ d' = state_ d) ∧ (secured d → secured d').
Proof using Ho.
  intros Hd. destruct (HandleTimeout_total o Ho 1 (with_timer None d)) as (d' & -> & Hk).
  assert (Ht : dtls_inv (with_timer None d)) by (eapply kept_inv; [apply kept_with_timer|done]).
  exists d'. split; [done|]. split_and!.
  - by eapply kept_inv.
  - intros Hr. destruct (k_state _ _ Hk) as [E|[E F]]; [done|]. cbn in F.
    unfold is_running in Hr. destruct (state_ d) eqn:Es; try done; [by apply di_new in Hd|].
    rewrite (di_extract _ Hd) in F; [done|]. apply (di_secured _ Hd). by right.
  - intros Hs. by eapply kept_secured.
Qed.

Lemma dtls_step_inv d d' : dtls_inv d → dtls_step d d' → dtls_inv d'.
Proof using Ho.
  intros Hd [packet d1 E|ms d1 _ E].
  - destruct (ProcessDtlsPacket_total packet d Hd) as (d2 & E2 & H2 & _). congruence.
  - destruct (on_timer_total d Hd) as (d2 & E2 & H2 & _). congruence.
Qed.

Lemma Initialize_total s role r0 :
  ∃ d, Initialize o 3 role (DtlsTransport_new s r0) = Ret d ∧ dtls_inv d.
Proof using Ho.
  assert (H0 : ∀ x, dtls_inv (mk_dtls x CONNECTING role false false [] (replicate 64 0) (replicate 64 0) 0 None [])).
  { intros x. constructor; try done. by intros [|]. }
  unfold Initialize. destruct role; cbn [ssl_].
  - destruct (SSL_do_handshake o _) as [s1 ws].
    set (d1 := SendBioData o _).
    destruct (UpdateTimeout_total o Ho 0 d1) as (d & b & -> & Hk). cbn [mbind result_bind].
    exists d. split; [done|]. eapply kept_inv; [exact Hk|].
    eapply kept_inv; [apply kept_SendBioData|]. eapply kept_inv; [apply kept_callbacks|]. apply (H0 s1).
  - destruct (SSL_do_handshake o _) as [s1 ws]. eexists. split; [done|].
    eapply kept_inv; [apply kept_callbacks|]. apply (H0 s1).
Qed.
End life.

(** C18: over any sequence of packets and timer events after [Initialize], with
    any behaviour of OpenSSL in which [SSL_export_keying_material] fills the
    length it is asked for and a handled timeout arms the timer again, a transport is connected only with the SRTP keys
    extracted (a known profile, masters of that profile's length inside their
    arrays), every packet and timer event is handled to the end, and a failed
    or closed transport stays so. *)
Theorem dtls_life {SSL} (o : OpenSSL SSL) s role r0 d0 d :
  openssl_ok o → Initialize o 3 role (DtlsTransport_new s r0) = Ret d0 → rtc (dtls_step o) d0 d →
  (is_connected d = true → HandshakeDone_ d = true ∧ ExtractSrtpKey_ d = true ∧ keyed d ∧
     sp_wf (srtp_local_master d) ∧ sp_wf (srtp_remote_master d)) ∧
  (∀ packet, ∃ d', ProcessDtlsPacket o 3 packet d = Ret d') ∧
  (∀ ms, timer_ d = Some ms → ∃ d', HandleTimeout o 3 (with_timer None d) = Ret d') ∧
  (is_running d = false → ∀ d', dtls_step o d d' → state_ d' = state_ d).
Proof.
  intros Ho Hinit Hsteps.
  assert (Hd : dtls_inv d).
  { destruct (Initialize_total o Ho s role r0) as (d1 & E & H1). rewrite E in Hinit. inv_ret Hinit.
    clear E. induction Hsteps as [|x y z Hxy _ IH]; [done|]. apply IH. by eapply dtls_step_inv. }
  split_and!.
  - intros Hc%bool_decide_eq_true. destruct (di_secured _ Hd (or_introl Hc)) as [He Hk].
    split_and!; [by apply di_extract|done|done|..]; destruct Hk as (k & sl & Hp & Hl);
      apply profile_lengths_range in Hp; destruct (di_arrays _ Hd) as [A1 A2];
      unfold sp_wf, srtp_local_master, srtp_remote_master, StringPiece_len; cbn [sp_mem ptr_ length_]; lia.
  - intros packet. destruct (ProcessDtlsPacket_total o Ho packet d Hd) as (d' & ? & _). by exists d'.
  - intros ms _. destruct (on_timer_total o Ho d Hd) as (d' & ? & _). by exists d'.
  - intros Hr d' [packet d1 E|ms d1 _ E].
    + destruct (ProcessDtlsPacket_total o Ho packet d Hd) as (d2 & E2 & _ & H2 & _). rewrite H2 in E2 by done. congruence.
    + destruct (on_timer_total o Ho d Hd) as (d2 & E2 & _ & H2 & _). rewrite E in E2. inv_ret E2. by apply H2.
Qed.

(** C31: when the two ends select the same profile and OpenSSL exports the
    same material to both, what the server sends with is what the client
    receives with and the other way round: each side's local master is the
    other's remote master. *)
Theorem srtp_keys_agree {SSL} (o : OpenSSL SSL) (server client : DtlsTransport SSL) name k sl m :
  openssl_ok o → arrays_ok server → arrays_ok client → role_ server = SERVER → role_ client = CLIENT →
  SSL_get_selected_srtp_profile o (ssl_ server) = Some name →
  SSL_get_selected_srtp_profile o (ssl_ client) = Some name →
  profile_lengths name = Some (k, sl) →
  SSL_export_keying_material o (ssl_ server) ((k + sl) * 2) = Some m →
  SSL_export_keying_material o (ssl_ client) ((k + sl) * 2) = Some m →
  ∃ server' client', ExtractSrtpKey o server = Ret (server', true) ∧
    ExtractSrtpKey o client = Ret (client', true) ∧
    AsString (srtp_local_master server') = AsString (srtp_remote_master client') ∧
    AsString (srtp_remote_master server') = AsString (srtp_local_master client') ∧
    zlen (AsString (srtp_local_master server')) = k + sl ∧
    is_connected server' = true ∧ is_connected client' = true.
Proof.
  intros Ho Hs Hc Rs Rc Ps Pc Hp Ms Mc.
  destruct (ExtractSrtpKey_ok o Ho server name k sl _ Hs Ps Hp Ms)
    as (server' & Es & Ss & [A1 _] & _ & Ln & _ & _ & Ks).
  destruct (ExtractSrtpKey_ok o Ho client name k sl _ Hc Pc Hp Mc)
    as (client' & Ec & Sc & _ & _ & _ & _ & _ & Kc).
  rewrite Rs in Ks. rewrite Rc in Kc. destruct Ks as [K1 K2], Kc as [K3 K4].
  assert (Hlen : zlen (AsString (srtp_local_master server')) = k + sl).
  { apply profile_lengths_range in Hp. rewrite <-Ln. apply zlen_ztake. cbn [srtp_local_master StringPiece_len
      ptr_ sp_mem length_]. rewrite zdrop_0, A1, Ln. lia. }
  exists server', client'. unfold is_connected. rewrite Ss, Sc, K2, K3, K4, Hlen. rewrite K1. by split_and!.
Qed.

(** A concrete SSL object: it counts its events; the second packet completes
    the handshake, and a retransmission re-arms a timer of 200 ms. *)
Definition sample_ssl : OpenSSL Z := {|
  SSL_set_connect_state s := s;
  SSL_set_accept_state s := s;
  SSL_do_handshake s := (s, [SSL_CB_HANDSHAKE_START]);
  BIO_write s data := s + 1;
  SSL_read s := (s, -1, if bool_decide (s = 2) then [SSL_CB_HANDSHAKE_DONE] else [SSL_CB_LOOP]);
  SSL_get_error s ret := 2;
  SSL_get_shutdown s := 0;
  BIO_get_mem_data s := [22; 254; 253];
  BIO_reset s := s;
  DTLSv1_get_timeout s := (0, 200000);
  DTLSv1_handle_timeout s := (s, 1, []);
  SSL_get_selected_srtp_profile s := Some SRTP_AES128_CM_SHA1_80;
  SSL_export_keying_material s n :=
    if bool_decide (0 <= n) then Some (seqZ 0 n) else None;
|}.
Lemma sample_ssl_ok : openssl_ok sample_ssl.
Proof.
  constructor.
  - intros s n m. cbn. case_bool_decide; [|done]. intros [= <-]. unfold zlen. rewrite length_seqZ. lia.
  - intros s s' ws. cbn. done.
Qed.

Definition hello : StringPiece := StringPiece_string (22 :: replicate 12 0).

Lemma dtls_life_witness :
  ∃ d : DtlsTransport Z, is_connected d = true ∧ keyed d ∧ sp_wf (srtp_local_master d) ∧ dt_sent d = [[22; 254; 253]; [22; 254; 253]].
Proof.
  destruct (Initialize sample_ssl 3 SERVER (DtlsTransport_new 0 SERVER)) as [d0|?|] eqn:E; [|done..].
  destruct (ProcessDtlsPacket sample_ssl 3 hello d0) as [d1|?|] eqn:E1; [|vm_compute in E; injection E as <-; vm_compute in E1; done..].
  destruct (ProcessDtlsPacket sample_ssl 3 hello d1) as [d2|?|] eqn:E2; [|vm_compute in E; injection E as <-;
    vm_compute in E1; injection E1 as <-; vm_compute in E2; done..].
  destruct (dtls_life sample_ssl 0 SERVER SERVER d0 d2 sample_ssl_ok E) as (H & _).
  - eapply rtc_l; [by eapply on_packet|]. eapply rtc_l; [by eapply on_packet|]. apply rtc_refl.
  - exists d2. vm_compute in E. injection E as <-. vm_compute in E1. injection E1 as <-.
    vm_compute in E2. injection E2 as <-. destruct (H eq_refl) as (_ & _ & Hk & Hl & _). by split_and!.
Defined.

Lemma srtp_keys_agree_witness :
  ∃ server' client' : DtlsTransport Z,
    ExtractSrtpKey sample_ssl (DtlsTransport_new 0 SERVER) = Ret (server', true) ∧
    ExtractSrtpKey sample_ssl (DtlsTransport_new 0 CLIENT) = Ret (client', true) ∧
    AsString (srtp_local_master server') = AsString (srtp_remote_master client') ∧
    zlen (AsString (srtp_local_master server')) = 30.
Proof.
  destruct (srtp_keys_agree sample_ssl (DtlsTransport_new 0 SERVER) (DtlsTransport_new 0 CLIENT)
    SRTP_AES128_CM_SHA1_80 16 14 (seqZ 0 60) sample_ssl_ok) as (a & b & Ha & Hb & Hl & _ & Hz & _);
    try reflexivity; [by split..|].
  by exists a, b.
Defined.
