(* ===== verification/Sdp.v ===== *)
(** * Session descriptions: webrtc/sdp/sdp_message.{h,cc}

    [Decode] takes the ICE credentials, the fingerprint and the CNAME from
    their attribute lines, and one track per audio or video section with the
    SSRCs it announces, and logs them all. *)

From Stdlib Require Import ZArith Lia Bool.
From stdpp Require Import base numbers list strings.
From S2P Require Import Prelude Types StringPiece LogStream Logger.

(** The members of the structures that [Decode] sets. *)
Record TrackSdp : Type := mk_track {
  media_type_ : list Z;
  ssrc_group_ : list (list Z);
}.
Record NetSdp : Type := mk_net {
  ice_ufrag_ : list Z;
  ice_pwd_ : list Z;
  finger_print_ : list Z;
}.
Record SdpMessage : Type := mk_sdp {
  cname_ : list Z;
  tracks_ : list TrackSdp;
  net_ : NetSdp;
}.
Definition SdpMessage_new : SdpMessage := mk_sdp [] [] (mk_net [] [] []).

(** "ice-ufrag:", "ice-pwd:", "fingerprint:", "cname:", "m=", "audio",
    "video", "ssrc-group:FID", "ssrc:", " " and the line end *)
Definition ICE_UFRAG : list Z := [105; 99; 101; 45; 117; 102; 114; 97; 103; 58].
Definition ICE_PWD : list Z := [105; 99; 101; 45; 112; 119; 100; 58].
Definition FINGERPRINT : list Z := [102; 105; 110; 103; 101; 114; 112; 114; 105; 110; 116; 58].
Definition CNAME : list Z := [99; 110; 97; 109; 101; 58].
Definition M_EQ : list Z := [109; 61].
Definition AUDIO : list Z := [97; 117; 100; 105; 111].
Definition VIDEO : list Z := [118; 105; 100; 101; 111].
Definition SSRC_GROUP : list Z := [115; 115; 114; 99; 45; 103; 114; 111; 117; 112; 58; 70; 73; 68].
Definition SSRC : list Z := [115; 115; 114; 99; 58].
Definition SPACE : list Z := [32].
Definition EOL : list Z := [13; 10].

Definition set_if_found (found : StringPiece) (old : list Z) : list Z :=
  if negb (sp_empty found) then AsString found else old.

Definition strings (ps : list StringPiece) : list (list Z) := AsString <$> ps.

(** The SSRCs of one media section. *)
Definition section_ssrcs (media_item : StringPiece) : result (list (list Z)) :=
  let ssrc_group := Find media_item (lit SSRC_GROUP) in
  if bool_decide (ssrc_group = sp_end media_item) then
    ssrc_id ← SliceFragment media_item (lit SSRC) (lit SPACE);
    Ret (if negb (sp_empty ssrc_id) then [AsString ssrc_id] else [])
  else
    ssrc_ids ← SliceFragment media_item (lit SSRC_GROUP) (lit EOL);
    if negb (sp_empty ssrc_ids) then
      ssrc_vector ← Split (S (Z.to_nat (sp_size ssrc_ids))) ssrc_ids (lit SPACE);
      Ret (strings ssrc_vector)
    else Ret [].

Fixpoint media_loop (media_vector : list StringPiece) (tracks : list TrackSdp)
    : result (list TrackSdp) :=
  match media_vector with
  | [] => Ret tracks
  | media_item :: media_vector =>
      if StartsWith media_item (lit AUDIO) then
        ssrcs ← section_ssrcs media_item;
        media_loop media_vector (tracks ++ [mk_track AUDIO ssrcs])
      else if StartsWith media_item (lit VIDEO) then
        ssrcs ← section_ssrcs media_item;
        media_loop media_vector (tracks ++ [mk_track VIDEO ssrcs])
      else media_loop media_vector tracks
  end.

(** A line with a label and a text; the lines of the tracks. *)
Definition log_text (lc : LogCtx) (label : string) (text : list Z) : result unit :=
  LOG_INFO lc [cstr (bytes_of label); Str text].
Fixpoint log_each (lc : LogCtx) (label : string) (l : list (list Z)) : result unit :=
  match l with
  | [] => Ret tt
  | text :: l => _ ← log_text lc label text; log_each lc label l
  end.
Fixpoint log_tracks (lc : LogCtx) (tracks : list TrackSdp) : result unit :=
  match tracks with
  | [] => Ret tt
  | track :: tracks =>
      _ ← log_text lc "media_type:" (media_type_ track);
      _ ← log_each lc "ssrc:" (ssrc_group_ track);
      log_tracks lc tracks
  end.

Definition Decode (lc : LogCtx) (message : StringPiece) (self : SdpMessage) : result (SdpMessage * Z) :=
  ice_ufrag ← SliceFragment message (lit ICE_UFRAG) (lit EOL);
  ice_pwd ← SliceFragment message (lit ICE_PWD) (lit EOL);
  finger_print ← SliceFragment message (lit FINGERPRINT) (lit EOL);
  let net := mk_net (set_if_found ice_ufrag (ice_ufrag_ (net_ self)))
                    (set_if_found ice_pwd (ice_pwd_ (net_ self)))
                    (set_if_found finger_print (finger_print_ (net_ self))) in
  _ ← log_text lc "ice-ufrag:" (ice_ufrag_ net);
  _ ← log_text lc "ice-pwd:" (ice_pwd_ net);
  _ ← log_text lc "fingerprint:" (finger_print_ net);
  cname ← SliceFragment message (lit CNAME) (lit EOL);
  let cname := set_if_found cname (cname_ self) in
  _ ← log_text lc "cname:" cname;
  let media_m := Find message (lit M_EQ) in
  media_slice ← RemovePrefixUntil message media_m;
  media_vector ← Split (S (Z.to_nat (sp_size media_slice))) media_slice (lit M_EQ);
  tracks ← media_loop media_vector (tracks_ self);
  _ ← log_tracks lc tracks;
  Ret (mk_sdp cname tracks net, 0).

(** ** Reference: the same on texts *)
Definition found_or (t old : list Z) : list Z := if nonempty t then t else old.

(** The non-empty fields around [pat]. *)
Definition fields_around (pat l : list Z) : list (list Z) :=
  non_empty_fields (fields_by (S (Z.to_nat (zlen l))) pat l).

Definition ssrcs_of (t : list Z) : list (list Z) :=
  if bool_decide (std_search t SSRC_GROUP = zlen t)
  then (let s := between SSRC SPACE t in if nonempty s then [s] else [])
  else fields_around SPACE (between SSRC_GROUP EOL t).

Definition track_of (t : list Z) : option TrackSdp :=
  if prefixb AUDIO t then Some (mk_track AUDIO (ssrcs_of t))
  else if prefixb VIDEO t then Some (mk_track VIDEO (ssrcs_of t))
  else None.

Definition sdp_spec (l : list Z) (self : SdpMessage) : SdpMessage :=
  mk_sdp (found_or (between CNAME EOL l) (cname_ self))
    (tracks_ self ++ omap track_of (fields_around M_EQ (zdrop (std_search l M_EQ) l)))
    (mk_net (found_or (between ICE_UFRAG EOL l) (ice_ufrag_ (net_ self)))
            (found_or (between ICE_PWD EOL l) (ice_pwd_ (net_ self)))
            (found_or (between FINGERPRINT EOL l) (finger_print_ (net_ self)))).

(** ** Proofs *)
Ltac no_nul := apply (bool_decide_unpack _); done.

Lemma nonempty_pos (l : list Z) : l ≠ [] → 0 < zlen l.
Proof. destruct l; [done|]. rewrite zlen_cons. pose proof (zlen_nonneg l). lia. Qed.

Lemma fragment_ok s first last :
  sp_wf s → 0 ∉ first → 0 ∉ last → first ≠ [] →
  ∃ s', SliceFragment s (lit first) (lit last) = Ret s' ∧ sp_wf s' ∧
    AsString s' = between first last (AsString s).
Proof.
  intros Hs Hf Hl Hne. destruct (sp_wf_lit first Hf) as [Wf Lf]. destruct (sp_wf_lit last Hl) as [Wl _].
  destruct (SliceFragment_ok s (lit first) (lit last)) as (s' & E & W & T);
    [done|done|rewrite Lf; by apply nonempty_pos|done|].
  exists s'. rewrite !AsString_lit in T by done. done.
Qed.

Lemma empty_text s : sp_wf s → sp_empty s = negb (nonempty (AsString s)).
Proof.
  intros Hs. unfold sp_empty. rewrite <-zlen_AsString by done. rewrite nonempty_zlen. by rewrite negb_involutive.
Qed.
Lemma set_if_found_ok s old : sp_wf s → set_if_found s old = found_or (AsString s) old.
Proof. intros. unfold set_if_found, found_or. by rewrite empty_text, negb_involutive by done. Qed.

Lemma split_lit_ok s pat :
  sp_wf s → 0 ∉ pat → pat ≠ [] →
  ∃ ps, Split (S (Z.to_nat (sp_size s))) s (lit pat) = Ret ps ∧
    AsString <$> ps = fields_around pat (AsString s) ∧ Forall sp_wf ps.
Proof.
  intros Hs Hp Hne. destruct (sp_wf_lit pat Hp) as [Wp Lp].
  destruct (Split_ok s (lit pat) (S (Z.to_nat (sp_size s)))) as (ps & E & T & W);
    [done|done|rewrite Lp; by apply nonempty_pos|unfold sp_size; lia|].
  exists ps. rewrite AsString_lit in T by done. unfold fields_around. rewrite zlen_AsString by done. done.
Qed.

Lemma section_ssrcs_ok s : sp_wf s → section_ssrcs s = Ret (ssrcs_of (AsString s)).
Proof.
  intros Hs. unfold section_ssrcs, ssrcs_of. rewrite Find_lit by no_nul.
  rewrite (bool_decide_ext (sp_begin s + std_search (AsString s) SSRC_GROUP = sp_end s)
    (std_search (AsString s) SSRC_GROUP = zlen (AsString s)))
    by (rewrite zlen_AsString by done; unfold sp_end, sp_begin; lia).
  destruct (bool_decide (std_search (AsString s) SSRC_GROUP = zlen (AsString s))).
  - destruct (fragment_ok s SSRC SPACE) as (s' & -> & W & T); [done|no_nul|no_nul|done|].
    cbn [mbind result_bind]. rewrite empty_text, negb_involutive, T by done. done.
  - destruct (fragment_ok s SSRC_GROUP EOL) as (s' & -> & W & T); [done|no_nul|no_nul|done|].
    cbn [mbind result_bind]. rewrite empty_text, negb_involutive, <-T by done.
    destruct (split_lit_ok s' SPACE) as (ps & -> & Tp & _); [done|no_nul|done|]. cbn [mbind result_bind].
    unfold strings. rewrite <-Tp. destruct (nonempty (AsString s')) eqn:E; [done|].
    destruct (AsString s'); [|done]. rewrite Tp. done.
Qed.

Lemma media_loop_ok ps tracks :
  Forall sp_wf ps → media_loop ps tracks = Ret (tracks ++ omap track_of (AsString <$> ps)).
Proof.
  revert tracks. induction ps as [|p ps IH]; intros tracks Hps; cbn [media_loop].
  { by rewrite app_nil_r. }
  apply Forall_cons in Hps as [Hp Hps]. rewrite !StartsWith_lit, section_ssrcs_ok by (done || no_nul).
  change (omap track_of (AsString <$> p :: ps)) with
    (match track_of (AsString p) with
     | Some t => t :: omap track_of (AsString <$> ps) | None => omap track_of (AsString <$> ps) end).
  unfold track_of at 1. cbn [mbind result_bind].
  destruct (prefixb AUDIO _); [|destruct (prefixb VIDEO _)]; rewrite IH by done; [| |done];
    by rewrite <-app_assoc.
Qed.

(** ** The texts of a description are parts of its message *)
Definition texts_of (m : SdpMessage) : list (list Z) :=
  [ice_ufrag_ (net_ m); ice_pwd_ (net_ m); finger_print_ (net_ m); cname_ m] ++
  concat ((λ t, media_type_ t :: ssrc_group_ t) <$> tracks_ m).
Definition short_texts (n : Z) (m : SdpMessage) : Prop := Forall (λ t, zlen t <= n) (texts_of m).

Lemma zlen_ztake_le k (l : list Z) : zlen (ztake k l) <= zlen l.
Proof. unfold zlen, ztake. rewrite length_take. lia. Qed.
Lemma zlen_zdrop_le k (l : list Z) : zlen (zdrop k l) <= zlen l.
Proof. unfold zlen, zdrop. rewrite length_drop. lia. Qed.
Lemma between_le first last l : zlen (between first last l) <= zlen l.
Proof.
  unfold between. pose proof (zlen_nonneg l). case_bool_decide; [done|]. case_bool_decide; [done|].
  etrans; [apply zlen_ztake_le|apply zlen_zdrop_le].
Qed.
Lemma fields_around_le pat l : Forall (λ t, zlen t <= zlen l) (fields_around pat l).
Proof.
  unfold fields_around, non_empty_fields. generalize (S (Z.to_nat (zlen l))). intros n.
  apply Forall_forall. intros t [_ Hin]%list_elem_of_filter. revert t Hin. apply Forall_forall.
  assert (H : ∀ l', zlen l' <= zlen l → Forall (λ t, zlen t <= zlen l) (fields_by n pat l')); [|by apply H].
  induction n as [|n IH]; intros l' Hl; cbn [fields_by]; [done|]. constructor; [etrans; [apply zlen_ztake_le|done]|].
  case_bool_decide; [done|]. apply IH. etrans; [apply zlen_zdrop_le|done].
Qed.
Lemma ssrcs_of_le t : Forall (λ x, zlen x <= zlen t) (ssrcs_of t).
Proof.
  unfold ssrcs_of. case_bool_decide.
  - destruct (nonempty _); [|done]. apply Forall_singleton, between_le.
  - eapply Forall_impl; [apply fields_around_le|]. intros x Hx. etrans; [exact Hx|apply between_le].
Qed.
Lemma sdp_spec_short l self n :
  zlen l <= n → 10 <= n → short_texts n self → short_texts n (sdp_spec l self).
Proof.
  intros Hl Hn Hs. unfold short_texts, texts_of in *. cbn [sdp_spec net_ cname_ tracks_ ice_ufrag_ ice_pwd_ finger_print_].
  cbn [app] in *. rewrite !Forall_cons in *. destruct Hs as (H1 & H2 & H3 & H4 & H5).
  assert (Hf : ∀ a b old, zlen old <= n → zlen (found_or (between a b l) old) <= n).
  { intros a b old Ho. unfold found_or. destruct (nonempty _); [etrans; [apply between_le|done]|done]. }
  split_and!; [by apply Hf..|]. rewrite fmap_app, concat_app. apply Forall_app. split; [done|].
  set (m := zdrop _ l). assert (Hm : zlen m <= n) by (etrans; [apply zlen_zdrop_le|done]).
  assert (Hfs : Forall (λ t, zlen t <= n) (fields_around M_EQ m)).
  { eapply Forall_impl; [apply fields_around_le|]. cbn. lia. }
  induction Hfs as [|t ts Ht _ IH]; [done|].
  assert (Hss : Forall (λ x, zlen x <= n) (ssrcs_of t)).
  { eapply Forall_impl; [apply ssrcs_of_le|]. cbn. lia. }
  cbn [omap list_omap]. unfold track_of at 1. destruct (prefixb AUDIO t); [|destruct (prefixb VIDEO t)]; cbn [fmap list_fmap concat media_type_ ssrc_group_].
  - apply Forall_app. split; [constructor; [change (zlen AUDIO) with 5; lia|done]|exact IH].
  - apply Forall_app. split; [constructor; [change (zlen VIDEO) with 5; lia|done]|exact IH].
  - exact IH.
Qed.

(** Texts of at most this size fit a log line. *)
Definition max_text : Z := 62000.
Lemma log_text_ok lc label text :
  lc_ok lc → zlen (bytes_of label) <= 100 → zlen text <= max_text → log_text lc label text = Ret tt.
Proof.
  intros Hlc Hl Ht. apply LOG_INFO_ok; [done|by repeat constructor|]. unfold Logger.texts, max_log, max_text in *.
  cbn [fmap list_fmap concat]. rewrite !zlen_app, zlen_nil. pose proof (zlen_cstr (bytes_of label)).
  change (item_text (Str text)) with text. lia.
Qed.
Lemma log_each_ok lc label l :
  lc_ok lc → zlen (bytes_of label) <= 100 → Forall (λ t, zlen t <= max_text) l → log_each lc label l = Ret tt.
Proof.
  intros Hlc Hb. induction 1 as [|t l Ht _ IH]; [done|]. cbn [log_each].
  by rewrite (bind_Ret_step _ _ _ (log_text_ok lc label t Hlc Hb Ht)).
Qed.
Lemma log_tracks_ok lc tracks :
  lc_ok lc → Forall (λ t, zlen t <= max_text) (concat ((λ t, media_type_ t :: ssrc_group_ t) <$> tracks)) →
  log_tracks lc tracks = Ret tt.
Proof.
  intros Hlc. induction tracks as [|t tracks IH]; [done|]. cbn [fmap list_fmap concat log_tracks].
  intros [[H1 H2]%Forall_cons H3]%Forall_app.
  rewrite (bind_Ret_step _ _ _ (log_text_ok lc "media_type:" _ Hlc ltac:(by vm_compute) H1)).
  rewrite (bind_Ret_step _ _ _ (log_each_ok lc "ssrc:" _ Hlc ltac:(by vm_compute) H2)). by apply IH.
Qed.

Lemma sdp_Decode_ok lc message self :
  lc_ok lc → sp_wf message → sp_size message <= max_text → short_texts max_text self →
  Decode lc message self = Ret (sdp_spec (AsString message) self, 0).
Proof.
  intros Hlc Hm Hsz Hself. unfold Decode.
  assert (Hshort : short_texts max_text (sdp_spec (AsString message) self))
    by (apply sdp_spec_short; [by rewrite zlen_AsString|done|done]).
  unfold short_texts, texts_of in Hshort.
  cbn [sdp_spec net_ cname_ tracks_ ice_ufrag_ ice_pwd_ finger_print_ app] in Hshort.
  rewrite !Forall_cons in Hshort. destruct Hshort as (L1 & L2 & L3 & L4 & L5).
  destruct (fragment_ok message ICE_UFRAG EOL) as (a & -> & Wa & Ta); [done|no_nul|no_nul|done|].
  destruct (fragment_ok message ICE_PWD EOL) as (b & -> & Wb & Tb); [done|no_nul|no_nul|done|].
  destruct (fragment_ok message FINGERPRINT EOL) as (c & -> & Wc & Tc); [done|no_nul|no_nul|done|].
  destruct (fragment_ok message CNAME EOL) as (d & -> & Wd & Td); [done|no_nul|no_nul|done|].
  cbn [mbind result_bind ice_ufrag_ ice_pwd_ finger_print_]. rewrite !set_if_found_ok, Ta, Tb, Tc, Td by done.
  rewrite !log_text_ok by done. cbn [mbind result_bind]. pose proof (Find_range message (lit M_EQ) Hm) as Hr.
  rewrite RemovePrefixUntil_ok by done. cbn [mbind result_bind].
  pose proof (std_search_range (AsString message) M_EQ) as Hs. rewrite zlen_AsString in Hs by done.
  rewrite Find_lit by no_nul.
  replace (sp_begin message + std_search (AsString message) M_EQ - sp_begin message)
    with (std_search (AsString message) M_EQ) by lia.
  set (media := RemovePrefix _ message).
  assert (Wm : sp_wf media) by (by apply sp_wf_RemovePrefix).
  assert (Em : AsString media = zdrop (std_search (AsString message) M_EQ) (AsString message))
    by (unfold media; by rewrite AsString_RemovePrefix).
  destruct (split_lit_ok media M_EQ) as (ps & -> & Tp & Wp); [done|no_nul|done|]. cbn [mbind result_bind].
  rewrite media_loop_ok, Tp, Em by done. cbn [mbind result_bind]. rewrite log_tracks_ok by done. done.
Qed.

(** On every message of at most 62000 bytes, read into a description whose
    texts are not longer, [Decode] neither faults nor loops, its log lines fit,
    and it equals the reference: each credential is the text of its attribute
    line when that is present, and each audio or video section adds one track,
    in order, with the SSRCs of its FID group or of its first ssrc line. *)
Theorem sdp_Decode_correct lc message self :
  lc_ok lc → sp_wf message → sp_size message <= max_text → short_texts max_text self →
  Decode lc message self = Ret (sdp_spec (AsString message) self, 0).
Proof. apply sdp_Decode_ok. Qed.

(** "a=ice-ufrag:x" and "m=video" with "a=ssrc:7 y", each on its line *)
Definition sample : list Z :=
  [97; 61] ++ ICE_UFRAG ++ [120] ++ EOL ++ M_EQ ++ VIDEO ++ EOL ++ [97; 61] ++ SSRC ++ [55; 32; 121] ++ EOL.
Lemma sdp_Decode_correct_witness :
  Decode sample_ctx (StringPiece_string sample) SdpMessage_new =
  Ret (mk_sdp [] [mk_track VIDEO [[55]]] (mk_net [120] [] []), 0).
Proof.
  rewrite (sdp_Decode_correct sample_ctx (StringPiece_string sample) SdpMessage_new sample_ctx_ok (sp_wf_string _)).
  - by vm_compute.
  - by vm_compute.
  - repeat constructor; by vm_compute.
Defined.
