(* ===== verification/Settings.v ===== *)
(** * Settings: webrtc/pc/webrtc_settings.cc, webrtc/dtls/dtls_config.cc, kernel/crypto/ssl_config.cc,
      and the creation of a transport in webrtc/dtls/dtls_transport.cc

    The server's own session description and its TLS and DTLS contexts; what
    OpenSSL answers is an argument.  The theorems: the description the server
    hands out is understood by the server's own decoder, with the credentials
    the ICE server checks; the DTLS configuration is accepted with or without
    a certificate; creating and destroying a transport leaks nothing, but a
    failure half-way frees its SSL object twice. *)

From Stdlib Require Import ZArith Lia Bool.
From stdpp Require Import base numbers list strings gmap.
From S2P Require Import Prelude Types StringPiece Logger Format Sdp.

(** ** WebRTCSettings *)
Record LocalSdp : Type := mk_local {
  local_net : NetSdp;
  ip_ : list Z;
  port_ : Z;
  ice_option_ : list Z;
}.
Definition gt_sdp : LocalSdp :=
  mk_local
    (mk_net (bytes_of "2eaP") (bytes_of "0HK9scLUJ8kv2TiuDAPHccjb")
       (bytes_of "3E:7B:7D:D0:03:75:8A:E1:D6:69:32:D3:A3:EE:57:D2:4B:11:13:F3:5F:F6:" ++
        bytes_of "3F:91:5D:DF:F6:E8:3A:0A:D2:09"))
    (bytes_of "101.43.183.201") 6061 (bytes_of "ice-lite").

(** [snprintf] into 8192 bytes; the strings contain no zero. *)
Definition line (s : string) : list Z := bytes_of s ++ EOL.
Definition local_sdp_text (sdp : LocalSdp) : list Z :=
  let ssrc := 1234 in
  line "v=0" ++
  line "o=- 1495799811084970 1495799811084970 IN IP4 0.0.0.0" ++
  line "s=baize webrtc sfu server" ++
  line "c=IN IP4 0.0.0.0" ++
  line "t=0 0" ++
  bytes_of "a=ice-options:" ++ ice_option_ sdp ++ EOL ++
  line "a=msid-semantic: WMS baize" ++
  line "a=group:BUNDLE 0" ++
  line "m=video 9 RTP/SAVPF 127" ++
  line "a=rtpmap:127 H264/90000" ++
  line "a=setup:passive" ++
  line "a=mid:0" ++
  line "a=sendrecv" ++
  bytes_of "a=ice-ufrag:" ++ ice_ufrag_ (local_net sdp) ++ EOL ++
  bytes_of "a=ice-pwd:" ++ ice_pwd_ (local_net sdp) ++ EOL ++
  bytes_of "a=fingerprint:sha-256 " ++ finger_print_ (local_net sdp) ++ EOL ++
  line "a=msid:baize baizev0" ++
  bytes_of "a=ssrc:" ++ decimal ssrc ++ line " cname:baizevideo" ++
  bytes_of "a=ssrc:" ++ decimal ssrc ++ line " msid:baize baizev0" ++
  bytes_of "a=candidate:1 1 udp 1 " ++ ip_ sdp ++ bytes_of " " ++ decimal (port_ sdp) ++ line " typ host" ++
  line "a=rtcp-mux" ++
  line "a=rtcp-rsize".
Definition local_sdp_string (sdp : LocalSdp) : list Z := ztake 8191 (local_sdp_text sdp).

(** ** SslConfig *)

(** What the calls answer: whether a context is created, and the results of
    loading the certificate and the key and of comparing them. *)
Record ssl_answers : Type := mk_ssl_answers {
  sa_ctx : bool;
  sa_cert : Z;
  sa_key : Z;
  sa_check : Z;
}.
(** [ctx_] is null or a context, with or without its certificate; a context
    that was there before is overwritten. *)
Inductive context : Type :=
  | NullCtx
  | Ctx (cert key : bool).
Definition set_tls_server (a : ssl_answers) : context * Z :=
  if negb (sa_ctx a) then (NullCtx, -1)
  else if bool_decide (sa_cert a <= 0) then (Ctx false false, -1)
  else if bool_decide (sa_key a <= 0) then (Ctx true false, -1)
  else (Ctx true true, 0).
Definition set_tls_client (a : ssl_answers) : context * Z :=
  if negb (sa_ctx a) then (NullCtx, -1) else (Ctx false false, 0).
Definition set_dtls (a : ssl_answers) : context * Z :=
  if negb (sa_ctx a) then (NullCtx, -1)
  else if bool_decide (sa_cert a <= 0) then (Ctx false false, -1)
  else if bool_decide (sa_key a <= 0) then (Ctx true false, -1)
  else if bool_decide (sa_check a = 0) then (Ctx true true, -1)
  else (Ctx true true, 0).

(** ** DtlsConfig *)

(** [DtlsConfig::New]: [ciphers] and [srtp] are the results of setting the
    cipher list and the SRTP profiles; [None] is a null pointer.  The options
    are set on the context whatever it is. *)
Definition DtlsConfig_New (a : ssl_answers) (ciphers srtp : Z) : result (option context) :=
  let '(ctx, _) := set_dtls a in
  match ctx with
  | NullCtx => Fault NullDeref
  | _ =>
      if bool_decide (ciphers = 0) then Ret None
      else if bool_decide (srtp ≠ 0) then Ret None
      else Ret (Some ctx)
  end.
(** [WebRTCSettings::Initialize]: without a configuration it is fatal. *)
Definition Initialize (a : ssl_answers) (ciphers srtp : Z) : result (LocalSdp * context) :=
  config ← DtlsConfig_New a ciphers srtp;
  match config with
  | Some ctx => Ret (gt_sdp, ctx)
  | None => Fault Aborted
  end.

(** ** DtlsTransport::New and its destructor *)

(** What is allocated by OpenSSL, as the set of the addresses. *)
Record Transport : Type := mk_transport {
  ssl_ : option Z;
  bio_read_ : option Z;
  bio_write_ : option Z;
}.
(** Freeing what is not allocated (any more) is an error; an SSL object frees
    the BIOs it was given. *)
Definition release (p : Z) (heap : gset Z) : result (gset Z) :=
  if bool_decide (p ∈ heap) then Ret (heap ∖ {[p]}) else Fault WildPointer.
Definition SSL_free (p : Z) (bios : list Z) (heap : gset Z) : result (gset Z) :=
  heap ← release p heap;
  foldl (λ h b, h ← h; release b h) (Ret heap) bios.
(** The destructor; [bios] is what [SSL_set_bio] gave to the SSL object. *)
Definition Transport_delete (t : Transport) (bios : list Z) (heap : gset Z) : result (gset Z) :=
  match ssl_ t with Some p => SSL_free p bios heap | None => Ret heap end.

(** [SSL_new] and the two [BIO_new]: an address, or null.  A transport that is
    not returned is destroyed. *)
Definition Transport_New (new_ssl new_read new_write : option Z) (heap : gset Z)
    : result (option Transport * gset Z) :=
  match new_ssl with
  | None => heap ← Transport_delete (mk_transport None None None) [] heap; Ret (None, heap)
  | Some ssl =>
      let heap := {[ssl]} ∪ heap in
      match new_read with
      | None =>
          heap ← SSL_free ssl [] heap;
          heap ← Transport_delete (mk_transport (Some ssl) None None) [] heap; Ret (None, heap)
      | Some rd =>
          let heap := {[rd]} ∪ heap in
          match new_write with
          | None =>
              heap ← SSL_free ssl [] heap;
              heap ← release rd heap;
              heap ← Transport_delete (mk_transport (Some ssl) (Some rd) None) [] heap; Ret (None, heap)
          | Some wr => Ret (Some (mk_transport (Some ssl) (Some rd) (Some wr)), {[wr]} ∪ heap)
          end
      end
  end.

(** The description the server hands to every peer fits its buffer and is
    one the server's own decoder reads back: the same ICE user name and
    password, the fingerprint with its hash function in front, the CNAME and
    one video track with its SSRC. *)
Theorem local_sdp_decodes lc :
  lc_ok lc →
  local_sdp_string gt_sdp = local_sdp_text gt_sdp ∧
  Decode lc (StringPiece_string (local_sdp_string gt_sdp)) SdpMessage_new =
    Ret (mk_sdp (bytes_of "baizevideo") [mk_track VIDEO [decimal 1234]]
           (mk_net (ice_ufrag_ (local_net gt_sdp)) (ice_pwd_ (local_net gt_sdp))
              (bytes_of "sha-256 " ++ finger_print_ (local_net gt_sdp))), 0).
Proof.
  intros Hlc. split; [vm_compute; reflexivity|].
  rewrite sdp_Decode_ok; [rewrite AsString_string; vm_compute; reflexivity|done|apply sp_wf_string|by vm_compute|].
  repeat constructor; by vm_compute.
Qed.
Lemma local_sdp_decodes_witness :
  Decode sample_ctx (StringPiece_string (local_sdp_string gt_sdp)) SdpMessage_new =
    Ret (mk_sdp (bytes_of "baizevideo") [mk_track VIDEO [decimal 1234]]
           (mk_net (ice_ufrag_ (local_net gt_sdp)) (ice_pwd_ (local_net gt_sdp))
              (bytes_of "sha-256 " ++ finger_print_ (local_net gt_sdp))), 0).
Proof. apply (local_sdp_decodes sample_ctx sample_ctx_ok). Defined.

(** Initialisation does not notice a missing or unusable certificate: with
    a context and the cipher and SRTP settings accepted it succeeds whatever
    loading the certificate and the key answers, although it is meant to be
    fatal, and the context then has no certificate. *)
Theorem certificate_ignored cert key check ciphers :
  cert <= 0 → ciphers ≠ 0 →
  set_dtls (mk_ssl_answers true cert key check) = (Ctx false false, -1) ∧
  Initialize (mk_ssl_answers true cert key check) ciphers 0 = Ret (gt_sdp, Ctx false false).
Proof.
  intros Hc Hn. unfold Initialize, DtlsConfig_New, set_dtls. cbn [sa_ctx sa_cert negb].
  rewrite (bool_decide_true (cert <= 0)) by done. split; [done|]. by rewrite (bool_decide_false (ciphers = 0)) by done.
Qed.
Lemma certificate_ignored_witness :
  Initialize (mk_ssl_answers true 0 1 1) 1 0 = Ret (gt_sdp, Ctx false false).
Proof. apply (certificate_ignored 0 1 1 1); lia. Defined.

Lemma release_ok p heap : p ∈ heap → release p heap = Ret (heap ∖ {[p]}).
Proof. intros. unfold release. by rewrite bool_decide_true. Qed.

(** When the SSL object and both BIOs are allocated, a transport is
    created, and destroying it frees exactly what creating it allocated; when
    a BIO cannot be allocated, the SSL object is freed by hand and then once
    more by the destructor of the transport. *)
Theorem transport_memory ssl rd wr heap :
  ssl ∉ heap → rd ∉ {[ssl]} ∪ heap → wr ∉ {[rd]} ∪ ({[ssl]} ∪ heap) →
  (∃ t heap', Transport_New (Some ssl) (Some rd) (Some wr) heap = Ret (Some t, heap') ∧
     Transport_delete t [rd; wr] heap' = Ret heap) ∧
  Transport_New (Some ssl) (Some rd) None heap = Fault WildPointer ∧
  Transport_New (Some ssl) None None heap = Fault WildPointer.
Proof.
  intros H1 H2 H3. unfold Transport_New, Transport_delete, SSL_free. split_and!.
  - do 2 eexists. split; [done|]. cbn [ssl_]. rewrite release_ok by set_solver. cbn [mbind result_bind foldl].
    rewrite release_ok by set_solver. cbn [mbind result_bind]. rewrite release_ok by set_solver. f_equal. set_solver.
  - rewrite release_ok by set_solver. cbn [mbind result_bind foldl]. rewrite release_ok by set_solver.
    cbn [mbind result_bind ssl_]. unfold release. by rewrite bool_decide_false by set_solver.
  - rewrite release_ok by set_solver. cbn [mbind result_bind foldl ssl_]. unfold release.
    by rewrite bool_decide_false by set_solver.
Qed.
Lemma transport_memory_witness : Transport_New (Some 1) (Some 2) None {[9]} = Fault WildPointer.
Proof. apply (transport_memory 1 2 3 {[9]}); set_solver. Defined.
