(* ===== verification/Srtp.v ===== *)
(** * SRTP sessions: webrtc/rtp/srtp_session.{h,cc}

    The session object is libsrtp's and a parameter, as the record of the
    calls the wrapper makes.  The protection calls work in place: they are
    given the memory, the position of the packet in it and its size, and give
    back the memory and the new size. *)

From Stdlib Require Import ZArith Lia Bool.
From stdpp Require Import base numbers list.
From S2P Require Import Prelude Types StringPiece Dtls.

Inductive Type_ : Type := kInBound | kOutBound.

(** The policy the wrapper fills: cipher suite, direction, key and window. *)
Inductive Cipher : Type := aes_gcm_128_16_auth | aes_cm_128_hmac_sha1_80.
Record srtp_policy : Type := mk_policy {
  p_cipher : Cipher;
  p_type : Type_;
  p_key : list Z;
  p_allow_repeat_tx : Z;
  p_window_size : Z;
}.
(** [cipher_key_len] as the policy setters of libsrtp fill it: a 16-byte key
    with a salt of 12 or 14 bytes. *)
Definition cipher_key_len (c : Cipher) : Z :=
  match c with aes_gcm_128_16_auth => 28 | aes_cm_128_hmac_sha1_80 => 30 end.

(** A call's status, memory and size. *)
Record SrtpLib (T : Type) : Type := mk_srtplib {
  srtp_create : srtp_policy → option T;
  srtp_protect : T → list Z → Z → Z → T * bool * list Z * Z;
  srtp_unprotect : T → list Z → Z → Z → T * bool * list Z * Z;
  srtp_protect_rtcp : T → list Z → Z → Z → T * bool * list Z * Z;
  srtp_unprotect_rtcp : T → list Z → Z → Z → T * bool * list Z * Z;
}.
Arguments srtp_create {T} s policy.
Arguments srtp_protect {T} s session mem p n.
Arguments srtp_unprotect {T} s session mem p n.
Arguments srtp_protect_rtcp {T} s session mem p n.
Arguments srtp_unprotect_rtcp {T} s session mem p n.

(** [SRTP_MAX_TRAILER_LEN]: how far a protection call may extend a packet. *)
Definition SRTP_MAX_TRAILER_LEN : Z := 144.

Section session.
Context {T : Type} (lib : SrtpLib T).

Definition cipher_of (use_srtp : list Z) : option Cipher :=
  if bool_decide (use_srtp = SRTP_AEAD_AES_128_GCM) then Some aes_gcm_128_16_auth
  else if bool_decide (use_srtp = SRTP_AES128_CM_SHA1_80) then Some aes_cm_128_hmac_sha1_80
  else None.

Definition New (type : Type_) (use_srtp : list Z) (key : StringPiece) : option T :=
  match cipher_of use_srtp with
  | None => None
  | Some c =>
      if bool_decide (sp_size key ≠ cipher_key_len c) then None
      else srtp_create lib (mk_policy c type (AsString key) 1 1024)
  end.

(** The four wrappers differ in the call only; the slice is in and out. *)
Definition wrap (call : T → list Z → Z → Z → T * bool * list Z * Z) (session : T)
    (packet : StringPiece) : T * StringPiece * bool :=
  let '(session, ok, mem, size) := call session (sp_mem packet) (ptr_ packet) (sp_size packet) in
  if negb ok || bool_decide (size <= 0)
  then (session, mk_sp mem (ptr_ packet) (sp_size packet), false)
  else (session, sp_set packet mem (ptr_ packet) size, true).

(** A protection call may write that far past the packet, so a slice with
    less room in its object is an access outside it. *)
Definition protect (call : T → list Z → Z → Z → T * bool * list Z * Z) (session : T)
    (packet : StringPiece) : result (T * StringPiece * bool) :=
  if bool_decide (sp_end packet + SRTP_MAX_TRAILER_LEN <= zlen (sp_mem packet))
  then Ret (wrap call session packet) else Fault OutOfBounds.

Definition EncryptRtp : T → StringPiece → result (T * StringPiece * bool) := protect (srtp_protect lib).
Definition DecryptRtp : T → StringPiece → T * StringPiece * bool := wrap (srtp_unprotect lib).
Definition EncryptRtcp : T → StringPiece → result (T * StringPiece * bool) := protect (srtp_protect_rtcp lib).
Definition DecryptRtcp : T → StringPiece → T * StringPiece * bool := wrap (srtp_unprotect_rtcp lib).
End session.

(** ** What libsrtp documents *)
(** An unprotection call does not lengthen the packet. *)
Definition shrinks {T} (call : T → list Z → Z → Z → T * bool * list Z * Z) : Prop :=
  ∀ s mem p n s' ok mem' n',
    0 <= p → 0 <= n → p + n <= zlen mem → bytes_ok mem →
    call s mem p n = (s', ok, mem', n') → zlen mem' = zlen mem ∧ bytes_ok mem' ∧ n' <= n.

(** A protection call lengthens it by at most the trailer. *)
Definition grows {T} (call : T → list Z → Z → Z → T * bool * list Z * Z) : Prop :=
  ∀ s mem p n s' ok mem' n', call s mem p n = (s', ok, mem', n') → n' <= n + SRTP_MAX_TRAILER_LEN.
Record srtp_ok {T} (lib : SrtpLib T) : Prop := {
  so_unprotect : shrinks (srtp_unprotect lib);
  so_unprotect_rtcp : shrinks (srtp_unprotect_rtcp lib);
  so_protect : grows (srtp_protect lib);
  so_protect_rtcp : grows (srtp_protect_rtcp lib);
}.

Lemma wrap_shrinks {T} (call : T → list Z → Z → Z → T * bool * list Z * Z) s packet s' packet' ok :
  shrinks call → sp_wf packet → bytes_ok (sp_mem packet) → wrap call s packet = (s', packet', ok) →
  sp_wf packet' ∧ bytes_ok (sp_mem packet') ∧ zlen (sp_mem packet') = zlen (sp_mem packet) ∧
  ptr_ packet' = ptr_ packet ∧ sp_size packet' <= sp_size packet ∧ (ok = true → 0 < sp_size packet').
Proof.
  intros Hc (H1 & H2 & H3) Hb. unfold wrap.
  destruct (call s (sp_mem packet) (ptr_ packet) (sp_size packet)) as [[[x st] mem] n] eqn:E.
  destruct (Hc _ _ _ _ _ _ _ _ H1 H2 H3 Hb E) as (Hm & Hbm & Hn).
  destruct (negb st || bool_decide (n <= 0)) eqn:F; intros [= <- <- <-]; unfold sp_wf, sp_size, sp_set in *; cbn.
  - rewrite Hm. split_and!; done || lia.
  - apply orb_false_iff in F as [_ F%bool_decide_eq_false]. rewrite Hm. split_and!; done || lia.
Qed.
Lemma wrap_grows {T} (call : T → list Z → Z → Z → T * bool * list Z * Z) s packet s' packet' ok :
  grows call → 0 <= sp_size packet → wrap call s packet = (s', packet', ok) →
  zlen (AsString packet') <= sp_size packet + SRTP_MAX_TRAILER_LEN.
Proof.
  intros Hc Hn. unfold wrap. destruct (call s (sp_mem packet) (ptr_ packet) (sp_size packet)) as [[[x st] mem] n] eqn:E.
  pose proof (Hc _ _ _ _ _ _ _ _ E) as Hle. unfold SRTP_MAX_TRAILER_LEN in *.
  assert (Hs : ∀ q, zlen (AsString q) <= Z.max 0 (length_ q)).
  { intros q. unfold AsString, zlen, ztake. rewrite length_take. lia. }
  destruct (negb st || bool_decide (n <= 0)); intros [= <- <- <-]; (etrans; [apply Hs|]); cbn; lia.
Qed.

(** The two components agree on the key sizes: with the profile name and
    the masters of a connected DTLS transport, [New] passes its own checks in
    both directions and hands libsrtp a key of the cipher's length, so it fails
    only when [srtp_create] does. *)
Theorem New_accepts_dtls_keys {T SSL} (lib : SrtpLib T) (d : DtlsTransport SSL) type :
  keyed d → arrays_ok d →
  ∃ c key, cipher_of (use_srtp_ d) = Some c ∧
    AsString (srtp_local_master d) = ztake (cipher_key_len c) (srtp_local_master_ d) ∧
    zlen (AsString (srtp_local_master d)) = cipher_key_len c ∧
    New lib type (use_srtp_ d) (srtp_local_master d) =
      srtp_create lib (mk_policy c type (AsString (srtp_local_master d)) 1 1024) ∧
    New lib type (use_srtp_ d) (srtp_remote_master d) = srtp_create lib (mk_policy c type key 1 1024) ∧
    key = AsString (srtp_remote_master d).
Proof.
  intros (k & sl & Hp & Hl) [A1 A2]. unfold New, cipher_of. revert Hp. unfold profile_lengths.
  assert (H : ∀ n, srtp_master_len_ d = n → 0 <= n <= 64 →
    sp_size (srtp_local_master d) = n ∧ sp_size (srtp_remote_master d) = n ∧
    AsString (srtp_local_master d) = ztake n (srtp_local_master_ d) ∧
    zlen (ztake n (srtp_local_master_ d)) = n).
  { intros n <- Hn. split_and!; [done|done|done|]. apply zlen_ztake. lia. }
  destruct (bool_decide (use_srtp_ d = SRTP_AEAD_AES_128_GCM));
    [|destruct (bool_decide (use_srtp_ d = SRTP_AES128_CM_SHA1_80)); [|done]]; intros [= <- <-];
    destruct (H _ Hl) as (E1 & E2 & E3 & E4); [lia| |lia|];
    [exists aes_gcm_128_16_auth|exists aes_cm_128_hmac_sha1_80]; exists (AsString (srtp_remote_master d));
    cbn [cipher_key_len]; rewrite E1, E2, E3; rewrite bool_decide_false by lia; by split_and!.
Qed.

(** A library that adds and removes a four-byte tag. *)
Definition sample_lib : SrtpLib unit := {|
  srtp_create _ := Some tt;
  srtp_protect s mem p n := (s, true, mem, n + 4);
  srtp_unprotect s mem p n := (s, bool_decide (4 < n), mem, n - 4);
  srtp_protect_rtcp s mem p n := (s, true, mem, n + 4);
  srtp_unprotect_rtcp s mem p n := (s, bool_decide (4 < n), mem, n - 4);
|}.
Lemma sample_lib_ok : srtp_ok sample_lib.
Proof.
  constructor; [intros s mem p n s' ok mem' n' Hp Hn Hl Hb; cbn; intros [= <- <- <- <-]; split_and!; done || lia..| |];
    intros s mem p n s' ok mem' n'; cbn; intros [= <- <- <- <-]; unfold SRTP_MAX_TRAILER_LEN; lia.
Qed.

Definition connected_transport : DtlsTransport Z :=
  mk_dtls 2 CONNECTED SERVER true true SRTP_AES128_CM_SHA1_80 (seqZ 0 64) (seqZ 0 64) 30 None [].
Lemma New_accepts_dtls_keys_witness :
  New sample_lib kInBound (use_srtp_ connected_transport) (srtp_remote_master connected_transport) = Some tt.
Proof.
  destruct (New_accepts_dtls_keys sample_lib connected_transport kInBound) as (c & key & _ & _ & _ & _ & E & _).
  - exists 16, 14. done.
  - done.
  - rewrite E. done.
Defined.
