(* ===== verification/PeerConnection.v ===== *)
(** * Peer connections: webrtc/pc/peer_connection.{h,cc}

    [ProcessPacket] tells STUN, DTLS, RTCP and RTP apart and drives the ICE
    server, the DTLS transport and the SRTP sessions; [ProcessRtcp] walks a
    compound packet; [SendPli] asks for a key frame.  What [AsyncSend] is
    given is collected in [pc_sent].  OpenSSL, libsrtp and HMAC-SHA1 are
    parameters. *)

From Stdlib Require Import ZArith Lia Bool.
From stdpp Require Import base numbers relations list.
From S2P Require Import Prelude Types StringPiece Buffer Logger InetAddress Crc32 Stun StunPack StunDump Ice.
From S2P Require Import Rtp Rtcp Dtls Srtp Sdp.

(** ** ProcessRtcp *)

(** One sub-packet: only the decoders have an effect that can fail. *)
Definition dispatch_rtcp (packet : StringPiece) (header : CommonHeader) : result unit :=
  if bool_decide (Rtcp.type_ header = SR) then _ ← Sr_Decode packet SrPacket_new; Ret tt
  else if bool_decide (Rtcp.type_ header = RR) then _ ← Rr_Decode packet RrPacket_new; Ret tt
  else if bool_decide (Rtcp.type_ header = SDES) then _ ← Sdes_Decode packet SdesPacket_new; Ret tt
  else if bool_decide (Rtcp.type_ header = PSFB) then
    if bool_decide (Rtcp.count header = PLI) then _ ← Pli_Decode packet PliPsFb_new; Ret tt
    else Ret tt
  else Ret tt.

(** [data] is the distance walked, [len] what is left; [packet] stays. *)
Fixpoint rtcp_loop (fuel : nat) (packet : StringPiece) (data len : Z) : result Z :=
  match fuel with
  | O => OutOfFuel
  | S fuel =>
      if bool_decide (len > 0) then
        is_rtcp ← IsRtcp packet;
        if negb is_rtcp then Ret (-1)
        else
          header ← load_common (sp_mem packet) (ptr_ packet + data);
          let packet_len := (NetworkToHost16 (length_w header) + 1) * 4 in
          if bool_decide (len < packet_len) then Ret (-1)
          else
            _ ← dispatch_rtcp packet header;
            rtcp_loop fuel packet (data + packet_len) (len - packet_len)
      else Ret 0
  end.
Definition ProcessRtcp (packet : StringPiece) : result Z :=
  rtcp_loop (S (Z.to_nat (sp_size packet))) packet 0 (sp_size packet).

(** [atoi]: white space, a sign, digits; a value that is no [int] is
    undefined. *)
Definition atoi (text : list Z) : result Z :=
  let l := skip_space (ztake (strlen text) text) in
  let '(neg, l) := match l with 45 :: l' => (true, l') | 43 :: l' => (false, l') | _ => (false, l) end in
  let v := dec_val (digit_prefix l) in
  let v := if (neg : bool) then - v else v in
  if bool_decide (- 2 ^ 31 <= v <= INT_MAX) then Ret v else Fault SignedOverflow.

Section connection.
Context {SSL T : Type} (o : OpenSSL SSL) (lib : SrtpLib T).
Context (hmac_sha1 : list Z → list Z → list Z).
(** A new SSL object with its BIOs, if OpenSSL can allocate it. *)
Context (SSL_new : option SSL).
(** [WebRTCSettings::local_sdp().net_.ice_pwd_] *)
Context (local_ice_pwd : list Z).
(** What the log statement of a packet's dump finds. *)
Context (lc : LogCtx).

Record PeerConnection : Type := mk_pc {
  addr_ : InetAddress;
  pli_timer_ : option Z;
  established_ : bool;
  sdp_ : SdpMessage;
  ice_ : option IceServer;
  dtls_ : option (DtlsTransport SSL);
  srtp_send_session_ : option T;
  srtp_recv_session_ : option T;
  pc_sent : list (list Z);
}.

Definition PeerConnection_new (sdp : SdpMessage) (addr : InetAddress) : PeerConnection :=
  mk_pc addr None false sdp None None None None [].

Definition AsyncSend (text : list Z) (pc : PeerConnection) : PeerConnection :=
  mk_pc (addr_ pc) (pli_timer_ pc) (established_ pc) (sdp_ pc) (ice_ pc) (dtls_ pc)
    (srtp_send_session_ pc) (srtp_recv_session_ pc) (pc_sent pc ++ [text]).
(** Components hold what they sent since the connection last took it. *)
Definition clear_sent (d : DtlsTransport SSL) : DtlsTransport SSL :=
  mk_dtls (ssl_ d) (state_ d) (role_ d) (HandshakeDone_ d) (ExtractSrtpKey_ d) (use_srtp_ d)
    (srtp_local_master_ d) (srtp_remote_master_ d) (srtp_master_len_ d) (timer_ d) [].
Definition set_ice (ice : IceServer) (pc : PeerConnection) : PeerConnection :=
  mk_pc (addr_ pc) (pli_timer_ pc) (established_ pc) (sdp_ pc)
    (Some (mk_ice (pc_addr ice) (ice_state_ ice) (ice_password_ ice) (send_buf_ ice) []))
    (dtls_ pc) (srtp_send_session_ pc) (srtp_recv_session_ pc) (pc_sent pc ++ ice_sent ice).
Definition set_dtls (d : DtlsTransport SSL) (pc : PeerConnection) : PeerConnection :=
  mk_pc (addr_ pc) (pli_timer_ pc) (established_ pc) (sdp_ pc) (ice_ pc)
    (Some (clear_sent d)) (srtp_send_session_ pc) (srtp_recv_session_ pc) (pc_sent pc ++ dt_sent d).
Definition set_send (s : T) (pc : PeerConnection) : PeerConnection :=
  mk_pc (addr_ pc) (pli_timer_ pc) (established_ pc) (sdp_ pc) (ice_ pc) (dtls_ pc)
    (Some s) (srtp_recv_session_ pc) (pc_sent pc).
Definition set_recv (s : T) (pc : PeerConnection) : PeerConnection :=
  mk_pc (addr_ pc) (pli_timer_ pc) (established_ pc) (sdp_ pc) (ice_ pc) (dtls_ pc)
    (srtp_send_session_ pc) (Some s) (pc_sent pc).

(** [sdp_.tracks_[0].ssrc_group_[0]] *)
Definition first_ssrc (sdp : SdpMessage) : result (list Z) :=
  match tracks_ sdp with
  | track :: _ => match ssrc_group_ track with s :: _ => Ret s | [] => Fault OutOfBounds end
  | [] => Fault OutOfBounds
  end.

Definition SendPli (pc : PeerConnection) : result PeerConnection :=
  media_ssrc ← first_ssrc (sdp_ pc);
  n ← atoi media_ssrc;
  let pli := mk_pli (mk_common 1 0 2 206 2) (mk_fb 1234 (u32 n)) in
  '(pli_packet, _) ← Pli_Encode (StringPiece_len (replicate 1500 0) 0 1500) pli;
  match srtp_send_session_ pc with
  | None => Fault NullDeref
  | Some s =>
      '(s, pli_packet, _) ← EncryptRtcp lib s pli_packet;
      Ret (AsyncSend (AsString pli_packet) (set_send s pc))
  end.

(** The timer's callback: it sends and runs again after two seconds. *)
Definition OnPliTimer (pc : PeerConnection) : result (PeerConnection * Z) :=
  pc ← SendPli pc;
  Ret (pc, 1000 * 2).

(** From "handle rtp and rtcp" on, for a connected transport. *)
Definition create_sessions (d : DtlsTransport SSL) (pc : PeerConnection) : PeerConnection * bool :=
  let '(pc, ok) :=
    match srtp_send_session_ pc with
    | Some _ => (pc, true)
    | None =>
        match New lib kOutBound (use_srtp_ d) (srtp_local_master d) with
        | Some s => (set_send s pc, true)
        | None => (pc, false)
        end
    end in
  if negb ok then (pc, false)
  else
    match srtp_recv_session_ pc with
    | Some _ => (pc, true)
    | None =>
        match New lib kInBound (use_srtp_ d) (srtp_remote_master d) with
        | Some s => (set_recv s pc, true)
        | None => (pc, false)
        end
    end.

Definition establish (pc : PeerConnection) : result PeerConnection :=
  if negb (established_ pc) then
    pc ← SendPli pc;
    Ret (mk_pc (addr_ pc) (Some 2000) true (sdp_ pc) (ice_ pc) (dtls_ pc)
           (srtp_send_session_ pc) (srtp_recv_session_ pc) (pc_sent pc))
  else Ret pc.

Definition handle_rtcp (packet : StringPiece) (pc : PeerConnection) : result (PeerConnection * Z) :=
  match srtp_recv_session_ pc with
  | None => Fault NullDeref
  | Some s =>
      let '(s, packet, ok) := DecryptRtcp lib s packet in
      let pc := set_recv s pc in
      if negb ok then Ret (pc, -1)
      else r ← ProcessRtcp packet; Ret (pc, r)
  end.

Definition echo_rtp (packet : StringPiece) (pc : PeerConnection) : result (PeerConnection * Z) :=
  match srtp_send_session_ pc with
  | None => Fault NullDeref
  | Some s =>
      '(s, packet, ok) ← EncryptRtp lib s packet;
      let pc := set_send s pc in
      if negb ok then Ret (pc, -1) else Ret (AsyncSend (AsString packet) pc, 0)
  end.

(** A decrypted packet goes back to its sender under the local SSRC. *)
Definition decrypted_rtp (packet : StringPiece) (pc : PeerConnection) : result (PeerConnection * Z) :=
  '(_, val) ← Rtp.Decode packet RtpPacket_new;
  if bool_decide (val < 0) then Ret (pc, 0)
  else
    mem ← Types.store (sp_mem packet) (ptr_ packet + 8) (le_bytes 4 (HostToNetwork32 1234));
    echo_rtp (mk_sp mem (ptr_ packet) (length_ packet)) pc.

Definition handle_rtp (packet : StringPiece) (pc : PeerConnection) : result (PeerConnection * Z) :=
  match srtp_recv_session_ pc with
  | None => Fault NullDeref
  | Some s =>
      let '(s, packet, ok) := DecryptRtp lib s packet in
      let pc := set_recv s pc in
      if negb ok then Ret (pc, -1) else decrypted_rtp packet pc
  end.

Definition handle_media (packet : StringPiece) (d : DtlsTransport SSL) (pc : PeerConnection)
    : result (PeerConnection * Z) :=
  let '(pc, ok) := create_sessions d pc in
  if negb ok then Ret (pc, -1)
  else
    pc ← establish pc;
    is_rtcp ← IsRtcp packet;
    if (is_rtcp : bool) then handle_rtcp packet pc
    else
      is_rtp ← IsRtp packet;
      if (is_rtp : bool) then handle_rtp packet pc else Ret (pc, 0).

(** The part for everything but STUN, once ICE is connected. *)
Definition handle_secure (packet : StringPiece) (pc : PeerConnection) : result (PeerConnection * Z) :=
  '(pc, d) ← match dtls_ pc with
             | Some d => Ret (pc, d)
             | None =>
                 match SSL_new with
                 | None => Fault NullDeref
                 | Some s =>
                     d ← Initialize o 3 SERVER (DtlsTransport_new s SERVER);
                     Ret (set_dtls d pc, d)
                 end
             end;
  is_dtls ← IsDtls packet;
  if (is_dtls : bool) then
    d ← ProcessDtlsPacket o 3 packet (clear_sent d);
    Ret (set_dtls d pc, 0)
  else if negb (is_running d) then Ret (pc, -1)
  else if negb (Dtls.is_connected d) then Ret (pc, 0)
  else handle_media packet d pc.

Definition ProcessPacket (packet : StringPiece) (pc : PeerConnection) : result (PeerConnection * Z) :=
  let ice := match ice_ pc with
             | Some ice => mk_ice (addr_ pc) (ice_state_ ice) (ice_password_ ice) (send_buf_ ice) []
             | None => IceServer_new (addr_ pc) local_ice_pwd
             end in
  let pc := set_ice ice pc in
  is_stun ← IsStun packet;
  if (is_stun : bool) then
    ice ← ProcessStunPacket hmac_sha1 lc ice packet;
    Ret (set_ice ice pc, 0)
  else if negb (Ice.is_connected ice) then Ret (pc, 0)
  else handle_secure packet pc.
End connection.

(** ** Telling packets apart *)
Section demux.
Context (packet : StringPiece) (Hwf : sp_wf packet) (Hok : bytes_ok (AsString packet)).
Let l := AsString packet.
Let len := sp_size packet.

Lemma IsDtls_ok :
  IsDtls packet = Ret (match l with b0 :: _ => bool_decide (13 <= len) && bool_decide (19 < b0 < 64)
                                 | [] => false end).
Proof.
  pose proof (packet_len packet Hwf) as Hlen. fold l len in Hlen. unfold IsDtls. fold len.
  destruct (bool_decide_reflect (len >= 13)); cbn [and_then]; cycle 1.
  { rewrite bool_decide_false by lia. by destruct l. }
  rewrite packet_index by (done || fold len; lia). fold l. destruct l as [|b0 r]; [zlen_simp; lia|].
  rewrite rd_cons_0. cbn [mbind result_bind]. rewrite (bool_decide_true (13 <= len)) by lia. cbn [andb].
  do 1 f_equal. bool_cases; done || lia.
Qed.

Lemma IsRtp_total :
  IsRtp packet = Ret (match l with b0 :: _ => bool_decide (12 <= len) && bool_decide (128 <= b0 < 192)
                                | [] => false end).
Proof.
  pose proof (packet_len packet Hwf) as Hlen. fold l len in Hlen.
  destruct (decide (12 <= len)) as [Hs|Hs].
  - destruct l as [|b0 [|b1 tl]] eqn:Hl; [zlen_simp; lia..|].
    rewrite (IsRtp_ok packet Hwf Hok b0 b1 tl Hl) by (fold len; lia). by rewrite (bool_decide_true (12 <= len)) by lia.
  - unfold IsRtp, Rtp.kHeaderSize. rewrite (bool_decide_false (sp_size packet >= 12)) by (fold len; lia).
    cbn [and_then]. rewrite (bool_decide_false (12 <= len)) by lia. by destruct l.
Qed.

Lemma IsStun_first : ∃ b, IsStun packet = Ret b ∧ (b = true → ∃ b0 r, l = b0 :: r ∧ b0 < 3).
Proof.
  destruct (IsStun_ok packet Hwf Hok) as (b & -> & Hb). exists b. split; [done|].
  intros (Hlen & Hv & _)%Hb. pose proof (packet_len packet Hwf) as Hz.
  fold l in Hz, Hv. assert (Hb' : bytes_ok l) by done.
  destruct l as [|b0 [|b1 r]]; [zlen_simp; lia..|]. exists b0, (b1 :: r). split; [done|].
  change (ztake 2 (b0 :: b1 :: r)) with [b0; b1] in Hv. unfold be_val in Hv.
  change (le_val (reverse [b0; b1])) with (b1 + 256 * (b0 + 256 * 0)) in Hv.
  apply bytes_ok_cons in Hb' as [H0 [H1 _]%bytes_ok_cons]. unfold_u.
  Z.to_euclidean_division_equations. lia.
Qed.
End demux.

(** The classes do not overlap: a STUN packet is neither DTLS nor RTP nor RTCP,
    and a DTLS packet is neither RTP nor RTCP. *)
Lemma tests_exclusive packet :
  sp_wf packet → bytes_ok (AsString packet) →
  ∃ stun dtls rtp rtcp, IsStun packet = Ret stun ∧ IsDtls packet = Ret dtls ∧
    IsRtp packet = Ret rtp ∧ IsRtcp packet = Ret rtcp ∧
    (stun = true → dtls = false ∧ rtp = false ∧ rtcp = false) ∧
    (dtls = true → rtp = false ∧ rtcp = false).
Proof.
  intros Hwf Hok. destruct (IsStun_first packet Hwf Hok) as (stun & -> & Hs).
  rewrite (IsDtls_ok packet Hwf), (IsRtp_total packet Hwf Hok), (IsRtcp_ok packet Hwf Hok).
  do 4 eexists. split_and!; try done.
  - intros (b0 & r & -> & Hb)%Hs. rewrite (bool_decide_false (128 <= b0 < 192)), (bool_decide_false (19 < b0 < 64)) by lia.
    rewrite !andb_false_r. split_and!; [done..|]. by destruct r as [|? [|? [|? ?]]].
  - destruct (AsString packet) as [|b0 r]; [done|]. intros [_ H%bool_decide_eq_true]%andb_true_iff.
    rewrite (bool_decide_false (128 <= b0 < 192)) by lia. rewrite !andb_false_r. split; [done|].
    by destruct r as [|? [|? [|? ?]]].
Qed.

(** The protocols whose test accepts a packet, in the order in which
    [ProcessPacket] tries them. *)
Inductive protocol : Type :=
  | P_Stun
  | P_Dtls
  | P_Rtcp
  | P_Rtp.
Definition protocols (packet : StringPiece) : result (list protocol) :=
  is_stun ← IsStun packet;
  is_dtls ← IsDtls packet;
  is_rtcp ← IsRtcp packet;
  is_rtp ← IsRtp packet;
  Ret ((if (is_stun : bool) then [P_Stun] else []) ++ (if (is_dtls : bool) then [P_Dtls] else []) ++
       (if (is_rtcp : bool) then [P_Rtcp] else []) ++ (if (is_rtp : bool) then [P_Rtp] else [])).

(** Every slice is classified without a read outside it, and by at most one
    protocol, except that an RTCP packet may also pass the test for RTP, which
    is tried after it. *)
Theorem demux_exclusive packet :
  sp_wf packet → bytes_ok (AsString packet) →
  ∃ l, protocols packet = Ret l ∧ l ∈ [[]; [P_Stun]; [P_Dtls]; [P_Rtcp]; [P_Rtp]; [P_Rtcp; P_Rtp]].
Proof.
  intros Hwf Hok. unfold protocols.
  destruct (tests_exclusive packet Hwf Hok) as (s & d & p & c & -> & -> & -> & -> & H1 & H2).
  cbn [mbind result_bind]. eexists. split; [done|]. rewrite !elem_of_cons.
  destruct s; [destruct (H1 eq_refl) as (-> & -> & ->); auto|].
  destruct d; [destruct (H2 eq_refl) as (-> & ->); auto|]. destruct c, p; cbn; auto 10.
Qed.

Lemma demux_exclusive_witness :
  ∃ l, protocols hello = Ret l ∧ l ∈ [[]; [P_Stun]; [P_Dtls]; [P_Rtcp]; [P_Rtp]; [P_Rtcp; P_Rtp]].
Proof.
  apply (demux_exclusive hello).
  - apply sp_wf_string.
  - apply (bool_decide_unpack _). vm_compute. exact I.
Defined.

(** ** Compound RTCP *)

(** The types met when the headers are followed, and whether they end exactly
    at the end of the text. *)
Fixpoint walk (n : nat) (l : list Z) : list Z * bool :=
  match n with
  | O => ([], true)
  | S n =>
      match l with
      | [] => ([], true)
      | _ :: t :: _ =>
          let k := (be_val (ztake 2 (zdrop 2 l)) + 1) * 4 in
          if bool_decide (zlen l < k) then ([], false)
          else let '(ts, ok) := walk n (zdrop k l) in (t :: ts, ok)
      | _ => ([], false)
      end
  end.
Definition rtcp_walk (l : list Z) : list Z * bool := walk (length l) l.

Definition rtcp_head (l : list Z) : bool :=
  match l with
  | b0 :: t :: _ :: _ :: _ => bool_decide (128 <= b0 < 192) && bool_decide (192 <= t <= 223)
  | _ => false
  end.

Section compound.
Context (packet : StringPiece) (Hwf : sp_wf packet) (Hok : bytes_ok (AsString packet)).
Let l := AsString packet.
Let len := sp_size packet.

Lemma dispatch_rtcp_ok header : Rtcp.type_ header ≠ SDES → dispatch_rtcp packet header = Ret tt.
Proof.
  intros Hs. unfold dispatch_rtcp. rewrite (bool_decide_false (Rtcp.type_ header = SDES)) by done.
  pose proof (Sr_Decode_ok packet SrPacket_new Hwf Hok) as Hsr.
  pose proof (Rr_Decode_ok packet RrPacket_new Hwf Hok) as Hrr.
  destruct (bool_decide (Rtcp.type_ header = SR)).
  { destruct (bool_decide _) in Hsr; [by rewrite Hsr|]. destruct Hsr as (?&?&?&?& -> &_). done. }
  destruct (bool_decide (Rtcp.type_ header = RR)).
  { destruct (bool_decide _) in Hrr; [by rewrite Hrr|]. destruct Hrr as (?&?&?&?& -> &_). done. }
  destruct (bool_decide (Rtcp.type_ header = PSFB)); [|done].
  destruct (bool_decide (Rtcp.count header = PLI)); [|done].
  destruct (decide (sp_size packet = 12)) as [E|E].
  - destruct (Pli_Decode_ok packet PliPsFb_new Hwf Hok E) as (p & -> & _). done.
  - unfold Pli_Decode, kCommonHeaderSize, kFeedbackHeaderSize. by rewrite bool_decide_true by lia.
Qed.

(** The header at distance [i]: its type and its length in bytes. *)
Lemma header_at i :
  0 <= i → i + 4 <= len →
  ∃ raw a r, load_common (sp_mem packet) (ptr_ packet + i) = Ret raw ∧
    zdrop i l = a :: Rtcp.type_ raw :: r ∧
    NetworkToHost16 (length_w raw) = be_val (ztake 2 (zdrop 2 (zdrop i l))) ∧
    is_u16 (NetworkToHost16 (length_w raw)).
Proof.
  intros Hi Hlen. set (sub := mk_sp (sp_mem packet) (ptr_ packet + i) (len - i)).
  assert (Hsub : sp_wf sub) by (apply sp_wf_mk; unfold len, sp_size in *; done || lia).
  assert (Ht : AsString sub = zdrop i l).
  { unfold sub, len, sp_size. rewrite AsString_mk by (unfold len, sp_size in *; done || lia).
    apply ztake_ge. pose proof (packet_len packet Hwf) as Hz. fold l in Hz. unfold sp_size in Hz.
    rewrite zlen_zdrop; unfold len, sp_size in *; fold l; lia. }
  destruct (common_header_ok sub Hsub) as (raw & h & Hrun & <- & Hh & Hw).
  { rewrite Ht. unfold l. auto with baize. }
  { unfold sub, sp_size. cbn. lia. }
  rewrite Ht in Hw. pose proof (packet_len packet Hwf) as Hz. fold l len in Hz.
  assert (Hzl : zlen (zdrop i l) = len - i) by (apply zlen_zdrop || rewrite zlen_zdrop; lia).
  destruct (zdrop i l) as [|a [|t [|x [|y r]]]] eqn:E; [zlen_simp; lia..|].
  change (ztake 4 (a :: t :: x :: y :: r)) with ([a; t] ++ [x; y]) in Hw. unfold wire_common in Hw.
  apply app_inj_zlen in Hw as [Hw1 Hw2]; [|done]. injection Hw1 as _ Hw1.
  cbn [Rtcp.type_ set_length length_w] in *. subst t.
  exists raw, a, (x :: y :: r). split_and!; [done|done| |apply Hh].
  change (ztake 2 (zdrop 2 (a :: Rtcp.type_ raw :: x :: y :: r))) with [x; y]. rewrite Hw2.
  symmetry. apply be_val_u16, Hh.
Qed.

Lemma rtcp_loop_ok fuel m i :
  0 <= i <= len → (len - i) mod 4 = 0 → len - i < Z.of_nat fuel → len - i <= Z.of_nat m →
  SDES ∉ fst (walk m (zdrop i l)) →
  rtcp_loop fuel packet i (len - i) =
  Ret (if bool_decide (len - i = 0) then 0
       else if rtcp_head l && snd (walk m (zdrop i l)) then 0 else -1).
Proof.
  revert m i. induction fuel as [|fuel IH]; intros m i Hi H4 Hf Hm Hsdes; [lia|].
  cbn [rtcp_loop]. destruct (bool_decide_reflect (len - i > 0)) as [Hp|Hp]; cycle 1.
  { by rewrite bool_decide_true by lia. }
  rewrite (bool_decide_false (len - i = 0)) by lia.
  rewrite (IsRtcp_ok packet Hwf Hok). fold l. fold (rtcp_head l). cbn [mbind result_bind].
  destruct (rtcp_head l) eqn:Hh; cbn [negb andb]; [|done].
  destruct (header_at i) as (raw & a & r & -> & Hd & Hn & Hu); [lia|Z.to_euclidean_division_equations; lia|].
  cbn [mbind result_bind]. destruct m as [|m]; [lia|].
  assert (Hz : zlen (zdrop i l) = len - i).
  { rewrite zlen_zdrop; unfold l; rewrite packet_len; fold len; done || lia. }
  cbn [walk] in Hsdes |- *. rewrite Hd in Hsdes |- *. rewrite <-Hd in Hsdes |- *. rewrite Hz, <-Hn in Hsdes |- *.
  set (k := (NetworkToHost16 (length_w raw) + 1) * 4) in *.
  destruct (bool_decide_reflect (len - i < k)) as [Hk|Hk]; [done|].
  rewrite zdrop_zdrop in Hsdes |- * by (unfold k; unfold_u; lia).
  destruct (walk m (zdrop (i + k) l)) as [ts ok] eqn:Ew. cbn [fst snd] in Hsdes |- *.
  apply not_elem_of_cons in Hsdes as [Ht Hts].
  rewrite dispatch_rtcp_ok by congruence. cbn [mbind result_bind].
  replace (len - i - k) with (len - (i + k)) by lia.
  rewrite (IH m (i + k)); [|unfold k; unfold_u; lia|unfold k; Z.to_euclidean_division_equations; lia|
    unfold k; unfold_u; lia|unfold k; unfold_u; lia|by rewrite Ew].
  rewrite Ew, ?Hh. cbn [snd andb]. destruct (bool_decide_reflect (len - (i + k) = 0)) as [E|E]; [|done].
  assert (zdrop (i + k) l = []) as E0.
  { apply zdrop_ge. unfold l. rewrite packet_len by done. fold len. lia. }
  rewrite E0 in Ew. destruct m; injection Ew as <- <-; done.
Qed.
End compound.

Lemma ProcessRtcp_ok packet :
  sp_wf packet → bytes_ok (AsString packet) → sp_size packet mod 4 = 0 →
  SDES ∉ fst (rtcp_walk (AsString packet)) →
  ProcessRtcp packet =
  Ret (if bool_decide (sp_size packet = 0) then 0
       else if rtcp_head (AsString packet) && snd (rtcp_walk (AsString packet)) then 0 else -1).
Proof.
  intros Hwf Hok H4 Hs. unfold ProcessRtcp, rtcp_walk in *. pose proof (packet_len packet Hwf) as Hl.
  pose proof (zlen_nonneg (AsString packet)). unfold zlen in Hl, H.
  pose proof (rtcp_loop_ok packet Hwf Hok (S (Z.to_nat (sp_size packet))) (length (AsString packet)) 0) as E.
  rewrite zdrop_0, Z.sub_0_r in E. rewrite E; [done|lia|done|lia|lia|done].
Qed.

(** C35: on a compound packet whose size is a multiple of four and that has no
    source description, [ProcessRtcp] ends without leaving the packet; it
    returns 0 exactly when the packet is empty, or starts as RTCP and its
    length fields lead from header to header exactly to its end. *)
Theorem ProcessRtcp_correct packet :
  sp_wf packet → bytes_ok (AsString packet) → sp_size packet mod 4 = 0 →
  SDES ∉ fst (rtcp_walk (AsString packet)) →
  ProcessRtcp packet =
  Ret (if bool_decide (sp_size packet = 0) then 0
       else if rtcp_head (AsString packet) && snd (rtcp_walk (AsString packet)) then 0 else -1).
Proof. apply ProcessRtcp_ok. Qed.

Lemma ProcessRtcp_correct_witness :
  ProcessRtcp (StringPiece_string (sample_rr ++ wire_pli sample_pli)) = Ret 0 ∧
  ProcessRtcp (StringPiece_string (sample_rr ++ [128; 200; 0; 9])) = Ret (-1).
Proof.
  split.
  - rewrite (ProcessRtcp_correct (StringPiece_string (sample_rr ++ wire_pli sample_pli)));
      [by vm_compute|apply sp_wf_string|apply (bool_decide_unpack _); by vm_compute|by vm_compute|].
    apply (bool_decide_unpack _). by vm_compute.
  - rewrite (ProcessRtcp_correct (StringPiece_string (sample_rr ++ [128; 200; 0; 9])));
      [by vm_compute|apply sp_wf_string|apply (bool_decide_unpack _); by vm_compute|by vm_compute|].
    apply (bool_decide_unpack _). by vm_compute.
Defined.

Lemma callbacks_kept {SSL} (d : DtlsTransport SSL) ws :
  state_ (callbacks d ws) = state_ d ∧ dt_sent (callbacks d ws) = dt_sent d.
Proof.
  revert d. induction ws as [|w ws IH]; intros d; [done|].
  destruct (IH (OnSslInfo d w)) as [E1 E2]. unfold callbacks in *. cbn [foldl]. rewrite E1, E2.
  unfold OnSslInfo. by bool_cases.
Qed.

Arguments PeerConnection : clear implicits.

(** ** The life of a connection *)
Section life.
Context {SSL T : Type} (o : OpenSSL SSL) (lib : SrtpLib T).
Context (hmac_sha1 : list Z → list Z → list Z) (ssl : SSL) (local_ice_pwd : list Z).
Context (Ho : openssl_ok o) (Hlib : srtp_ok lib) (Hd : digest_ok hmac_sha1).
Implicit Types pc : PeerConnection SSL T.

(** Sessions exist only over a transport whose keys were extracted, the
    receiving one only beside the sending one, and both once media flows. *)
Record pc_inv pc : Prop := {
  pi_addr : addr_wf (addr_ pc) ∧ bytes_ok (addr_ pc);
  pi_ice : ∀ ice, ice_ pc = Some ice → buf_wf (send_buf_ ice);
  pi_dtls : ∀ d, dtls_ pc = Some d → dtls_inv d;
  pi_send : is_Some (srtp_send_session_ pc) → ∃ d, dtls_ pc = Some d ∧ secured d;
  pi_recv : is_Some (srtp_recv_session_ pc) → is_Some (srtp_send_session_ pc);
  pi_established : established_ pc = true → is_Some (srtp_recv_session_ pc);
  pi_timer : is_Some (pli_timer_ pc) → established_ pc = true;
}.

(** The remote description names an SSRC that fits an [int]. *)
Definition sdp_ok (sdp : SdpMessage) : Prop := ∃ t n, first_ssrc sdp = Ret t ∧ atoi t = Ret n.

(** What the server hands over: a slice of a buffer with room after it. *)
Record packet_ok (packet : StringPiece) : Prop := {
  po_wf : sp_wf packet;
  po_bytes : bytes_ok (sp_mem packet);
  po_size : sp_size packet <= max_stun;
  po_room : sp_end packet + SRTP_MAX_TRAILER_LEN <= zlen (sp_mem packet);
  po_rtcp : ∀ s s' packet', DecryptRtcp lib s packet = (s', packet', true) →
    sp_size packet' mod 4 = 0 ∧ SDES ∉ fst (rtcp_walk (AsString packet'));
}.

Lemma bytes_AsString s : bytes_ok (sp_mem s) → bytes_ok (AsString s).
Proof. intros. unfold AsString. auto with baize. Qed.
Lemma dtls_inv_clear (d : DtlsTransport SSL) : dtls_inv d → dtls_inv (clear_sent d).
Proof. apply kept_inv. constructor; auto. Qed.

(** The parts of a connection that media handling leaves alone. *)
Record same pc pc' : Prop := {
  sm_addr : addr_ pc' = addr_ pc;
  sm_ice : ice_ pc' = ice_ pc;
  sm_dtls : dtls_ pc' = dtls_ pc;
  sm_sdp : sdp_ pc' = sdp_ pc;
  sm_timer : pli_timer_ pc' = pli_timer_ pc;
  sm_established : established_ pc' = established_ pc;
  sm_send : is_Some (srtp_send_session_ pc) → is_Some (srtp_send_session_ pc');
  sm_recv : is_Some (srtp_recv_session_ pc) → is_Some (srtp_recv_session_ pc');
  sm_send' : is_Some (srtp_send_session_ pc') → is_Some (srtp_send_session_ pc);
  sm_recv' : is_Some (srtp_recv_session_ pc') → is_Some (srtp_recv_session_ pc);
}.
Lemma same_inv pc pc' : same pc pc' → pc_inv pc → pc_inv pc'.
Proof.
  intros [] []. constructor; rewrite ?sm_addr0, ?sm_ice0, ?sm_dtls0, ?sm_timer0, ?sm_established0; auto.
Qed.
Lemma same_refl pc : same pc pc.
Proof. by constructor. Qed.
Lemma same_trans a b c : same a b → same b c → same a c.
Proof. intros [] []. constructor; try congruence; auto. Qed.
Lemma same_set_send s pc : is_Some (srtp_send_session_ pc) → same pc (set_send s pc).
Proof. intros. constructor; cbn; eauto. Qed.
Lemma same_set_recv s pc : is_Some (srtp_recv_session_ pc) → same pc (set_recv s pc).
Proof. intros. constructor; cbn; eauto. Qed.
Lemma same_AsyncSend t pc : same pc (AsyncSend t pc).
Proof. by constructor. Qed.

Lemma SendPli_ok pc :
  sdp_ok (sdp_ pc) → is_Some (srtp_send_session_ pc) → ∃ pc', SendPli lib pc = Ret pc' ∧ same pc pc'.
Proof.
  intros (t & n & Ht & Hn) Hs. unfold SendPli. rewrite Ht. cbn [mbind result_bind]. rewrite Hn.
  cbn [mbind result_bind].
  destruct (Pli_Encode_ok (StringPiece_len (replicate 1500 0) 0 1500)
    (mk_pli (mk_common 1 0 2 206 2) (mk_fb 1234 (u32 n)))) as (pk & -> & Hw & Hp & Ha & Hm).
  { apply (sp_wf_string (replicate 1500 0)). }
  { split_and!; [constructor; cbn; unfold_u; lia|cbn; unfold_u; lia|cbn; apply u32_range]. }
  { unfold sp_size. cbn. lia. }
  cbn [mbind result_bind]. destruct (srtp_send_session_ pc) as [s|] eqn:Es; [|by destruct Hs].
  assert (Hsz : sp_size pk = 12) by (rewrite <-packet_len, Ha by done; apply zlen_wire_pli).
  unfold EncryptRtcp, protect. rewrite bool_decide_true; cycle 1.
  { unfold sp_end. unfold sp_size in Hsz. rewrite Hsz, Hp, Hm, !zlen_app, zlen_wire_pli.
    change (ptr_ (StringPiece_len (replicate 1500 0) 0 1500)) with 0.
    change (sp_mem (StringPiece_len (replicate 1500 0) 0 1500)) with (replicate 1500 0).
    unfold SRTP_MAX_TRAILER_LEN. rewrite ztake_0. unfold zlen at 1. cbn [length].
    rewrite zlen_zdrop; unfold zlen; rewrite length_replicate; lia. }
  cbn [mbind result_bind]. destruct (wrap _ s pk) as [[s' pk'] ok]. eexists. split; [done|].
  eapply same_trans; [|apply same_AsyncSend]. apply same_set_send. by rewrite Es.
Qed.

Lemma create_sessions_ok d pc :
  pc_inv pc → (∃ d0, dtls_ pc = Some d0 ∧ secured d0) →
  let '(pc', ok) := create_sessions lib d pc in
  pc_inv pc' ∧ sdp_ pc' = sdp_ pc ∧ dtls_ pc' = dtls_ pc ∧ established_ pc' = established_ pc ∧
  (ok = true → is_Some (srtp_send_session_ pc') ∧ is_Some (srtp_recv_session_ pc')).
Proof.
  intros Hp Hsec. unfold create_sessions.
  assert (Hset : ∀ s, pc_inv (set_send s pc)).
  { intros s. destruct Hp. constructor; cbn; eauto. }
  destruct (srtp_send_session_ pc) as [s|] eqn:Es.
  - cbn [negb]. destruct (srtp_recv_session_ pc) as [r|] eqn:Er.
    { split_and!; [done..|]. intros _. rewrite Es, Er. eauto. }
    destruct (New lib kInBound _ _) as [r|]; [|done]. split_and!; try done; try (cbn; rewrite Es; eauto; fail).
    destruct Hp. constructor; cbn; rewrite ?Es; eauto.
  - destruct (New lib kOutBound _ _) as [s|]; cbn [negb]; [|done].
    change (srtp_recv_session_ (set_send s pc)) with (srtp_recv_session_ pc).
    destruct (srtp_recv_session_ pc) as [r|] eqn:Er.
    { split_and!; try done; try (cbn; rewrite Er; eauto; fail). }
    destruct (New lib kInBound _ _) as [r|]; [|done]. split_and!; try done; try (cbn; eauto; fail).
    destruct (Hset s). constructor; cbn in *; eauto.
Qed.

Lemma establish_ok pc :
  pc_inv pc → sdp_ok (sdp_ pc) → is_Some (srtp_send_session_ pc) → is_Some (srtp_recv_session_ pc) →
  ∃ pc', establish lib pc = Ret pc' ∧ pc_inv pc' ∧ sdp_ pc' = sdp_ pc ∧
    is_Some (srtp_send_session_ pc') ∧ is_Some (srtp_recv_session_ pc').
Proof.
  intros Hp Hs Hsend Hrecv. unfold establish. destruct (established_ pc) eqn:E; cbn [negb]; [by exists pc|].
  destruct (SendPli_ok pc Hs Hsend) as (pc' & -> & Hsame). cbn [mbind result_bind].
  pose proof (same_inv _ _ Hsame Hp) as Hp'. eexists. split; [done|]. cbn. destruct Hsame.
  split_and!; auto. destruct Hp'. constructor; cbn; eauto.
Qed.

Lemma handle_rtcp_ok packet pc :
  packet_ok packet → is_Some (srtp_recv_session_ pc) →
  ∃ pc' r, handle_rtcp lib packet pc = Ret (pc', r) ∧ same pc pc'.
Proof using Hlib.
  intros Hpk [s Hs]. unfold handle_rtcp. rewrite Hs.
  destruct (DecryptRtcp lib s packet) as [[s' packet'] ok] eqn:E.
  assert (Hsame : same pc (set_recv s' pc)) by (apply same_set_recv; eauto).
  destruct ok; cbn [negb]; [|eauto].
  destruct (wrap_shrinks _ _ _ _ _ _ (so_unprotect_rtcp _ Hlib) (po_wf _ Hpk) (po_bytes _ Hpk) E)
    as (Hw & Hb & _). destruct (po_rtcp _ Hpk _ _ _ E) as [H4 Hsd].
  rewrite ProcessRtcp_ok by (done || by apply bytes_AsString). cbn [mbind result_bind]. eauto.
Qed.

Lemma wire_size m : 12 <= zlen (Rtp.wire m).
Proof.
  unfold Rtp.wire. rewrite !zlen_app, !zlen_be_bytes. zlen_eval.
  pose proof (zlen_nonneg (wire_words (m_csrcs m))). pose proof (zlen_nonneg (wire_extension (m_extension m))).
  pose proof (zlen_nonneg (m_payload m)). pose proof (zlen_nonneg (m_padding m)). lia.
Qed.

Lemma handle_rtp_ok packet pc :
  packet_ok packet → is_Some (srtp_recv_session_ pc) → is_Some (srtp_send_session_ pc) →
  ∃ pc' r, handle_rtp lib packet pc = Ret (pc', r) ∧ same pc pc'.
Proof using Hlib.
  intros Hpk [s Hs] Hsend. unfold handle_rtp. rewrite Hs.
  destruct (DecryptRtp lib s packet) as [[s' packet'] ok] eqn:E.
  assert (Hsame : same pc (set_recv s' pc)) by (apply same_set_recv; eauto).
  destruct ok; cbn [negb]; [|eauto].
  destruct (wrap_shrinks _ _ _ _ _ _ (so_unprotect _ Hlib) (po_wf _ Hpk) (po_bytes _ Hpk) E)
    as (Hw & Hb & Hml & Hptr & Hsz & _). unfold decrypted_rtp.
  destruct (Decode_total packet' RtpPacket_new Hw (bytes_AsString _ Hb)) as (rtp & r & -> & Hr).
  cbn [mbind result_bind]. destruct Hr as [->|(-> & m & _ & Hm)]; [eauto|].
  cbn [bool_decide]. rewrite bool_decide_false by lia.
  pose proof (wire_size m) as H12. rewrite <-Hm, packet_len in H12 by done.
  destruct Hw as (W1 & W2 & W3). unfold Types.store, sp_size in *.
  change (zlen (le_bytes 4 (HostToNetwork32 1234))) with 4.
  rewrite bool_decide_true by lia. cbn [mbind result_bind]. unfold echo_rtp.
  change (srtp_send_session_ (set_recv s' pc)) with (srtp_send_session_ pc).
  destruct (srtp_send_session_ pc) as [x|] eqn:Ex; [|by destruct Hsend].
  unfold EncryptRtp, protect. rewrite bool_decide_true; cycle 1.
  { pose proof (po_room _ Hpk) as Hroom. unfold sp_end in *. cbn [ptr_ length_ sp_mem].
    rewrite !zlen_app, zlen_ztake, zlen_zdrop by lia. change (zlen (le_bytes 4 _)) with 4. lia. }
  cbn [mbind result_bind]. destruct (wrap _ x _) as [[x' packet''] ok].
  assert (Hs2 : same pc (set_send x' (set_recv s' pc))).
  { eapply same_trans; [exact Hsame|]. apply same_set_send. cbn. by rewrite Ex. }
  destruct ok; cbn [negb]; do 2 eexists; (split; [done|]); [|done].
  eapply same_trans; [exact Hs2|apply same_AsyncSend].
Qed.

Lemma handle_media_ok packet d pc :
  pc_inv pc → (∃ d0, dtls_ pc = Some d0 ∧ secured d0) → sdp_ok (sdp_ pc) → packet_ok packet →
  ∃ pc' r, handle_media lib packet d pc = Ret (pc', r) ∧ pc_inv pc' ∧ sdp_ pc' = sdp_ pc.
Proof using Hlib.
  intros Hp Hsec Hsdp Hpk. unfold handle_media. pose proof (create_sessions_ok d pc Hp Hsec) as Hc.
  destruct (create_sessions lib d pc) as [pc1 ok]. destruct Hc as (Hp1 & Hs1 & _ & _ & Hss).
  destruct ok; cbn [negb]; [|eauto]. destruct (Hss eq_refl) as [Hsend Hrecv].
  destruct (establish_ok pc1 Hp1) as (pc2 & -> & Hp2 & Hs2 & Hsend2 & Hrecv2); [by rewrite Hs1|done..|].
  cbn [mbind result_bind].
  assert (Hb : bytes_ok (AsString packet)) by apply bytes_AsString, Hpk.
  rewrite IsRtcp_ok, IsRtp_total by (done || apply Hpk). cbn [mbind result_bind].
  destruct (match AsString packet with _ :: _ :: _ :: _ :: _ => _ | _ => _ end).
  - destruct (handle_rtcp_ok packet pc2 Hpk Hrecv2) as (pc3 & r & -> & Hsame). do 2 eexists. split; [done|].
    split; [by eapply same_inv|]. rewrite (sm_sdp _ _ Hsame). congruence.
  - destruct (match AsString packet with _ :: _ => _ | _ => _ end); [|do 2 eexists; split_and!; [done..|congruence]].
    destruct (handle_rtp_ok packet pc2 Hpk Hrecv2 Hsend2) as (pc3 & r & -> & Hsame). do 2 eexists. split; [done|].
    split; [by eapply same_inv|]. rewrite (sm_sdp _ _ Hsame). congruence.
Qed.

Lemma set_dtls_inv d pc :
  pc_inv pc → dtls_inv d → (∀ d0, dtls_ pc = Some d0 → secured d0 → secured d) → pc_inv (set_dtls d pc).
Proof.
  intros [] Hdt Hs. constructor; cbn; auto.
  - intros d' [= <-]. by apply dtls_inv_clear.
  - intros [d0 [E Hd0]]%pi_send0. exists (clear_sent d). split; [done|]. by apply (Hs d0).
Qed.

Lemma handle_secure_ok packet pc :
  pc_inv pc → sdp_ok (sdp_ pc) → packet_ok packet →
  ∃ pc' r, handle_secure o lib (Some ssl) packet pc = Ret (pc', r) ∧ pc_inv pc' ∧ sdp_ pc' = sdp_ pc.
Proof using Ho Hlib.
  intros Hp Hsdp Hpk. unfold handle_secure.
  assert (∃ pc1 d d0, match dtls_ pc with
    | Some d => Ret (pc, d)
    | None => d ← Initialize o 3 SERVER (DtlsTransport_new ssl SERVER); Ret (set_dtls d pc, d)
    end = Ret (pc1, d) ∧ pc_inv pc1 ∧ dtls_inv d ∧ sdp_ pc1 = sdp_ pc ∧
      dtls_ pc1 = Some d0 ∧ (secured d → secured d0) ∧ (secured d0 → secured d))
    as (pc1 & d & d0 & -> & Hp1 & Hdi & Hs1 & Hd0 & Hsec & Hsec').
  { destruct (dtls_ pc) as [d|] eqn:E.
    - exists pc, d, d. split_and!; try done. by apply (pi_dtls _ Hp).
    - destruct (Initialize_total o Ho ssl SERVER SERVER) as (d & -> & Hdi).
      exists (set_dtls d pc), d, (clear_sent d). split_and!; try done.
      apply set_dtls_inv; [done..|]. by intros d0; rewrite E. }
  cbn [mbind result_bind]. rewrite IsDtls_ok by apply Hpk. cbn [mbind result_bind].
  destruct (match AsString packet with _ :: _ => _ | _ => _ end).
  - destruct (ProcessDtlsPacket_total o Ho packet (clear_sent d)) as (d' & -> & Hdi' & _ & Hkeep);
      [by apply dtls_inv_clear|]. cbn [mbind result_bind]. do 2 eexists. split; [done|]. split; [|done].
    apply set_dtls_inv; [done..|]. intros d1. rewrite Hd0. intros [= <-] H. by apply Hkeep, Hsec'.
  - destruct (is_running d); cbn [negb]; [|eauto].
    destruct (Dtls.is_connected d) eqn:Ec; cbn [negb]; [|eauto].
    apply bool_decide_eq_true in Ec.
    destruct (handle_media_ok packet d pc1) as (pc2 & r & -> & Hp2 & Hs2);
      [done|exists d0; split; [done|]; apply Hsec; by left|congruence|done|].
    do 2 eexists. split_and!; [done..|congruence].
Qed.

Lemma ProcessPacket_ok lc packet pc :
  lc_ok lc → pc_inv pc → sdp_ok (sdp_ pc) → packet_ok packet →
  ∃ pc' r, ProcessPacket o lib hmac_sha1 (Some ssl) local_ice_pwd lc packet pc = Ret (pc', r) ∧
    pc_inv pc' ∧ sdp_ pc' = sdp_ pc.
Proof using Ho Hlib Hd.
  intros Hlc Hp Hsdp Hpk. unfold ProcessPacket.
  set (ice := match ice_ pc with Some ice => _ | None => _ end).
  assert (Hi : ice_wf ice ∧ ice_sent ice = []).
  { unfold ice. destruct (ice_ pc) as [i|] eqn:E; (split; [|done]); (constructor; [apply Hp|]).
    - by apply (pi_ice _ Hp i).
    - vm_compute. intuition discriminate. }
  destruct Hi as [Hi Hsent].
  assert (Hset : ∀ i pc, pc_inv pc → ice_wf i → pc_inv (set_ice i pc)).
  { intros i pc0 [] [_ Hb]. constructor; cbn; auto. by intros ? [= <-]. }
  assert (Hb : bytes_ok (AsString packet)) by apply bytes_AsString, Hpk.
  destruct (IsStun_first packet (po_wf _ Hpk) Hb) as (b & -> & _). cbn [mbind result_bind].
  destruct b.
  - destruct (ProcessStunPacket_ok hmac_sha1 lc ice packet Hd Hlc Hi (po_wf _ Hpk) Hb (po_size _ Hpk))
      as (ice' & -> & Hi' & _). cbn [mbind result_bind]. do 2 eexists. split; [done|]. split; [|done]. auto.
  - destruct (Ice.is_connected ice); cbn [negb]; [|do 2 eexists; split_and!; auto; done].
    destruct (handle_secure_ok packet (set_ice ice pc)) as (pc' & r & -> & Hp' & Hs'); [auto|done|done|].
    do 2 eexists. by split_and!.
Qed.

(** The events of a connection. *)
Inductive pc_step pc : PeerConnection SSL T → Prop :=
  | pc_packet lc packet pc' r :
      lc_ok lc → packet_ok packet →
      ProcessPacket o lib hmac_sha1 (Some ssl) local_ice_pwd lc packet pc = Ret (pc', r) → pc_step pc pc'
  | pc_pli_timer ms pc' next :
      pli_timer_ pc = Some ms → OnPliTimer lib pc = Ret (pc', next) → pc_step pc pc'
  | pc_dtls_timer ms d d' :
      dtls_ pc = Some d → timer_ d = Some ms → HandleTimeout o 3 (with_timer None d) = Ret d' →
      pc_step pc (set_dtls d' pc).

Lemma OnPliTimer_ok ms pc :
  pc_inv pc → sdp_ok (sdp_ pc) → pli_timer_ pc = Some ms →
  ∃ pc', OnPliTimer lib pc = Ret (pc', 2000) ∧ pc_inv pc' ∧ sdp_ pc' = sdp_ pc.
Proof.
  intros Hp Hs Ht. unfold OnPliTimer.
  destruct (SendPli_ok pc Hs) as (pc' & -> & Hsame).
  { apply pi_recv, pi_established, pi_timer; [done..|]. by rewrite Ht. }
  cbn [mbind result_bind]. exists pc'. split; [done|]. split; [by eapply same_inv|apply Hsame].
Qed.

Lemma pc_step_inv pc pc' :
  pc_step pc pc' → pc_inv pc → sdp_ok (sdp_ pc) → pc_inv pc' ∧ sdp_ pc' = sdp_ pc.
Proof using Ho Hlib Hd.
  intros [lc packet pc1 r Hlc Hpk E|ms pc1 next Ht E|ms d d' Edt Ht E] Hp Hs.
  - destruct (ProcessPacket_ok lc packet pc Hlc Hp Hs Hpk) as (pc2 & r2 & E2 & H). rewrite E in E2. by injection E2 as <- <-.
  - destruct (OnPliTimer_ok ms pc Hp Hs Ht) as (pc2 & E2 & H).
    by assert (pc1 = pc2) as -> by congruence.
  - split; [|done]. pose proof (pi_dtls _ Hp _ Edt) as Hdi.
    destruct (on_timer_total o Ho d Hdi) as (d2 & E2 & H2 & _ & Hkeep). rewrite E in E2. injection E2 as <-.
    apply set_dtls_inv; [done..|]. intros d0. rewrite Edt. by intros [= <-].
Qed.
End life.


(** ** Gates *)
Section gates.
Context {SSL T : Type} (o : OpenSSL SSL) (lib : SrtpLib T) (hmac_sha1 : list Z → list Z → list Z).
Context (SSL_new : option SSL) (local_ice_pwd : list Z).
Implicit Types pc : PeerConnection SSL T.

(** No session, no timer, nothing sent. *)
Definition untouched pc pc' : Prop :=
  srtp_send_session_ pc' = srtp_send_session_ pc ∧ srtp_recv_session_ pc' = srtp_recv_session_ pc ∧
  established_ pc' = established_ pc ∧ pli_timer_ pc' = pli_timer_ pc ∧ pc_sent pc' = pc_sent pc.

Lemma Initialize_server s d :
  Initialize o 3 SERVER (DtlsTransport_new s SERVER) = Ret d → state_ d = CONNECTING ∧ dt_sent d = [].
Proof.
  unfold Initialize. cbn [ssl_ DtlsTransport_new]. destruct (SSL_do_handshake o _) as [s1 ws].
  intros [= <-]. destruct (callbacks_kept (with_ssl s1 (mk_dtls s CONNECTING SERVER false false [] (replicate 64 0)
    (replicate 64 0) 0 None [])) ws) as [E1 E2]. cbn in *. by rewrite E1, E2.
Qed.

Lemma handle_secure_gated packet pc pc' r :
  IsDtls packet = Ret false → (∀ d, dtls_ pc = Some d → Dtls.is_connected d = false) →
  handle_secure o lib SSL_new packet pc = Ret (pc', r) → untouched pc pc'.
Proof.
  intros Hnd Hnc. unfold handle_secure. destruct (dtls_ pc) as [d|] eqn:E.
  - cbn [mbind result_bind]. rewrite Hnd. cbn [mbind result_bind]. rewrite (Hnc d) by done. cbn [negb].
    destruct (is_running d); cbn [negb]; intros [= <- <-]; done.
  - destruct SSL_new as [s|]; [|done].
    destruct (Initialize o 3 SERVER (DtlsTransport_new s SERVER)) as [d| |] eqn:Ei; [|done..].
    destruct (Initialize_server s d Ei) as [E1 E2]. cbn [mbind result_bind]. rewrite Hnd. cbn [mbind result_bind].
    unfold is_running, Dtls.is_connected. rewrite E1. cbn [negb]. rewrite bool_decide_false by done. cbn [negb].
    intros [= <- <-]. unfold untouched. cbn. by rewrite E2, app_nil_r.
Qed.
End gates.

(** C27: media is gated: a packet that is not STUN changes no session, starts no
    timer and sends nothing while ICE is not connected, and neither does a
    packet that is not DTLS while the handshake is not complete. *)
Theorem media_gated {SSL T} (o : OpenSSL SSL) (lib : SrtpLib T) hmac_sha1 SSL_new local_ice_pwd
    lc packet (pc pc' : PeerConnection SSL T) r :
  ProcessPacket o lib hmac_sha1 SSL_new local_ice_pwd lc packet pc = Ret (pc', r) →
  IsStun packet = Ret false →
  (from_option Ice.is_connected false (ice_ pc) = false ∨
   IsDtls packet = Ret false ∧ (∀ d, dtls_ pc = Some d → Dtls.is_connected d = false)) →
  untouched pc pc'.
Proof.
  intros E Hns Hgate. revert E. unfold ProcessPacket. rewrite Hns. cbn [mbind result_bind].
  set (ice := match ice_ pc with Some ice => _ | None => _ end).
  assert (Hs : ice_sent ice = []) by (unfold ice; by destruct (ice_ pc)).
  assert (Hu : untouched pc (set_ice ice pc)).
  { unfold untouched. cbn. by rewrite Hs, app_nil_r. }
  assert (Hc : Ice.is_connected ice = from_option Ice.is_connected false (ice_ pc))
    by (unfold ice; by destruct (ice_ pc)).
  destruct (Ice.is_connected ice) eqn:Ei; cbn [negb]; [|by intros [= <- <-]].
  destruct Hgate as [Hg|[Hnd Hnc]]; [congruence|]. intros E.
  apply handle_secure_gated in E; [|done|done].
  destruct Hu as (?&?&?&?&?), E as (?&?&?&?&?). unfold untouched. split_and!; congruence.
Qed.

(** ** The size of what is sent *)
Definition small (t : list Z) : Prop := zlen t <= max_content.
(** OpenSSL puts no more than that into a memory BIO. *)
Definition bio_fits {SSL} (o : OpenSSL SSL) : Prop := ∀ s, small (BIO_get_mem_data o s).

Section sent.
Context {SSL T : Type} (o : OpenSSL SSL) (lib : SrtpLib T) (hmac_sha1 : list Z → list Z → list Z).
Context (ssl : SSL) (local_ice_pwd : list Z).
Context (Ho : openssl_ok o) (Hbio : bio_fits o) (Hlib : srtp_ok lib) (Hd : digest_ok hmac_sha1).
Implicit Types (pc : PeerConnection SSL T) (d : DtlsTransport SSL).

Definition dtls_small d : Prop := Forall small (dt_sent d).
Definition pc_small pc : Prop := Forall small (pc_sent pc).

Lemma SendBioData_small d : dtls_small d → dtls_small (SendBioData o d).
Proof using Hbio.
  intros Hs. unfold SendBioData. case_bool_decide; [done|]. apply Forall_app. split; [done|].
  apply Forall_singleton, Hbio.
Qed.
Lemma callbacks_small d ws : dtls_small d → dtls_small (callbacks d ws).
Proof. unfold dtls_small. by rewrite (proj2 (callbacks_kept d ws)). Qed.
Lemma timeout_small fuel d :
  dtls_small d →
  (∀ d' b, UpdateTimeout o fuel d = Ret (d', b) → dtls_small d') ∧
  (∀ d', HandleTimeout o fuel d = Ret d' → dtls_small d').
Proof using Hbio.
  revert d. induction fuel as [|fuel IH]; intros d Hs; [done|]. cbn [UpdateTimeout HandleTimeout]. split.
  - intros d' b. destruct (HandshakeDone_ d); [by intros [= <- _]|].
    case_bool_decide; [intros (d1 & E & [= <- _])%bind_Ret; by apply (IH d)|].
    case_bool_decide; by intros [= <- _].
  - intros d'. destruct (HandshakeDone_ d); [by intros [= <-]|].
    destruct (DTLSv1_handle_timeout o (ssl_ d)) as [[s ret] ws].
    assert (Hc : dtls_small (callbacks (with_ssl s d) ws)) by (by apply callbacks_small).
    case_bool_decide; [|by case_bool_decide; intros [= <-]].
    intros ([d1 b] & E & [= <-])%bind_Ret. by apply (IH _ (SendBioData_small _ Hc)) in E.
Qed.
Lemma CheckStatus_small ret d d' b : dtls_small d → CheckStatus o ret d = Ret (d', b) → dtls_small d'.
Proof.
  intros Hs. unfold CheckStatus. destruct (HandshakeDone_ d && negb (ExtractSrtpKey_ d)).
  - unfold ExtractSrtpKey. cbn [ssl_]. destruct (SSL_get_selected_srtp_profile _ _) as [name|]; [|by intros [= <- _]].
    destruct (profile_lengths name) as [[kl sl]|]; [|by intros [= <- _]]. cbn [ssl_].
    destruct (SSL_export_keying_material _ _ _) as [m|]; [|by intros [= <- _]].
    intros (a & _ & E)%bind_Ret. destruct (key_offsets _ _ _) as [[[lk ls] rk] rs].
    apply bind_Ret in E as (? & _ & E). apply bind_Ret in E as (? & _ & E). apply bind_Ret in E as (? & _ & E).
    apply bind_Ret in E as (? & _ & E). by injection E as <- _.
  - destruct (_ || _ || _); by intros [= <- _].
Qed.
Lemma ProcessDtlsPacket_small fuel packet d d' :
  dtls_small d → ProcessDtlsPacket o fuel packet d = Ret d' → dtls_small d'.
Proof using Hbio.
  intros Hs. unfold ProcessDtlsPacket. destruct (is_running d); cbn [negb]; [|by intros [= <-]].
  destruct (SSL_read o _) as [[s read] ws].
  assert (Hc : dtls_small (SendBioData o (callbacks (with_ssl s d) ws))) by (by apply SendBioData_small, callbacks_small).
  intros ([d1 ok] & E%CheckStatus_small & E')%bind_Ret; [|done]. destruct ok; cbn [negb] in E'; [|by injection E' as <-].
  apply bind_Ret in E' as ([d2 b] & E2 & [= <-]). by apply (timeout_small fuel d1) in E2.
Qed.
Lemma set_dtls_small d pc : pc_small pc → dtls_small d → pc_small (set_dtls d pc).
Proof. intros. by apply Forall_app. Qed.

Lemma SendPli_small pc pc' : pc_small pc → SendPli lib pc = Ret pc' → pc_small pc'.
Proof using Hlib.
  intros Hs. unfold SendPli. intros (t & _ & E)%bind_Ret. apply bind_Ret in E as (n & _ & E).
  apply bind_Ret in E as ([pk r] & Ep & E). destruct (srtp_send_session_ pc) as [x|]; [|done].
  apply bind_Ret in E as ([[x' pk'] ok] & Ew & [= <-]).
  assert (Hpk : sp_size pk = 1500 ∨ sp_size pk = 12).
  { revert Ep. unfold Pli_Encode. case_bool_decide; [intros [= <- _]; by left|]. intros E. inv_bind. subst. by right. }
  apply Forall_app. split; [done|]. apply Forall_singleton. unfold EncryptRtcp, protect in Ew.
  case_bool_decide; [|done]. injection Ew as Ew. unfold small.
  pose proof (wrap_grows _ _ pk _ _ _ (so_protect_rtcp _ Hlib) ltac:(lia) Ew).
  unfold SRTP_MAX_TRAILER_LEN, max_content in *. lia.
Qed.
Lemma echo_rtp_small packet pc pc' r :
  0 <= sp_size packet <= max_stun → pc_small pc → echo_rtp lib packet pc = Ret (pc', r) → pc_small pc'.
Proof using Hlib.
  intros Hsz Hs. unfold echo_rtp. destruct (srtp_send_session_ pc) as [x|]; [|done].
  intros ([[x' pk'] ok] & Ew & E)%bind_Ret. destruct ok; cbn [negb] in E; injection E as <- _; [|done].
  apply Forall_app. split; [done|]. apply Forall_singleton. unfold EncryptRtp, protect in Ew.
  case_bool_decide; [|done]. injection Ew as Ew. unfold small.
  pose proof (wrap_grows _ _ packet _ _ _ (so_protect _ Hlib) ltac:(lia) Ew).
  unfold SRTP_MAX_TRAILER_LEN, max_content, max_stun in *. lia.
Qed.
Lemma handle_media_small packet d pc pc' r :
  packet_ok lib packet → pc_small pc → handle_media lib packet d pc = Ret (pc', r) → pc_small pc'.
Proof using Hlib.
  intros Hpk Hs. unfold handle_media. destruct (create_sessions lib d pc) as [pc1 ok] eqn:E1.
  assert (H1 : pc_small pc1).
  { assert (Esent : pc_sent pc1 = pc_sent pc); [|unfold pc_small; by rewrite Esent]. revert E1. unfold create_sessions.
    destruct (srtp_send_session_ pc); cbn [negb].
    - destruct (srtp_recv_session_ pc); [by intros [= <- _]|]. destruct (New _ _ _ _); by intros [= <- _].
    - destruct (New lib kOutBound _ _); cbn [negb]; [|by intros [= <- _]].
      destruct (srtp_recv_session_ _); [by intros [= <- _]|]. destruct (New _ _ _ _); by intros [= <- _]. }
  destruct ok; cbn [negb]; [|by intros [= <- _]]. intros (pc2 & E2 & E)%bind_Ret.
  assert (H2 : pc_small pc2).
  { revert E2. unfold establish. destruct (established_ pc1); cbn [negb]; [by intros [= <-]|].
    intros (pc3 & E3%SendPli_small & [= <-])%bind_Ret; done. }
  apply bind_Ret in E as (is_rtcp & _ & E). destruct is_rtcp.
  - revert E. unfold handle_rtcp. destruct (srtp_recv_session_ pc2) as [x|]; [|done].
    destruct (DecryptRtcp lib x packet) as [[x' pk'] ok]. destruct ok; cbn [negb]; [|by intros [= <- _]].
    intros (n & _ & [= <- _])%bind_Ret. done.
  - apply bind_Ret in E as (is_rtp & _ & E). destruct is_rtp; [|by injection E as <- _]. revert E.
    unfold handle_rtp. destruct (srtp_recv_session_ pc2) as [x|]; [|done].
    destruct (DecryptRtp lib x packet) as [[x' pk'] ok] eqn:Ed. destruct ok; cbn [negb]; [|by intros [= <- _]].
    destruct (wrap_shrinks _ _ _ _ _ _ (so_unprotect _ Hlib) (po_wf _ _ Hpk) (po_bytes _ _ Hpk) Ed) as (_ & _ & _ & _ & Hle & Hpos).
    specialize (Hpos eq_refl). pose proof (po_size _ _ Hpk). unfold decrypted_rtp.
    intros ([q val] & _ & E)%bind_Ret. case_bool_decide; [by injection E as <- _|].
    apply bind_Ret in E as (mem & _ & E). apply echo_rtp_small in E; [done| |done]. unfold sp_size in *. cbn [length_]. lia.
Qed.

Lemma ProcessPacket_small lc packet pc pc' r :
  lc_ok lc → pc_inv pc → packet_ok lib packet → pc_sent pc = [] →
  ProcessPacket o lib hmac_sha1 (Some ssl) local_ice_pwd lc packet pc = Ret (pc', r) → pc_small pc'.
Proof using Ho Hbio Hlib Hd.
  intros Hlc Hp Hpk Hs. unfold ProcessPacket. set (ice := match ice_ pc with Some ice => _ | None => _ end).
  assert (Hi : ice_wf ice ∧ ice_sent ice = []).
  { unfold ice. destruct (ice_ pc) as [i|] eqn:E; (split; [|done]); (constructor; [apply Hp|]).
    - by apply (pi_ice _ Hp i).
    - exact default_buffer_wf. }
  destruct Hi as [Hi Hsent]. assert (Hb : bytes_ok (AsString packet)) by apply bytes_AsString, Hpk.
  assert (H0 : pc_small (set_ice ice pc)) by (unfold pc_small; cbn; by rewrite Hs, Hsent).
  intros (is_stun & _ & E)%bind_Ret. destruct is_stun.
  - apply bind_Ret in E as (ice' & E & [= <- _]).
    destruct (ProcessStunPacket_ok hmac_sha1 lc ice packet Hd Hlc Hi (po_wf _ _ Hpk) Hb (po_size _ _ Hpk)) as (ice2 & E2 & _ & H).
    rewrite E in E2. injection E2 as <-. apply Forall_app. split; [done|].
    destruct H as [[-> _]|(ty & tid & attrs & msg & _ & _ & -> & [Hm _] & _)]; rewrite Hsent; [done|].
    apply Forall_singleton. unfold small, max_content. lia.
  - destruct (Ice.is_connected ice); cbn [negb] in E; [|by injection E as <- _]. revert E. unfold handle_secure.
    intros ([pc1 d] & E1 & E)%bind_Ret.
    assert (H1 : pc_small pc1).
    { revert E1. destruct (dtls_ (set_ice ice pc)) as [d1|]; [by intros [= <- _]|].
      intros (d1 & Ei & [= <- _])%bind_Ret. apply set_dtls_small; [done|]. revert Ei. unfold Initialize.
      destruct (SSL_do_handshake o _) as [s1 ws]. intros [= <-]. apply callbacks_small. constructor. }
    apply bind_Ret in E as (is_dtls & _ & E). destruct is_dtls.
    + apply bind_Ret in E as (d' & E & [= <- _]). apply set_dtls_small; [done|].
      eapply ProcessDtlsPacket_small; [|exact E]. constructor.
    + destruct (is_running d); cbn [negb] in E; [|by injection E as <- _].
      destruct (Dtls.is_connected d); cbn [negb] in E; [|by injection E as <- _]. by eapply handle_media_small.
Qed.
Lemma OnPliTimer_small pc pc' ms : pc_small pc → OnPliTimer lib pc = Ret (pc', ms) → pc_small pc'.
Proof using Hlib. intros Hs. unfold OnPliTimer. intros (a & E & [= <- _])%bind_Ret. by apply SendPli_small in E. Qed.
Lemma dtls_timer_small d d' pc :
  pc_small pc → HandleTimeout o 3 (with_timer None (clear_sent d)) = Ret d' → pc_small (set_dtls d' pc).
Proof using Hbio.
  intros Hs E. apply set_dtls_small; [done|]. apply (timeout_small 3 (with_timer None (clear_sent d))) in E; [done|].
  constructor.
Qed.
End sent.

(** ** A concrete connection *)
Definition sample_record : StringPiece := StringPiece_len (22 :: replicate 255 0) 0 16.
Definition sample_pc : PeerConnection Z unit :=
  PeerConnection_new (mk_sdp [] [mk_track VIDEO [[55]]] (mk_net [] [] []))
    (InetAddress_port zero_addr6 5000 true false).

Lemma sample_record_ok : packet_ok sample_lib sample_record.
Proof.
  constructor.
  - unfold sp_wf. vm_compute. intuition discriminate.
  - apply (bool_decide_unpack _). vm_compute. exact I.
  - vm_compute. discriminate.
  - vm_compute. discriminate.
  - intros s s' packet' E. vm_compute in E. injection E as <- <-. split; [by vm_compute|].
    apply (bool_decide_unpack _). vm_compute. exact I.
Qed.


Lemma media_gated_witness :
  ∃ pc' r, ProcessPacket sample_ssl sample_lib sample_digest (Some 0) [112] sample_ctx sample_record sample_pc = Ret (pc', r) ∧
    untouched sample_pc pc'.
Proof.
  destruct (ProcessPacket sample_ssl sample_lib sample_digest (Some 0) [112] sample_ctx sample_record sample_pc)
    as [[pc' r]|f|] eqn:E; [|vm_compute in E; discriminate..].
  exists pc', r. split; [reflexivity|].
  apply (media_gated sample_ssl sample_lib sample_digest (Some 0) [112] sample_ctx sample_record sample_pc pc' r E).
  - vm_compute. reflexivity.
  - left. reflexivity.
Defined.
