(* ===== verification/WebRTCServer.v ===== *)
(** * The media server: webrtc/pc/webrtc_server.{h,cc}

    One routine receives datagrams and hands each to the connection of its
    sender; a connection that is not bound to an address yet is found by the
    username of a STUN packet.  Another routine per connection processes what
    has been queued for it; the signalling routine publishes connections.
    [connections_] maps texts to weak pointers: a connection is a number, and
    it is alive while it is in [peers].  The receiver holds a buffer while it
    waits, so receiving is two steps, between which the other routines run, and
    so do they between any two calls of [SendTo] for the delayed messages: the
    routine may yield at each, by its tick count or because the socket is full.
    OpenSSL, libsrtp, HMAC-SHA1, [inet_ntop] and the answers of the socket are
    parameters, and so are the local description and the page that is served.
    Of the log lines those whose size depends on a peer are modelled. *)

From Stdlib Require Import ZArith Lia Bool.
From stdpp Require Import base numbers relations list gmap strings.
From S2P Require Import Prelude Types StringPiece Format Buffer LogStream Logger InetAddress Stream Crc32 Stun StunPack StunDump Ice.
From S2P Require Import Http HttpCodec HttpStream.
From S2P Require Import Rtp Rtcp Dtls Srtp Sdp PeerConnection.

(** "/", "pub", "sub", ":", "Content-Type", "text/html; charset=utf-8" *)
Definition SLASH : list Z := [47].
Definition PUB : list Z := [112; 117; 98].
Definition SUB : list Z := [115; 117; 98].
Definition COLON : list Z := [58].
Definition CONTENT_TYPE : list Z := [67; 111; 110; 116; 101; 110; 116; 45; 84; 121; 112; 101].
Definition TEXT_HTML : list Z :=
  [116; 101; 120; 116; 47; 104; 116; 109; 108; 59; 32; 99; 104; 97; 114; 115; 101; 116; 61; 117; 116; 102; 45; 56].

Definition contains (text pat : list Z) : bool := bool_decide (std_search text pat ≠ zlen text).

Section server.
Context {SSL T : Type} (o : OpenSSL SSL) (lib : SrtpLib T) (hmac_sha1 : list Z → list Z → list Z).
Context (SSL_new : option SSL) (local_ice_pwd local_ice_ufrag local_sdp demo_file : list Z).
Context (inet_ntop : Z → list Z → option (list Z)).
(** The answer of the socket to the [n]-th [SendTo]. *)
Context (sendto : nat → send_result).

Record Peer : Type := mk_peer {
  peer_pc : PeerConnection SSL T;
  packets_ : list BufferPtr;
}.

(** Where the routine of [DispatchDataLoop] is: before a round, in
    [AsyncRecvFrom] with its buffer, or in [AsyncSendto] for the [i]-th delayed
    message of the [e] there were when the range-for took its iterators, with
    the buffer of the round unless that was queued. *)
Inductive Receiver : Type :=
  | Idle
  | Receiving (buf : BufferPtr)
  | Flushing (i e : nat) (kept : option BufferPtr).
Definition held_by (r : Receiver) : list BufferPtr :=
  match r with Idle => [] | Receiving buf => [buf] | Flushing _ _ kept => option_list kept end.

(** [socket_log]: the calls of [SendTo]. *)
Record WebRTCServer : Type := mk_server {
  connections_ : gmap (list Z) nat;
  peers : gmap nat Peer;
  next_peer : nat;
  buffers_ : list BufferPtr;
  receiver : Receiver;
  send_messages_ : list (InetAddress * Buffer);
  socket_log : list (InetAddress * list Z * send_result);
}.
Definition WebRTCServer_new : WebRTCServer := mk_server ∅ ∅ 0 (BufferPool_new kBufferNum) Idle [] [].

Definition with_connections (c : gmap (list Z) nat) (s : WebRTCServer) : WebRTCServer :=
  mk_server c (peers s) (next_peer s) (buffers_ s) (receiver s) (send_messages_ s) (socket_log s).
Definition with_peers (p : gmap nat Peer) (s : WebRTCServer) : WebRTCServer :=
  mk_server (connections_ s) p (next_peer s) (buffers_ s) (receiver s) (send_messages_ s) (socket_log s).
Definition with_buffers (b : list BufferPtr) (r : Receiver) (s : WebRTCServer) : WebRTCServer :=
  mk_server (connections_ s) (peers s) (next_peer s) b r (send_messages_ s) (socket_log s).
Definition with_messages (m : list (InetAddress * Buffer)) (log : list (InetAddress * list Z * send_result))
    (s : WebRTCServer) : WebRTCServer :=
  mk_server (connections_ s) (peers s) (next_peer s) (buffers_ s) (receiver s) m log.

(** ** Sending *)

(** [WebRTCServer::AsyncSend] *)
Definition server_AsyncSend (addr : InetAddress) (packet : list Z) (s : WebRTCServer) : result WebRTCServer :=
  let r := sendto (length (socket_log s)) in
  let s := with_messages (send_messages_ s) (socket_log s ++ [(addr, packet, r)]) s in
  if bool_decide (send_wn r ≠ zlen packet) then
    buf ← Append default_buffer packet (zlen packet);
    Ret (with_messages (send_messages_ s ++ [(addr, buf)]) (socket_log s) s)
  else Ret s.
Fixpoint send_all (addr : InetAddress) (packets : list (list Z)) (s : WebRTCServer) : result WebRTCServer :=
  match packets with
  | [] => Ret s
  | packet :: packets => s ← server_AsyncSend addr packet s; send_all addr packets s
  end.

(** The end of a round: the destructor of the buffer that was not queued. *)
Definition end_round (kept : option BufferPtr) (s : WebRTCServer) : WebRTCServer :=
  match kept with
  | Some buf => with_buffers (BufferDelete (buffers_ s) buf) Idle s
  | None => with_buffers (buffers_ s) Idle s
  end.
(** [if (!send_messages_.empty())]: the loop takes its iterators. *)
Definition flush_begin (kept : option BufferPtr) (s : WebRTCServer) : WebRTCServer :=
  match send_messages_ s with
  | [] => end_round kept s
  | messages => with_buffers (buffers_ s) (Flushing 0 (length messages) kept) s
  end.
(** From where [AsyncSendto] may yield through the next [SendTo]: [EINTR] and
    [EAGAIN] go round again, any other answer ends the message; after the last
    message comes [send_messages_.clear()].  A [push_back] since the loop began
    has invalidated its iterators and its reference to the message. *)
Definition flush_step (s : WebRTCServer) : result WebRTCServer :=
  match receiver s with
  | Flushing i e kept =>
      if bool_decide (length (send_messages_ s) ≠ e) then Fault WildPointer
      else
        match send_messages_ s !! i with
        | None => Fault OutOfBounds
        | Some (addr, packet) =>
            let r := sendto (length (socket_log s)) in
            let s := with_messages (send_messages_ s) (socket_log s ++ [(addr, AsString (slice packet), r)]) s in
            let again := bool_decide (send_wn r < 0) &&
              (bool_decide (send_errno r = EINTR) || bool_decide (send_errno r = EAGAIN)) in
            if again then Ret s
            else if bool_decide (S i = e) then Ret (end_round kept (with_messages [] (socket_log s) s))
            else Ret (with_buffers (buffers_ s) (Flushing (S i) e kept) s)
        end
  | _ => Fault NullDeref
  end.

(** ** Receiving: DispatchDataLoop *)

(** Up to the wait in [AsyncRecvFrom]; a null buffer is dereferenced. *)
Definition receive_begin (s : WebRTCServer) : result WebRTCServer :=
  let '(buffers, buf) := AllocBuffer (buffers_ s) in
  match buf with
  | Some buf => Ret (with_buffers buffers (Receiving buf) s)
  | None => Fault NullDeref
  end.

Definition set_addr (addr : InetAddress) (pc : PeerConnection SSL T) : PeerConnection SSL T :=
  mk_pc addr (pli_timer_ pc) (established_ pc) (sdp_ pc) (ice_ pc) (dtls_ pc)
    (srtp_send_session_ pc) (srtp_recv_session_ pc) (pc_sent pc).

(** [packets_.emplace_back]; [ScheduleRead] then wakes the connection. *)
Definition enqueue (id : nat) (p : Peer) (buf : BufferPtr) (s : WebRTCServer) : WebRTCServer :=
  with_peers (<[id := mk_peer (peer_pc p) (packets_ p ++ [buf])]> (peers s)) s.

(** From the address on; the buffer comes back unless it was queued. *)
Definition route (peeraddr : InetAddress) (buf : BufferPtr) (s : WebRTCServer)
    : result (WebRTCServer * option BufferPtr) :=
  let remote := ip_port inet_ntop peeraddr in
  match connections_ s !! remote with
  | Some id =>
      match peers s !! id with
      | Some p => Ret (enqueue id p buf s, None)
      | None => Ret (s, Some buf)
      end
  | None =>
      is_stun ← IsStun (slice (bp_buf buf));
      if negb is_stun then Ret (s, Some buf)
      else
        '(stun_packet, err) ← Parse (parse_fuel (slice (bp_buf buf))) (slice (bp_buf buf)) (StunPacket_new REQUEST 0);
        if bool_decide (err < 0) then Ret (s, Some buf)
        else
          let ice_ufrag := AsString (username_ stun_packet) in
          match connections_ s !! ice_ufrag with
          | None => Ret (s, Some buf)
          | Some id =>
              let s := with_connections (delete ice_ufrag (<[remote := id]> (connections_ s))) s in
              match peers s !! id with
              | Some p => Ret (enqueue id (mk_peer (set_addr peeraddr (peer_pc p)) (packets_ p)) buf s, None)
              | None => Ret (s, Some buf)
              end
          end
  end.

(** The end of the wait and the datagram, up to the delayed messages. *)
Definition receive_end (trace : list (attempt datagram)) (s : WebRTCServer) : result WebRTCServer :=
  match receiver s with
  | Receiving ptr =>
      let buf := bp_buf ptr in
      '(mem, peeraddr, rn, timeout, _) ←
        AsyncRecvFrom_ms (write_index buf) (writable_bytes buf) trace (buffer_ buf);
      let buf := mk_buffer mem (reader_index_ buf) (writer_index_ buf) in
      let s := with_buffers (buffers_ s) Idle s in
      '(s, kept) ←
        (if (timeout : bool) || bool_decide (rn < 0) then Ret (s, Some (mk_bptr (bp_addr ptr) buf))
         else buf ← AddReadableLength buf rn; route peeraddr (mk_bptr (bp_addr ptr) buf) s);
      Ret (flush_begin kept s)
  | _ => Fault NullDeref
  end.

(** ** A connection's routine: HandleMedia *)

(** [PeerConnectionDelete] and the destructors of the connection. *)
Definition PeerConnectionDelete (id : nat) (s : WebRTCServer) : WebRTCServer :=
  match peers s !! id with
  | None => s
  | Some p =>
      let remote := ip_port inet_ntop (addr_ (peer_pc p)) in
      let s := with_connections (delete remote (connections_ s)) s in
      let s := with_peers (delete id (peers s)) s in
      with_buffers (foldl BufferDelete (buffers_ s) (packets_ p)) (receiver s) s
  end.

(** The connection after a call, and what it sent in it. *)
Definition update_peer (id : nat) (pc : PeerConnection SSL T) (s : WebRTCServer) : result WebRTCServer :=
  match peers s !! id with
  | None => Fault NullDeref
  | Some p =>
      let pc' := mk_pc (addr_ pc) (pli_timer_ pc) (established_ pc) (sdp_ pc) (ice_ pc) (dtls_ pc)
                   (srtp_send_session_ pc) (srtp_recv_session_ pc) [] in
      send_all (addr_ pc) (pc_sent pc) (with_peers (<[id := mk_peer pc' (packets_ p)]> (peers s)) s)
  end.

(** [for (auto& packet : packets)]; [false] is the early return. *)
Fixpoint packets_loop (lc : LogCtx) (id : nat) (packets : list BufferPtr) (s : WebRTCServer) : result (WebRTCServer * bool) :=
  match packets with
  | [] => Ret (s, true)
  | packet :: packets =>
      match peers s !! id with
      | None => Fault NullDeref
      | Some p =>
          '(pc, err) ← ProcessPacket o lib hmac_sha1 SSL_new local_ice_pwd lc (slice (bp_buf packet)) (peer_pc p);
          s ← update_peer id pc s;
          if bool_decide (err < 0) then Ret (s, false) else packets_loop lc id packets s
      end
  end.

(** [PeerConnection::AsyncRead], once there is something or it was woken. *)
Definition pc_AsyncRead (p : Peer) : Peer * list BufferPtr := (mk_peer (peer_pc p) [], packets_ p).

(** One round of [HandleMedia] after [AsyncRead] returned the queue; its
    buffers go back to the pool at the end of the round.  What a connection
    decrypts in place is not read again: a buffer comes empty from the pool. *)
Definition media_round (lc : LogCtx) (id : nat) (s : WebRTCServer) : result WebRTCServer :=
  match peers s !! id with
  | None => Fault NullDeref
  | Some p =>
      let '(p, packets) := pc_AsyncRead p in
      let s := with_peers (<[id := p]> (peers s)) s in
      '(s, go_on) ← packets_loop lc id packets s;
      let s := with_buffers (foldl BufferDelete (buffers_ s) packets) (receiver s) s in
      Ret (if (go_on : bool) then s else PeerConnectionDelete id s)
  end.

(** ** Signalling: HandleSignal, one request *)
Definition success_line : StringPiece :=
  StringPiece_string (MakeResponseLine (mk_response_line kHttp11 k200 kOK)).

Definition publish (lc : LogCtx) (body : list Z) (s : WebRTCServer) : result WebRTCServer :=
  _ ← log_text lc "pub body : " body;
  '(remote_sdp, _) ← Sdp.Decode lc (StringPiece_string body) SdpMessage_new;
  let username := ice_ufrag_ (net_ remote_sdp) in
  _ ← cpp_assert (bool_decide (username ≠ []));
  let key := local_ice_ufrag ++ COLON ++ username in
  _ ← cpp_assert (bool_decide (connections_ s !! key = None));
  let id := next_peer s in
  let p := mk_peer (PeerConnection_new remote_sdp InetAddress_default) [] in
  Ret (mk_server (<[key := id]> (connections_ s)) (<[id := p]> (peers s)) (S id) (buffers_ s) (receiver s)
         (send_messages_ s) (socket_log s)).

Definition handle_request (lc : LogCtx) (req : HttpMessage) (s : WebRTCServer) : result (WebRTCServer * HttpMessage) :=
  let rsp := HttpMessage_new in
  _ ← log_text lc "req first line: " (first_line_ req);
  req_line ← request_line req;
  _ ← log_text lc "req url: " (rq_url req_line);
  if bool_decide (rq_url req_line = SLASH) then
    let rsp := set_response_line success_line rsp in
    let rsp := set_headers (lit CONTENT_TYPE) (lit TEXT_HTML) rsp in
    let rsp := set_headers (lit CONTENT_LENGTH) (StringPiece_string (decimal (zlen demo_file))) rsp in
    Ret (s, set_body (StringPiece_string demo_file) rsp)
  else if contains (rq_url req_line) PUB then
    s ← publish lc (body_ req) s;
    let rsp := set_response_line success_line rsp in
    let rsp := set_headers (lit CONTENT_LENGTH) (StringPiece_string (decimal (zlen local_sdp))) rsp in
    let rsp := set_body (StringPiece_string local_sdp) rsp in
    _ ← log_text lc "body: " (body_ rsp);
    Ret (s, rsp)
  else if contains (rq_url req_line) SUB then Ret (s, rsp)
  else Ret (s, set_response_line success_line rsp).

(** One round of the [while (1)] of a signalling connection; [wire] is what is
    sent, and [false] ends the loop. *)
Definition signal_round (lc : LogCtx) (rtrace : list (attempt io_result)) (wtrace : list write_result) (http : HttpStream)
    (s : WebRTCServer) : result (HttpStream * WebRTCServer * list Z * bool) :=
  '(req, http, rn, timeout, _) ← AsyncRead rtrace HttpMessage_new http;
  if (timeout : bool) then Ret (http, s, [], false)
  else if bool_decide (rn = 0) then Ret (http, s, [], false)
  else if bool_decide (rn < 0) then Ret (http, s, [], false)
  else
    '(s, rsp) ← handle_request lc req s;
    '(http, wn, wire) ← http_AsyncWrite wtrace rsp http;
    Ret (http, s, wire, negb (bool_decide (wn < 0))).
End server.

Arguments Peer : clear implicits.
Arguments WebRTCServer : clear implicits.

(** ** What a connection's calls keep *)
Section kept.
Context {SSL T : Type} (o : OpenSSL SSL) (lib : SrtpLib T) (hmac_sha1 : list Z → list Z → list Z).
Context (SSL_new : option SSL) (local_ice_pwd : list Z).
Implicit Types pc : PeerConnection SSL T.

(** Runs of the calls end at the same address. *)
Ltac same_addr :=
  intros; repeat first
    [ done
    | match goal with
      | H : Ret _ = Ret _ |- _ => injection H; clear H; intros; subst
      | H : Fault _ = Ret _ |- _ => discriminate H
      | H : OutOfFuel = Ret _ |- _ => discriminate H
      | H : (_, _) = (_, _) |- _ => injection H; clear H; intros; subst
      | H : mbind _ _ = Ret _ |- _ => apply bind_Ret in H as (? & ? & H)
      | H : context [match ?x with _ => _ end] |- _ => destruct x eqn:?
      end
    | progress cbn [addr_ AsyncSend set_ice set_dtls set_send set_recv] in * ].

Lemma SendPli_addr pc pc' : SendPli lib pc = Ret pc' → addr_ pc' = addr_ pc.
Proof. unfold SendPli. same_addr. Qed.
Lemma OnPliTimer_addr pc pc' ms : OnPliTimer lib pc = Ret (pc', ms) → addr_ pc' = addr_ pc.
Proof. unfold OnPliTimer. intros (a & E & [= <- _])%bind_Ret. by apply SendPli_addr. Qed.
Lemma create_sessions_addr d pc pc' ok : create_sessions lib d pc = (pc', ok) → addr_ pc' = addr_ pc.
Proof. unfold create_sessions. same_addr. Qed.
Lemma establish_addr pc pc' : establish lib pc = Ret pc' → addr_ pc' = addr_ pc.
Proof.
  unfold establish. destruct (negb _); [|by intros [= <-]]. intros (a & E & [= <-])%bind_Ret.
  cbn [addr_]. by apply SendPli_addr.
Qed.
Lemma handle_media_addr packet d pc pc' r :
  handle_media lib packet d pc = Ret (pc', r) → addr_ pc' = addr_ pc.
Proof.
  unfold handle_media. destruct (create_sessions lib d pc) as [pc1 ok] eqn:E1.
  apply create_sessions_addr in E1. rewrite <-E1. destruct ok; cbn [negb]; [|by intros [= <- _]].
  intros (pc2 & E2%establish_addr & E)%bind_Ret. rewrite <-E2. clear E1 E2. revert E.
  unfold handle_rtcp, handle_rtp, decrypted_rtp, echo_rtp. same_addr.
Qed.
Lemma ProcessPacket_addr lc packet pc pc' r :
  ProcessPacket o lib hmac_sha1 SSL_new local_ice_pwd lc packet pc = Ret (pc', r) → addr_ pc' = addr_ pc.
Proof.
  unfold ProcessPacket. set (ice := match ice_ pc with Some _ => _ | None => _ end). clearbody ice.
  intros (b & _ & E)%bind_Ret. destruct b; [same_addr|]. destruct (Ice.is_connected ice); [|same_addr].
  cbn [negb] in E. change (addr_ pc) with (addr_ (set_ice ice pc)). revert E. generalize (set_ice ice pc). clear pc.
  intros pc. unfold handle_secure. intros ([pc1 d] & E1 & E)%bind_Ret.
  assert (H1 : addr_ pc1 = addr_ pc) by same_addr. rewrite <-H1. clear E1 H1.
  apply bind_Ret in E as (is_dtls & _ & E). destruct is_dtls; [same_addr|].
  destruct (is_running d); cbn [negb] in E; [|same_addr].
  destruct (Dtls.is_connected d); cbn [negb] in E; [|same_addr]. by apply handle_media_addr in E.
Qed.
End kept.

(** ** The buffers in the queues *)
Section queues.
Context {SSL T : Type}.
Implicit Types (m : gmap nat (Peer SSL T)) (p : Peer SSL T).

Definition queued m : list BufferPtr := map_fold (λ _ p l, packets_ p ++ l) [] m.

#[local] Instance queue_proper (id : nat) p : Proper ((≡ₚ) ==> (≡ₚ)) (λ l : list BufferPtr, packets_ p ++ l).
Proof. intros l l' E. by rewrite E. Qed.
Lemma queued_delete m id p : m !! id = Some p → queued m ≡ₚ packets_ p ++ queued (delete id m).
Proof.
  intros. unfold queued. apply (map_fold_delete (≡ₚ) (λ (_ : nat) p l, packets_ p ++ l)); [apply _| |done].
  intros j1 j2 z1 z2 y _ _ _. by rewrite !app_assoc, (Permutation_app_comm (packets_ z1)).
Qed.
Lemma queued_insert_new m id p : m !! id = None → queued (<[id := p]> m) ≡ₚ packets_ p ++ queued m.
Proof.
  intros Hm. rewrite (queued_delete (<[id := p]> m) id p) by apply lookup_insert_eq. by rewrite delete_insert_id.
Qed.
Lemma queued_insert m id p p' :
  m !! id = Some p → ∃ rest, queued m ≡ₚ packets_ p ++ rest ∧ queued (<[id := p']> m) ≡ₚ packets_ p' ++ rest.
Proof.
  intros E. exists (queued (delete id m)). split; [by apply queued_delete|].
  rewrite <-insert_delete_eq. apply queued_insert_new, lookup_delete_eq.
Qed.
End queues.

(** ** Receiving a datagram *)

(** An answer after which the receiver waits again. *)
Definition recv_waits (a : attempt datagram) : Prop :=
  match answer a with RecvErr e => again true e (timed_out a) = true | Recv _ _ => False end.
#[export] Instance recv_waits_dec a : Decision (recv_waits a).
Proof. unfold recv_waits. destruct (answer a); apply _. Defined.

Lemma recv_first trace :
  Exists (λ a, ¬ recv_waits a) trace →
  ∃ pre a rest, trace = pre ++ a :: rest ∧ Forall recv_waits pre ∧ ¬ recv_waits a.
Proof.
  induction trace as [|a trace IH]; [by intros ?%Exists_nil|]. intros H.
  destruct (decide (recv_waits a)) as [Ha|Ha]; [|by exists [], a, trace].
  apply Exists_cons in H as [?|(pre & b & rest & -> & Hp & Hb)%IH]; [done|].
  exists (a :: pre), b, rest. by split_and!; [|constructor|].
Qed.
Lemma recv_skip p count pre trace st :
  Forall recv_waits pre →
  retry (RecvFrom p count) recv_errno true (pre ++ trace) st = retry (RecvFrom p count) recv_errno true trace st.
Proof.
  induction 1 as [|a pre Ha _ IH]; [done|]. unfold recv_waits in Ha. cbn [app].
  destruct (answer a) as [e|] eqn:E; [|done]. destruct st as [mem addr].
  by rewrite (retry_again _ _ true a (pre ++ trace) _ (mem, addr) (-1)) by (rewrite ?E; done || lia).
Qed.
Lemma recv_failed p count a trace st e :
  answer a = RecvErr e → ¬ recv_waits a →
  ∃ t, retry (RecvFrom p count) recv_errno true (a :: trace) st = Ret (st, -1, t, trace).
Proof.
  intros E Hw. unfold recv_waits, again in Hw. rewrite E in Hw. destruct st as [mem addr]. cbn [retry].
  rewrite E. cbn [RecvFrom mbind result_bind recv_errno]. rewrite (bool_decide_true (-1 < 0)) by lia.
  destruct (bool_decide (e = EINTR)); cbn [orb] in Hw; [done|].
  destruct (bool_decide (e = EAGAIN)); cbn [andb] in *; [|eauto].
  destruct (timed_out a); cbn [andb negb] in *; [eauto|done].
Qed.

(** A buffer of the pool: well formed, not smaller than it was made. *)
Record buf_ok (b : Buffer) : Prop := {
  bo_wf : buf_wf b;
  bo_size : 1024 <= zlen (buffer_ b);
  bo_bytes : bytes_ok (buffer_ b);
}.

Lemma buf_ok_default : buf_ok default_buffer.
Proof.
  constructor.
  - unfold buf_wf, default_buffer. cbn [buffer_ reader_index_ writer_index_].
    rewrite zlen_replicate. unfold kCheapPrepend, kInitialSize, INT_MAX. lia.
  - unfold default_buffer. cbn [buffer_]. rewrite zlen_replicate. unfold kCheapPrepend, kInitialSize, INT_MAX. lia.
  - unfold default_buffer. cbn [buffer_]. apply Forall_replicate. unfold_u. lia.
Qed.
Lemma buf_ok_TakeAll b : buf_ok b → buf_ok (TakeAll b).
Proof. intros [Hw Hs Hb]. constructor; [by apply TakeAll_ok|done..]. Qed.

(** What [RecvFrom] stores behind the write position is the new content. *)
Lemma recv_stored buf addr from bytes :
  buf_ok buf → bytes_ok bytes → zlen (content buf) + zlen bytes <= max_content →
  let got := ztake (writable_bytes buf) bytes in
  ∃ mem, RecvFrom (write_index buf) (writable_bytes buf) (buffer_ buf, addr) (Recv from bytes) =
      Ret (mem, if bool_decide (zlen got > 0) then from else addr, zlen got) ∧
    buf_ok (mk_buffer mem (reader_index_ buf) (writer_index_ buf)) ∧
    (0 < zlen got → ∃ b', AddReadableLength (mk_buffer mem (reader_index_ buf) (writer_index_ buf)) (zlen got) = Ret b' ∧
       buf_ok b' ∧ 1024 <= writable_bytes b' ∧ content b' = content buf ++ got).
Proof.
  intros [Hw Hs Hb] Hok Hfit got. pose proof (zlen_nonneg got) as Hn.
  assert (Hgl : zlen got <= zlen bytes) by (unfold got, zlen, ztake; rewrite length_take; lia).
  assert (Hg : zlen got <= writable_bytes buf).
  { unfold got. rewrite zlen_ztake_min by (buf_unfold; lia). lia. }
  destruct (write_back buf got (zlen got)) as (Hm & Hl & Hc); [done|lia|done|].
  clear Hc. unfold RecvFrom. fold got. unfold write_index. rewrite Hm. cbn [mbind result_bind].
  set (mem := ztake _ _ ++ _ ++ _) in *. set (b1 := mk_buffer mem (reader_index_ buf) (writer_index_ buf)).
  assert (Hb1 : buf_ok b1).
  { constructor; [unfold b1; unfold buf_wf in *; cbn [buffer_ reader_index_ writer_index_]; lia|cbn [b1 buffer_]; lia|]. cbn [b1 buffer_]. unfold mem, got.
    rewrite !bytes_ok_app. auto with baize. }
  exists mem. split_and!; [done..|]. intros Hpos. destruct Hb1 as [W S B].
  assert (Hwr : zlen got <= writable_bytes b1) by (unfold b1; buf_unfold; lia).
  assert (Hc1 : content b1 = content buf).
  { unfold content, b1, mem. buf_unfold. rewrite zdrop_app_le by (rewrite zlen_ztake; lia).
    rewrite zdrop_ztake by lia. rewrite ztake_app_le by (rewrite block_length; lia). by rewrite ztake_ztake by lia. }
  destruct (AddReadableLength_correct b1 (zlen got)) as (b' & E & W' & Hroom & Hc'); [done|lia|done|rewrite Hc1; lia|].
  destruct (AddReadableLength_bytes b1 (zlen got) b') as [B' S']; [done|lia|done..|].
  exists b'. split_and!; [done|constructor; [done|lia|done]|done|]. rewrite Hc', Hc1.
  f_equal. unfold b1, mem. cbn [writer_index_ buffer_].
  rewrite zdrop_app_all by (rewrite zlen_ztake; buf_unfold; lia).
  rewrite (ztake_ge (zlen got) got) by lia. by apply ztake_app_all.
Qed.

(** ** The invariant of the server *)
Section life.
Context {SSL T : Type} (o : OpenSSL SSL) (lib : SrtpLib T) (hmac_sha1 : list Z → list Z → list Z).
Context (ssl : SSL) (local_ice_pwd local_ice_ufrag local_sdp demo_file : list Z).
Context (inet_ntop : Z → list Z → option (list Z)) (sendto : nat → send_result).
Context (Ho : openssl_ok o) (Hbio : bio_fits o) (Hlib : srtp_ok lib) (Hd : digest_ok hmac_sha1).
Implicit Types (s : WebRTCServer SSL T) (p : Peer SSL T) (c : gmap (list Z) nat).

(** The address a datagram comes from. *)
Record source_ok (a : InetAddress) : Prop := {
  so_wf : addr_wf a;
  so_bytes : bytes_ok a;
  so_family : sin_family a = AF_INET ∨ sin_family a = AF_INET6;
}.

(** Whatever session decrypts it, control packets have whole words and no
    source description. *)
Definition benign (bytes : list Z) : Prop :=
  ∀ packet x x' packet', AsString packet = bytes → DecryptRtcp lib x packet = (x', packet', true) →
    sp_size packet' mod 4 = 0 ∧ SDES ∉ fst (rtcp_walk (AsString packet')).
(** At most as long as a STUN packet whose dump fits its log line. *)
Definition datagram_ok (r : datagram) : Prop :=
  match r with
  | RecvErr _ => True
  | Recv from bytes => source_ok from ∧ bytes_ok bytes ∧ zlen bytes <= max_stun ∧ ∀ n, benign (ztake n bytes)
  end.

Definition packet_buf (b : BufferPtr) : Prop := buf_ok (bp_buf b) ∧ packet_ok lib (slice (bp_buf b)).
Definition ptr_ok (b : BufferPtr) : Prop := buf_ok (bp_buf b).

(** A live connection is reached by exactly one key: the text of its address
    once it is bound to one. *)
Record peer_ok c (id : nat) p : Prop := {
  pk_pc : pc_inv (peer_pc p);
  pk_sdp : sdp_ok (sdp_ (peer_pc p));
  pk_packets : Forall packet_buf (packets_ p);
  pk_sent : pc_sent (peer_pc p) = [];
  pk_key : ∃ key, (∀ key', c !! key' = Some id ↔ key' = key) ∧
    (addr_ (peer_pc p) = InetAddress_default ∨
     source_ok (addr_ (peer_pc p)) ∧ key = ip_port inet_ntop (addr_ (peer_pc p)));
}.

Definition receiver_ok s : Prop :=
  match receiver s with
  | Idle => True
  | Receiving b => buf_ok (bp_buf b) ∧ bp_buf b = TakeAll (bp_buf b)
  | Flushing i e kept => Forall ptr_ok (option_list kept) ∧ (i < e <= length (send_messages_ s))%nat
  end.
(** Every buffer, with those that a running step holds. *)
Definition all_buffers s (held : list BufferPtr) : list BufferPtr :=
  buffers_ s ++ queued (peers s) ++ held_by (receiver s) ++ held.
Record srv_inv (held : list BufferPtr) s : Prop := {
  si_buffers : bp_addr <$> all_buffers s held ≡ₚ seq 0 (Z.to_nat kBufferNum);
  si_pool : Forall ptr_ok (buffers_ s);
  si_receiver : receiver_ok s;
  si_peers : ∀ id p, peers s !! id = Some p → peer_ok (connections_ s) id p ∧ (id < next_peer s)%nat;
  si_ids : ∀ key id, connections_ s !! key = Some id → (id < next_peer s)%nat;
  si_nil : connections_ s !! [] = None;
}.

Lemma srv_inv_new : srv_inv [] (WebRTCServer_new (SSL := SSL) (T := T)).
Proof.
  constructor; [|  |done..].
  - change (all_buffers WebRTCServer_new []) with (BufferPool_new kBufferNum ++ []). unfold BufferPool_new.
    rewrite app_nil_r, <-list_fmap_compose. unfold compose. cbn [bp_addr]. by rewrite list_fmap_id.
  - cbn [buffers_ WebRTCServer_new]. unfold BufferPool_new. apply Forall_fmap, Forall_true. intros. apply buf_ok_default.
Qed.
Lemma inv_messages held m log s :
  (length (send_messages_ s) <= length m)%nat → srv_inv held s → srv_inv held (with_messages m log s).
Proof.
  intros Hm [E Hp Hr Hps Hi Hn]. constructor; try done. revert Hr. unfold receiver_ok. cbn [receiver send_messages_ with_messages].
  destruct (receiver s); [done..|]. intros [? ?]. split; [done|lia].
Qed.
Lemma inv_idle_messages held m log s : receiver s = Idle → srv_inv held s → srv_inv held (with_messages m log s).
Proof. intros Hi [E Hp Hr Hps Hk Hn]. constructor; try done. unfold receiver_ok. cbn [receiver with_messages]. by rewrite Hi. Qed.
(** The contents of a buffer may change while a step holds it. *)
Lemma inv_held held held' s : bp_addr <$> held = bp_addr <$> held' → srv_inv held s → srv_inv held' s.
Proof.
  intros Eh [E Hp Hr Hps Hk Hn]. constructor; try done. revert E. unfold all_buffers. rewrite !fmap_app. by rewrite Eh.
Qed.

(** Buffers that go back to the pool. *)
Lemma delete_addrs bufs l : bp_addr <$> foldl BufferDelete l bufs = (bp_addr <$> l) ++ (bp_addr <$> bufs).
Proof.
  revert l. induction bufs as [|b bufs IH]; intros l; cbn [foldl]; [by rewrite app_nil_r|].
  rewrite IH. unfold BufferDelete. rewrite fmap_app, <-app_assoc. done.
Qed.
Lemma give_back held bufs s :
  srv_inv (bufs ++ held) s → Forall ptr_ok bufs →
  srv_inv held (with_buffers (foldl BufferDelete (buffers_ s) bufs) (receiver s) s).
Proof.
  intros [E Hp Hr Hps Hi Hn] Hb. constructor; try done.
  - revert E. unfold all_buffers. cbn [buffers_ peers receiver with_buffers]. rewrite !fmap_app, delete_addrs.
    intros <-. solve_Permutation.
  - cbn [buffers_ with_buffers]. clear E Hr Hps Hi Hn. revert Hp. generalize (buffers_ s).
    induction Hb as [|b bufs Hb _ IH]; intros l Hl; [done|]. cbn. apply IH. unfold BufferDelete.
    apply Forall_app. split; [done|]. apply Forall_singleton. by apply buf_ok_TakeAll.
Qed.
(** The receiver gives up what it holds. *)
Lemma release_receiver s : srv_inv [] s → srv_inv (held_by (receiver s)) (with_buffers (buffers_ s) Idle s).
Proof. intros [E Hp Hr Hps Hi Hn]. constructor; try done. revert E. unfold all_buffers. cbn [buffers_ peers receiver with_buffers held_by]. by rewrite app_nil_r. Qed.
Lemma end_round_ok kept s :
  srv_inv (option_list kept) s → receiver s = Idle → Forall ptr_ok (option_list kept) → srv_inv [] (end_round kept s).
Proof.
  intros Hs Hi Hk. unfold end_round. rewrite <-Hi. destruct kept as [b|].
  - exact (give_back [] [b] s Hs Hk).
  - destruct s. exact Hs.
Qed.
Lemma flush_begin_ok kept s :
  srv_inv (option_list kept) s → receiver s = Idle → Forall ptr_ok (option_list kept) → srv_inv [] (flush_begin kept s).
Proof.
  intros Hs Hi Hk. unfold flush_begin. destruct (send_messages_ s) as [|msg ms] eqn:Em; [by apply end_round_ok|].
  destruct Hs as [E Hp Hr Hps Hids Hn]. constructor; try done.
  - revert E. unfold all_buffers. cbn [buffers_ peers receiver with_buffers held_by]. rewrite Hi, app_nil_r. done.
  - unfold receiver_ok. cbn [receiver with_buffers send_messages_]. rewrite Em. split; [done|cbn [length]; lia].
Qed.

(** ** Sending *)
Lemma send_all_ok addr packets s :
  Forall small packets →
  ∃ m log, send_all sendto addr packets s = Ret (with_messages m log s) ∧ (length (send_messages_ s) <= length m)%nat.
Proof.
  intros Hp. revert s. induction Hp as [|packet packets Hsm _ IH]; intros s.
  { exists (send_messages_ s), (socket_log s). by destruct s. }
  cbn [send_all]. unfold server_AsyncSend. set (r := sendto _). case_bool_decide.
  - destruct (Append_all_ok default_buffer packet (bo_wf _ buf_ok_default)) as (buf & -> & _).
    { rewrite default_buffer_content. exact Hsm. }
    cbn [mbind result_bind].
    match goal with |- context [send_all _ _ _ ?s'] => destruct (IH s') as (m & log & -> & Hl) end.
    exists m, log. split; [done|]. revert Hl. cbn [send_messages_ with_messages]. rewrite length_app. lia.
  - cbn [mbind result_bind].
    match goal with |- context [send_all _ _ _ ?s'] => destruct (IH s') as (m & log & -> & Hl) end. by exists m, log.
Qed.
(** A round of the loop over the delayed messages: it fails exactly when a
    message was added since it began. *)
Lemma flush_step_ok i e kept s :
  srv_inv [] s → receiver s = Flushing i e kept →
  if bool_decide (length (send_messages_ s) = e) then ∃ s', flush_step sendto s = Ret s' ∧ srv_inv [] s'
  else flush_step sendto s = Fault WildPointer.
Proof.
  intros Hs Hr. unfold flush_step. rewrite Hr. pose proof (si_receiver _ _ Hs) as Hrok. unfold receiver_ok in Hrok. rewrite Hr in Hrok.
  destruct Hrok as [Hk Hie]. case_bool_decide as He; [|by rewrite bool_decide_true].
  rewrite bool_decide_false by (intros Hn; by apply Hn).
  destruct (lookup_lt_is_Some_2 (send_messages_ s) i) as [[addr packet] Em]; [lia|]. rewrite Em.
  set (log := socket_log s ++ _). set (again := _ && _).
  assert (Hm : srv_inv [] (with_messages (send_messages_ s) log s)) by (by apply inv_messages).
  destruct again; [by eexists|]. case_bool_decide as Hl.
  - eexists. split; [done|].
    apply (end_round_ok kept (with_messages [] log (with_buffers (buffers_ s) Idle s))); [|done|done].
    apply inv_idle_messages; [done|]. apply release_receiver in Hs. by rewrite Hr in Hs.
  - eexists. split; [done|]. destruct Hm as [E Hp Hrr Hps Hids Hn]. constructor; try done.
    + revert E. unfold all_buffers. cbn [buffers_ peers receiver with_buffers with_messages held_by]. by rewrite Hr.
    + unfold receiver_ok. cbn [receiver with_buffers with_messages send_messages_]. split; [done|]. lia.
Qed.

(** ** Receiving *)
Lemma receive_begin_ok s :
  srv_inv [] s → receiver s = Idle →
  (buffers_ s = [] ∧ receive_begin s = Fault NullDeref) ∨
  (∃ s' b, receive_begin s = Ret s' ∧ srv_inv [] s' ∧ receiver s' = Receiving b).
Proof.
  intros [E Hp Hr Hps Hi Hn] Hidle. unfold receive_begin.
  destruct (AllocBuffer (buffers_ s)) as [buffers [buf|]] eqn:Ea; apply AllocBuffer_ok in Ea.
  - right. destruct Ea as (q & Eq & ->). do 2 eexists. split; [done|]. split; [|done].
    rewrite Eq in Hp. apply Forall_app in Hp as [Hp Hq]. rewrite Forall_singleton in Hq.
    constructor; try done.
    + revert E. unfold all_buffers. cbn [buffers_ peers receiver with_buffers held_by]. rewrite Hidle, Eq, !fmap_app.
      intros <-. cbn [fmap list_fmap bp_addr held_by]. solve_Permutation.
    + unfold receiver_ok. cbn [receiver with_buffers bp_buf]. by split; [apply buf_ok_TakeAll|].
  - left. by destruct Ea as [-> ->].
Qed.

(** A connection with another packet queue, at the same or a new address. *)
Lemma set_peer_ok held held' id p p' s :
  srv_inv held s → peers s !! id = Some p → peer_ok (connections_ s) id p' →
  bp_addr <$> (packets_ p ++ held) ≡ₚ bp_addr <$> (packets_ p' ++ held') →
  srv_inv held' (with_peers (<[id := p']> (peers s)) s).
Proof.
  intros [E Hp Hr Hps Hi Hn] Hid Hp' Hl. constructor; try done.
  - destruct (queued_insert (peers s) id p p' Hid) as (rest & E1 & E2). revert E. unfold all_buffers.
    cbn [buffers_ peers receiver with_peers]. rewrite E1, E2. revert Hl. rewrite !fmap_app. intros Hl <-.
    transitivity ((bp_addr <$> buffers_ s) ++ (bp_addr <$> rest) ++ (bp_addr <$> held_by (receiver s)) ++
      ((bp_addr <$> packets_ p') ++ (bp_addr <$> held'))); [solve_Permutation|]. rewrite <-Hl. solve_Permutation.
  - cbn [peers connections_ next_peer with_peers]. intros id' q. destruct (decide (id = id')) as [<-|].
    + rewrite lookup_insert_eq. intros [= <-]. split; [done|apply (Hps id p Hid)].
    + rewrite lookup_insert_ne by done. apply Hps.
Qed.
Lemma set_packets_ok c id p packets :
  peer_ok c id p → Forall packet_buf packets → peer_ok c id (mk_peer (peer_pc p) packets).
Proof. intros [] ?. by constructor. Qed.
(** The text of a source is not empty. *)
Lemma ip_port_source a : source_ok a → ip_port inet_ntop a ≠ [].
Proof.
  intros [_ _ Hf] H. apply (f_equal zlen) in H. revert H. unfold ip_port.
  rewrite zlen_ztake_min by lia. change (zlen (@nil Z)) with 0. destruct Hf as [-> | ->].
  - change (bool_decide (AF_INET = AF_INET6)) with false. change (bool_decide (AF_INET = AF_INET)) with true.
    cbn match. rewrite !zlen_app. change (zlen [58]) with 1. pose proof (zlen_nonneg (ip inet_ntop a)).
    pose proof (zlen_nonneg (decimal (port a))). lia.
  - change (bool_decide (AF_INET6 = AF_INET6)) with true. cbn match. rewrite !zlen_app. change (zlen [91]) with 1.
    pose proof (zlen_nonneg (ip inet_ntop a)). pose proof (zlen_nonneg (decimal (port a))).
    pose proof (zlen_nonneg [93; 58]). lia.
Qed.

(** [connections_[remote] = connections_[ice_ufrag]], then the old key goes. *)
Definition rebind (remote ice_ufrag : list Z) (id : nat) c : gmap (list Z) nat :=
  delete ice_ufrag (<[remote := id]> c).

Lemma rebind_lookup remote ufrag id c key id' :
  c !! remote = None → c !! ufrag = Some id →
  rebind remote ufrag id c !! key = Some id' ↔
  (key = remote ∧ id' = id) ∨ (key ≠ remote ∧ key ≠ ufrag ∧ c !! key = Some id').
Proof.
  intros Hr Hu. unfold rebind. assert (remote ≠ ufrag) by congruence.
  destruct (decide (key = ufrag)) as [->|]; [rewrite lookup_delete_eq; naive_solver|].
  rewrite lookup_delete_ne by done. destruct (decide (key = remote)) as [->|].
  - rewrite lookup_insert_eq. naive_solver.
  - rewrite lookup_insert_ne by done. naive_solver.
Qed.
Lemma rebind_other remote ufrag id c id' p :
  c !! remote = None → c !! ufrag = Some id → id' ≠ id → peer_ok c id' p →
  peer_ok (rebind remote ufrag id c) id' p.
Proof.
  intros Hr Hu Hne [H1 H2 H3 H4 (key & Hk & Ha)]. constructor; [done..|]. exists key. split; [|done].
  intros key'. rewrite rebind_lookup, Hk by done. split; [naive_solver|]. intros ->.
  right. assert (c !! key = Some id') by (by apply Hk). split_and!; congruence.
Qed.
Lemma rebind_ok held remote ufrag id s :
  srv_inv held s → peers s !! id = None → connections_ s !! remote = None → remote ≠ [] →
  connections_ s !! ufrag = Some id →
  srv_inv held (with_connections (rebind remote ufrag id (connections_ s)) s).
Proof.
  intros [E Hp Hr Hps Hi Hn] Hdead Hnew Hne Hu.
  constructor; cbn [connections_ peers next_peer with_connections]; try done.
  - intros id' q Hq. destruct (Hps id' q Hq). split; [|done]. apply rebind_other; [done..| |done].
    intros ->. congruence.
  - intros key id' [[-> ->]|(_ & _ & H)]%rebind_lookup; eauto.
  - apply eq_None_not_Some. intros [id' H]. apply rebind_lookup in H as [[He _]|(_ & _ & H)]; [by apply Hne|congruence|done..].
Qed.
(** One buffer more in a queue is one less in the hands of the step. *)
Lemma enqueue_buffers held id p q buf s :
  srv_inv (buf :: held) s → peers s !! id = Some p → packets_ q = packets_ p ++ [buf] →
  bp_addr <$> (buffers_ s ++ queued (<[id := q]> (peers s)) ++ held_by (receiver s) ++ held) ≡ₚ seq 0 (Z.to_nat kBufferNum).
Proof.
  intros [E _ _ _ _ _] Hid Hq.
  destruct (queued_insert (peers s) id p q Hid) as (rest & E1 & E2). revert E. unfold all_buffers.
  rewrite E1, E2, Hq, !fmap_app. cbn [fmap list_fmap]. intros <-. solve_Permutation.
Qed.
Lemma rebind_live ufrag id p a buf s :
  srv_inv [buf] s → peers s !! id = Some p → source_ok a →
  connections_ s !! ip_port inet_ntop a = None → connections_ s !! ufrag = Some id → packet_buf buf →
  srv_inv [] (enqueue id (mk_peer (set_addr a (peer_pc p)) (packets_ p)) buf
    (with_connections (rebind (ip_port inet_ntop a) ufrag id (connections_ s)) s)).
Proof.
  intros Hs Hid Ha Hnew Hu Hb. pose proof Hs as [E Hp Hr Hps Hi Hn]. pose proof (ip_port_source a Ha) as Hne.
  destruct (Hps id p Hid) as [[H1 H2 H3 H4 _] Hlt]. unfold enqueue. cbn [peer_pc packets_].
  constructor; cbn [with_peers with_connections connections_ peers next_peer buffers_ receiver]; try done.
  - by apply (enqueue_buffers [] id p _ buf s).
  - intros id' q. destruct (decide (id = id')) as [<-|].
    + rewrite lookup_insert_eq. intros [= <-]. split; [|done].
      constructor; cbn [peer_pc packets_ set_addr sdp_ addr_ pc_sent]; [|done|by apply Forall_app; rewrite Forall_singleton|done|].
      * destruct H1. constructor; cbn; try done. split; apply Ha.
      * exists (ip_port inet_ntop a). split; [|by right]. intros key'. rewrite rebind_lookup by done.
        split; [|by intros ->; left]. intros [[-> _]|(N1 & N2 & Hk)]; [done|].
        destruct (pk_key _ _ _ (proj1 (Hps id p Hid))) as (key & Hkey & _).
        apply Hkey in Hk, Hu. congruence.
    + rewrite lookup_insert_ne by done. intros Hq. destruct (Hps id' q Hq). split; [|done].
      by apply rebind_other.
  - intros key id' [[-> ->]|(_ & _ & H)]%rebind_lookup; eauto.
  - apply eq_None_not_Some. intros [id' H]. apply rebind_lookup in H as [[He _]|(_ & _ & H)]; [by apply Hne|congruence|done..].
Qed.

Lemma route_ok a buf s :
  srv_inv [buf] s → source_ok a → packet_buf buf →
  ∃ s' kept, route inet_ntop a buf s = Ret (s', kept) ∧ receiver s' = receiver s ∧
    srv_inv (option_list kept) s' ∧ (kept = None ∨ kept = Some buf).
Proof.
  intros Hs Ha Hb. pose proof Hb as [_ [Wf Bt Sz _ _]]. unfold route.
  assert (Hback : ∃ s' kept, Ret (s, Some buf) = Ret (s', kept) ∧ receiver s' = receiver s ∧
    srv_inv (option_list kept) s' ∧ (kept = None ∨ kept = Some buf)) by (exists s, (Some buf); split_and!; auto).
  destruct (connections_ s !! ip_port inet_ntop a) as [id|] eqn:Er.
  - destruct (peers s !! id) as [p|] eqn:Ep; [|exact Hback].
    do 2 eexists. split_and!; [done..| |by left]. cbn [option_list].
    destruct (si_peers _ _ Hs id p Ep) as [Hp _]. apply (set_peer_ok [buf] [] id p); [done..| |].
    + apply set_packets_ok; [done|]. apply Forall_app. split; [apply Hp|]. by rewrite Forall_singleton.
    + cbn [packets_]. by rewrite app_nil_r.
  - assert (Hok : bytes_ok (AsString (slice (bp_buf buf)))) by (apply bytes_AsString, Bt).
    destruct (IsStun_ok (slice (bp_buf buf)) Wf Hok) as (is_stun & -> & _). cbn [mbind result_bind].
    destruct is_stun; cbn [negb]; [|exact Hback].
    destruct (Parse_ok (slice (bp_buf buf)) Wf Hok) with (klass := REQUEST) (method := 0) as (pkt & r & -> & _);
      [unfold max_stun in Sz; lia|]. cbn [mbind result_bind].
    case_bool_decide; [exact Hback|].
    destruct (connections_ s !! AsString (username_ pkt)) as [id|] eqn:Eu; [|exact Hback].
    cbn [peers with_connections]. destruct (peers s !! id) as [p|] eqn:Ep.
    + do 2 eexists. split_and!; [done..| |by left]. by apply rebind_live.
    + do 2 eexists. split_and!; [done..| |by right].
      apply rebind_ok; [done..| |done]. by apply ip_port_source.
Qed.

(** A datagram in a buffer of the pool. *)
Lemma packet_buf_intro a b got :
  buf_ok b → 1024 <= writable_bytes b → content b = got → zlen got <= max_stun → benign got → packet_buf (mk_bptr a b).
Proof.
  intros [W S B] Hr Hc Hl Hg. split; [done|]. cbn [bp_buf].
  assert (Hz : sp_size (slice b) = zlen got) by (rewrite <-Hc, zlen_content by done; done).
  constructor; [by apply slice_wf|done|lia| |].
  - unfold sp_end, slice, StringPiece_len, SRTP_MAX_TRAILER_LEN. buf_unfold. cbn. lia.
  - intros x x' packet' E. apply (Hg (slice b) x x' packet'); [by rewrite AsString_slice|done].
Qed.

(** The round after the wait ended with a datagram that is not empty. *)
Lemma receive_end_datagram s ptr trace pre a rest from bytes :
  srv_inv [] s → receiver s = Receiving ptr → trace = pre ++ a :: rest → Forall recv_waits pre →
  answer a = Recv from bytes → datagram_ok (Recv from bytes) → bytes ≠ [] →
  let got := ztake (writable_bytes (bp_buf ptr)) bytes in
  1016 <= writable_bytes (bp_buf ptr) ∧
  ∃ b, bp_addr b = bp_addr ptr ∧ packet_buf b ∧ content (bp_buf b) = got ∧
    receive_end inet_ntop trace s =
    '(s', kept) ← route inet_ntop from b (with_buffers (buffers_ s) Idle s); Ret (flush_begin kept s').
Proof.
  intros Hs Hr -> Hpre Ea (Hfrom & Hok & Hlen & Hben) Hne got.
  pose proof (si_receiver _ _ Hs) as Hrok. unfold receiver_ok in Hrok. rewrite Hr in Hrok. destruct Hrok as [Hb Ht].
  set (buf := bp_buf ptr) in *.
  assert (Hwr : 1016 <= writable_bytes buf).
  { destruct Hb as [_ S _]. rewrite Ht. unfold TakeAll, writable_bytes, kCheapPrepend. cbn. lia. }
  assert (Hc : content buf = []) by (rewrite Ht; apply TakeAll_ok, Hb).
  split; [done|].
  assert (Hg : 0 < zlen got).
  { unfold got. rewrite zlen_ztake_min by lia. destruct bytes; [done|]. rewrite zlen_cons.
    pose proof (zlen_nonneg bytes). lia. }
  destruct (recv_stored buf zero_addr6 from bytes Hb Hok) as (mem & Em & Hb1 & Hadd).
  { rewrite Hc. change (zlen []) with 0. unfold max_stun, max_content in *. lia. }
  fold got in Em, Hadd. destruct (Hadd Hg) as (b' & Eb & Hb' & Hroom & Hc').
  exists (mk_bptr (bp_addr ptr) b'). rewrite Hc in Hc'. cbn [app] in Hc'. split_and!; [done| |done|].
  { apply (packet_buf_intro _ b' got); [done..| |apply Hben].
    unfold got. rewrite zlen_ztake_min by lia. lia. }
  unfold receive_end. rewrite Hr. fold buf. unfold AsyncRecvFrom_ms. rewrite recv_skip by done.
  rewrite (retry_done _ _ true a rest _ (mem, from) (zlen got)); [|rewrite Ea, Em, bool_decide_true by lia; done|lia].
  cbn [mbind result_bind]. rewrite (bool_decide_false (zlen got < 0)) by lia. cbn [orb]. rewrite Eb.
  cbn [mbind result_bind]. by destruct (route _ _ _ _) as [[s' kept]| |].
Qed.

Lemma receive_end_ok trace s ptr :
  srv_inv [] s → receiver s = Receiving ptr → Forall (datagram_ok ∘ answer) trace →
  Exists (λ a, ¬ recv_waits a) trace →
  ∃ s', receive_end inet_ntop trace s = Ret s' ∧ srv_inv [] s'.
Proof.
  intros Hs Hr Hok (pre & a & rest & -> & Hpre & Ha)%recv_first.
  pose proof (release_receiver s Hs) as Hs1. rewrite Hr in Hs1. cbn [held_by] in Hs1.
  pose proof (si_receiver _ _ Hs) as Hrok. unfold receiver_ok in Hrok. rewrite Hr in Hrok. destruct Hrok as [Hb Ht].
  apply Forall_app in Hok as [_ Hok]. apply Forall_cons in Hok as [Hok _]. cbn in Hok.
  assert (Hkeep : ∀ mem, buf_ok (mk_buffer mem (reader_index_ (bp_buf ptr)) (writer_index_ (bp_buf ptr))) →
    ∃ s', Ret (flush_begin (Some (mk_bptr (bp_addr ptr) (mk_buffer mem (reader_index_ (bp_buf ptr)) (writer_index_ (bp_buf ptr)))))
      (with_buffers (buffers_ s) Idle s)) = Ret s' ∧ srv_inv [] s').
  { intros mem Hm. eexists. split; [done|]. apply flush_begin_ok; [|done|by apply Forall_singleton].
    by eapply inv_held; [|exact Hs1]. }
  destruct (answer a) as [e|from bytes] eqn:Ea.
  - unfold receive_end. rewrite Hr. unfold AsyncRecvFrom_ms. rewrite recv_skip by done.
    destruct (recv_failed (write_index (bp_buf ptr)) (writable_bytes (bp_buf ptr)) a rest (buffer_ (bp_buf ptr), zero_addr6) e Ea Ha) as (t & ->).
    cbn [mbind result_bind]. rewrite (bool_decide_true (-1 < 0)), orb_true_r by lia. cbn [mbind result_bind].
    apply Hkeep. by destruct (bp_buf ptr).
  - destruct (decide (bytes = [])) as [->|Hne].
    + unfold receive_end. rewrite Hr. unfold AsyncRecvFrom_ms. rewrite recv_skip by done.
      destruct (recv_stored (bp_buf ptr) zero_addr6 from [] Hb) as (mem & Em & Hb1 & _); [by constructor| |].
      { rewrite Ht. rewrite (proj2 (TakeAll_ok _ (bo_wf _ Hb))). by vm_compute. }
      rewrite (retry_done _ _ true a rest _ (mem, zero_addr6) 0); [|by rewrite Ea, Em; unfold ztake; rewrite take_nil|lia].
      cbn [mbind result_bind orb]. rewrite (bool_decide_false (0 < 0)) by lia.
      unfold AddReadableLength. rewrite (bool_decide_true (0 <= 0)) by lia. cbn [mbind result_bind].
      assert (Er : ∀ ad b, b = TakeAll b → buf_ok b → route inet_ntop zero_addr6 (mk_bptr ad b) (with_buffers (buffers_ s) Idle s) =
        Ret (with_buffers (buffers_ s) Idle s, Some (mk_bptr ad b))).
      { intros ad b Eb [W _ B]. unfold route. cbn [bp_buf]. change (ip_port inet_ntop zero_addr6) with (@nil Z).
        rewrite (si_nil _ _ Hs1). destruct (IsStun_ok (slice b) (slice_wf b W)) as (r & -> & Hst);
          [by apply bytes_AsString|]. destruct r; [|done]. destruct (proj1 Hst eq_refl) as [H20 _].
        exfalso. revert H20. rewrite Eb. unfold sp_size, slice, readable_bytes, TakeAll, kCheapPrepend. cbn. lia. }
      rewrite Er by (done || by rewrite Ht). cbn [mbind result_bind]. by apply Hkeep.
    + destruct (receive_end_datagram s ptr _ pre a rest from bytes Hs Hr eq_refl Hpre Ea Hok Hne)
        as (_ & b & Hba & Hpb & _ & ->).
      assert (Hs2 : srv_inv [b] (with_buffers (buffers_ s) Idle s)) by (eapply inv_held; [|exact Hs1]; cbn; by rewrite Hba).
      destruct (route_ok from b _ Hs2 (proj1 Hok) Hpb) as (s' & kept & -> & Hr' & Hk & Hkept). cbn [mbind result_bind].
      eexists. split; [done|]. apply flush_begin_ok; [done|done|]. destruct Hkept as [-> | ->]; [constructor|].
      apply Forall_singleton, Hpb.
Qed.

(** ** A connection's routine *)
Lemma delete_ok held id s : srv_inv held s → srv_inv held (PeerConnectionDelete inet_ntop id s).
Proof.
  intros [E Hp Hr Hps Hi Hn]. unfold PeerConnectionDelete. destruct (peers s !! id) as [p|] eqn:Ep; [|by constructor].
  destruct (Hps id p Ep) as [[_ _ Hpk _ (key & Hkey & Ha)] _]. set (remote := ip_port inet_ntop (addr_ (peer_pc p))).
  assert (Hd' : ∀ k id', id' ≠ id → delete remote (connections_ s) !! k = Some id' ↔ connections_ s !! k = Some id').
  { intros k id' Hne. destruct (decide (k = remote)) as [->|]; [|by rewrite lookup_delete_ne].
    rewrite lookup_delete_eq. split; [done|]. intros H. exfalso. destruct Ha as [Ha|[_ Ha]].
    - unfold remote in H. rewrite Ha in H. change (ip_port inet_ntop InetAddress_default) with (@nil Z) in H. congruence.
    - assert (connections_ s !! remote = Some id) by (by apply Hkey). congruence. }
  apply (give_back held (packets_ p) (with_peers (delete id (peers s)) (with_connections (delete remote (connections_ s)) s))).
  - constructor; cbn [connections_ peers next_peer with_peers with_connections]; try done.
    + revert E. unfold all_buffers. cbn [buffers_ peers receiver with_peers with_connections].
      rewrite (queued_delete (peers s) id p Ep), !fmap_app. intros <-. solve_Permutation.
    + intros id' q [Hne Hq]%lookup_delete_Some. destruct (Hps id' q Hq) as [[H1 H2 H3 H4 (k & Hk & Hka)] Hlt].
      split; [|done]. constructor; [done..|]. exists k. split; [|done]. intros k'. rewrite Hd' by done. apply Hk.
    + intros k id' [_ H]%lookup_delete_Some. eauto.
    + apply lookup_delete_None. by right.
  - eapply Forall_impl; [exact Hpk|]. by intros b [? _].
Qed.

Lemma update_peer_ok held id p pc s :
  srv_inv held s → peers s !! id = Some p → pc_inv pc → pc_small pc → sdp_ pc = sdp_ (peer_pc p) →
  addr_ pc = addr_ (peer_pc p) →
  ∃ s', update_peer sendto id pc s = Ret s' ∧ srv_inv held s' ∧ is_Some (peers s' !! id).
Proof.
  intros Hs Ep Hpc Hsm Hsdp Haddr. unfold update_peer. rewrite Ep.
  match goal with |- context [send_all _ _ _ ?s0] => destruct (send_all_ok (addr_ pc) (pc_sent pc) s0 Hsm) as (m & log & -> & Hl) end.
  eexists. split; [done|]. split; [|cbn; rewrite lookup_insert_eq; eauto].
  apply inv_messages; [done|]. destruct (si_peers _ _ Hs id p Ep) as [[H1 H2 H3 H4 H5] _].
  apply (set_peer_ok held held id p); [done..| |done].
  constructor; cbn [peer_pc sdp_ addr_ packets_ pc_sent]; [|by rewrite Hsdp|done|done|by rewrite Haddr].
  destruct Hpc. by constructor.
Qed.

Lemma packets_loop_ok lc held id packets s :
  lc_ok lc → srv_inv held s → is_Some (peers s !! id) → Forall packet_buf packets →
  ∃ s' b, packets_loop o lib hmac_sha1 (Some ssl) local_ice_pwd sendto lc id packets s = Ret (s', b) ∧ srv_inv held s'.
Proof using Ho Hbio Hlib Hd.
  intros Hlc Hs Hid Hpk. revert s Hs Hid. induction Hpk as [|packet packets [_ Hp] _ IH]; intros s Hs [p Ep]; [eauto|].
  cbn [packets_loop]. rewrite Ep. destruct (si_peers _ _ Hs id p Ep) as [[H1 H2 _ H4 _] _].
  destruct (ProcessPacket_ok o lib hmac_sha1 ssl local_ice_pwd Ho Hlib Hd lc (slice (bp_buf packet)) (peer_pc p) Hlc H1 H2 Hp)
    as (pc & err & E & Hpc & Hsdp). rewrite E. cbn [mbind result_bind].
  destruct (update_peer_ok held id p pc s) as (s1 & -> & Hs1 & Hid1);
    [done..|exact (ProcessPacket_small o lib hmac_sha1 ssl local_ice_pwd Ho Hbio Hlib Hd lc _ _ _ _ Hlc H1 Hp H4 E)|done|by eapply ProcessPacket_addr|].
  cbn [mbind result_bind]. case_bool_decide; [eauto|].
  destruct (IH s1 Hs1 Hid1) as (s2 & b & -> & Hs2). do 2 eexists. by split_and!.
Qed.

Lemma media_round_ok lc id s :
  lc_ok lc → srv_inv [] s → is_Some (peers s !! id) →
  ∃ s', media_round o lib hmac_sha1 (Some ssl) local_ice_pwd inet_ntop sendto lc id s = Ret s' ∧ srv_inv [] s'.
Proof using Ho Hbio Hlib Hd.
  intros Hlc Hs [p Ep]. unfold media_round, pc_AsyncRead. rewrite Ep. destruct (si_peers _ _ Hs id p Ep) as [Hp _].
  match goal with |- context [packets_loop _ _ _ _ _ _ _ _ _ ?s0] =>
    destruct (packets_loop_ok lc (packets_ p) id (packets_ p) s0) as (s1 & b & -> & Hs1) end.
  - done.
  - apply (set_peer_ok [] (packets_ p) id p); [done..|by apply set_packets_ok|cbn [packets_]; by rewrite app_nil_r].
  - cbn. rewrite lookup_insert_eq. eauto.
  - apply Hp.
  - cbn [mbind result_bind]. eexists. split; [done|].
    assert (H : srv_inv [] (with_buffers (foldl BufferDelete (buffers_ s1) (packets_ p)) (receiver s1) s1)).
    { apply give_back; [by rewrite app_nil_r|]. eapply Forall_impl; [apply (pk_packets _ _ _ Hp)|]. by intros ? [? _]. }
    destruct b; [done|]. by apply delete_ok.
Qed.

(** ** Signalling *)
Definition published (body : list Z) : SdpMessage := sdp_spec body SdpMessage_new.
Definition publish_key (body : list Z) : list Z := local_ice_ufrag ++ COLON ++ ice_ufrag_ (net_ (published body)).

Lemma new_short : short_texts max_text SdpMessage_new.
Proof. repeat constructor; by vm_compute. Qed.
Lemma publish_eq lc body s :
  lc_ok lc → zlen body <= max_text →
  publish local_ice_ufrag lc body s =
  if bool_decide (ice_ufrag_ (net_ (published body)) ≠ [] ∧ connections_ s !! publish_key body = None) then
    Ret (mk_server (<[publish_key body := next_peer s]> (connections_ s))
      (<[next_peer s := mk_peer (PeerConnection_new (published body) InetAddress_default) []]> (peers s))
      (S (next_peer s)) (buffers_ s) (receiver s) (send_messages_ s) (socket_log s))
  else Fault AssertFailed.
Proof.
  intros Hlc Hb. unfold publish. rewrite log_text_ok by done. cbn [mbind result_bind].
  rewrite sdp_Decode_ok; [|done|apply sp_wf_string|done|exact new_short].
  rewrite AsString_string. cbn [mbind result_bind]. fold (published body). fold (publish_key body). unfold cpp_assert.
  repeat case_bool_decide; done || naive_solver.
Qed.

Lemma publish_ok lc body s s' :
  lc_ok lc → zlen body <= max_text →
  srv_inv [] s → sdp_ok (published body) → publish local_ice_ufrag lc body s = Ret s' → srv_inv [] s'.
Proof.
  intros Hlc Hb Hs Hsdp. rewrite publish_eq by done. case_bool_decide as Hk; [|done]. destruct Hk as [Hu Hk].
  intros [= <-]. destruct Hs as [E Hp Hr Hps Hi Hn]. assert (Hnew : peers s !! next_peer s = None).
  { apply eq_None_not_Some. intros [q Hq]. apply Hps in Hq. lia. }
  assert (Hkey : ∀ k id, <[publish_key body := next_peer s]> (connections_ s) !! k = Some id ↔
    (k = publish_key body ∧ id = next_peer s) ∨ (k ≠ publish_key body ∧ connections_ s !! k = Some id)).
  { intros k id. rewrite lookup_insert_Some. split.
    - intros [[<- <-]|[? ?]]; [by left|right; by split].
    - intros [[-> ->]|[? ?]]; [by left|right; by split]. }
  constructor; cbn [buffers_ peers connections_ receiver next_peer]; try done.
  - revert E. unfold all_buffers. cbn [buffers_ peers receiver]. by rewrite queued_insert_new.
  - intros id q. rewrite lookup_insert_Some. intros [[<- <-]|[Hne Hq]].
    + split; [|lia]. constructor; cbn; try done.
      * constructor; cbn; try done; [|by intros [? ?]..]. split; [done|]. apply (bool_decide_unpack _). exact I.
      * exists (publish_key body). split; [|by left]. intros k'. rewrite Hkey. split; [|by left].
        intros [[-> _]|[_ H]]; [done|]. apply Hi in H. lia.
    + destruct (Hps id q Hq) as [[H1 H2 H3 H4 (k & Hk' & Ha)] Hlt]. split; [|lia]. constructor; [done..|].
      exists k. split; [|done]. intros k'. rewrite Hkey, Hk'. split; [intros [[_ ->]|[_ ?]]; [lia|done]|]. intros ->. right.
      split; [|done]. intros ->. assert (connections_ s !! publish_key body = Some id) by (by apply Hk'). congruence.
  - intros k id [[_ ->]|[_ H%Hi]]%Hkey; lia.
  - apply lookup_insert_None. split; [done|]. unfold publish_key. by destruct local_ice_ufrag.
Qed.

(** Whether a request publishes a connection, and whether its parts fit a log
    line. *)
Definition publishes (req : HttpMessage) : Prop :=
  rq_url (request_spec (first_line_ req)) ≠ SLASH ∧ contains (rq_url (request_spec (first_line_ req))) PUB = true.
Definition request_fits (req : HttpMessage) : Prop := zlen (first_line_ req) <= max_text ∧ zlen (body_ req) <= max_text.

Lemma fields_le ch l : Forall (λ f, zlen f <= zlen l) (fields ch l).
Proof.
  induction l as [|x l IH]; cbn [fields]; [by repeat constructor|]. rewrite zlen_cons. pose proof (zlen_nonneg l).
  case_bool_decide; [constructor; [change (zlen []) with 0; lia|]; eapply Forall_impl; [exact IH|cbn; lia]|].
  destruct (fields ch l) as [|f fs]; [constructor; [|done]; change (zlen [x]) with 1; lia|].
  apply Forall_cons in IH as [Hf Hfs]. constructor; [rewrite zlen_cons; lia|]. eapply Forall_impl; [exact Hfs|cbn; lia].
Qed.
Lemma url_le line : zlen (rq_url (request_spec line)) <= zlen line.
Proof.
  unfold request_spec. pose proof (zlen_nonneg line).
  assert (Hf : Forall (λ f, zlen f <= zlen line) (non_empty_fields (fields 32 line))).
  { apply Forall_forall. intros f [_ Hin]%list_elem_of_filter. revert f Hin. apply Forall_forall, fields_le. }
  destruct (non_empty_fields (fields 32 line)) as [|m [|path [|v [|? ?]]]]; try done.
  rewrite !Forall_cons in Hf. destruct Hf as (_ & Hpath & _). case_bool_decide; [|done]. case_bool_decide; [done|].
  destruct (read_query _ _) as [q complete]. cbn [rq_url]. etrans; [apply zlen_ztake_le|done].
Qed.

Lemma handle_request_start lc req (k : RequestLine → result (WebRTCServer SSL T * HttpMessage)) :
  lc_ok lc → request_fits req →
  (_ ← log_text lc "req first line: " (first_line_ req);
   req_line ← request_line req;
   _ ← log_text lc "req url: " (rq_url req_line); k req_line) = k (request_spec (first_line_ req)).
Proof.
  intros Hlc [H1 H2]. rewrite log_text_ok by done. cbn [mbind result_bind]. rewrite request_line_correct. cbn [mbind result_bind].
  rewrite log_text_ok; [done|done|done|]. etrans; [apply url_le|done].
Qed.
Lemma handle_request_ok lc req s :
  lc_ok lc → request_fits req → zlen local_sdp <= max_text →
  (publishes req → ice_ufrag_ (net_ (published (body_ req))) ≠ [] ∧ connections_ s !! publish_key (body_ req) = None) →
  ∃ s' rsp, handle_request local_ice_ufrag local_sdp demo_file lc req s = Ret (s', rsp).
Proof.
  intros Hlc Hf Hl Hpub. unfold handle_request. rewrite handle_request_start by done. cbv beta.
  case_bool_decide as H1; [eauto|]. unfold publishes in *.
  destruct (contains _ PUB) eqn:H2; [|destruct (contains _ SUB); eauto].
  rewrite publish_eq, bool_decide_true by (apply Hf || auto). cbn [mbind result_bind].
  rewrite log_text_ok; [cbn [mbind result_bind]; eauto|done|done|]. cbn. by rewrite AsString_string.
Qed.
Lemma handle_request_inv lc req s s' rsp :
  lc_ok lc → request_fits req → srv_inv [] s → (publishes req → sdp_ok (published (body_ req))) →
  handle_request local_ice_ufrag local_sdp demo_file lc req s = Ret (s', rsp) → srv_inv [] s'.
Proof.
  intros Hlc Hf Hs Hsdp. unfold handle_request. rewrite handle_request_start by done. cbv beta.
  case_bool_decide as H1; [by intros [= <- _]|]. unfold publishes in *.
  destruct (contains _ PUB) eqn:H2; [|destruct (contains _ SUB); by intros [= <- _]].
  intros (s1 & E & (u & _ & [= <- _])%bind_Ret)%bind_Ret. eapply publish_ok; [done|apply Hf|done| |done]. auto.
Qed.

(** A request that arrives in any pieces is handled, and its response sent. *)
Lemma signal_round_ok lc m rtrace wtrace http cs s s' rsp :
  encodable m → roomy (tls_stream_ http) (read_buf_ http) → delivers true rtrace cs →
  content (read_buf_ http) ++ concat cs = encoded m → zlen (encoded m) <= max_content →
  buf_wf (write_buf_ http) → content (write_buf_ http) = [] →
  handle_request local_ice_ufrag local_sdp demo_file lc (HttpStream.received m) s = Ret (s', rsp) →
  zlen (encoded rsp) <= max_content →
  Forall (λ a, ¬ refused (tls_stream_ http) a) wtrace → zlen (encoded rsp) <= total_room wtrace →
  ∃ http', signal_round local_ice_ufrag local_sdp demo_file lc rtrace wtrace http s = Ret (http', s', encoded rsp, true) ∧
    content (write_buf_ http') = [].
Proof using.
  intros Hm Hr Hdel E Hfit Hw Hwc Hreq Hfit' Hok Hroom. unfold signal_round, AsyncRead.
  destruct (read_loop_pieces m Hm _ cs (S (budget rtrace)) rtrace (read_buf_ http) [] Hdel Hr ltac:(lia))
    as (b' & rtrace' & cs' & -> & _); [by rewrite E, app_nil_r|change (zlen []) with 0; lia|].
  pose proof (encoded_pos m). cbn [mbind result_bind].
  rewrite (bool_decide_false (zlen (encoded m) = 0)), (bool_decide_false (zlen (encoded m) < 0)) by lia.
  rewrite Hreq. cbn [mbind result_bind].
  destruct (http_AsyncWrite_ok rsp wtrace (mk_stream b' (write_buf_ http) (tls_stream_ http)) Hw Hwc Hfit' Hok Hroom)
    as (wb & -> & _ & Hwb). cbn [mbind result_bind]. by eexists.
Qed.

(** ** The steps of the server's routines *)
Inductive srv_step s : WebRTCServer SSL T → Prop :=
  | srv_wait s' : receiver s = Idle → receive_begin s = Ret s' → srv_step s s'
  | srv_datagram trace s' :
      Forall (datagram_ok ∘ answer) trace → receive_end inet_ntop trace s = Ret s' → srv_step s s'
  | srv_flush s' : flush_step sendto s = Ret s' → srv_step s s'
  | srv_media lc id s' :
      lc_ok lc → media_round o lib hmac_sha1 (Some ssl) local_ice_pwd inet_ntop sendto lc id s = Ret s' → srv_step s s'
  | srv_timeout id : srv_step s (PeerConnectionDelete inet_ntop id s)
  | srv_pli id p ms pc next s' :
      peers s !! id = Some p → pli_timer_ (peer_pc p) = Some ms → OnPliTimer lib (peer_pc p) = Ret (pc, next) →
      update_peer sendto id pc s = Ret s' → srv_step s s'
  | srv_dtls id p d ms d' s' :
      peers s !! id = Some p → dtls_ (peer_pc p) = Some d → timer_ d = Some ms →
      HandleTimeout o 3 (with_timer None (clear_sent d)) = Ret d' →
      update_peer sendto id (set_dtls d' (peer_pc p)) s = Ret s' → srv_step s s'
  | srv_request lc req rsp s' :
      lc_ok lc → request_fits req → (publishes req → sdp_ok (published (body_ req))) →
      handle_request local_ice_ufrag local_sdp demo_file lc req s = Ret (s', rsp) → srv_step s s'.

Lemma receive_end_waits trace s s' :
  receive_end inet_ntop trace s = Ret s' →
  (∃ b, receiver s = Receiving b) ∧ Exists (λ a, ¬ recv_waits a) trace.
Proof.
  unfold receive_end. destruct (receiver s) as [|buf|]; [done| |done]. intros E. split; [eauto|].
  destruct (decide (Forall recv_waits trace)) as [H|H]; [|by apply not_Forall_Exists in H; [|apply _]].
  exfalso. revert E. unfold AsyncRecvFrom_ms. rewrite <-(app_nil_r trace), recv_skip by done. done.
Qed.

(** The timer of the handshake. *)
Lemma dtls_timer_ok id p d s :
  srv_inv [] s → peers s !! id = Some p → dtls_ (peer_pc p) = Some d →
  ∃ d' s', HandleTimeout o 3 (with_timer None (clear_sent d)) = Ret d' ∧
    update_peer sendto id (set_dtls d' (peer_pc p)) s = Ret s' ∧ srv_inv [] s'.
Proof using Ho Hbio.
  intros Hs Ep Ed. destruct (si_peers _ _ Hs id p Ep) as [[H1 H2 _ H4 _] _].
  destruct (on_timer_total o Ho (clear_sent d)) as (d' & E & H & _ & Hkeep); [by apply dtls_inv_clear, (pi_dtls _ H1)|].
  assert (Hpc : pc_inv (set_dtls d' (peer_pc p))).
  { apply set_dtls_inv; [done..|]. intros d0. rewrite Ed. by intros [= <-]. }
  assert (Hsm : pc_small (set_dtls d' (peer_pc p))).
  { eapply (dtls_timer_small o Hbio d); [|exact E]. unfold pc_small. rewrite H4. constructor. }
  destruct (update_peer_ok [] id p (set_dtls d' (peer_pc p)) s) as (s' & E' & Hs' & _); [done..|]. eauto.
Qed.
Lemma pli_timer_ok id p ms s :
  srv_inv [] s → peers s !! id = Some p → pli_timer_ (peer_pc p) = Some ms →
  ∃ pc s', OnPliTimer lib (peer_pc p) = Ret (pc, 2000) ∧ update_peer sendto id pc s = Ret s' ∧ srv_inv [] s'.
Proof using Hlib.
  intros Hs Ep Ht. destruct (si_peers _ _ Hs id p Ep) as [[H1 H2 _ H4 _] _].
  destruct (OnPliTimer_ok lib ms (peer_pc p) H1 H2 Ht) as (pc & E & Hpc & Hsdp).
  destruct (update_peer_ok [] id p pc s) as (s' & E' & Hs' & _); [done..| |done|by eapply OnPliTimer_addr|eauto].
  eapply (OnPliTimer_small lib Hlib); [|exact E]. unfold pc_small. rewrite H4. constructor.
Qed.

Lemma srv_step_inv s s' : srv_step s s' → srv_inv [] s → srv_inv [] s'.
Proof using Ho Hbio Hlib Hd.
  intros [s1 Hr E|trace s1 Hok E|s1 E|lc id s1 Hlc E|id|id p ms pc next s1 Ep Ht E1 E2|id p d ms d' s1 Ep Ed Ht E1 E2|
    lc req rsp s1 Hlc Hf Hp E] Hs.
  - destruct (receive_begin_ok s Hs Hr) as [[_ E']|(s2 & b & E' & H & _)]; congruence.
  - destruct (receive_end_waits _ _ _ E) as [[b Hr] Hw].
    destruct (receive_end_ok trace s b Hs Hr Hok Hw) as (s2 & E' & H). congruence.
  - destruct (receiver s) as [| |i e kept] eqn:Er; [by unfold flush_step in E; rewrite Er in E..|].
    pose proof (flush_step_ok i e kept s Hs Er) as H. case_bool_decide; [destruct H as (s2 & E' & H)|]; congruence.
  - assert (is_Some (peers s !! id)) as Hid.
    { destruct (peers s !! id) eqn:Ep; [eauto|]. unfold media_round in E. by rewrite Ep in E. }
    destruct (media_round_ok lc id s Hlc Hs Hid) as (s2 & E' & H). congruence.
  - by apply delete_ok.
  - destruct (pli_timer_ok id p ms s Hs Ep Ht) as (pc' & s2 & E3 & E4 & H).
    assert (pc' = pc) as -> by congruence. congruence.
  - destruct (dtls_timer_ok id p d s Hs Ep Ed) as (d2 & s2 & E3 & E4 & H).
    assert (d2 = d') as -> by congruence. congruence.
  - by eapply handle_request_inv.
Qed.

Lemma reachable_inv s : rtc srv_step WebRTCServer_new s → srv_inv [] s.
Proof using Ho Hbio Hlib Hd.
  intros H. assert (H0 := srv_inv_new). induction H as [|x y z Hxy _ IH]; [done|]. apply IH. by eapply srv_step_inv.
Qed.
End life.


(** ** Dispatching *)
Section dispatch.
Context {SSL T : Type} (o : OpenSSL SSL) (lib : SrtpLib T) (hmac_sha1 : list Z → list Z → list Z).
Context (ssl : SSL) (local_ice_pwd local_ice_ufrag local_sdp demo_file : list Z).
Context (inet_ntop : Z → list Z → option (list Z)) (sendto : nat → send_result).

(** States the server reaches, with the libraries as documented. *)
Definition reachable (s : WebRTCServer SSL T) : Prop :=
  openssl_ok o ∧ bio_fits o ∧ srtp_ok lib ∧ digest_ok hmac_sha1 ∧
  rtc (srv_step o lib hmac_sha1 ssl local_ice_pwd local_ice_ufrag local_sdp demo_file inet_ntop sendto)
    WebRTCServer_new s.
Lemma reachable_srv s : reachable s → srv_inv lib inet_ntop [] s.
Proof. intros (Ho & Hbio & Hlib & Hd & H). by eapply reachable_inv. Qed.

(** A wait of the receiver that ends with [bytes] from [from]. *)
Definition arrives (ptr : BufferPtr) (trace : list (attempt datagram)) (from : InetAddress) (got : list Z) : Prop :=
  ∃ pre a rest bytes, trace = pre ++ a :: rest ∧ Forall recv_waits pre ∧ answer a = Recv from bytes ∧
    datagram_ok lib (Recv from bytes) ∧ bytes ≠ [] ∧ got = ztake (writable_bytes (bp_buf ptr)) bytes.

Lemma receive_end_route (s : WebRTCServer SSL T) ptr trace from got :
  srv_inv lib inet_ntop [] s → receiver s = Receiving ptr → arrives ptr trace from got →
  source_ok from ∧ ∃ b, bp_addr b = bp_addr ptr ∧ packet_buf lib b ∧ content (bp_buf b) = got ∧
    receive_end inet_ntop trace s =
    '(s', kept) ← route inet_ntop from b (with_buffers (buffers_ s) Idle s); Ret (flush_begin kept s').
Proof.
  intros Hs Hr (pre & a & rest & bytes & Et & Hpre & Ea & Hok & Hne & ->). split; [apply Hok|].
  destruct (receive_end_datagram lib inet_ntop s ptr trace pre a rest from bytes) as (_ & b & ? & ? & ? & ?);
    [done..|]. eauto.
Qed.
(** A round without a buffer of its own goes on to the delayed messages. *)
Lemma flush_begin_frame (s : WebRTCServer SSL T) :
  peers (flush_begin None s) = peers s ∧ connections_ (flush_begin None s) = connections_ s ∧
  buffers_ (flush_begin None s) = buffers_ s ∧
  (send_messages_ s = [] → receiver (flush_begin None s) = Idle).
Proof. unfold flush_begin. by destruct (send_messages_ s). Qed.

(** What the receiver learns from a STUN message. *)
Lemma stun_user b ty tid attrs :
  packet_ok lib (slice b) → well_formed (content b) ty tid attrs →
  IsStun (slice b) = Ret true ∧
  ∃ pkt, Parse (parse_fuel (slice b)) (slice b) (StunPacket_new REQUEST 0) = Ret (pkt, 0) ∧
    AsString (username_ pkt) = text_of USERNAME attrs.
Proof.
  intros Hpk Hw. pose proof (po_wf _ _ Hpk) as Wf.
  assert (Hsz : sp_size (slice b) <= 65532) by (pose proof (po_size _ _ Hpk); unfold max_stun in *; lia).
  assert (Hok : bytes_ok (AsString (slice b))) by (apply bytes_AsString, Hpk). split.
  - destruct (IsStun_ok (slice b) Wf Hok) as (r & -> & Hb). f_equal. apply Hb.
    destruct (well_formed_view (slice b) Wf Hsz ty tid attrs Hw) as (-> & _ & Hc & _ & ->).
    pose proof (zlen_nonneg (Stun.wire attrs)). destruct Hw as (_ & ? & _). split_and!; [lia|done..].
  - destruct (Parse_ok (slice b) Wf Hok Hsz REQUEST 0) as (pkt & r & E & Hp).
    destruct Hp as [(-> & ty' & tid' & attrs' & Hw' & Hh & _)|(_ & Hno)]; [|by destruct (Hno _ _ _ Hw)].
    exists pkt. split; [done|]. rewrite (h_username _ _ Hh).
    by destruct (well_formed_unique (slice b) Wf Hsz ty tid attrs ty' tid' attrs' Hw Hw') as (_ & _ & ->).
Qed.
End dispatch.

(** C7: in a state that the server of C5 reaches, with the assumptions listed
    there, let the receiver be waiting and let a datagram arrive, possibly after
    attempts that were interrupted or would have blocked: not empty, of at most
    62000 bytes, from a source of one of the two families, and, if it decrypts as RTCP, to a multiple
    of 4 bytes without source descriptions; let [inet_ntop] tell addresses apart.
    If a live connection is bound to the family, port and IP address of its
    source, the round goes up to the delayed messages without a fault and the
    receiver's buffer, with the datagram byte for byte up to its room (at least
    1016 bytes), is appended to the queue of exactly that connection: no other
    queue, no key, no connection's state and no buffer of the pool changes. *)
Theorem dispatch_routes {SSL T} (o : OpenSSL SSL) (lib : SrtpLib T) hmac_sha1 ssl local_ice_pwd local_ice_ufrag
    local_sdp demo_file inet_ntop sendto (s : WebRTCServer SSL T) ptr trace from got id p :
  ntop_ok inet_ntop →
  reachable o lib hmac_sha1 ssl local_ice_pwd local_ice_ufrag local_sdp demo_file inet_ntop sendto s →
  receiver s = Receiving ptr → arrives lib ptr trace from got →
  peers s !! id = Some p → addr_ (peer_pc p) ≠ InetAddress_default → endpoint from = endpoint (addr_ (peer_pc p)) →
  1016 <= writable_bytes (bp_buf ptr) ∧
  ∃ s' b, receive_end inet_ntop trace s = Ret s' ∧ bp_addr b = bp_addr ptr ∧ content (bp_buf b) = got ∧
    peers s' = <[id := mk_peer (peer_pc p) (packets_ p ++ [b])]> (peers s) ∧
    connections_ s' = connections_ s ∧ buffers_ s' = buffers_ s.
Proof.
  intros Hnt Hreach Hr Harr Ep Hbound Hend. pose proof (reachable_srv _ _ _ _ _ _ _ _ _ _ _ Hreach) as Hs.
  split.
  { pose proof (si_receiver _ _ _ _ Hs) as Hb. unfold receiver_ok in Hb. rewrite Hr in Hb. destruct Hb as [[_ S _] Ht].
    rewrite Ht. unfold TakeAll, writable_bytes, kCheapPrepend. cbn. lia. }
  destruct (receive_end_route lib inet_ntop s ptr trace from got Hs Hr Harr) as (Hf & b & Hba & _ & Hc & ->).
  destruct (si_peers _ _ _ _ Hs id p Ep) as [[_ _ _ _ (key & Hk & [?|[Ha ->]])] _]; [done|].
  assert (E : ip_port inet_ntop from = ip_port inet_ntop (addr_ (peer_pc p))).
  { destruct Hf, Ha. by apply ip_port_iff. }
  unfold route. cbn [connections_ peers with_buffers]. rewrite E, (proj2 (Hk _) eq_refl), Ep. cbn [mbind result_bind].
  eexists _, b. destruct (flush_begin_frame (enqueue id p b (with_buffers (buffers_ s) Idle s))) as (H1 & H2 & H3 & _).
  by split_and!.
Qed.

Lemma stun_binds_ok {SSL T} (o : OpenSSL SSL) (lib : SrtpLib T) hmac_sha1 ssl local_ice_pwd local_ice_ufrag
    local_sdp demo_file inet_ntop sendto (s : WebRTCServer SSL T) ptr trace from got ty tid attrs id p :
  reachable o lib hmac_sha1 ssl local_ice_pwd local_ice_ufrag local_sdp demo_file inet_ntop sendto s →
  receiver s = Receiving ptr → arrives lib ptr trace from got → well_formed got ty tid attrs →
  connections_ s !! ip_port inet_ntop from = None →
  connections_ s !! text_of USERNAME attrs = Some id → peers s !! id = Some p →
  ∃ s' b, receive_end inet_ntop trace s = Ret s' ∧ bp_addr b = bp_addr ptr ∧ content (bp_buf b) = got ∧
    peers s' = <[id := mk_peer (set_addr from (peer_pc p)) (packets_ p ++ [b])]> (peers s) ∧
    connections_ s' = delete (text_of USERNAME attrs) (<[ip_port inet_ntop from := id]> (connections_ s)) ∧
    buffers_ s' = buffers_ s ∧ (send_messages_ s = [] → receiver s' = Idle).
Proof.
  intros Hreach Hr Harr Hw Hnew Hu Ep. pose proof (reachable_srv _ _ _ _ _ _ _ _ _ _ _ Hreach) as Hs.
  destruct (receive_end_route lib inet_ntop s ptr trace from got Hs Hr Harr) as (Hf & b & Hba & [_ Hpk] & Hc & ->).
  unfold route. cbn [connections_ peers with_buffers]. rewrite Hnew.
  subst got. destruct (stun_user lib (bp_buf b) ty tid attrs Hpk Hw) as (-> & pkt & Eparse & Euser). cbn [mbind result_bind negb].
  rewrite Eparse. cbn [mbind result_bind]. rewrite bool_decide_false by lia. rewrite Euser, Hu.
  cbn [peers with_connections with_buffers]. rewrite Ep. cbn [mbind result_bind].
  eexists _, b. split; [done|].
  match goal with |- context [flush_begin None ?s0] => destruct (flush_begin_frame s0) as (H1 & H2 & H3 & H4) end.
  by split_and!.
Qed.

(** A STUN message from an address without a connection moves the live
    connection whose key is its user name to that address, and is queued there;
    nothing else decides, neither the message's integrity nor whether the
    connection is bound already.  A new connection is bound this way, and one
    that is bound to "ip:port" follows whoever sends that text as user name. *)
Theorem stun_binds {SSL T} (o : OpenSSL SSL) (lib : SrtpLib T) hmac_sha1 ssl local_ice_pwd local_ice_ufrag
    local_sdp demo_file inet_ntop sendto (s : WebRTCServer SSL T) ptr trace from got ty tid attrs id p :
  reachable o lib hmac_sha1 ssl local_ice_pwd local_ice_ufrag local_sdp demo_file inet_ntop sendto s →
  receiver s = Receiving ptr → arrives lib ptr trace from got → well_formed got ty tid attrs →
  connections_ s !! ip_port inet_ntop from = None →
  connections_ s !! text_of USERNAME attrs = Some id → peers s !! id = Some p →
  ∃ s' b, receive_end inet_ntop trace s = Ret s' ∧ bp_addr b = bp_addr ptr ∧ content (bp_buf b) = got ∧
    peers s' = <[id := mk_peer (set_addr from (peer_pc p)) (packets_ p ++ [b])]> (peers s) ∧
    connections_ s' = delete (text_of USERNAME attrs) (<[ip_port inet_ntop from := id]> (connections_ s)).
Proof.
  intros. edestruct (stun_binds_ok (SSL := SSL) (T := T)) as (s' & b & ? & ? & ? & ? & ? & _); [done..|]. by exists s', b.
Qed.

(** A connection that ends before it is bound to an address leaves its key
    behind: the key stays in use by a connection that is gone, and from then on
    a request that publishes the same user name, like one that publishes it
    while the connection lives, fails the assertion and ends the server. *)
Theorem unbound_key_leaks {SSL T} (o : OpenSSL SSL) (lib : SrtpLib T) hmac_sha1 ssl local_ice_pwd local_ice_ufrag
    local_sdp demo_file inet_ntop sendto (s : WebRTCServer SSL T) id p key lc req :
  reachable o lib hmac_sha1 ssl local_ice_pwd local_ice_ufrag local_sdp demo_file inet_ntop sendto s →
  peers s !! id = Some p → addr_ (peer_pc p) = InetAddress_default → connections_ s !! key = Some id →
  lc_ok lc → request_fits req → publishes req → publish_key local_ice_ufrag (body_ req) = key →
  let s' := PeerConnectionDelete inet_ntop id s in
  peers s' !! id = None ∧ connections_ s' !! key = Some id ∧
  handle_request local_ice_ufrag local_sdp demo_file lc req s = Fault AssertFailed ∧
  handle_request local_ice_ufrag local_sdp demo_file lc req s' = Fault AssertFailed.
Proof.
  intros Hreach Ep Ha Hkey Hlc Hfit [Hp1 Hp2] Ek s'. pose proof (reachable_srv _ _ _ _ _ _ _ _ _ _ _ Hreach) as Hs.
  assert (Hc : connections_ s' = delete [] (connections_ s) ∧ peers s' = delete id (peers s)).
  { unfold s', PeerConnectionDelete. by rewrite Ep, Ha. }
  destruct Hc as [Hc1 Hc2].
  assert (Hkey' : connections_ s' !! key = Some id).
  { rewrite Hc1, lookup_delete_ne; [done|]. intros <-. by rewrite (si_nil _ _ _ _ Hs) in Hkey. }
  assert (Hf : ∀ s : WebRTCServer SSL T, connections_ s !! key = Some id →
    handle_request local_ice_ufrag local_sdp demo_file lc req s = Fault AssertFailed).
  { intros s0 H0. unfold handle_request. rewrite handle_request_start by done. cbv beta.
    rewrite bool_decide_false by done. rewrite Hp2, publish_eq by (done || apply Hfit). rewrite Ek, bool_decide_false; [done|].
    intros [_ ?]. congruence. }
  split_and!; [rewrite Hc2; apply lookup_delete_eq|done|by apply Hf..].
Qed.

(** ** A concrete server *)

(** A library that refuses every control packet, and a socket that takes
    every message. *)
Definition deaf_lib : SrtpLib unit := {|
  srtp_create _ := Some tt;
  srtp_protect s mem p n := (s, true, mem, n + 4);
  srtp_unprotect s mem p n := (s, bool_decide (4 < n), mem, n - 4);
  srtp_protect_rtcp s mem p n := (s, true, mem, n + 4);
  srtp_unprotect_rtcp s mem p n := (s, false, mem, n);
|}.
Lemma deaf_lib_ok : srtp_ok deaf_lib.
Proof.
  constructor; intros s mem p n s' ok mem' n'; [intros Hp Hn Hl Hb..| |]; cbn;
    intros [= <- <- <- <-]; unfold SRTP_MAX_TRAILER_LEN; split_and?; done || lia.
Qed.
Lemma sample_ssl_fits : bio_fits sample_ssl.
Proof. intros s. by vm_compute. Qed.
Definition any_send (n : nat) : send_result := mk_send 0 0.

Notation sample_step :=
  (srv_step sample_ssl deaf_lib sample_digest 0 [112] [117] [] [] ntop_hex any_send).
Notation sample_reachable :=
  (reachable sample_ssl deaf_lib sample_digest 0 [112] [117] [] [] ntop_hex any_send).

(** "POST /pub HTTP/1.1" with a description for user "x" *)
Definition pub_request : HttpMessage :=
  mk_http (POST ++ [32; 47] ++ PUB ++ [32] ++ HTTP11) [] Sdp.sample.
Definition pub_state : WebRTCServer Z unit :=
  mk_server (<[[117; 58; 120] := 0%nat]> ∅)
    (<[0%nat := mk_peer (PeerConnection_new (published Sdp.sample) InetAddress_default) []]> ∅) 1
    (BufferPool_new kBufferNum) Idle [] [].
Definition pool_of (n : nat) : list BufferPtr := (λ a, mk_bptr a default_buffer) <$> seq 0 n.
Definition waiting_state : WebRTCServer Z unit :=
  with_buffers (pool_of 999) (Receiving (mk_bptr 999 default_buffer)) pub_state.

Lemma pool_of_last n : AllocBuffer (pool_of (S n)) = (pool_of n, Some (mk_bptr n default_buffer)).
Proof.
  unfold AllocBuffer, pool_of. rewrite seq_S, fmap_app. cbn [fmap list_fmap Nat.add].
  by rewrite last_snoc, length_app, Nat.add_sub, take_app_length.
Qed.
Lemma pub_request_fits : request_fits pub_request.
Proof. split; by vm_compute. Qed.
Lemma pub_request_publishes : publishes pub_request ∧ sdp_ok (published (body_ pub_request)).
Proof.
  split; [split|].
  - apply (bool_decide_unpack _). by vm_compute.
  - by vm_compute.
  - exists [55], 7. by split; vm_compute.
Qed.
Lemma sample_reach s : rtc sample_step WebRTCServer_new s → sample_reachable s.
Proof.
  intros. split_and!; [apply sample_ssl_ok|apply sample_ssl_fits|apply deaf_lib_ok|apply sample_digest_ok|done].
Qed.
Lemma pub_state_reachable : rtc sample_step WebRTCServer_new pub_state.
Proof.
  apply rtc_once. apply (srv_request _ _ _ _ _ _ _ _ _ _ _ sample_ctx pub_request
    (set_body (StringPiece_string []) (set_headers (lit CONTENT_LENGTH) (StringPiece_string (decimal 0))
      (set_response_line success_line HttpMessage_new))));
    [exact sample_ctx_ok|exact pub_request_fits|intros _; apply pub_request_publishes|].
  unfold handle_request. rewrite handle_request_start by (apply sample_ctx_ok || apply pub_request_fits). cbv beta.
  destruct pub_request_publishes as [[H1 H2] _]. rewrite bool_decide_false by done. rewrite H2, publish_eq by (apply sample_ctx_ok || apply pub_request_fits).
  rewrite bool_decide_true; [cbn [mbind result_bind]; rewrite log_text_ok by (apply sample_ctx_ok || by vm_compute); reflexivity|]. split; [by vm_compute|done].
Qed.
Lemma waiting_state_reachable : rtc sample_step WebRTCServer_new waiting_state.
Proof.
  eapply rtc_r; [apply pub_state_reachable|]. apply srv_wait; [done|]. unfold receive_begin.
  change (buffers_ pub_state) with (pool_of (S 999)). by rewrite pool_of_last.
Qed.

(** A binding request of user "u:x" from 127.0.0.1:5000, and its arrival. *)
Definition sample_source : InetAddress := InetAddress_port zero_addr6 5000 true false.
Definition sample_attrs : list attr := [mk_attr USERNAME [117; 58; 120] [0]].
Definition sample_stun : list Z := wire_header 1 (zlen (Stun.wire sample_attrs)) (seqZ 1 12) ++ Stun.wire sample_attrs.
Definition arrival (bytes : list Z) : list (attempt datagram) :=
  [mk_attempt (RecvErr EINTR) false; mk_attempt (Recv sample_source bytes) false].

Lemma sample_stun_ok : well_formed sample_stun 1 (seqZ 1 12) sample_attrs.
Proof.
  split_and!; [unfold_u; lia|by vm_compute..|done| |by vm_compute|].
  - apply Forall_singleton. unfold attr_ok. split_and!; [unfold_u; by vm_compute|by vm_compute|bytes_tac|bytes_tac|by vm_compute].
  - intros v. by vm_compute.
Qed.
Lemma sample_bytes : bytes_ok sample_stun ∧ zlen sample_stun <= 1000 ∧ sample_stun ≠ [].
Proof. split_and!; [apply (bool_decide_unpack _); by vm_compute|by vm_compute|by vm_compute]. Qed.

Section arrivals.
Context (bytes : list Z) (Hb : bytes_ok bytes ∧ zlen bytes <= 1000 ∧ bytes ≠ []).

Lemma sample_datagram_ok : datagram_ok deaf_lib (Recv sample_source bytes).
Proof using Hb.
  destruct Hb as (? & ? & _). split_and!; [|done|unfold max_stun; lia|].
  - constructor; [done|apply (bool_decide_unpack _); by vm_compute|by left].
  - intros n packet x x' packet' _. unfold DecryptRtcp, wrap. cbn. by destruct packet.
Qed.
Lemma arrival_ok : Forall (datagram_ok deaf_lib ∘ answer) (arrival bytes).
Proof using Hb. constructor; [done|]. constructor; [apply sample_datagram_ok|done]. Qed.
Lemma arrival_arrives n : arrives deaf_lib (mk_bptr n default_buffer) (arrival bytes) sample_source bytes.
Proof using Hb.
  exists [mk_attempt (RecvErr EINTR) false], (mk_attempt (Recv sample_source bytes) false), [], bytes.
  split_and!; [done|by repeat constructor|done|apply sample_datagram_ok|apply Hb|].
  rewrite ztake_ge; [done|]. change (writable_bytes (bp_buf (mk_bptr n default_buffer))) with 1508. lia.
Qed.
End arrivals.

(** After the request the connection is bound to its source. *)
Lemma bound_state :
  ∃ s b, rtc sample_step WebRTCServer_new s ∧ receiver s = Receiving (mk_bptr 998 default_buffer) ∧
    peers s !! 0%nat = Some (mk_peer (set_addr sample_source (PeerConnection_new (published Sdp.sample) InetAddress_default)) [b]).
Proof.
  destruct (stun_binds_ok sample_ssl deaf_lib sample_digest 0 [112] [117] [] [] ntop_hex any_send waiting_state
    (mk_bptr 999 default_buffer) (arrival sample_stun) sample_source sample_stun 1 (seqZ 1 12) sample_attrs 0
    (mk_peer (PeerConnection_new (published Sdp.sample) InetAddress_default) []))
    as (s & b & E & _ & _ & Hp & _ & Hb & Hr).
  - apply sample_reach, waiting_state_reachable.
  - done.
  - apply arrival_arrives, sample_bytes.
  - apply sample_stun_ok.
  - by vm_compute.
  - by vm_compute.
  - done.
  - exists (with_buffers (pool_of 998) (Receiving (mk_bptr 998 default_buffer)) s), b. split_and!; [|done|].
    + eapply rtc_r; [eapply rtc_r; [apply waiting_state_reachable|]|].
      * eapply srv_datagram; [apply arrival_ok, sample_bytes|exact E].
      * apply srv_wait; [by apply Hr|]. unfold receive_begin. rewrite Hb.
        change (buffers_ waiting_state) with (pool_of (S 998)). by rewrite pool_of_last.
    + cbn [peers with_buffers]. rewrite Hp, lookup_insert_eq. done.
Qed.


Lemma dispatch_routes_witness :
  ∃ s s' p, rtc sample_step WebRTCServer_new s ∧
    receive_end ntop_hex (arrival [1; 2; 3]) s = Ret s' ∧ peers s' !! 0%nat = Some p ∧
    content ∘ bp_buf <$> last (packets_ p) = Some [1; 2; 3].
Proof.
  destruct bound_state as (s & b & Hs & Hr & Hp).
  destruct (dispatch_routes sample_ssl deaf_lib sample_digest 0 [112] [117] [] [] ntop_hex any_send s (mk_bptr 998 default_buffer)
    (arrival [1; 2; 3]) sample_source [1; 2; 3] 0
    (mk_peer (set_addr sample_source (PeerConnection_new (published Sdp.sample) InetAddress_default)) [b]) ntop_hex_ok (sample_reach s Hs) Hr) as (_ & s' & b' & E & _ & Hc & Hp' & _).
  - apply arrival_arrives. split_and!; [bytes_tac|by vm_compute|done].
  - exact Hp.
  - done.
  - done.
  - exists s, s'. eexists. split_and!; [exact Hs|exact E|rewrite Hp'; apply lookup_insert_eq|].
    cbn [packets_]. rewrite last_snoc. cbn. by rewrite Hc.
Defined.

Lemma stun_binds_witness :
  ∃ s' p, receive_end ntop_hex (arrival sample_stun) waiting_state = Ret s' ∧
    peers s' !! 0%nat = Some p ∧ addr_ (peer_pc p) = sample_source.
Proof.
  destruct (stun_binds sample_ssl deaf_lib sample_digest 0 [112] [117] [] [] ntop_hex any_send waiting_state
    (mk_bptr 999 default_buffer) (arrival sample_stun) sample_source sample_stun 1 (seqZ 1 12) sample_attrs 0
    (mk_peer (PeerConnection_new (published Sdp.sample) InetAddress_default) [])) as (s' & b & E & _ & _ & Hp & _).
  - apply sample_reach, waiting_state_reachable.
  - done.
  - apply arrival_arrives, sample_bytes.
  - apply sample_stun_ok.
  - by vm_compute.
  - by vm_compute.
  - done.
  - exists s'. eexists. split_and!; [exact E|rewrite Hp; apply lookup_insert_eq|done].
Defined.

Lemma unbound_key_leaks_witness :
  handle_request [117] [] [] sample_ctx pub_request (PeerConnectionDelete ntop_hex 0 pub_state) = Fault AssertFailed.
Proof.
  eapply (unbound_key_leaks sample_ssl deaf_lib sample_digest 0 [112] [117] [] [] ntop_hex any_send pub_state 0
    (mk_peer (PeerConnection_new (published Sdp.sample) InetAddress_default) []) [117; 58; 120] sample_ctx pub_request).
  - apply sample_reach, pub_state_reachable.
  - done.
  - done.
  - by vm_compute.
  - exact sample_ctx_ok.
  - exact pub_request_fits.
  - apply pub_request_publishes.
  - by vm_compute.
Defined.

