(* ===== verification/SignalServer.v ===== *)
(** * The routines of the WebRTC server: webrtc/pc/webrtc_server.cc

    The loops around the rounds of WebRTCServer: the signalling server, one
    routine per signalling connection and the media server.  While one of them
    waits, the others run; [between] is what they do to the server in the
    meantime, any sequence of its steps.

    The theorems: a signalling connection and the media loop only take the
    server through states its steps reach, so that what holds of those holds
    throughout; and an aborted connection takes the signalling server down. *)

From Stdlib Require Import ZArith Lia Bool.
From stdpp Require Import base numbers relations list gmap.
From S2P Require Import Prelude Types StringPiece Buffer InetAddress Logger Stream Sockets Http HttpStream FileReader.
From S2P Require Import Settings Sdp Dtls Srtp PeerConnection WebRTCServer Examples.

Section routines.
Context {SSL T : Type} (o : OpenSSL SSL) (lib : SrtpLib T) (hmac_sha1 : list Z → list Z → list Z).
Context (ssl : SSL) (local_ice_pwd local_ice_ufrag local_sdp : list Z).
Context (inet_ntop : Z → list Z → option (list Z)) (sendto : nat → send_result).
Local Notation server := (WebRTCServer SSL T).

(** What a round of a signalling connection gets, and how its lines are logged. *)
Record signal_input : Type := mk_signal {
  si_log : LogCtx;
  si_reads : list (attempt io_result);
  si_writes : list write_result;
  si_between : server → server;
}.
(** [while (1)] of [HandleSignal]; [sent] is everything sent. *)
Fixpoint signal_loop (demo_file : list Z) (rounds : list signal_input) (http : HttpStream) (s : server) (sent : list Z)
    : result (server * list Z) :=
  match rounds with
  | [] => OutOfFuel
  | i :: rounds =>
      '(http, s, wire, go_on) ←
        signal_round local_ice_ufrag local_sdp demo_file (si_log i) (si_reads i) (si_writes i) http (si_between i s);
      if (go_on : bool) then signal_loop demo_file rounds http s (sent ++ wire) else Ret (s, sent ++ wire)
  end.
Definition HandleSignal (ctx ssl_made : bool) (handshake : list handshake_result) (reader : FileReader)
    (file : list io_result) (rounds : list signal_input) (s : server) : result (server * list Z) :=
  '(http, err) ← UpgradeHttps ctx ssl_made handshake HttpStream_new;
  if bool_decide (err < 0) then Ret (s, [])
  else
    '(demo_file, _, _) ← ReadAll file reader;
    signal_loop (AsString demo_file) rounds http s [].

(** The streams handed to [HandleSignal]; without a certificate none. *)
Section listen.
Context (bind : Z → list Z → Z) (listen : Z → Z).
Definition StartSignalServer (raw : InetAddress) (port : Z) (fd : option Z) (cert : ssl_answers) (fuel : nat)
    (trace : list (attempt accept_result)) (fds : gset Z) : result (list TcpStream) :=
  '(listener, fds) ← TcpListener_new bind listen raw port fd fds;
  let '(config, err) := set_tls_server cert in
  if bool_decide (err < 0) then Ret [] else accept_rounds fuel trace fds [].

(** A round of [DispatchDataLoop] takes a buffer and waits; [di_between] runs
    before the answers come, and one of [di_pauses] before each [SendTo] for the
    delayed messages. *)
Record dispatch_input : Type := mk_dispatch {
  di_between : server → server;
  di_trace : list (attempt datagram);
  di_pauses : list (server → server);
}.
Fixpoint flush_rounds (pauses : list (server → server)) (s : server) : result server :=
  match receiver s with
  | Flushing _ _ _ =>
      match pauses with
      | [] => OutOfFuel
      | between :: pauses => s ← flush_step sendto (between s); flush_rounds pauses s
      end
  | _ => Ret s
  end.
Fixpoint DispatchDataLoop (rounds : list dispatch_input) (s : server) : result server :=
  match rounds with
  | [] => OutOfFuel
  | i :: rounds =>
      s ← receive_begin s;
      s ← receive_end inet_ntop (di_trace i) (di_between i s);
      s ← flush_rounds (di_pauses i) s;
      match rounds with [] => Ret s | _ => DispatchDataLoop rounds s end
  end.
(** The stream is never null: a failure to make it is fatal. *)
Definition StartMediaServer (raw : InetAddress) (port : Z) (fd : option Z) (fds : gset Z) (rounds : list dispatch_input)
    (s : server) : result server :=
  '(stream, fds) ← UdpStream_server bind raw port fd fds;
  DispatchDataLoop rounds s.
End listen.

(** ** They stay among the states of the server *)
Section refine.
Context (demo_file : list Z).
Local Notation steps :=
  (rtc (srv_step o lib hmac_sha1 ssl local_ice_pwd local_ice_ufrag local_sdp demo_file inet_ntop sendto)).

(** The others only take steps, what is logged fits its line, and a description
    that is published has SSRCs that fit an [int]. *)
Definition input_ok (i : signal_input) : Prop :=
  (∀ s, steps s (si_between i s)) ∧ lc_ok (si_log i) ∧
  ∀ http req http' rn timeout rest, AsyncRead (si_reads i) HttpMessage_new http = Ret (req, http', rn, timeout, rest) →
    request_fits req ∧ (publishes req → sdp_ok (published (body_ req))).

Lemma signal_round_steps i http s http' s' wire b :
  input_ok i →
  signal_round local_ice_ufrag local_sdp demo_file (si_log i) (si_reads i) (si_writes i) http (si_between i s) =
    Ret (http', s', wire, b) → steps s s'.
Proof.
  intros (Hb & Hlc & Hr) E. unfold signal_round in E.
  apply bind_Ret in E as ([[[[req h1] rn] timeout] rest] & E1 & E).
  destruct timeout; [injection E as _ <- _ _; apply Hb|].
  case_bool_decide; [injection E as _ <- _ _; apply Hb|]. case_bool_decide; [injection E as _ <- _ _; apply Hb|].
  apply bind_Ret in E as ([s1 rsp] & E2 & E). apply bind_Ret in E as ([[h2 wn] w] & _ & E).
  injection E as _ <- _ _. eapply rtc_r; [apply Hb|]. destruct (Hr _ _ _ _ _ _ E1). by eapply srv_request.
Qed.
Lemma signal_loop_steps rounds http s sent s' sent' :
  Forall input_ok rounds → signal_loop demo_file rounds http s sent = Ret (s', sent') → steps s s'.
Proof.
  intros Hok. revert http s sent. induction Hok as [|i rounds Hi _ IH]; intros http s sent E; cbn [signal_loop] in E; [done|].
  apply bind_Ret in E as ([[[h1 s1] wire] b] & E1 & E). pose proof (signal_round_steps i _ _ _ _ _ _ Hi E1) as Hs.
  destruct b; [|by injection E as <- _]. etrans; [exact Hs|]. by eapply IH.
Qed.
(** The other routines take steps and leave the receiver where it is. *)
Definition others (between : server → server) : Prop := ∀ s, steps s (between s) ∧ receiver (between s) = receiver s.

(** After the wait and the delayed messages the receiver is before a round. *)
Definition not_receiving (s : server) : Prop := ∀ buf, receiver s ≠ Receiving buf.
Lemma flush_begin_receiver kept (s : server) : not_receiving (flush_begin kept s).
Proof. intros buf. unfold flush_begin, end_round. destruct (send_messages_ s), kept; done. Qed.
Lemma receive_end_receiver trace (s s' : server) : receive_end inet_ntop trace s = Ret s' → not_receiving s'.
Proof.
  unfold receive_end. destruct (receiver s) as [|ptr|]; [done| |done].
  intros ([[[[mem a] rn] timeout] rest] & _ & E)%bind_Ret. apply bind_Ret in E as ([s1 kept] & _ & [= <-]).
  apply flush_begin_receiver.
Qed.
Lemma flush_step_receiver (s s' : server) : flush_step sendto s = Ret s' → not_receiving s'.
Proof.
  unfold flush_step. destruct (receiver s) as [| |i e kept] eqn:Er; [done..|]. case_bool_decide; [done|].
  destruct (send_messages_ s !! i) as [[addr packet]|]; [|done].
  destruct (_ && _); [intros [= <-] buf; cbn; congruence|]. case_bool_decide; intros [= <-] buf; [|done].
  by destruct kept.
Qed.
Lemma flush_rounds_steps pauses s s' :
  Forall others pauses → not_receiving s → flush_rounds pauses s = Ret s' → steps s s' ∧ receiver s' = WebRTCServer.Idle.
Proof.
  intros Hok. revert s. induction Hok as [|between pauses Hb _ IH]; intros s Hn; cbn [flush_rounds];
    destruct (receiver s) as [|buf|i e kept] eqn:Er; try (by intros [= <-]); try (by destruct (Hn buf)).
  intros (s1 & E1 & E)%bind_Ret. destruct (IH s1 (flush_step_receiver _ _ E1) E) as [H ?]. split; [|done].
  etrans; [apply Hb|]. eapply rtc_l; [by apply srv_flush|exact H].
Qed.
Lemma DispatchDataLoop_steps rounds s s' :
  Forall (λ i, others (di_between i) ∧ Forall others (di_pauses i) ∧ Forall (datagram_ok lib ∘ answer) (di_trace i)) rounds →
  receiver s = WebRTCServer.Idle → DispatchDataLoop rounds s = Ret s' → steps s s'.
Proof.
  intros Hok. revert s. induction Hok as [|i rounds (Hb & Hp & Ht) _ IH]; intros s Hr E; cbn [DispatchDataLoop] in E; [done|].
  apply bind_Ret in E as (s1 & E1 & E). apply bind_Ret in E as (s2 & E2 & E). apply bind_Ret in E as (s3 & E3 & E).
  destruct (flush_rounds_steps _ _ _ Hp (receive_end_receiver _ _ _ E2) E3) as [H3 Hi].
  assert (H : steps s s3).
  { eapply rtc_l; [by apply srv_wait|]. etrans; [apply Hb|]. eapply rtc_l; [by eapply srv_datagram|exact H3]. }
  destruct rounds as [|j rounds]; [by injection E as <-|]. etrans; [exact H|]. by apply IH.
Qed.
End refine.
End routines.

(** A peer that aborts its connection takes the signalling server down, as it
    does the example servers; without a certificate the server ends at once. *)
Theorem signal_server_faults bind listen raw port fd fds cert arrivals pre e t rest :
  0 <= bind fd (le_bytes 2 AF_INET ++ be_bytes 2 port ++ replicate 12 0) → 0 <= listen fd →
  Forall arrival_ok arrivals → Forall (accept_waits false) pre → aborts_accept e →
  StartSignalServer bind listen raw port (Some fd) cert (S (length arrivals))
    (concat (arrival_trace <$> arrivals) ++ pre ++ mk_attempt (AcceptErr e) t :: rest) fds =
    if bool_decide ((set_tls_server cert).2 < 0) then Ret [] else Fault NullDeref.
Proof.
  intros Hbind Hlisten Ha Hp He. unfold StartSignalServer. rewrite listener_ready.
  rewrite !bool_decide_false by lia. cbn [mbind result_bind]. destruct (set_tls_server cert) as [ctx err]. cbn [snd].
  case_bool_decide; [done|]. set (trace := pre ++ _).
  destruct (accept_rounds_arrivals arrivals 1 trace ({[fd]} ∪ fds) [] Ha) as [fds' E].
  rewrite <-Nat.add_1_r, E. cbn [accept_rounds]. unfold trace.
  by rewrite (bind_Ret_step _ _ _ (AsyncAccept_null pre e t rest fds' Hp He)).
Qed.
