(* ===== verification/TimeWheel.v ===== *)
(** * Timers: kernel/time/{time_stamp,timer,time_wheel}.{h,cc}

    Four wheels of 256 slots; each slot is the head of a doubly linked list
    of timers.  The links are modelled as the code has them, as the [prev_]
    and [next_] pointers of every node, so that the list operations are
    pointer updates on a shared store.  A timer's callback is a parameter
    that may itself start and stop timers. *)

From Stdlib Require Import ZArith Lia Bool.
From stdpp Require Import base numbers list.
From S2P Require Import Prelude Types.

(** A node is a slot [time_wheel_[i][j]] or a timer of the program. *)
Inductive node : Type :=
  | Slot (i j : Z)
  | Tm (k : Z).
#[global] Instance node_eq_dec : EqDecision node.
Proof. solve_decision. Defined.

Definition kWheelNum : Z := 4.
Definition kTimerStop : Z := 0.

(** The expiration of a node is in microseconds. *)
Record TimeWheel : Type := mk_tw {
  last_ms_ : Z;
  prev_ : node → option node;
  next_ : node → option node;
  expiration_ : node → Z;
}.

Definition upd {A} (f : node → A) (n : node) (v : A) (x : node) : A :=
  if bool_decide (x = n) then v else f x.
Definition set_prev (n : node) (v : option node) (w : TimeWheel) : TimeWheel :=
  mk_tw (last_ms_ w) (upd (prev_ w) n v) (next_ w) (expiration_ w).
Definition set_next (n : node) (v : option node) (w : TimeWheel) : TimeWheel :=
  mk_tw (last_ms_ w) (prev_ w) (upd (next_ w) n v) (expiration_ w).
Definition set_expiration (n : node) (us : Z) (w : TimeWheel) : TimeWheel :=
  mk_tw (last_ms_ w) (prev_ w) (next_ w) (upd (expiration_ w) n us).

(** [Timestamp::ms] and [AddMs] *)
Definition ms (us : Z) : Z := Z.quot us 1000.
Definition AddMs (us n : Z) : Z := us + 1000 * n.

(** A zeroed wheel at the time of its construction. *)
Definition TimeWheel_new (now_ms : Z) : TimeWheel := mk_tw now_ms (λ _, None) (λ _, None) (λ _, 0).

Definition MaxTime (wheel_index : Z) : Z := Z.shiftl 1 ((wheel_index + 1) * 8).
Definition CalcTime (n wheel_index : Z) : Z := u8 (Z.shiftr n (wheel_index * 8)).

(** [for (i = 0; i < kWheelNum; i++)] *)
Fixpoint find_head_loop (n : nat) (i diff expiration : Z) : option node :=
  match n with
  | O => None
  | S n =>
      if bool_decide (diff < MaxTime i) then Some (Slot i (CalcTime expiration i))
      else find_head_loop n (i + 1) diff expiration
  end.
Definition FindHead (timer : node) (w : TimeWheel) : option node :=
  let diff := ms (expiration_ w timer) - last_ms_ w in
  if bool_decide (diff < 0) then None
  else find_head_loop (Z.to_nat kWheelNum) 0 diff (ms (expiration_ w timer)).

Definition DelTimer (timer : node) (w : TimeWheel) : TimeWheel :=
  match prev_ w timer with
  | None => set_next timer None w
  | Some p =>
      let w := match next_ w timer with
               | Some n => set_next p (Some n) (set_prev n (Some p) w)
               | None => set_next p None w
               end in
      set_next timer None (set_prev timer None w)
  end.

Definition AddTimer (timer : node) (w : TimeWheel) : TimeWheel :=
  let w := DelTimer timer w in
  match FindHead timer w with
  | None => w
  | Some head =>
      match next_ w head with
      | Some n =>
          let w := set_next timer (Some n) w in
          let w := set_prev n (Some timer) w in
          let w := set_next head (Some timer) w in
          set_prev timer (Some head) w
      | None =>
          let w := set_next timer None w in
          let w := set_prev timer (Some head) w in
          set_next head (Some timer) w
      end
  end.

(** [while (move_to_tail->next_ != nullptr)] *)
Fixpoint tail_loop (fuel : nat) (n : node) (w : TimeWheel) : result node :=
  match fuel with
  | O => OutOfFuel
  | S fuel => match next_ w n with Some n' => tail_loop fuel n' w | None => Ret n end
  end.

Definition MoveTimerList (fuel : nat) (head : node) (w : TimeWheel) : result TimeWheel :=
  match next_ w head with
  | None => Ret w
  | Some timer_list_head =>
      let w := set_next head None w in
      match FindHead timer_list_head w with
      | None => Fault AssertFailed
      | Some move_to_head =>
          move_to_tail ← tail_loop fuel move_to_head w;
          let w := set_next move_to_tail (Some timer_list_head) w in
          Ret (set_prev timer_list_head (Some move_to_tail) w)
      end
  end.

(** [Timer::Start] at the time [now] (in microseconds), and [Timer::Stop]. *)
Definition Start (now : Z) (timer : node) (n : Z) (w : TimeWheel) : TimeWheel :=
  AddTimer timer (set_expiration timer (AddMs now n) w).
Definition Stop (timer : node) (w : TimeWheel) : TimeWheel := DelTimer timer w.

Section turn.
(** The callback of a timer: what it does to the wheel and what it returns. *)
Context (cb : node → TimeWheel → TimeWheel * Z).

Definition Run (timer : node) (w : TimeWheel) : TimeWheel * bool :=
  let '(w, next_ms) := cb timer w in
  if bool_decide (next_ms <= 0) then (w, false)
  else (set_expiration timer (AddMs (expiration_ w timer) next_ms) w, true).

(** [while (head->next_ != nullptr)]; [fired] logs the timers that ran. *)
Fixpoint run_slot (fuel : nat) (head : node) (w : TimeWheel) (fired : list (Z * node))
    : result (TimeWheel * list (Z * node)) :=
  match fuel with
  | O => OutOfFuel
  | S fuel =>
      match next_ w head with
      | None => Ret (w, fired)
      | Some timer =>
          let fired := fired ++ [(last_ms_ w, timer)] in
          let '(w, again) := Run timer (DelTimer timer w) in
          run_slot fuel head (if again then AddTimer timer w else w) fired
      end
  end.

(** [for (j = 1; j < kWheelNum; j++)] of a tick that ends a turn of the
    first wheel. *)
Fixpoint cascade (n : nat) (fuel : nat) (j : Z) (w : TimeWheel) : result TimeWheel :=
  match n with
  | O => Ret w
  | S n =>
      let moved_index := CalcTime (last_ms_ w) 1 in
      w ← MoveTimerList fuel (Slot j moved_index) w;
      if bool_decide (moved_index ≠ 0) then Ret w else cascade n fuel (j + 1) w
  end.

Definition tick (fuel : nat) (w : TimeWheel) (fired : list (Z * node))
    : result (TimeWheel * list (Z * node)) :=
  let w := mk_tw (last_ms_ w + 1) (prev_ w) (next_ w) (expiration_ w) in
  let index := CalcTime (last_ms_ w) 0 in
  w ← (if bool_decide (index = 0) then cascade 3 fuel 1 w else Ret w);
  run_slot fuel (Slot 0 index) w fired.

(** [for (int i = 0; i < update_times; i++)] with [n] rounds to go: the counter
    is an [int], the bound an [int64_t]. *)
Fixpoint turn_loop (n : nat) (i : Z) (fuel : nat) (w : TimeWheel) (fired : list (Z * node))
    : result (TimeWheel * list (Z * node)) :=
  match n with
  | O => Ret (w, fired)
  | S n => '(w, fired) ← tick fuel w fired; i ← int_val (i + 1); turn_loop n i fuel w fired
  end.

Definition TurnWheel (fuel : nat) (now : Z) (w : TimeWheel) (fired : list (Z * node))
    : result (TimeWheel * list (Z * node)) :=
  let update_times := now - last_ms_ w in
  turn_loop (Z.to_nat update_times) 0 fuel w fired.

(** The rounds without the counter, which is all there is to the loop until
    the counter overflows. *)
Fixpoint ticks (n : nat) (fuel : nat) (w : TimeWheel) (fired : list (Z * node))
    : result (TimeWheel * list (Z * node)) :=
  match n with
  | O => Ret (w, fired)
  | S n => '(w, fired) ← tick fuel w fired; ticks n fuel w fired
  end.

Lemma turn_loop_ticks n i fuel w fired :
  0 <= i <= INT_MAX → (∀ k, ∃ r, ticks k fuel w fired = Ret r) →
  turn_loop n i fuel w fired =
    if bool_decide (i + Z.of_nat n <= INT_MAX) then ticks n fuel w fired else Fault SignedOverflow.
Proof.
  revert i w fired. induction n as [|n IH]; intros i w fired Hi H; cbn [turn_loop ticks].
  { by rewrite bool_decide_true by lia. }
  destruct (tick fuel w fired) as [[w1 fired1]|?|] eqn:E; cbn [mbind result_bind];
    [|destruct (H 1%nat) as [r Hr]; cbn [ticks] in Hr; by rewrite E in Hr..].
  unfold int_val. case_bool_decide as Hv; cbn [mbind result_bind].
  - rewrite IH; [|unfold INT_MAX in *; lia|].
    + rewrite (bool_decide_ext (i + 1 + Z.of_nat n <= INT_MAX) (i + Z.of_nat (S n) <= INT_MAX)) by lia. done.
    + intros k. destruct (H (S k)) as [r Hr]. cbn [ticks] in Hr. rewrite E in Hr. by exists r.
  - by rewrite bool_decide_false by (unfold INT_MAX in *; lia).
Qed.
Lemma TurnWheel_ticks fuel now w fired :
  (∀ k, ∃ r, ticks k fuel w fired = Ret r) →
  TurnWheel fuel now w fired =
    if bool_decide (now - last_ms_ w <= INT_MAX) then ticks (Z.to_nat (now - last_ms_ w)) fuel w fired
    else Fault SignedOverflow.
Proof.
  intros H. unfold TurnWheel. rewrite turn_loop_ticks by (done || unfold INT_MAX; lia).
  rewrite (bool_decide_ext (0 + Z.of_nat (Z.to_nat (now - last_ms_ w)) <= INT_MAX) (now - last_ms_ w <= INT_MAX))
    by (unfold INT_MAX; lia). done.
Qed.
End turn.

(** ** The linked lists *)

(** From [p] through the nodes of [l], which link back, to [q]. *)
Fixpoint path (w : TimeWheel) (p : node) (l : list node) (q : node) : Prop :=
  match l with
  | [] => p = q
  | x :: l => next_ w p = Some x ∧ prev_ w x = Some p ∧ path w x l q
  end.

(** The slot [h] holds exactly the list [l]. *)
Definition holds (w : TimeWheel) (h : node) (l : list node) : Prop :=
  ∃ q, path w h l q ∧ next_ w q = None.

Definition is_slot (n : node) : bool := match n with Slot _ _ => true | Tm _ => false end.

(** The lists of all slots: timers only, none twice, and a timer with a link
    back is in some list. *)
Record rep (w : TimeWheel) (S : node → list node) : Prop := {
  rp_holds : ∀ h, is_slot h = true → holds w h (S h);
  rp_timers : ∀ h x, is_slot h = true → x ∈ S h → is_slot x = false;
  rp_once : ∀ h, is_slot h = true → NoDup (S h);
  rp_disjoint : ∀ h h' x, is_slot h = true → is_slot h' = true → x ∈ S h → x ∈ S h' → h = h';
  rp_linked : ∀ x, is_slot x = false → is_Some (prev_ w x) → ∃ h, is_slot h = true ∧ x ∈ S h;
}.

Lemma rp_free w S x :
  rep w S → is_slot x = false → (∀ h, is_slot h = true → x ∉ S h) → prev_ w x = None.
Proof.
  intros Hr Hx Hnot. destruct (prev_ w x) eqn:E; [|done].
  destruct (rp_linked _ _ Hr x Hx) as (h & Hh & Hin); [eauto|]. by destruct (Hnot h Hh).
Qed.

Lemma rep_ext w S S' : (∀ h, is_slot h = true → S h = S' h) → rep w S → rep w S'.
Proof.
  intros HS []. constructor.
  - intros h Hh. rewrite <-HS by done. auto.
  - intros h x Hh. rewrite <-HS by done. eauto.
  - intros h Hh. rewrite <-HS by done. auto.
  - intros h h' x Hh Hh'. rewrite <-!HS by done. eauto.
  - intros x Hx Hl. destruct (rp_linked0 x Hx Hl) as (h & Hh & Hin). exists h. by rewrite <-HS.
Qed.

Lemma upd_eq {A} (f : node → A) n v : upd f n v n = v.
Proof. unfold upd. by rewrite bool_decide_true. Qed.
Lemma upd_ne {A} (f : node → A) n v x : x ≠ n → upd f n v x = f x.
Proof. intros. unfold upd. by rewrite bool_decide_false. Qed.

Section paths.
Implicit Types (w : TimeWheel) (p q r x : node) (l : list node).

Lemma path_app w p l1 l2 q : path w p (l1 ++ l2) q ↔ ∃ r, path w p l1 r ∧ path w r l2 q.
Proof.
  revert p. induction l1 as [|x l1 IH]; intros p; cbn [app path].
  - naive_solver.
  - rewrite IH. naive_solver.
Qed.

Lemma path_end w p l q : path w p l q → q ∈ p :: l.
Proof.
  revert p. induction l as [|x l IH]; intros p; cbn [path]; [intros ->; by left|].
  intros (_ & _ & H%IH). by right.
Qed.

(** A path survives changes elsewhere: its last [next_] is not part of it. *)
Lemma path_frame w w' p l q :
  path w p l q → NoDup (p :: l) →
  (∀ x, x ∈ p :: l → x ≠ q → next_ w' x = next_ w x) → (∀ x, x ∈ l → prev_ w' x = prev_ w x) →
  path w' p l q.
Proof.
  revert p. induction l as [|x l IH]; intros p; cbn [path]; [done|].
  intros (Hn & Hp & Hl) [Hnp Hnd]%NoDup_cons Hnext Hprev. split_and!.
  - rewrite Hnext; [done|by left|]. intros ->. apply Hnp. by apply path_end in Hl.
  - rewrite Hprev; [done|by left].
  - apply IH; [done|done| |]; intros; [apply Hnext|apply Hprev]; auto; by right.
Qed.

Lemma holds_frame w w' h l :
  holds w h l → NoDup (h :: l) → (∀ x, x ∈ h :: l → next_ w' x = next_ w x) →
  (∀ x, x ∈ l → prev_ w' x = prev_ w x) → holds w' h l.
Proof.
  intros (q & Hp & Hq) Hnd Hn Hpr. exists q. split; [by eapply path_frame; eauto|].
  rewrite Hn; [done|by eapply path_end].
Qed.

Lemma slot_list_nodup w S h : rep w S → is_slot h = true → NoDup (h :: S h).
Proof.
  intros Hr Hh. apply NoDup_cons. split; [|by apply (rp_once _ _ Hr)].
  intros Hin. apply (rp_timers _ _ Hr) in Hin; congruence.
Qed.
End paths.

(** ** Removal *)
Definition remove_from (t : node) (S : node → list node) (h : node) : list node :=
  filter (λ x, x ≠ t) (S h).

Section removal.
Implicit Types (w : TimeWheel) (t h x : node) (l : list node).

(** Only the neighbours of the removed node change. *)
Lemma DelTimer_next w t p x :
  prev_ w t = Some p → x ≠ t → x ≠ p → next_ (DelTimer t w) x = next_ w x.
Proof.
  intros Hp Ht Hxp. unfold DelTimer. rewrite Hp. destruct (next_ w t) as [n|]; cbn; by rewrite !upd_ne by done.
Qed.
Lemma DelTimer_prev w t x :
  x ≠ t → Some x ≠ next_ w t → prev_ (DelTimer t w) x = prev_ w x.
Proof.
  intros Ht Hn. unfold DelTimer. destruct (prev_ w t) as [p|]; [|done].
  destruct (next_ w t) as [n|]; cbn; by rewrite !upd_ne by congruence.
Qed.
Lemma DelTimer_same w t : expiration_ (DelTimer t w) = expiration_ w ∧ last_ms_ (DelTimer t w) = last_ms_ w.
Proof. unfold DelTimer. destruct (prev_ w t); [|done]. by destruct (next_ w t). Qed.

Lemma holds_DelTimer w t h l1 l2 :
  holds w h (l1 ++ t :: l2) → NoDup (h :: l1 ++ t :: l2) →
  holds (DelTimer t w) h (l1 ++ l2) ∧ prev_ (DelTimer t w) t = None ∧
  (∀ x, x ∉ h :: l1 ++ t :: l2 →
     next_ (DelTimer t w) x = next_ w x ∧ prev_ (DelTimer t w) x = prev_ w x).
Proof.
  intros (q & Hpath & Hq) Hnd. apply path_app in Hpath as (r & H1 & Hn & Hp & H2).
  assert (Hr : r ∈ h :: l1) by (by eapply path_end).
  change (h :: l1 ++ t :: l2) with ((h :: l1) ++ t :: l2) in *.
  apply NoDup_app in Hnd as (Hnd1 & Hdis & Hnd2).
  assert (Hne : ∀ x y, x ∈ h :: l1 → y ∈ t :: l2 → x ≠ y) by (intros x y Hx Hy ->; by apply (Hdis y)).
  assert (Hnt : ∀ x, Some x = next_ w t → x ∈ l2 ∧ x ≠ t).
  { intros x Hx. apply NoDup_cons in Hnd2 as [Ht2 _]. destruct l2 as [|y l2]; cbn [path] in H2.
    - subst q. congruence.
    - destruct H2 as (E & _ & _). rewrite E in Hx. injection Hx as ->. split; [by left|].
      intros ->. apply Ht2. by left. }
  assert (Hnext : ∀ x, x ≠ t → x ≠ r → next_ (DelTimer t w) x = next_ w x) by (intros; by eapply DelTimer_next).
  assert (H1' : path (DelTimer t w) h l1 r).
  { apply (path_frame w); [done|done| |].
    - intros x Hx Hxr. apply Hnext; [|done]. apply Hne; [done|by left].
    - intros x Hx. apply DelTimer_prev; [apply Hne; [by right|by left]|].
      intros [Hin _]%Hnt. apply (Hne x x); [by right|by right|done]. }
  split_and!.
  - destruct l2 as [|y l2]; cbn [path] in H2.
    + subst q. exists r. rewrite app_nil_r. split; [done|].
      unfold DelTimer. rewrite Hp, Hq. cbn. rewrite upd_ne, upd_eq by (apply Hne; [done|by left]). done.
    + destruct H2 as (Hty & Hyt & H2). apply NoDup_cons in Hnd2 as [Ht2 Hnd2].
      assert (Hyt' : y ≠ t) by (intros ->; apply Ht2; by left).
      exists q. assert (Hql : q ∈ y :: l2) by (by eapply path_end). split.
      * apply path_app. exists r. split; [done|]. cbn [path]. split_and!.
        -- unfold DelTimer. rewrite Hp, Hty. cbn. rewrite upd_ne, upd_eq by (apply Hne; [done|by left]). done.
        -- unfold DelTimer. rewrite Hp, Hty. cbn. by rewrite upd_ne, upd_eq by done.
        -- apply (path_frame w); [done|done| |].
           ++ intros x Hx _. apply Hnext; [intros ->; by apply Ht2|]. intros ->.
              apply (Hne r r); [done|by right|done].
           ++ intros x Hx. apply DelTimer_prev; [intros ->; apply Ht2; by right|].
              rewrite Hty. intros [= ->]. by apply NoDup_cons in Hnd2 as [? _].
      * rewrite Hnext; [done|intros ->; by apply Ht2|]. intros ->. apply (Hne r r); [done|by right|done].
  - unfold DelTimer. rewrite Hp. destruct (next_ w t); cbn; by rewrite upd_eq.
  - intros x Hx. apply not_elem_of_app in Hx as [Hx1 [Hxt Hx2]%not_elem_of_cons]. split.
    + apply Hnext; [done|]. intros ->. done.
    + apply DelTimer_prev; [done|]. intros [Hin _]%Hnt. done.
Qed.

Lemma remove_absent t l : t ∉ l → filter (λ x, x ≠ t) l = l.
Proof.
  induction l as [|x l IH]; [done|]. intros [Hx Hl]%not_elem_of_cons.
  rewrite filter_cons_True by congruence. by rewrite IH.
Qed.
Lemma remove_split t l1 l2 : NoDup (l1 ++ t :: l2) → filter (λ x, x ≠ t) (l1 ++ t :: l2) = l1 ++ l2.
Proof.
  intros (_ & Hdis & [Ht _]%NoDup_cons)%NoDup_app.
  rewrite filter_app, filter_cons_False by naive_solver. rewrite !remove_absent; [done|done|].
  intros Hin. apply (Hdis t); [done|by left].
Qed.

(** Membership in some slot is decided by the list that holds it. *)
Lemma DelTimer_absent w S t :
  rep w S → is_slot t = false → (∀ h, is_slot h = true → t ∉ S h) → rep (DelTimer t w) S.
Proof.
  intros Hr Ht Hnot. pose proof (rp_free _ _ _ Hr Ht Hnot) as Hp. unfold DelTimer. rewrite Hp.
  destruct Hr. constructor; try done. intros h Hh. eapply holds_frame; [by apply rp_holds0| | |].
  - apply NoDup_cons. split; [|by apply rp_once0]. intros Hin. apply rp_timers0 in Hin; congruence.
  - intros x Hx. cbn. apply upd_ne. intros ->. apply elem_of_cons in Hx as [->|Hx]; [congruence|].
    by apply (Hnot h).
  - done.
Qed.

Lemma DelTimer_present w S t h :
  rep w S → is_slot h = true → t ∈ S h → rep (DelTimer t w) (remove_from t S).
Proof.
  intros Hr Hh Hin. destruct (list_elem_of_split _ _ Hin) as (l1 & l2 & E).
  pose proof (slot_list_nodup _ _ _ Hr Hh) as Hnd. pose proof (rp_holds _ _ Hr h Hh) as Hhold.
  rewrite E in Hnd, Hhold. destruct (holds_DelTimer w t h l1 l2 Hhold Hnd) as (Hhold' & Hpt & Hfr).
  assert (Hoth : ∀ h', is_slot h' = true → h' ≠ h → ∀ x, x ∈ h' :: S h' → x ∉ h :: l1 ++ t :: l2).
  { intros h' Hh' Hne x Hx. rewrite <-E. intros Hx'.
    apply elem_of_cons in Hx as [->|Hx], Hx' as [->|Hx']; try done.
    - apply (rp_timers _ _ Hr) in Hx'; congruence.
    - apply (rp_timers _ _ Hr) in Hx; congruence.
    - apply Hne. by eapply (rp_disjoint _ _ Hr). }
  assert (Hsub : ∀ h' x, x ∈ remove_from t S h' → x ∈ S h' ∧ x ≠ t).
  { intros h' x Hx. apply list_elem_of_filter in Hx. naive_solver. }
  constructor.
  - intros h' Hh'. unfold remove_from. destruct (decide (h' = h)) as [->|Hne].
    + rewrite E, remove_split by (by apply NoDup_cons in Hnd as [_ ?]). done.
    + rewrite remove_absent by (intros Hx; apply Hne; by eapply (rp_disjoint _ _ Hr)).
      eapply holds_frame; [by apply (rp_holds _ _ Hr)|by eapply slot_list_nodup| |]; intros x Hx; apply Hfr.
      * by eapply Hoth.
      * eapply Hoth; [done|done|by right].
  - intros h' x Hh' [Hx _]%Hsub. by eapply (rp_timers _ _ Hr).
  - intros h' Hh'. apply NoDup_filter. by apply (rp_once _ _ Hr).
  - intros h1 h2 x ?? [H1 _]%Hsub [H2 _]%Hsub. by eapply (rp_disjoint _ _ Hr).
  - intros x Hx Hl. destruct (decide (x = t)) as [->|Hne]; [rewrite Hpt in Hl; by destruct Hl|].
    assert (Hex : ∃ h', is_slot h' = true ∧ x ∈ S h').
    { destruct (decide (x ∈ S h)); [by exists h|]. apply (rp_linked _ _ Hr); [done|].
      destruct (Hfr x) as [_ <-]; [|done]. rewrite <-E. apply not_elem_of_cons. split; [congruence|done]. }
    destruct Hex as (h' & Hh' & Hin'). exists h'. split; [done|]. by apply list_elem_of_filter.
Qed.
End removal.

Lemma DelTimer_rep w S t : rep w S → is_slot t = false → rep (DelTimer t w) (remove_from t S).
Proof.
  intros Hr Ht. destruct (prev_ w t) as [p|] eqn:E.
  - destruct (rp_linked _ _ Hr t Ht) as (h & Hh & Hin); [eauto|]. by eapply DelTimer_present.
  - assert (Hnot : ∀ h, is_slot h = true → t ∉ S h).
    { intros h Hh Hin. destruct (list_elem_of_split _ _ Hin) as (l1 & l2 & El).
      destruct (rp_holds _ _ Hr h Hh) as (q & Hp & _). rewrite El in Hp.
      apply path_app in Hp as (r & _ & _ & Hp & _). congruence. }
    apply (rep_ext _ S); [|by apply DelTimer_absent].
    intros h Hh. symmetry. apply remove_absent. by apply Hnot.
Qed.

(** ** Insertion at the front of a slot *)
Definition insert_at (t h : node) (S : node → list node) (k : node) : list node :=
  if bool_decide (k = h) then t :: remove_from t S k else remove_from t S k.

Lemma find_head_slot n i diff e h : find_head_loop n i diff e = Some h → is_slot h = true.
Proof.
  revert i. induction n as [|n IH]; intros i; cbn [find_head_loop]; [done|].
  destruct (bool_decide _); [by intros [= <-]|apply IH].
Qed.
Lemma FindHead_slot t w h : FindHead t w = Some h → is_slot h = true.
Proof. unfold FindHead. destruct (bool_decide _); [done|]. apply find_head_slot. Qed.

(** The pointer updates of [AddTimer] once the slot is known. *)
Definition push_front (t h : node) (w : TimeWheel) : TimeWheel :=
  match next_ w h with
  | Some n => set_prev t (Some h) (set_next h (Some t) (set_prev n (Some t) (set_next t (Some n) w)))
  | None => set_next h (Some t) (set_prev t (Some h) (set_next t None w))
  end.

Lemma push_front_ok w t h l :
  holds w h l → NoDup (h :: l) → t ∉ h :: l →
  holds (push_front t h w) h (t :: l) ∧
  (∀ x, x ≠ t → x ∉ h :: l → next_ (push_front t h w) x = next_ w x ∧ prev_ (push_front t h w) x = prev_ w x).
Proof.
  intros (q & Hp & Hq) Hnd [Hth Htl]%not_elem_of_cons. unfold push_front.
  destruct l as [|y l]; cbn [path] in Hp.
  - subst q. rewrite Hq. split.
    + exists t. cbn. rewrite !upd_eq. rewrite upd_ne, upd_eq by done. done.
    + intros x Hx Hxh. apply not_elem_of_cons in Hxh as [Hxh _]. cbn. by rewrite !upd_ne.
  - destruct Hp as (Hn & Hpy & Hp). rewrite Hn.
    apply NoDup_cons in Hnd as [Hh Hnd]. apply not_elem_of_cons in Htl as [Hty Htl].
    apply not_elem_of_cons in Hh as [Hhy Hhl].
    assert (Hql : q ∈ y :: l) by (by eapply path_end).
    assert (q ≠ h ∧ q ≠ t) as [Hqh Hqt].
    { split; intros ->; apply elem_of_cons in Hql as [->|]; done. }
    split.
    + exists q. cbn [holds path next_ prev_ set_prev set_next].
      split; [|by rewrite !upd_ne]. split_and!.
      * by rewrite upd_eq.
      * by rewrite upd_eq.
      * rewrite upd_ne, upd_eq by done. done.
      * by rewrite upd_ne, upd_eq by done.
      * apply (path_frame w); [done|done| |].
        -- intros x Hx _. cbn. rewrite !upd_ne; [done| |]; intros ->; apply elem_of_cons in Hx as [->|]; done.
        -- intros x Hx. cbn. rewrite !upd_ne; [done| |]; intros ->; [|done].
           apply NoDup_cons in Hnd as [? _]. done.
    + intros x Hx Hxh. apply not_elem_of_cons in Hxh as [Hxh [Hxy Hxl]%not_elem_of_cons]. cbn.
      by rewrite !upd_ne.
Qed.

Lemma push_front_rep w S t h :
  rep w S → is_slot t = false → is_slot h = true → (∀ k, is_slot k = true → t ∉ S k) →
  rep (push_front t h w) (λ k, if bool_decide (k = h) then t :: S k else S k).
Proof.
  intros Hr Ht Hh Hnot. pose proof (slot_list_nodup _ _ _ Hr Hh) as Hnd.
  destruct (push_front_ok w t h (S h)) as [Hhold Hfr]; [by apply (rp_holds _ _ Hr)|done| |].
  { apply not_elem_of_cons. split; [congruence|by apply Hnot]. }
  assert (Hoth : ∀ k x, is_slot k = true → k ≠ h → x ∈ k :: S k → x ≠ t ∧ x ∉ h :: S h).
  { intros k x Hk Hne Hx. split.
    - intros ->. apply elem_of_cons in Hx as [->|Hx]; [congruence|]. by apply (Hnot k).
    - intros Hx'. apply elem_of_cons in Hx as [->|Hx], Hx' as [->|Hx']; try done.
      + apply (rp_timers _ _ Hr) in Hx'; congruence.
      + apply (rp_timers _ _ Hr) in Hx; congruence.
      + apply Hne. by eapply (rp_disjoint _ _ Hr). }
  assert (Hin : ∀ k x, x ∈ (if bool_decide (k = h) then t :: S k else S k) → x = t ∧ k = h ∨ x ∈ S k).
  { intros k x. case_bool_decide; [|by right]. intros [->|]%elem_of_cons; auto. }
  constructor.
  - intros k Hk. case_bool_decide as E; [by subst|].
    eapply holds_frame; [by apply (rp_holds _ _ Hr)|by eapply slot_list_nodup| |]; intros x Hx.
    + destruct (Hoth k x Hk E Hx). by apply Hfr.
    + destruct (Hoth k x Hk E) as []; [by right|]. by apply Hfr.
  - intros k x Hk [[-> ->]|Hx]%Hin; [done|by eapply (rp_timers _ _ Hr)].
  - intros k Hk. case_bool_decide; [|by apply (rp_once _ _ Hr)].
    apply NoDup_cons. split; [by apply Hnot|by apply (rp_once _ _ Hr)].
  - intros k k' x Hk Hk' [[Ex ->]|Hx]%Hin [[Ex' ->]|Hx']%Hin; [done| | |by eapply (rp_disjoint _ _ Hr)];
      subst x; [by destruct (Hnot k' Hk')|by destruct (Hnot k Hk)].
  - intros x Hx Hl. destruct (decide (x = t)) as [->|Hne].
    { exists h. split; [done|]. rewrite bool_decide_true by done. by left. }
    assert (Hex : ∃ k, is_slot k = true ∧ x ∈ S k).
    { destruct (decide (x ∈ S h)); [by exists h|]. apply (rp_linked _ _ Hr); [done|].
      destruct (Hfr x Hne) as [_ <-]; [|done]. apply not_elem_of_cons. split; [congruence|done]. }
    destruct Hex as (k & Hk & Hxk). exists k. split; [done|]. case_bool_decide; [by right|done].
Qed.

Lemma FindHead_DelTimer t w : FindHead t (DelTimer t w) = FindHead t w.
Proof. unfold FindHead. by destruct (DelTimer_same w t) as [-> ->]. Qed.

Lemma AddTimer_rep w S t :
  rep w S → is_slot t = false →
  match FindHead t w with
  | Some h => rep (AddTimer t w) (insert_at t h S)
  | None => rep (AddTimer t w) (remove_from t S)
  end.
Proof.
  intros Hr Ht. pose proof (DelTimer_rep w S t Hr Ht) as Hd. unfold AddTimer. rewrite FindHead_DelTimer.
  destruct (FindHead t w) as [h|] eqn:E; [|done].
  change (rep (push_front t h (DelTimer t w)) (insert_at t h S)).
  apply push_front_rep; [done|done|by eapply FindHead_slot|].
  intros k _ Hin. apply list_elem_of_filter in Hin as [? _]. done.
Qed.

(** ** Moving a list to another slot *)
Definition move_to (h g : node) (S : node → list node) (k : node) : list node :=
  (if bool_decide (k = h) then [] else S k) ++ (if bool_decide (k = g) then S h else []).

Lemma tail_loop_ok w p l q fuel :
  path w p l q → next_ w q = None → (length l < fuel)%nat → tail_loop fuel p w = Ret q.
Proof.
  revert p fuel. induction l as [|x l IH]; intros p fuel Hp Hq Hf; (destruct fuel as [|fuel]; [cbn in Hf; lia|]);
    cbn [path tail_loop] in *.
  - subst. by rewrite Hq.
  - destruct Hp as (-> & _ & Hp). apply IH; [done|done|cbn in Hf; lia].
Qed.

Section move.
Context (w : TimeWheel) (S : node → list node) (Hr : rep w S).
Context (h g x : node) (l : list node) (Hh : is_slot h = true) (Hg : is_slot g = true) (HS : S h = x :: l).

Lemma in_move k y : y ∈ move_to h g S k ↔ k ≠ h ∧ y ∈ S k ∨ k = g ∧ y ∈ S h.
Proof. unfold move_to. rewrite elem_of_app. bool_cases; (rewrite ?elem_of_nil; naive_solver). Qed.

(** The store after the relinking, with [q] the node appended to. *)
Definition relinked (q : node) : TimeWheel :=
  set_prev x (Some q) (set_next q (Some x) (set_next h None w)).

Lemma not_mixed k k' y : is_slot k = true → is_slot k' = true → k ≠ k' → y ∈ k :: S k → y ∉ k' :: S k'.
Proof using Hr.
  intros Hk Hk' Hne Hy Hy'. apply elem_of_cons in Hy as [->|Hy], Hy' as [->|Hy']; try done.
  - apply (rp_timers _ _ Hr) in Hy'; congruence.
  - apply (rp_timers _ _ Hr) in Hy; congruence.
  - apply Hne. by eapply (rp_disjoint _ _ Hr).
Qed.

Lemma relinked_same : next_ w h = Some x → prev_ w x = Some h →
  ∀ y, next_ (relinked h) y = next_ w y ∧ prev_ (relinked h) y = prev_ w y.
Proof.
  intros Hn Hp y. cbn. split.
  - unfold upd. bool_cases; congruence.
  - unfold upd. bool_cases; congruence.
Qed.

Lemma relinked_holds q k :
  path w g (S g) q → next_ w q = None → g ≠ h → is_slot k = true → holds (relinked q) k (move_to h g S k).
Proof using Hr Hh Hg HS.
  intros Hp Hq Hgh Hk. assert (Hqg : q ∈ g :: S g) by (by eapply path_end).
  assert (Hqh : q ∉ h :: S h) by (by eapply (not_mixed g)).
  assert (Hx : x ∈ S h) by (rewrite HS; by left).
  unfold move_to. destruct (bool_decide_reflect (k = h)) as [->|Hkh].
  { rewrite bool_decide_false by done. exists h. cbn. split; [done|].
    rewrite upd_ne, upd_eq; [done|]. intros ->. apply Hqh. by left. }
  pose proof (slot_list_nodup _ _ _ Hr Hk) as Hnd.
  assert (Hnx : ∀ y, y ∈ k :: S k → y ≠ h ∧ y ≠ x).
  { intros y Hy. split; intros ->; apply (not_mixed k h) in Hy; try done; apply Hy; [by left|by right]. }
  destruct (bool_decide_reflect (k = g)) as [->|Hkg]; cycle 1.
  { rewrite app_nil_r. eapply holds_frame; [by apply (rp_holds _ _ Hr)|done| |]; intros y Hy; cbn.
    - rewrite !upd_ne; [done|by apply Hnx|]. intros ->. by apply (not_mixed k g) in Hy.
    - rewrite upd_ne; [done|]. apply Hnx. by right. }
  destruct (rp_holds _ _ Hr h Hh) as (q' & Hp' & Hq'). rewrite HS in Hp'. destruct Hp' as (_ & _ & Hp').
  pose proof (slot_list_nodup _ _ _ Hr Hh) as Hndh. rewrite HS in Hndh |- *.
  apply NoDup_cons in Hndh as [Hhx Hndh]. rewrite HS in Hqh.
  apply not_elem_of_cons in Hqh as [Hqh' Hqx].
  assert (Hq'l : q' ∈ x :: l) by (by eapply path_end).
  exists q'. split.
  - apply path_app. exists q. split.
    + apply (path_frame w); [done|done| |].
      * intros y Hy Hyq. cbn. rewrite !upd_ne; [done|by apply Hnx|done].
      * intros y Hy. cbn. rewrite upd_ne; [done|]. apply Hnx. by right.
    + cbn [path]. split_and!; [by cbn; rewrite upd_eq|by cbn; rewrite upd_eq|].
      apply (path_frame w); [done|done| |].
      * intros y Hy _. cbn. rewrite !upd_ne; [done|congruence|congruence].
      * intros y Hy. cbn. rewrite upd_ne; [done|]. apply NoDup_cons in Hndh as [? _]. congruence.
  - cbn. rewrite !upd_ne; [done|congruence|congruence].
Qed.

Lemma relinked_rep q :
  (path w g (S g) q ∧ next_ w q = None ∧ g ≠ h ∨ q = h ∧ g = h) → rep (relinked q) (move_to h g S).
Proof using Hr Hh Hg HS.
  intros Hq. assert (Hx : x ∈ S h) by (rewrite HS; by left).
  constructor.
  - intros k Hk. destruct Hq as [(Hp & Hn & Hne)|[-> ->]]; [by apply relinked_holds|].
    destruct (rp_holds _ _ Hr h Hh) as (q & Hp & _). rewrite HS in Hp. destruct Hp as (Hn & Hpx & _).
    pose proof (relinked_same Hn Hpx) as Hsame.
    replace (move_to h h S k) with (S k)
      by (unfold move_to; destruct (bool_decide_reflect (k = h)) as [->|]; [done|by rewrite app_nil_r]).
    eapply holds_frame; [by apply (rp_holds _ _ Hr)|by eapply slot_list_nodup| |]; intros y _; apply Hsame.
  - intros k y Hk [[_ Hy]|[_ Hy]]%in_move; by eapply (rp_timers _ _ Hr); [..|exact Hy].
  - intros k Hk. unfold move_to. apply NoDup_app. split_and!.
    + case_bool_decide; [constructor|by apply (rp_once _ _ Hr)].
    + intros y. case_bool_decide; [by intros ?%elem_of_nil|]. intros Hy.
      case_bool_decide; [|by intros ?%elem_of_nil]. intros Hy'.
      by assert (k = h) by (by eapply (rp_disjoint _ _ Hr)).
    + case_bool_decide; [by apply (rp_once _ _ Hr)|constructor].
  - intros k k' y Hk Hk' [[Hn Hy]|[-> Hy]]%in_move [[Hn' Hy']|[-> Hy']]%in_move; try done.
    + by eapply (rp_disjoint _ _ Hr).
    + destruct Hn. by eapply (rp_disjoint _ _ Hr).
    + destruct Hn'. by eapply (rp_disjoint _ _ Hr).
  - intros y Hy Hl. assert (Hex : ∃ k, is_slot k = true ∧ y ∈ S k).
    { destruct (decide (y = x)) as [->|Hne]; [by exists h|]. apply (rp_linked _ _ Hr); [done|].
      cbn in Hl. by rewrite upd_ne in Hl. }
    destruct Hex as (k & Hk & Hin). destruct (decide (k = h)) as [->|Hne].
    + exists g. split; [done|]. apply in_move. auto.
    + exists k. split; [done|]. apply in_move. auto.
Qed.
End move.

Lemma MoveTimerList_rep w S h fuel :
  rep w S → is_slot h = true →
  match S h with
  | [] => MoveTimerList fuel h w = Ret w
  | x :: _ =>
      match FindHead x w with
      | None => MoveTimerList fuel h w = Fault AssertFailed
      | Some g => (length (S g) < fuel)%nat →
          ∃ w', MoveTimerList fuel h w = Ret w' ∧ rep w' (move_to h g S)
      end
  end.
Proof.
  intros Hr Hh. destruct (rp_holds _ _ Hr h Hh) as (q & Hp & Hq). unfold MoveTimerList.
  destruct (S h) as [|x l] eqn:E; cbn [path] in Hp.
  { subst q. by rewrite Hq. }
  destruct Hp as (Hn & _ & _). rewrite Hn.
  change (FindHead x (set_next h None w)) with (FindHead x w).
  destruct (FindHead x w) as [g|] eqn:Eg; [|done]. intros Hf.
  pose proof (FindHead_slot _ _ _ Eg) as Hg.
  destruct (decide (g = h)) as [->|Hne].
  - rewrite (tail_loop_ok _ h [] h); [|done|cbn; by rewrite upd_eq|cbn; lia]. cbn [mbind result_bind].
    eexists. split; [done|]. eapply (relinked_rep w S Hr h h x l Hh Hh E). by right.
  - destruct (rp_holds _ _ Hr g Hg) as (r & Hpg & Hrn).
    assert (Hnh : ∀ y, y ∈ g :: S g → y ≠ h).
    { intros y Hy ->. apply elem_of_cons in Hy as [->|Hy]; [done|]. apply (rp_timers _ _ Hr) in Hy; congruence. }
    rewrite (tail_loop_ok _ g (S g) r); [| | |done].
    + cbn [mbind result_bind]. eexists. split; [done|].
      eapply (relinked_rep w S Hr h g x l Hh Hg E). by left.
    + apply (path_frame w); [done|by eapply slot_list_nodup| |done].
      intros y Hy _. cbn. apply upd_ne. by apply Hnh.
    + cbn. rewrite upd_ne; [done|]. apply Hnh. by eapply path_end.
Qed.

Lemma rep_new now : rep (TimeWheel_new now) (λ _, []).
Proof.
  constructor; try done.
  - intros h Hh. by exists h.
  - intros h x _ ?%elem_of_nil. done.
  - intros h _. constructor.
  - intros h h' x _ _ ?%elem_of_nil. done.
  - intros x _ [? ?]. done.
Qed.

(** C16: the pointer operations implement operations on the slots' lists: a
    new wheel has empty lists; stopping a timer removes it from whatever list
    holds it; starting it removes it and puts it at the front of the slot of
    its expiration (of none when that is in the past or too far); moving a slot
    appends its whole list to the slot of its first timer.  In each case no
    other list changes and no timer is in two lists. *)
Theorem timer_lists_refined w S t h fuel now :
  rep w S → is_slot t = false → is_slot h = true →
  rep (TimeWheel_new now) (λ _, []) ∧
  rep (DelTimer t w) (remove_from t S) ∧
  match FindHead t w with
  | Some g => rep (AddTimer t w) (insert_at t g S)
  | None => rep (AddTimer t w) (remove_from t S)
  end ∧
  match S h with
  | [] => MoveTimerList fuel h w = Ret w
  | x :: _ =>
      match FindHead x w with
      | None => MoveTimerList fuel h w = Fault AssertFailed
      | Some g => (length (S g) < fuel)%nat →
          ∃ w', MoveTimerList fuel h w = Ret w' ∧ rep w' (move_to h g S)
      end
  end.
Proof.
  intros Hr Ht Hh. split_and!.
  - apply rep_new.
  - by apply DelTimer_rep.
  - by apply AddTimer_rep.
  - by apply MoveTimerList_rep.
Qed.

Lemma timer_lists_refined_witness :
  rep (AddTimer (Tm 1) (set_expiration (Tm 1) 300000 (TimeWheel_new 0))) (insert_at (Tm 1) (Slot 1 1) (λ _, [])).
Proof.
  destruct (timer_lists_refined (set_expiration (Tm 1) 300000 (TimeWheel_new 0)) (λ _, []) (Tm 1) (Slot 0 0) 1 0)
    as (_ & _ & H & _); [|reflexivity|reflexivity|exact H].
  constructor.
  - intros h Hh. by exists h.
  - intros h x _ H%elem_of_nil. done.
  - intros h _. constructor.
  - intros h h' x _ _ H%elem_of_nil. done.
  - intros x _ [y H]. done.
Defined.

(** ** When a timer runs *)
(** A callback that stops its timer and leaves the wheel alone. *)
Definition one_shot (timer : node) (w : TimeWheel) : TimeWheel * Z := (w, kTimerStop).

(** The wheel with one timer in one slot. *)
Definition only (t h : node) (k : node) : list node := if bool_decide (k = h) then [t] else [].

Lemma CalcTime_0 n : CalcTime n 0 = n mod 256.
Proof. unfold CalcTime, u8. by rewrite Z.shiftr_0_r. Qed.
Lemma CalcTime_1 n : CalcTime n 1 = n / 256 mod 256.
Proof. unfold CalcTime, u8. by rewrite Z.shiftr_div_pow2 by lia. Qed.

Lemma FindHead_near t w :
  0 <= ms (expiration_ w t) - last_ms_ w < 256 → FindHead t w = Some (Slot 0 (ms (expiration_ w t) mod 256)).
Proof.
  intros H. unfold FindHead. rewrite bool_decide_false by lia. change (Z.to_nat kWheelNum) with 4%nat.
  cbn [find_head_loop]. rewrite bool_decide_true by (change (MaxTime 0) with 256; lia). by rewrite CalcTime_0.
Qed.
Lemma FindHead_middle t w :
  256 <= ms (expiration_ w t) - last_ms_ w < 65536 →
  FindHead t w = Some (Slot 1 (ms (expiration_ w t) / 256 mod 256)).
Proof.
  intros H. unfold FindHead. rewrite bool_decide_false by lia. change (Z.to_nat kWheelNum) with 4%nat.
  cbn [find_head_loop]. rewrite bool_decide_false by (change (MaxTime 0) with 256; lia).
  rewrite bool_decide_true by (change (MaxTime (0 + 1)) with 65536; lia). by rewrite CalcTime_1.
Qed.

Section lone.
Context (t : node) (Ht : is_slot t = false) (fuel : nat) (Hfuel : (2 <= fuel)%nat).
Implicit Types (w : TimeWheel) (h g : node).

Lemma only_other h g : g ≠ h → only t h g = [].
Proof. intros. unfold only. by rewrite bool_decide_false. Qed.
Lemma only_self h : only t h h = [t].
Proof. unfold only. by rewrite bool_decide_true. Qed.

(** The same links at the next millisecond. *)
Lemma rep_advance w S n : rep w S → rep (mk_tw n (prev_ w) (next_ w) (expiration_ w)) S.
Proof.
  assert (Hpath : ∀ p l q, path w p l q → path (mk_tw n (prev_ w) (next_ w) (expiration_ w)) p l q).
  { intros p l. revert p. induction l as [|x l IH]; intros p q; cbn [path]; [done|]. naive_solver. }
  intros []. constructor; try done. intros h Hh. destruct (rp_holds0 h Hh) as (q & Hp & Hq).
  exists q. split; [by apply Hpath|done].
Qed.

Lemma run_slot_empty w S h fired :
  rep w S → is_slot h = true → S h = [] → run_slot one_shot fuel h w fired = Ret (w, fired).
Proof using Hfuel.
  intros Hr Hh HS. destruct fuel as [|f]; [lia|]. cbn [run_slot].
  destruct (rp_holds _ _ Hr h Hh) as (q & Hp & Hq). rewrite HS in Hp. cbn in Hp. subst q. by rewrite Hq.
Qed.

Lemma run_slot_only w h fired :
  rep w (only t h) → is_slot h = true →
  ∃ w', run_slot one_shot fuel h w fired = Ret (w', fired ++ [(last_ms_ w, t)]) ∧
    rep w' (λ _, []) ∧ last_ms_ w' = last_ms_ w.
Proof using Hfuel Ht.
  intros Hr Hh. destruct fuel as [|[|f]]; [lia..|]. cbn [run_slot].
  destruct (rp_holds _ _ Hr h Hh) as (q0 & Hp0 & _). rewrite only_self in Hp0. destruct Hp0 as (Hn & _ & _).
  rewrite Hn. cbn [Run one_shot]. change (bool_decide (kTimerStop <= 0)) with true. cbn [andb].
  assert (Hd : rep (DelTimer t w) (λ _, [])).
  { apply (rep_ext _ (remove_from t (only t h))); [|by apply DelTimer_rep].
    intros k _. unfold remove_from, only. case_bool_decide; [|done]. by rewrite filter_cons_False by naive_solver. }
  destruct (rp_holds _ _ Hd h Hh) as (q & Hp & Hq). cbn in Hp. subst q. rewrite Hq.
  eexists. split; [done|]. split; [done|]. by destruct (DelTimer_same w t) as [_ ->].
Qed.

Lemma move_empty w S h : rep w S → is_slot h = true → S h = [] → MoveTimerList fuel h w = Ret w.
Proof. intros Hr Hh HS. pose proof (MoveTimerList_rep w S h fuel Hr Hh) as H. by rewrite HS in H. Qed.

(** A cascade that meets no timer changes nothing. *)
Lemma cascade_empty w S n j :
  rep w S → (∀ i, j <= i → S (Slot i (CalcTime (last_ms_ w) 1)) = []) → cascade n fuel j w = Ret w.
Proof.
  intros Hr. revert j. induction n as [|n IH]; intros j Hj; cbn [cascade]; [done|].
  rewrite (move_empty w S) by (done || apply Hj; lia). cbn [mbind result_bind].
  destruct (bool_decide _); [done|]. apply IH. intros i Hi. apply Hj. lia.
Qed.

(** After the cascade a due slot of the second wheel is in the first. *)
Lemma cascade_due w :
  rep w (only t (Slot 1 (ms (expiration_ w t) / 256 mod 256))) →
  0 <= ms (expiration_ w t) - last_ms_ w < 256 →
  last_ms_ w / 256 mod 256 = ms (expiration_ w t) / 256 mod 256 →
  ∃ w', cascade 3 fuel 1 w = Ret w' ∧ rep w' (only t (Slot 0 (ms (expiration_ w t) mod 256))) ∧
    last_ms_ w' = last_ms_ w ∧ expiration_ w' t = expiration_ w t.
Proof using Ht Hfuel.
  intros Hr Hd Hi. set (i := ms (expiration_ w t) / 256 mod 256) in *. set (e := ms (expiration_ w t) mod 256).
  cbn [cascade]. rewrite CalcTime_1, Hi.
  pose proof (MoveTimerList_rep w _ (Slot 1 i) fuel Hr eq_refl) as Hm. rewrite only_self in Hm.
  rewrite FindHead_near in Hm by done. fold e in Hm.
  destruct Hm as (w' & E & Hr'); [rewrite only_other by congruence; cbn; lia|].
  assert (Hs : last_ms_ w' = last_ms_ w ∧ expiration_ w' = expiration_ w).
  { revert E. unfold MoveTimerList. destruct (next_ w (Slot 1 i)); [|by intros [= <-]].
    destruct (FindHead _ _); [|done]. destruct (tail_loop _ _ _); [|done..]. cbn. by intros [= <-]. }
  destruct Hs as [Hl He].
  assert (Hr2 : rep w' (only t (Slot 0 e))).
  { eapply rep_ext; [|exact Hr']. intros k _. unfold move_to. rewrite only_self. unfold only.
    bool_cases; subst; try done. }
  rewrite E. cbn [mbind result_bind].
  assert (Hc : (if bool_decide (i ≠ 0) then Ret w' else cascade 2 fuel (1 + 1) w') = Ret w').
  { destruct (bool_decide _); [done|]. apply (cascade_empty w' _ 2 (1 + 1) Hr2).
    intros k Hk. apply only_other. intros [=]. lia. }
  cbn [cascade] in Hc. rewrite Hc. exists w'. by rewrite He.
Qed.
End lone.

Section due.
Context (t : node) (Ht : is_slot t = false) (fuel : nat) (Hfuel : (2 <= fuel)%nat).
Implicit Types (w : TimeWheel) (h g : node).

Definition due w : Z := ms (expiration_ w t).

(** The timer waits in the first wheel, or in the second for a later turn. *)
Definition pending w : Prop :=
  (last_ms_ w < due w < last_ms_ w + 256 ∧ rep w (only t (Slot 0 (due w mod 256)))) ∨
  (1 <= due w / 256 - last_ms_ w / 256 <= 256 ∧ rep w (only t (Slot 1 (due w / 256 mod 256)))).

Lemma tick_empty w fired :
  rep w (λ _, []) → ∃ w', tick one_shot fuel w fired = Ret (w', fired) ∧ rep w' (λ _, []) ∧
    last_ms_ w' = last_ms_ w + 1.
Proof using Hfuel.
  intros Hr. unfold tick. apply (rep_advance w _ (last_ms_ w + 1)) in Hr. set (w1 := mk_tw _ _ _ _) in *.
  assert (Hc : (if bool_decide (CalcTime (last_ms_ w1) 0 = 0) then cascade 3 fuel 1 w1 else Ret w1) = Ret w1).
  { destruct (bool_decide _); [|done]. by apply (cascade_empty fuel Hfuel w1 (λ _, [])). }
  rewrite Hc. cbn [mbind result_bind]. rewrite (run_slot_empty fuel Hfuel w1 (λ _, [])) by done. eauto.
Qed.

(** Running the slot of the current millisecond with the timer in the first
    wheel runs it exactly when it is due. *)
Lemma run_near w fired :
  rep w (only t (Slot 0 (due w mod 256))) → last_ms_ w <= due w < last_ms_ w + 256 →
  ∃ w', run_slot one_shot fuel (Slot 0 (last_ms_ w mod 256)) w fired =
      Ret (w', fired ++ (if bool_decide (last_ms_ w = due w) then [(due w, t)] else [])) ∧
    last_ms_ w' = last_ms_ w ∧
    (if bool_decide (last_ms_ w = due w) then rep w' (λ _, []) else w' = w).
Proof using Hfuel Ht.
  intros Hr Hd. destruct (bool_decide_reflect (last_ms_ w = due w)) as [E|E].
  - rewrite E. destruct (run_slot_only t Ht fuel Hfuel w _ fired Hr eq_refl) as (w' & -> & Hr' & Hl).
    exists w'. rewrite <-E. by split_and!.
  - rewrite (run_slot_empty fuel Hfuel w (only t (Slot 0 (due w mod 256)))); [|done|done|].
    + exists w. by rewrite app_nil_r.
    + apply only_other. intros [= Hm]. Z.to_euclidean_division_equations. lia.
Qed.

Lemma tick_pending w fired :
  pending w →
  ∃ w', tick one_shot fuel w fired =
      Ret (w', fired ++ (if bool_decide (last_ms_ w + 1 = due w) then [(due w, t)] else [])) ∧
    last_ms_ w' = last_ms_ w + 1 ∧
    (if bool_decide (last_ms_ w + 1 = due w) then rep w' (λ _, []) else pending w' ∧ due w' = due w).
Proof using Hfuel Ht.
  intros Hp. unfold tick. set (w1 := mk_tw _ _ _ _).
  assert (Hdue : due w1 = due w) by done. assert (Hl1 : last_ms_ w1 = last_ms_ w + 1) by done.
  rewrite CalcTime_0, Hl1.
  destruct Hp as [[Hd Hr]|[Hd Hr]]; apply (rep_advance w _ (last_ms_ w + 1)) in Hr; fold w1 in Hr.
  - (* first wheel *)
    assert (Hc : (if bool_decide ((last_ms_ w + 1) mod 256 = 0) then cascade 3 fuel 1 w1 else Ret w1) = Ret w1).
    { destruct (bool_decide _); [|done]. apply (cascade_empty fuel Hfuel w1 _ 3 1 Hr). intros i Hi.
      apply only_other. intros [=]. lia. }
    rewrite Hc. cbn [mbind result_bind]. rewrite <-Hl1.
    destruct (run_near w1 fired) as (w' & -> & Hl & Hw); [by rewrite Hdue|rewrite Hdue; lia|].
    rewrite Hdue in *. exists w'. split; [done|]. split; [done|].
    destruct (bool_decide_reflect (last_ms_ w1 = due w)); [done|]. subst w'.
    split; [|done]. left. rewrite Hdue. split; [lia|done].
  - (* second wheel *)
    assert (Hgt : last_ms_ w + 1 <= due w) by (Z.to_euclidean_division_equations; lia).
    destruct (bool_decide_reflect ((last_ms_ w + 1) mod 256 = 0)) as [E0|E0].
    + destruct (decide (due w / 256 = (last_ms_ w + 1) / 256)) as [Ee|Ee].
      * destruct (cascade_due t Ht fuel Hfuel w1) as (w2 & -> & Hr2 & Hl2 & He2).
        { done. }
        { change (ms (expiration_ w1 t)) with (due w). rewrite Hl1. Z.to_euclidean_division_equations. lia. }
        { change (ms (expiration_ w1 t)) with (due w). by rewrite Hl1, Ee. }
        cbn [mbind result_bind]. assert (Hdue2 : due w2 = due w) by (unfold due; by rewrite He2).
        rewrite <-Hl1, <-Hl2. destruct (run_near w2 fired) as (w' & -> & Hl & Hw).
        { by rewrite Hdue2. }
        { rewrite Hdue2, Hl2, Hl1. Z.to_euclidean_division_equations. lia. }
        rewrite Hdue2, Hl2, Hl1 in *. exists w'. split; [done|]. split; [done|].
        destruct (bool_decide_reflect (last_ms_ w + 1 = due w)); [done|]. subst w'.
        split; [|done]. left. rewrite Hdue2, ?Hl2, ?Hl1. split; [Z.to_euclidean_division_equations; lia|done].
      * assert (cascade 3 fuel 1 w1 = Ret w1) as ->.
        { apply (cascade_empty fuel Hfuel w1 _ 3 1 Hr). intros i Hi. apply only_other. rewrite CalcTime_1, Hl1.
          intros [= _ Em]. apply Ee. Z.to_euclidean_division_equations. lia. }
        cbn [mbind result_bind].
        rewrite (run_slot_empty fuel Hfuel w1 (only t (Slot 1 (due w / 256 mod 256)))) by (done || by apply only_other).
        exists w1. rewrite bool_decide_false by (intros Ex; apply Ee; by rewrite Ex). rewrite app_nil_r.
        split_and!; [done..| |done]. right. rewrite Hdue, Hl1. split; [|done].
        Z.to_euclidean_division_equations. lia.
    + cbn [mbind result_bind].
      rewrite (run_slot_empty fuel Hfuel w1 (only t (Slot 1 (due w / 256 mod 256)))) by (done || by apply only_other).
      exists w1. rewrite bool_decide_false by (intros Ex; Z.to_euclidean_division_equations; lia). rewrite app_nil_r.
      split_and!; [done..| |done]. right. rewrite Hdue, Hl1. split; [|done].
      Z.to_euclidean_division_equations. lia.
Qed.

Lemma ticks_empty n w fired :
  rep w (λ _, []) → ∃ w', ticks one_shot n fuel w fired = Ret (w', fired) ∧ rep w' (λ _, []).
Proof using Hfuel.
  revert w. induction n as [|n IH]; intros w Hr; cbn [ticks]; [eauto|].
  destruct (tick_empty w fired Hr) as (w1 & -> & Hr1 & _). cbn [mbind result_bind]. by apply IH.
Qed.

Lemma ticks_pending n w fired :
  pending w →
  ∃ w', ticks one_shot n fuel w fired =
    Ret (w', fired ++ (if bool_decide (due w <= last_ms_ w + Z.of_nat n) then [(due w, t)] else [])).
Proof using Hfuel Ht.
  revert w. induction n as [|n IH]; intros w Hp; cbn [ticks].
  { exists w. rewrite bool_decide_false; [by rewrite app_nil_r|].
    destruct Hp as [[? _]|[? _]]; Z.to_euclidean_division_equations; lia. }
  destruct (tick_pending w fired Hp) as (w1 & -> & Hl & Hw). cbn [mbind result_bind].
  destruct (bool_decide_reflect (last_ms_ w + 1 = due w)) as [E|E].
  - destruct (ticks_empty n w1 (fired ++ [(due w, t)]) Hw) as (w2 & -> & _). exists w2.
    by rewrite bool_decide_true by lia.
  - destruct Hw as [Hw Hd]. destruct (IH w1 Hw) as (w2 & E2). rewrite app_nil_r, E2, Hd, Hl. exists w2.
    rewrite (bool_decide_ext (due w <= last_ms_ w + 1 + Z.of_nat n) (due w <= last_ms_ w + Z.of_nat (S n))) by lia.
    done.
Qed.

(** In a slot of a later wheel other than the first, it is not met. *)
Lemma ticks_lost n w fired j i :
  rep w (only t (Slot j i)) → 2 <= j → i ≠ 0 →
  ∃ w', ticks one_shot n fuel w fired = Ret (w', fired) ∧ rep w' (only t (Slot j i)).
Proof using Hfuel Ht.
  intros Hr Hj Hi. revert w Hr. induction n as [|n IH]; intros w Hr; cbn [ticks]; [eauto|].
  unfold tick. apply (rep_advance w _ (last_ms_ w + 1)) in Hr. set (w1 := mk_tw _ _ _ _) in *.
  assert (Hc : (if bool_decide (CalcTime (last_ms_ w1) 0 = 0) then cascade 3 fuel 1 w1 else Ret w1) = Ret w1).
  { destruct (bool_decide _); [|done]. set (m := CalcTime (last_ms_ w1) 1). cbn [cascade].
    fold m. rewrite (move_empty fuel w1 _ (Slot 1 m) Hr) by (done || (apply only_other; intros [=]; lia)).
    cbn [mbind result_bind]. fold m. destruct (bool_decide_reflect (m ≠ 0)) as [|Hm]; [done|].
    rewrite (move_empty fuel w1 _ (Slot (1 + 1) m) Hr) by (done || (apply only_other; intros [=]; lia)).
    cbn [mbind result_bind]. fold m.
    rewrite (move_empty fuel w1 _ (Slot (1 + 1 + 1) m) Hr) by (done || (apply only_other; intros [=]; lia)).
    cbn [mbind result_bind]. fold m. by rewrite bool_decide_false. }
  rewrite Hc. cbn [mbind result_bind].
  rewrite (run_slot_empty fuel Hfuel w1 _ _ fired Hr) by (done || (apply only_other; intros [=]; lia)).
  cbn [mbind result_bind]. apply IH. done.
Qed.
End due.

(** A timer alone in the wheel, started from outside a callback. *)
Lemma Start_rep w t us n h :
  rep w (λ _, []) → is_slot t = false →
  FindHead t (set_expiration t (AddMs us n) w) = Some h → rep (Start us t n w) (only t h).
Proof.
  intros Hr Ht Eh. unfold Start. set (w1 := set_expiration t (AddMs us n) w) in *.
  assert (Hr1 : rep w1 (λ _, [])).
  { by destruct Hr. }
  pose proof (AddTimer_rep w1 (λ _, []) t Hr1 Ht) as H. rewrite Eh in H.
  eapply rep_ext; [|exact H]. intros k _. unfold insert_at, only, remove_from. by case_bool_decide.
Qed.

Lemma push_front_expiration w t h :
  expiration_ (push_front t h w) = expiration_ w ∧ last_ms_ (push_front t h w) = last_ms_ w.
Proof. unfold push_front. by destruct (next_ w h). Qed.
Lemma Start_same w t us n :
  expiration_ (Start us t n w) t = AddMs us n ∧ last_ms_ (Start us t n w) = last_ms_ w.
Proof.
  unfold Start, AddTimer. rewrite FindHead_DelTimer. set (w1 := set_expiration t (AddMs us n) w).
  assert (H1 : expiration_ w1 t = AddMs us n ∧ last_ms_ w1 = last_ms_ w) by (cbn; by rewrite upd_eq).
  destruct (DelTimer_same w1 t) as [E1 E2]. rewrite <-E1, <-E2 in H1.
  destruct (FindHead t w1) as [h|]; [|done].
  destruct (push_front_expiration (DelTimer t w1) t h) as [F1 F2]. rewrite <-F1, <-F2 in H1. exact H1.
Qed.

(** C30: a timer alone in the wheel, started for a time after the wheel's and
    less than 65536 ms ahead, runs exactly once, in the turn that reaches its
    expiration and at that millisecond; turning the wheel less far runs
    nothing.  A turn of more than 2^31 - 1 ms at once overflows the counter of
    the loop. *)
Theorem timer_on_time w t us n now :
  rep w (λ _, []) → is_slot t = false → let e := ms (AddMs us n) in
  last_ms_ w < e < last_ms_ w + 65536 → last_ms_ w <= now →
  ∃ w', TurnWheel one_shot 2 now (Start us t n w) [] =
    if bool_decide (now - last_ms_ w <= INT_MAX) then Ret (w', if bool_decide (e <= now) then [(e, t)] else [])
    else Fault SignedOverflow.
Proof.
  intros Hr Ht e He Hnow. destruct (Start_same w t us n) as [Ee El].
  assert (Hp : pending t (Start us t n w)).
  { unfold pending, due. rewrite Ee, El. fold e. destruct (decide (e - last_ms_ w < 256)) as [Hn|Hn].
    - left. split; [lia|]. apply Start_rep; [done|done|].
      rewrite FindHead_near; cbn; rewrite upd_eq; [done|fold e; lia].
    - right. split; [Z.to_euclidean_division_equations; lia|]. apply Start_rep; [done|done|].
      rewrite FindHead_middle; cbn; rewrite upd_eq; [done|fold e; lia]. }
  pose proof (λ k, ticks_pending t Ht 2 (le_n 2) k (Start us t n w) [] Hp) as Hall.
  destruct (Hall (Z.to_nat (now - last_ms_ (Start us t n w)))) as (w' & E).
  exists w'. rewrite TurnWheel_ticks by (intros k; destruct (Hall k); eauto). rewrite E. unfold due. rewrite Ee, El. fold e. rewrite Z2Nat.id by lia.
  replace (last_ms_ w + (now - last_ms_ w)) with now by lia. done.
Qed.

Lemma timer_on_time_witness :
  ∃ w', TurnWheel one_shot 2 1001 (Start 700000 (Tm 1) 301 (TimeWheel_new 700)) [] = Ret (w', [(1001, Tm 1)]).
Proof.
  destruct (timer_on_time (TimeWheel_new 700) (Tm 1) 700000 301 1001) as (w' & E).
  - apply rep_new.
  - reflexivity.
  - vm_compute. split; reflexivity.
  - vm_compute. discriminate.
  - exists w'. exact E.
Defined.

(** C38: a timer alone in the wheel whose delay puts it in the third or fourth
    wheel (65536 ms and more) in a slot other than number zero never runs,
    however far the wheel is turned: the cascade looks for it with the index
    of the second wheel.  (A turn of more than 2^31 - 1 ms at once overflows the
    counter of the loop.) *)
Theorem long_timer_never_runs w t us n j i now :
  rep w (λ _, []) → is_slot t = false →
  FindHead t (set_expiration t (AddMs us n) w) = Some (Slot j i) → 2 <= j → i ≠ 0 →
  ∃ w', TurnWheel one_shot 2 now (Start us t n w) [] =
      (if bool_decide (now - last_ms_ w <= INT_MAX) then Ret (w', []) else Fault SignedOverflow) ∧
    rep w' (only t (Slot j i)).
Proof.
  intros Hr Ht Eh Hj Hi.
  pose proof (λ k, ticks_lost t Ht 2 (le_n 2) k _ [] j i (Start_rep w t us n _ Hr Ht Eh) Hj Hi) as Hall.
  destruct (Hall (Z.to_nat (now - last_ms_ (Start us t n w)))) as (w' & E & Hw). exists w'. split; [|done].
  rewrite TurnWheel_ticks by (intros k; destruct (Hall k) as (? & ? & _); eauto).
  by rewrite E, (proj2 (Start_same w t us n)).
Qed.

(** Seventy seconds. *)
Lemma long_timer_never_runs_witness :
  ∃ w', TurnWheel one_shot 2 1000000 (Start 0 (Tm 1) 70000 (TimeWheel_new 0)) [] = Ret (w', []) ∧
    rep w' (only (Tm 1) (Slot 2 1)).
Proof.
  apply (long_timer_never_runs (TimeWheel_new 0) (Tm 1) 0 70000 2 1 1000000).
  - apply rep_new.
  - reflexivity.
  - vm_compute. reflexivity.
  - lia.
  - lia.
Defined.

(** Two timers of 300 and 400 ms share a slot of the second wheel: both run
    when the one started last is due. *)
Example shared_slot :
  (let w := Start 0 (Tm 1) 300 (Start 0 (Tm 2) 400 (TimeWheel_new 0)) in
   snd <$> (match TurnWheel one_shot 10 500 w [] with Ret r => Some r | _ => None end)) =
  Some [(300, Tm 1); (300, Tm 2)].
Proof. by vm_compute. Qed.

