(* ===== verification/Timers.v ===== *)
(** * Many short timers: kernel/time/{timer,time_wheel}.cc

    The wheel with any number of timers, one-shot and periodic, whose delays
    keep them in the first wheel.  The abstract timer has a next due
    millisecond and a period; the theorem is that turning the wheel runs
    exactly what the abstract timers prescribe.  Timers that share a slot of
    the second wheel do not behave so: the last part says when they run. *)

From Stdlib Require Import ZArith Lia Bool Sorting.
From stdpp Require Import base numbers list.
From S2P Require Import Prelude Types TimeWheel.

(** The callback of a timer returns its period; zero or less stops it. *)
Definition periodic (period : node → Z) (timer : node) (w : TimeWheel) : TimeWheel * Z := (w, period timer).

(** When an abstract timer that is next due at [d] runs. *)
Definition fires_at (d period T : Z) : Prop :=
  if bool_decide (period <= 0) then T = d else ∃ k, 0 <= k ∧ T = d + k * period.

Definition due_ms (w : TimeWheel) (x : node) : Z := ms (expiration_ w x).
Definition active (S : node → list node) (x : node) : Prop := ∃ h, is_slot h = true ∧ x ∈ S h.

(** Every timer is in the slot of its millisecond in the first wheel, and due
    from [lo] on. *)
Record placed (lo : Z) (ts : list node) (w : TimeWheel) (S : node → list node) : Prop := mk_placed {
  pl_rep : rep w S;
  pl_slot : ∀ h x, is_slot h = true → x ∈ S h → h = Slot 0 (due_ms w x mod 256);
  pl_due : ∀ x, active S x → lo <= due_ms w x < last_ms_ w + 256 ∧ 0 <= expiration_ w x;
  pl_all : ∀ x, active S x → x ∈ ts;
}.

(** ** The store *)
Lemma rep_links w w' S : prev_ w' = prev_ w → next_ w' = next_ w → rep w S → rep w' S.
Proof.
  intros Hp Hn []. assert (Hpath : ∀ l p q, path w p l q → path w' p l q).
  { induction l as [|x l IH]; intros p q; cbn [path]; [done|]. rewrite Hp, Hn. naive_solver. }
  constructor; try done; [|by rewrite Hp]. intros h Hh. destruct (rp_holds h Hh) as (q & H1 & H2).
  exists q. rewrite Hn. auto.
Qed.
Lemma AddTimer_same t w : expiration_ (AddTimer t w) = expiration_ w ∧ last_ms_ (AddTimer t w) = last_ms_ w.
Proof.
  unfold AddTimer. rewrite FindHead_DelTimer. destruct (DelTimer_same w t) as [E1 E2].
  destruct (FindHead t w) as [h|]; [|done].
  destruct (push_front_expiration (DelTimer t w) t h) as [F1 F2]. rewrite <-E1, <-E2, <-F1, <-F2. done.
Qed.
Lemma ms_AddMs us n : 0 <= us → 0 <= n → ms (AddMs us n) = ms us + n.
Proof. intros. unfold ms, AddMs. rewrite !Z.quot_div_nonneg by lia. Z.to_euclidean_division_equations. lia. Qed.

Lemma in_remove t S k x : x ∈ remove_from t S k ↔ x ≠ t ∧ x ∈ S k.
Proof. unfold remove_from. by rewrite list_elem_of_filter. Qed.
Lemma in_insert t g S k x : x ∈ insert_at t g S k ↔ (k = g ∧ x = t) ∨ (x ≠ t ∧ x ∈ S k).
Proof. unfold insert_at. case_bool_decide; rewrite ?elem_of_cons, in_remove; naive_solver. Qed.
Lemma active_remove t S x : active (remove_from t S) x ↔ x ≠ t ∧ active S x.
Proof. unfold active. setoid_rewrite in_remove. naive_solver. Qed.
Lemma active_insert t g S x : is_slot g = true → active (insert_at t g S) x ↔ x = t ∨ active S x.
Proof.
  intros Hg. unfold active. setoid_rewrite in_insert. split; [naive_solver|]. intros [->|(h & Hh & Hx)]; [eauto|].
  destruct (decide (x = t)) as [->|]; eauto.
Qed.

(** Placing a timer, from wherever it was. *)
Lemma placed_add lo ts w S t us :
  placed lo ts w S → is_slot t = false → t ∈ ts → 0 <= us →
  lo <= ms us < last_ms_ w + 256 → last_ms_ w <= lo →
  let w' := AddTimer t (set_expiration t us w) in
  placed lo ts w' (insert_at t (Slot 0 (ms us mod 256)) S) ∧ last_ms_ w' = last_ms_ w ∧
  ∀ x, expiration_ w' x = if bool_decide (x = t) then us else expiration_ w x.
Proof.
  intros [Hr Hs Hd Ha] Ht Hts Hus Hlo Hlast. cbv zeta. set (w1 := set_expiration t us w).
  destruct (AddTimer_same t w1) as [E1 E2].
  assert (Hdue : ∀ x, due_ms (AddTimer t w1) x = if bool_decide (x = t) then ms us else due_ms w x).
  { intros x. unfold due_ms. rewrite E1. cbn. unfold upd. by case_bool_decide. }
  assert (He : expiration_ w1 t = us) by (cbn; by rewrite upd_eq).
  split_and!; [|by rewrite E2|intros x; by rewrite E1]. split.
  - pose proof (AddTimer_rep w1 S t (rep_links w w1 S eq_refl eq_refl Hr) Ht) as H.
    assert (E : FindHead t w1 = Some (Slot 0 (ms us mod 256))).
    { rewrite <-He. apply FindHead_near. rewrite He. change (last_ms_ w1) with (last_ms_ w). lia. }
    by rewrite E in H.
  - intros h x Hh [[-> ->]|[Hne Hx]]%in_insert; rewrite Hdue; [by rewrite bool_decide_true|].
    rewrite bool_decide_false by done. by apply Hs.
  - intros x Hx%active_insert; [|done]. rewrite Hdue, E2, E1. change (last_ms_ w1) with (last_ms_ w).
    change (expiration_ w1 x) with (upd (expiration_ w) t us x). unfold upd.
    destruct (bool_decide_reflect (x = t)) as [->|]; [split; lia|]. destruct Hx as [|Hx]; [done|]. by apply Hd.
  - intros x Hx%active_insert; [|done]. destruct Hx as [->|Hx]; auto.
Qed.
Lemma placed_remove lo ts w S t :
  placed lo ts w S → is_slot t = false →
  placed lo ts (DelTimer t w) (remove_from t S) ∧ last_ms_ (DelTimer t w) = last_ms_ w ∧
  expiration_ (DelTimer t w) = expiration_ w.
Proof.
  intros [Hr Hs Hd Ha] Ht. destruct (DelTimer_same w t) as [E1 E2]. split_and!; [|done..]. split.
  - by apply DelTimer_rep.
  - intros h x Hh [_ Hx]%in_remove. unfold due_ms. rewrite E1. by apply Hs.
  - intros x [_ Hx]%active_remove. unfold due_ms. rewrite E1, E2. by apply Hd.
  - intros x [_ Hx]%active_remove. auto.
Qed.

(** ** A tick *)
Section tick.
Context (period : node → Z) (Hperiod : ∀ x, period x < 256) (ts : list node).
Local Notation cb := (periodic period).

(** The timers of [l] have run. *)
Record ran (l : list node) (w w' : TimeWheel) (S S' : node → list node) : Prop := mk_ran {
  rn_last : last_ms_ w' = last_ms_ w;
  rn_active : ∀ x, active S' x ↔ active S x ∧ ¬ (x ∈ l ∧ period x <= 0);
  rn_due : ∀ x, due_ms w' x = if bool_decide (x ∈ l ∧ 0 < period x) then due_ms w x + period x else due_ms w x;
}.

Lemma head_of_slot lo w S h :
  placed lo ts w S → is_slot h = true → next_ w h = head (S h).
Proof.
  intros Hp Hh. destruct (rp_holds _ _ (pl_rep _ _ _ _ Hp) h Hh) as (q & Hpath & Hq).
  destruct (S h) as [|x l]; cbn [path head] in *; [by subst|]. by destruct Hpath.
Qed.

(** One timer of the current slot. *)
Lemma run_one w S x l :
  placed (last_ms_ w) ts w S → S (Slot 0 (last_ms_ w mod 256)) = x :: l →
  ∃ w' S', (let '(v, again) := Run cb x (DelTimer x w) in if again then AddTimer x v else v) = w' ∧
    placed (last_ms_ w) ts w' S' ∧ S' (Slot 0 (last_ms_ w mod 256)) = l ∧ ran [x] w w' S S' ∧ due_ms w x = last_ms_ w.
Proof using Hperiod.
  intros Hp HS. set (h := Slot 0 (last_ms_ w mod 256)) in *. assert (Hh : is_slot h = true) by done.
  assert (Hx : x ∈ S h) by (rewrite HS; by left). pose proof (ex_intro _ h (conj Hh Hx) : active S x) as Hax.
  pose proof (rp_timers _ _ (pl_rep _ _ _ _ Hp) h x Hh Hx) as Hxt.
  destruct (pl_due _ _ _ _ Hp x Hax) as [Hdx Hex].
  assert (Hd : due_ms w x = last_ms_ w).
  { pose proof (pl_slot _ _ _ _ Hp h x Hh Hx) as E. injection E as E. Z.to_euclidean_division_equations. lia. }
  destruct (placed_remove _ _ _ _ x Hp Hxt) as (Hp1 & El & Ee).
  assert (Hrest : remove_from x S h = l).
  { unfold remove_from. rewrite HS. rewrite filter_cons_False by naive_solver. apply remove_absent.
    pose proof (rp_once _ _ (pl_rep _ _ _ _ Hp) h Hh) as Hn. rewrite HS in Hn. by apply NoDup_cons in Hn as [? _]. }
  unfold Run, periodic. destruct (bool_decide_reflect (period x <= 0)) as [H0|H0].
  - eexists _, _. split; [done|]. split; [exact Hp1|]. split; [done|]. split; [|done]. split; [done| |].
    + intros y. rewrite active_remove, list_elem_of_singleton. naive_solver.
    + intros y. unfold due_ms. rewrite Ee. rewrite bool_decide_false; [done|]. rewrite list_elem_of_singleton.
      intros [-> ?]. lia.
  - specialize (Hperiod x).
    assert (Hm : ms (AddMs (expiration_ (DelTimer x w) x) (period x)) = last_ms_ w + period x).
    { rewrite Ee, ms_AddMs by lia. unfold due_ms in Hd. lia. }
    destruct (placed_add _ _ _ _ x (AddMs (expiration_ (DelTimer x w) x) (period x)) Hp1 Hxt) as (Hp2 & El2 & Ee2).
    { by apply (pl_all _ _ _ _ Hp). }
    { rewrite Ee. unfold AddMs. lia. }
    { rewrite Hm, El. lia. }
    { by rewrite El. }
    rewrite Hm in Hp2. eexists _, _. split; [reflexivity|]. split; [exact Hp2|]. split; [|split; [|done]].
    + unfold insert_at. rewrite bool_decide_false.
      * unfold remove_from at 1. rewrite Hrest. apply remove_absent. rewrite <-Hrest. by intros [? _]%in_remove.
      * unfold h. intros [= E]. Z.to_euclidean_division_equations. lia.
    + split; [by rewrite El2| |].
      * intros y. rewrite active_insert by done. rewrite active_remove, list_elem_of_singleton.
        destruct (decide (y = x)) as [->|]; naive_solver lia.
      * intros y. unfold due_ms. rewrite Ee2. destruct (bool_decide_reflect (y = x)) as [->|Hne].
        -- rewrite bool_decide_true by (rewrite list_elem_of_singleton; split; [done|lia]). rewrite Hm.
           unfold due_ms in Hd. lia.
        -- rewrite Ee, bool_decide_false; [done|]. rewrite list_elem_of_singleton. naive_solver.
Qed.

Lemma ran_nil w S : ran [] w w S S.
Proof.
  split; [done| |].
  - intros x. split; [|naive_solver]. intros H. split; [done|]. by intros [?%elem_of_nil _].
  - intros x. rewrite bool_decide_false; [done|]. by intros [?%elem_of_nil _].
Qed.
Lemma ran_cons x l w w1 w2 S S1 S2 : x ∉ l → ran [x] w w1 S S1 → ran l w1 w2 S1 S2 → ran (x :: l) w w2 S S2.
Proof.
  intros Hx [L1 A1 D1] [L2 A2 D2]. split; [congruence| |].
  - intros y. rewrite A2, A1, list_elem_of_singleton, elem_of_cons. naive_solver.
  - intros y. rewrite D2, D1. destruct (decide (y = x)) as [->|Hne].
    + rewrite (bool_decide_false (x ∈ l ∧ _)) by naive_solver.
      rewrite (bool_decide_ext (x ∈ [x] ∧ 0 < period x) (x ∈ x :: l ∧ 0 < period x)); [done|].
      rewrite list_elem_of_singleton, elem_of_cons. naive_solver.
    + rewrite (bool_decide_false (y ∈ [x] ∧ _)) by (rewrite list_elem_of_singleton; naive_solver).
      rewrite (bool_decide_ext (y ∈ l ∧ 0 < period y) (y ∈ x :: l ∧ 0 < period y)); [done|].
      rewrite elem_of_cons. naive_solver.
Qed.

(** The whole slot: its timers run in order, and none is left for this
    millisecond. *)
Lemma run_slot_all fuel w S fired :
  placed (last_ms_ w) ts w S → (length (S (Slot 0 (last_ms_ w mod 256))) < fuel)%nat →
  ∃ w' S', run_slot cb fuel (Slot 0 (last_ms_ w mod 256)) w fired =
      Ret (w', fired ++ ((λ x, (last_ms_ w, x)) <$> S (Slot 0 (last_ms_ w mod 256)))) ∧
    placed (last_ms_ w + 1) ts w' S' ∧ ran (S (Slot 0 (last_ms_ w mod 256))) w w' S S' ∧
    (∀ x, x ∈ S (Slot 0 (last_ms_ w mod 256)) ↔ active S x ∧ due_ms w x = last_ms_ w).
Proof using Hperiod.
  revert w S fired. induction fuel as [|fuel IH]; intros w S fired Hp Hf; [lia|]. cbn [run_slot].
  set (h := Slot 0 (last_ms_ w mod 256)) in *. assert (Hh : is_slot h = true) by done.
  rewrite (head_of_slot _ w S h Hp Hh).
  assert (Hin : ∀ x, x ∈ S h ↔ active S x ∧ due_ms w x = last_ms_ w).
  { intros x. split.
    - intros Hx. assert (Hax : active S x) by (by exists h). split; [done|].
      destruct (pl_due _ _ _ _ Hp x Hax) as [Hd _]. pose proof (pl_slot _ _ _ _ Hp h x Hh Hx) as E.
      unfold h in E. injection E as E. Z.to_euclidean_division_equations. lia.
    - intros [(g & Hg & Hx) Hd]. pose proof (pl_slot _ _ _ _ Hp g x Hg Hx) as E. rewrite Hd in E. by subst g. }
  destruct (S h) as [|x l] eqn:ES; cbn [head].
  - exists w, S. split_and!; [by rewrite app_nil_r| |apply ran_nil|exact Hin].
    destruct Hp as [Hr Hs Hd Ha]. split; [done|done| |done]. intros x Hx. destruct (Hd x Hx) as [H1 H2].
    split; [|done]. assert (due_ms w x ≠ last_ms_ w); [|lia]. intros E. by apply elem_of_nil with x, Hin.
  - destruct (run_one w S x l Hp ES) as (w1 & S1 & E1 & Hp1 & HS1 & Hr1 & Hdx).
    destruct (Run cb x (DelTimer x w)) as [v again] eqn:ER. rewrite E1.
    pose proof (rn_last _ _ _ _ _ Hr1) as El. unfold h in *. rewrite <-El in *.
    destruct (IH w1 S1 (fired ++ [(last_ms_ w1, x)]) Hp1) as (w2 & S2 & E2 & Hp2 & Hr2 & Hin2).
    { rewrite HS1. cbn in Hf. lia. }
    rewrite HS1 in *. exists w2, S2. split_and!.
    + rewrite E2. by rewrite <-app_assoc.
    + done.
    + apply (ran_cons x l w w1 w2 S S1 S2); [|done..].
      pose proof (rp_once _ _ (pl_rep _ _ _ _ Hp) _ Hh) as Hn. rewrite ES in Hn. by apply NoDup_cons in Hn as [? _].
    + exact Hin.
Qed.

Lemma slot_short lo w S h : placed lo ts w S → is_slot h = true → (length (S h) <= length ts)%nat.
Proof.
  intros Hp Hh. apply submseteq_length, NoDup_submseteq; [by apply (rp_once _ _ (pl_rep _ _ _ _ Hp))|].
  intros x Hx. apply (pl_all _ _ _ _ Hp). by exists h.
Qed.
Lemma tick_all fuel w S fired :
  placed (last_ms_ w + 1) ts w S → (length ts < fuel)%nat → (2 <= fuel)%nat →
  ∃ w' S' l, tick cb fuel w fired = Ret (w', fired ++ ((λ x, (last_ms_ w + 1, x)) <$> l)) ∧
    placed (last_ms_ w' + 1) ts w' S' ∧ last_ms_ w' = last_ms_ w + 1 ∧ NoDup l ∧
    (∀ x, x ∈ l ↔ active S x ∧ due_ms w x = last_ms_ w + 1) ∧
    (∀ x, active S' x ↔ active S x ∧ ¬ (x ∈ l ∧ period x <= 0)) ∧
    (∀ x, due_ms w' x = if bool_decide (x ∈ l ∧ 0 < period x) then due_ms w x + period x else due_ms w x).
Proof using Hperiod.
  intros Hp Hf Hf2. unfold tick. set (w1 := mk_tw _ _ _ _).
  assert (Hp1 : placed (last_ms_ w1) ts w1 S).
  { destruct Hp as [Hr Hs Hd Ha]. split; [by apply (rep_links w)|done| |done]. intros x Hx.
    destruct (Hd x Hx). unfold w1, due_ms in *. cbn [last_ms_ expiration_]. split; lia. }
  assert (Hc : (if bool_decide (CalcTime (last_ms_ w1) 0 = 0) then cascade 3 fuel 1 w1 else Ret w1) = Ret w1).
  { destruct (bool_decide _); [|done]. apply (cascade_empty fuel Hf2 w1 S 3 1 (pl_rep _ _ _ _ Hp1)). intros i Hi.
    destruct (S (Slot i (CalcTime (last_ms_ w1) 1))) as [|x l] eqn:E; [done|].
    assert (Hx : x ∈ S (Slot i (CalcTime (last_ms_ w1) 1))) by (rewrite E; by left).
    pose proof (pl_slot _ _ _ _ Hp1 (Slot i (CalcTime (last_ms_ w1) 1)) x eq_refl Hx) as Es. injection Es as Es _. lia. }
  rewrite Hc. cbn [mbind result_bind]. rewrite CalcTime_0.
  pose proof (slot_short _ w1 S (Slot 0 (last_ms_ w1 mod 256)) Hp1 eq_refl) as Hl.
  destruct (run_slot_all fuel w1 S fired Hp1) as (w2 & S2 & E2 & Hp2 & [L2 A2 D2] & Hin); [lia|].
  rewrite <-L2 in Hp2. exists w2, S2, (S (Slot 0 (last_ms_ w1 mod 256))).
  split_and!; [exact E2|exact Hp2|exact L2|by apply (rp_once _ _ (pl_rep _ _ _ _ Hp1))|exact Hin|exact A2|exact D2].
Qed.

(** ** Turning the wheel *)
Lemma fires_step d p T0 T now :
  T0 <= d → T0 <= now →
  ((T = T0 ∧ d = T0) ∨
   (¬ (d = T0 ∧ p <= 0) ∧ T0 < T <= now ∧ fires_at (if bool_decide (d = T0 ∧ 0 < p) then d + p else d) p T)) ↔
  (T0 <= T <= now ∧ fires_at d p T).
Proof.
  intros Hd Hn. unfold fires_at. destruct (bool_decide_reflect (p <= 0)) as [Hp|Hp].
  - rewrite bool_decide_false by lia. split; lia.
  - destruct (bool_decide_reflect (d = T0 ∧ 0 < p)) as [[-> _]|Hne].
    + split.
      * intros [[-> _]|(_ & HT & k & Hk & ->)]; [split; [lia|]; exists 0; lia|]. split; [lia|]. exists (k + 1). lia.
      * intros [HT (k & Hk & ->)]. destruct (decide (k = 0)) as [->|]; [left; lia|]. right.
        split; [lia|]. split; [nia|]. exists (k - 1). lia.
    + assert (T0 < d) by lia. split.
      * intros [[-> ->]|(_ & HT & Hf)]; [lia|]. split; [lia|done].
      * intros [HT (k & Hk & ->)]. right. split; [lia|]. split; [nia|]. by exists k.
Qed.

Lemma sorted_block T (l : list node) (out : list (Z * node)) :
  StronglySorted Z.le out.*1 → (∀ T' x, (T', x) ∈ out → T <= T') →
  StronglySorted Z.le (((λ x, (T, x)) <$> l) ++ out).*1.
Proof.
  intros Hs Hle. rewrite fmap_app. induction l as [|x l IH]; [done|]. rewrite !fmap_cons. cbn [app]. constructor; [done|].
  apply Forall_app. split; apply Forall_forall; intros y Hy.
  - apply list_elem_of_fmap in Hy as ([T' z] & -> & Hy). apply list_elem_of_fmap in Hy as (? & [= -> _] & _). cbn. lia.
  - apply list_elem_of_fmap in Hy as ([T' z] & -> & Hy). cbn. by eapply Hle.
Qed.

Lemma ticks_all n fuel w S fired :
  placed (last_ms_ w + 1) ts w S → (length ts < fuel)%nat → (2 <= fuel)%nat →
  ∃ w' S' out, ticks cb n fuel w fired = Ret (w', fired ++ out) ∧
    placed (last_ms_ w' + 1) ts w' S' ∧ last_ms_ w' = last_ms_ w + Z.of_nat n ∧
    NoDup out ∧ StronglySorted Z.le out.*1 ∧
    (∀ T x, (T, x) ∈ out ↔ active S x ∧ last_ms_ w < T <= last_ms_ w + Z.of_nat n ∧ fires_at (due_ms w x) (period x) T).
Proof using Hperiod.
  intros Hp Hf Hf2. revert w S fired Hp. induction n as [|n IH]; intros w S fired Hp; cbn [ticks].
  { exists w, S, []. rewrite app_nil_r. split_and!; [done|done|lia|constructor|constructor|].
    intros T x. rewrite elem_of_nil. split; [done|]. intros (_ & ? & _). lia. }
  destruct (tick_all fuel w S fired Hp Hf Hf2) as (w1 & S1 & l & -> & Hp1 & El & Hn & Hin & Ha & Hd).
  cbn [mbind result_bind].
  destruct (IH w1 S1 (fired ++ ((λ x, (last_ms_ w + 1, x)) <$> l)) Hp1) as (w2 & S2 & out & -> & Hp2 & El2 & Hno & Hso & Hout).
  assert (Hlate : ∀ T x, (T, x) ∈ out → last_ms_ w + 1 < T) by (intros T x (_ & ? & _)%Hout; lia).
  exists w2, S2, (((λ x, (last_ms_ w + 1, x)) <$> l) ++ out). rewrite app_assoc. split_and!; [done|done|lia| | |].
  - apply NoDup_app. split_and!; [apply NoDup_fmap_2; [by intros ?? [=]|done]| |done].
    intros [T x] (y & [= -> ->] & _)%list_elem_of_fmap Hy. apply Hlate in Hy. lia.
  - apply sorted_block; [done|]. intros T x ?%Hlate. lia.
  - intros T x. rewrite elem_of_app, Hout, Ha, Hd, El, list_elem_of_fmap.
    assert (Hb : active S x → bool_decide (x ∈ l ∧ 0 < period x) = bool_decide (due_ms w x = last_ms_ w + 1 ∧ 0 < period x))
      by (intros Hx; apply bool_decide_ext; rewrite Hin; tauto).
    destruct (decide (last_ms_ w + 1 <= due_ms w x)) as [Hge|]; [|split;
      [intros [(y & [= -> ->] & [Hy _]%Hin)|[[Hy _] _]]|intros [Hy _]]; destruct (pl_due _ _ _ _ Hp _ Hy); lia].
    pose proof (fires_step (due_ms w x) (period x) (last_ms_ w + 1) T (last_ms_ w + Z.of_nat (Datatypes.S n)) Hge ltac:(lia)) as Hfs.
    split.
    + intros [(y & [= -> ->] & [Hy Hdy]%Hin)|[[Hy Hl] (HT & Hfire)]].
      * split; [done|]. destruct Hfs as [Hfs _]. destruct Hfs as [? ?]; [by left|]. split; [lia|done].
      * split; [done|]. rewrite (Hb Hy) in Hfire.
        destruct Hfs as [Hfs _]. destruct Hfs as [? ?]; [right; split; [|split; [lia|done]]|split; [lia|done]].
        rewrite Hin in Hl. tauto.
    + intros (Hy & HT & Hfire). destruct Hfs as [_ Hfs]. destruct Hfs as [[-> Hdx]|(Hne & HT' & Hf')]; [split; [lia|done]|..].
      * left. exists x. rewrite Hin. done.
      * right. split; [split; [done|rewrite Hin; tauto]|]. split; [lia|].
        by rewrite (Hb Hy).
Qed.
End tick.

(** ** The operations of a program *)
Lemma placed_new now ts : placed (now + 1) ts (TimeWheel_new now) (λ _, []).
Proof.
  assert (Hno : ∀ x, ¬ active (λ _, []) x) by (by intros x (h & _ & H%elem_of_nil)).
  split; [apply rep_new|by intros h x _ H%elem_of_nil|by intros x ?%Hno..].
Qed.
(** Starting a timer, or starting it again. *)
Lemma placed_Start ts w S us t n :
  placed (last_ms_ w + 1) ts w S → is_slot t = false → t ∈ ts → 0 <= us → 0 <= n →
  last_ms_ w < ms us + n < last_ms_ w + 256 →
  placed (last_ms_ (Start us t n w) + 1) ts (Start us t n w) (insert_at t (Slot 0 ((ms us + n) mod 256)) S) ∧
  last_ms_ (Start us t n w) = last_ms_ w ∧
  ∀ x, due_ms (Start us t n w) x = if bool_decide (x = t) then ms us + n else due_ms w x.
Proof.
  intros Hp Ht Hts Hus Hn Hd. rewrite <-ms_AddMs in Hd |- * by done.
  destruct (placed_add _ ts w S t (AddMs us n) Hp Ht Hts) as (H1 & H2 & H3); [unfold AddMs; lia|lia|lia|].
  change (AddTimer t (set_expiration t (AddMs us n) w)) with (Start us t n w) in *.
  rewrite H2. split_and!; [done|done|]. intros x. unfold due_ms. rewrite H3. by case_bool_decide.
Qed.

(** C17: however many timers are in the first wheel, one-shot or with periods below
    256 ms, and their callbacks leave the wheel alone: a turn of at most
    2^31 - 1 ms runs every one of them at exactly the milliseconds it is due,
    once at each, in the order of time, and no other timer, and the wheel is
    then ready to be turned again; a longer turn does the same until the [int]
    counter of the loop overflows. *)
Theorem short_timers_on_time period ts w S now :
  (∀ x, period x < 256) → placed (last_ms_ w + 1) ts w S → last_ms_ w <= now →
  ∃ w' S' fired, TurnWheel (periodic period) (2 + length ts) now w [] =
      (if bool_decide (now - last_ms_ w <= INT_MAX) then Ret (w', fired) else Fault SignedOverflow) ∧
    placed (now + 1) ts w' S' ∧ last_ms_ w' = now ∧ NoDup fired ∧ StronglySorted Z.le fired.*1 ∧
    (∀ T x, (T, x) ∈ fired ↔ active S x ∧ last_ms_ w < T <= now ∧ fires_at (due_ms w x) (period x) T).
Proof.
  intros Hper Hp Hnow.
  pose proof (λ k, ticks_all period Hper ts k (2 + length ts) w S [] Hp ltac:(lia) ltac:(lia)) as Hall.
  rewrite TurnWheel_ticks by (intros k; destruct (Hall k) as (? & ? & ? & ? & _); eauto).
  destruct (Hall (Z.to_nat (now - last_ms_ w))) as (w' & S' & out & E & Hp' & El & Hno & Hso & Hout). rewrite E.
  rewrite Z2Nat.id in El, Hout by lia. replace (last_ms_ w + (now - last_ms_ w)) with now in El, Hout by lia.
  rewrite El in Hp'. exists w', S', out. by split_and!.
Qed.

(** A one-shot timer of 5 ms and one with a period of 10 ms. *)
Definition sample_period (x : node) : Z := if bool_decide (x = Tm 2) then 10 else 0.
Definition sample_wheel : TimeWheel := Start 700000 (Tm 2) 10 (Start 700000 (Tm 1) 5 (TimeWheel_new 700)).
Lemma sample_placed :
  ∃ S, placed (last_ms_ sample_wheel + 1) [Tm 1; Tm 2] sample_wheel S ∧ active S (Tm 2).
Proof.
  destruct (placed_Start [Tm 1; Tm 2] (TimeWheel_new 700) (λ _, []) 700000 (Tm 1) 5) as (H1 & E1 & _);
    [apply placed_new|done|by left|done|done|done|].
  destruct (placed_Start [Tm 1; Tm 2] _ _ 700000 (Tm 2) 10 H1) as (H2 & _); [done|right; by left|done|done| |].
  { rewrite E1. done. }
  eexists. split; [exact H2|]. apply active_insert; [done|by left].
Qed.
Lemma sample_times : last_ms_ sample_wheel = 700 ∧ due_ms sample_wheel (Tm 2) = 710.
Proof. by vm_compute. Qed.
Lemma short_timers_on_time_witness :
  ∃ w' fired, TurnWheel (periodic sample_period) 4 735 sample_wheel [] = Ret (w', fired) ∧ (730, Tm 2) ∈ fired.
Proof.
  destruct sample_placed as (S & Hp & Ha).
  destruct (short_timers_on_time sample_period [Tm 1; Tm 2] sample_wheel S 735) as (w' & S' & fired & E & _ & _ & _ & _ & H).
  - intros x. unfold sample_period. case_bool_decide; lia.
  - exact Hp.
  - rewrite (proj1 sample_times). lia.
  - rewrite (proj1 sample_times) in E. exists w', fired. split; [exact E|]. apply H. destruct sample_times as [-> ->]. split; [exact Ha|]. split; [lia|].
    change (sample_period (Tm 2)) with 10. exists 2. lia.
Defined.

(** ** Timers that share a slot of the second wheel *)
Definition holding (h : node) (l : list node) (k : node) : list node := if bool_decide (k = h) then l else [].

Section shared.
Context (x : node) (l : list node) (fuel : nat) (Hfuel : (length (x :: l) < fuel)%nat).
Implicit Types (w : TimeWheel) (h : node).

Lemma holding_self h ts : holding h ts h = ts.
Proof. unfold holding. by rewrite bool_decide_true. Qed.
Lemma holding_other h ts k : k ≠ h → holding h ts k = [].
Proof. intros. unfold holding. by rewrite bool_decide_false. Qed.
Lemma enough : (2 <= fuel)%nat.
Proof using Hfuel. cbn in Hfuel. lia. Qed.

(** One-shot timers of a slot run one after the other. *)
Lemma run_slot_list ts k w h fired :
  rep w (holding h ts) → is_slot h = true → (length ts < k)%nat →
  ∃ w', run_slot one_shot k h w fired = Ret (w', fired ++ ((λ y, (last_ms_ w, y)) <$> ts)) ∧
    rep w' (λ _, []) ∧ last_ms_ w' = last_ms_ w.
Proof.
  intros Hr Hh. revert ts w fired Hr. induction k as [|k IH]; intros ts w fired Hr Hk; [lia|]. cbn [run_slot].
  destruct (rp_holds _ _ Hr h Hh) as (q & Hp & Hq). rewrite holding_self in Hp.
  destruct ts as [|y ts]; cbn [path] in Hp.
  - subst q. rewrite Hq. exists w. rewrite app_nil_r. split_and!; [done| |done].
    eapply rep_ext; [|exact Hr]. intros g _. unfold holding. by case_bool_decide.
  - destruct Hp as (Hn & _ & _). rewrite Hn. cbn [Run one_shot]. change (bool_decide (kTimerStop <= 0)) with true. cbv iota beta.
    pose proof (rp_once _ _ Hr h Hh) as Hnd. rewrite holding_self in Hnd. apply NoDup_cons in Hnd as [Hy _].
    assert (Hyt : is_slot y = false) by (apply (rp_timers _ _ Hr h y Hh); rewrite holding_self; by left).
    assert (Hd : rep (DelTimer y w) (holding h ts)).
    { eapply rep_ext; [|by apply DelTimer_rep]. intros g _. unfold remove_from, holding. case_bool_decide; [|done].
      rewrite filter_cons_False by naive_solver. by apply remove_absent. }
    destruct (IH ts (DelTimer y w) (fired ++ [(last_ms_ w, y)]) Hd) as (w' & E & Hr' & Hl); [cbn in Hk; lia|].
    destruct (DelTimer_same w y) as [_ El]. rewrite El in *. exists w'. split_and!; [|done|done].
    rewrite E. cbn [fmap list_fmap]. by rewrite <-app_assoc.
Qed.
Lemma run_slot_idle ts w h g fired :
  rep w (holding h ts) → is_slot g = true → g ≠ h → run_slot one_shot fuel g w fired = Ret (w, fired).
Proof using Hfuel. intros Hr Hg Hne. eapply (run_slot_empty fuel enough); [exact Hr|done|by apply holding_other]. Qed.

(** The list waits in the first wheel, or in the second for a later turn. *)
Definition waiting w : Prop :=
  (last_ms_ w < due_ms w x < last_ms_ w + 256 ∧ rep w (holding (Slot 0 (due_ms w x mod 256)) (x :: l))) ∨
  (1 <= due_ms w x / 256 - last_ms_ w / 256 <= 256 ∧ rep w (holding (Slot 1 (due_ms w x / 256 mod 256)) (x :: l))).

(** Running the slot of the current millisecond: all of the list, or nothing. *)
Lemma run_shared w fired :
  rep w (holding (Slot 0 (due_ms w x mod 256)) (x :: l)) → last_ms_ w <= due_ms w x < last_ms_ w + 256 →
  ∃ w', run_slot one_shot fuel (Slot 0 (last_ms_ w mod 256)) w fired =
      Ret (w', fired ++ (if bool_decide (last_ms_ w = due_ms w x) then (λ y, (due_ms w x, y)) <$> (x :: l) else [])) ∧
    last_ms_ w' = last_ms_ w ∧ (if bool_decide (last_ms_ w = due_ms w x) then rep w' (λ _, []) else w' = w).
Proof using Hfuel.
  intros Hr Hd. destruct (bool_decide_reflect (last_ms_ w = due_ms w x)) as [E|E].
  - rewrite E. destruct (run_slot_list (x :: l) fuel w _ fired Hr eq_refl Hfuel) as (w' & -> & Hr' & Hl).
    exists w'. rewrite <-E. by split_and!.
  - rewrite (run_slot_idle (x :: l) w (Slot 0 (due_ms w x mod 256))); [|done|done|].
    + exists w. by rewrite app_nil_r.
    + intros [= Hm]. Z.to_euclidean_division_equations. lia.
Qed.

(** The cascade moves the list as a whole. *)
Lemma cascade_shared w :
  rep w (holding (Slot 1 (due_ms w x / 256 mod 256)) (x :: l)) → 0 <= due_ms w x - last_ms_ w < 256 →
  last_ms_ w / 256 mod 256 = due_ms w x / 256 mod 256 →
  ∃ w', cascade 3 fuel 1 w = Ret w' ∧ rep w' (holding (Slot 0 (due_ms w x mod 256)) (x :: l)) ∧
    last_ms_ w' = last_ms_ w ∧ due_ms w' x = due_ms w x.
Proof using Hfuel.
  intros Hr Hd Hi. set (i := due_ms w x / 256 mod 256) in *. set (e := due_ms w x mod 256).
  cbn [cascade]. rewrite CalcTime_1, Hi.
  pose proof (MoveTimerList_rep w _ (Slot 1 i) fuel Hr eq_refl) as Hm. rewrite holding_self in Hm.
  rewrite FindHead_near in Hm by done. fold (due_ms w x) e in Hm.
  destruct Hm as (w' & E & Hr'); [rewrite holding_other by congruence; pose proof enough; cbn; lia|].
  assert (Hs : last_ms_ w' = last_ms_ w ∧ expiration_ w' = expiration_ w).
  { revert E. unfold MoveTimerList. destruct (next_ w (Slot 1 i)); [|by intros [= <-]].
    destruct (FindHead _ _); [|done]. destruct (tail_loop _ _ _); [|done..]. cbn. by intros [= <-]. }
  destruct Hs as [Hl He].
  assert (Hr2 : rep w' (holding (Slot 0 e) (x :: l))).
  { eapply rep_ext; [|exact Hr']. intros k _. unfold move_to. rewrite holding_self. unfold holding.
    bool_cases; subst; try done. }
  rewrite E. cbn [mbind result_bind].
  assert (Hc : (if bool_decide (i ≠ 0) then Ret w' else cascade 2 fuel (1 + 1) w') = Ret w').
  { destruct (bool_decide _); [done|]. apply (cascade_empty fuel enough w' _ 2 (1 + 1) Hr2).
    intros k Hk. apply holding_other. intros [=]. lia. }
  cbn [cascade] in Hc. rewrite Hc. exists w'. unfold due_ms. by rewrite He.
Qed.

(** What one millisecond does to the list: all of it runs, or it waits on. *)
Definition shared_step w (r : result (TimeWheel * list (Z * node))) (fired : list (Z * node)) : Prop :=
  ∃ w', r = Ret (w', fired ++ (if bool_decide (last_ms_ w + 1 = due_ms w x)
                               then (λ y, (due_ms w x, y)) <$> (x :: l) else [])) ∧
    last_ms_ w' = last_ms_ w + 1 ∧
    (if bool_decide (last_ms_ w + 1 = due_ms w x) then rep w' (λ _, []) else waiting w' ∧ due_ms w' x = due_ms w x).

Lemma step_near w w1 fired :
  rep w1 (holding (Slot 0 (due_ms w x mod 256)) (x :: l)) → last_ms_ w1 = last_ms_ w + 1 → due_ms w1 x = due_ms w x →
  last_ms_ w + 1 <= due_ms w x < last_ms_ w + 1 + 256 →
  shared_step w (run_slot one_shot fuel (Slot 0 ((last_ms_ w + 1) mod 256)) w1 fired) fired.
Proof using Hfuel.
  intros Hr Hl1 Hd1 Hd. unfold shared_step. rewrite <-Hl1, <-Hd1.
  destruct (run_shared w1 fired) as (w' & -> & Hl & Hw); [by rewrite Hd1|lia|].
  exists w'. split_and!; [done|done|]. destruct (bool_decide_reflect (last_ms_ w1 = due_ms w1 x)); [done|]. subst w'.
  split; [|done]. left. split; [lia|]. by rewrite Hd1.
Qed.
Lemma step_far w w1 fired :
  rep w1 (holding (Slot 1 (due_ms w x / 256 mod 256)) (x :: l)) → last_ms_ w1 = last_ms_ w + 1 → due_ms w1 x = due_ms w x →
  1 <= due_ms w x / 256 - (last_ms_ w + 1) / 256 <= 256 →
  shared_step w (run_slot one_shot fuel (Slot 0 ((last_ms_ w + 1) mod 256)) w1 fired) fired.
Proof using Hfuel.
  intros Hr Hl1 Hd1 Hd. unfold shared_step. rewrite (run_slot_idle _ _ _ _ _ Hr) by done.
  exists w1. rewrite bool_decide_false by (intros Ex; Z.to_euclidean_division_equations; lia). rewrite app_nil_r.
  split_and!; [done..| |done]. right. by rewrite Hl1, Hd1.
Qed.
Lemma tick_shared w fired : waiting w → shared_step w (tick one_shot fuel w fired) fired.
Proof using Hfuel.
  intros Hp. unfold tick. set (w1 := mk_tw _ _ _ _).
  assert (Hdue : due_ms w1 x = due_ms w x) by done. assert (Hl1 : last_ms_ w1 = last_ms_ w + 1) by done.
  rewrite CalcTime_0, Hl1.
  destruct Hp as [[Hd Hr]|[Hd Hr]]; apply (rep_advance w _ (last_ms_ w + 1)) in Hr; fold w1 in Hr.
  - assert (Hc : (if bool_decide ((last_ms_ w + 1) mod 256 = 0) then cascade 3 fuel 1 w1 else Ret w1) = Ret w1).
    { destruct (bool_decide _); [|done]. apply (cascade_empty fuel enough w1 _ 3 1 Hr). intros i Hi.
      apply holding_other. intros [=]. lia. }
    rewrite Hc. cbn [mbind result_bind]. apply step_near; [done..|lia].
  - destruct (bool_decide_reflect ((last_ms_ w + 1) mod 256 = 0)) as [E0|E0].
    + destruct (decide (due_ms w x / 256 = (last_ms_ w + 1) / 256)) as [Ee|Ee].
      * destruct (cascade_shared w1) as (w2 & -> & Hr2 & Hl2 & Hd2).
        { done. }
        { rewrite Hdue, Hl1. Z.to_euclidean_division_equations. lia. }
        { by rewrite Hdue, Hl1, Ee. }
        apply step_near; [by rewrite <-Hdue|by rewrite Hl2|by rewrite Hd2|].
        Z.to_euclidean_division_equations. lia.
      * assert (cascade 3 fuel 1 w1 = Ret w1) as ->.
        { apply (cascade_empty fuel enough w1 _ 3 1 Hr). intros i Hi. apply holding_other. rewrite CalcTime_1, Hl1.
          intros [= _ Em]. apply Ee. Z.to_euclidean_division_equations. lia. }
        apply step_far; [done..|]. Z.to_euclidean_division_equations. lia.
    + apply step_far; [done..|]. Z.to_euclidean_division_equations. lia.
Qed.
Lemma ticks_shared n w fired :
  waiting w →
  ∃ w', ticks one_shot n fuel w fired =
    Ret (w', fired ++ (if bool_decide (due_ms w x <= last_ms_ w + Z.of_nat n)
                       then (λ y, (due_ms w x, y)) <$> (x :: l) else [])).
Proof using Hfuel.
  revert w. induction n as [|n IH]; intros w Hp; cbn [ticks].
  { exists w. rewrite bool_decide_false; [by rewrite app_nil_r|].
    destruct Hp as [[? _]|[? _]]; Z.to_euclidean_division_equations; lia. }
  destruct (tick_shared w fired Hp) as (w1 & -> & Hl & Hw). cbn [mbind result_bind].
  destruct (bool_decide_reflect (last_ms_ w + 1 = due_ms w x)) as [E|E].
  - destruct (ticks_empty fuel enough n w1 (fired ++ ((λ y, (due_ms w x, y)) <$> (x :: l))) Hw) as (w2 & -> & _).
    exists w2. by rewrite bool_decide_true by lia.
  - destruct Hw as [Hw Hd]. destruct (IH w1 Hw) as (w2 & E2). rewrite app_nil_r, E2, Hd, Hl. exists w2.
    rewrite (bool_decide_ext (due_ms w x <= last_ms_ w + 1 + Z.of_nat n)
               (due_ms w x <= last_ms_ w + Z.of_nat (Datatypes.S n))) by lia.
    done.
Qed.
End shared.

Lemma Start_holding w t us n h l :
  rep w (holding h l) → is_slot t = false → t ∉ l →
  FindHead t (set_expiration t (AddMs us n) w) = Some h → rep (Start us t n w) (holding h (t :: l)).
Proof.
  intros Hr Ht Hl Eh. unfold Start. set (w1 := set_expiration t (AddMs us n) w) in *.
  assert (Hr1 : rep w1 (holding h l)) by by apply (rep_links w).
  pose proof (AddTimer_rep w1 _ t Hr1 Ht) as H. rewrite Eh in H.
  eapply rep_ext; [|exact H]. intros k _. unfold insert_at, remove_from, holding. case_bool_decide; [|done].
  by rewrite remove_absent.
Qed.

(** A timer started into a slot of the second wheel takes the timers already
    waiting there with it: the cascade moves a slot's whole list to the slot
    of its first timer.  So all of them run together, at the millisecond of
    the one started last, whatever their own expirations are, and turning the
    wheel less far runs none of them.  (A turn of more than 2^31 - 1 ms at once
    overflows the counter of the loop.) *)
Theorem shared_slot_misfires w t l us n now :
  let e := ms (AddMs us n) in
  rep w (holding (Slot 1 (e / 256 mod 256)) l) → is_slot t = false → t ∉ l →
  256 <= e - last_ms_ w < 65536 → last_ms_ w <= now →
  ∃ w', TurnWheel one_shot (2 + length l) now (Start us t n w) [] =
    if bool_decide (now - last_ms_ w <= INT_MAX)
    then Ret (w', if bool_decide (e <= now) then (λ y, (e, y)) <$> (t :: l) else [])
    else Fault SignedOverflow.
Proof.
  intros e Hr Ht Hl He Hnow. destruct (Start_same w t us n) as [Ee El].
  assert (Ed : due_ms (Start us t n w) t = e) by (unfold due_ms; by rewrite Ee).
  assert (Hp : waiting t l (Start us t n w)).
  { right. rewrite Ed, El. split; [Z.to_euclidean_division_equations; lia|]. apply Start_holding; [done..|].
    rewrite FindHead_middle; cbn; rewrite upd_eq; [done|fold e; lia]. }
  pose proof (λ k, ticks_shared t l (2 + length l) ltac:(cbn; lia) k _ [] Hp) as Hall.
  rewrite TurnWheel_ticks by (intros k; destruct (Hall k); eauto).
  destruct (Hall (Z.to_nat (now - last_ms_ (Start us t n w)))) as (w' & E). exists w'. rewrite E, Ed, El, Z2Nat.id by lia. replace (last_ms_ w + (now - last_ms_ w)) with now by lia. done.
Qed.

(** A timer of 400 ms runs after 300 because one of 300 ms was started later. *)
Lemma shared_slot_misfires_witness :
  ∃ w', TurnWheel one_shot 3 500 (Start 0 (Tm 1) 300 (Start 0 (Tm 2) 400 (TimeWheel_new 0))) [] =
    Ret (w', [(300, Tm 1); (300, Tm 2)]).
Proof.
  destruct (shared_slot_misfires (Start 0 (Tm 2) 400 (TimeWheel_new 0)) (Tm 1) [Tm 2] 0 300 500) as (w' & E).
  - apply Start_holding.
    + eapply rep_ext; [|apply rep_new]. intros k _. unfold holding. by destruct (bool_decide _).
    + reflexivity.
    + apply not_elem_of_nil.
    + vm_compute. reflexivity.
  - reflexivity.
  - apply (bool_decide_unpack _). vm_compute. exact I.
  - destruct (Start_same (TimeWheel_new 0) (Tm 2) 0 400) as [_ ->]. vm_compute. split; [discriminate|reflexivity].
  - destruct (Start_same (TimeWheel_new 0) (Tm 2) 0 400) as [_ ->]. vm_compute. discriminate.
  - exists w'. exact E.
Defined.
