(* ===== verification/Park.v ===== *)
(** * Routines and parks: kernel/runtime/{routine,async_park}.cc, event_loop.cc

    The control flow below the pool: which routine runs, what it is suspended
    in, the pointers a park keeps to the routines that wait at it, the timer
    of a timed wait, and the life of the parks themselves.  A context switch
    moves [control]; [tg_current_routine] is the thread's own idea of it.  The
    main routine's remaining work is an explicit list, because a call it makes
    runs a routine to its next suspension before the work goes on.  What the
    routines do is an arbitrary sequence of actions, what epoll and the timers
    report is arbitrary.

    The theorems: the pointers, the timers and the timeout flags agree with
    where the routines are suspended; a timed wait reports a timeout exactly
    when its timer woke it; a routine yields after as many checks as it has
    ticks; the loop never touches a destroyed park provided that parks are
    destroyed only when nothing refers to them; and it does touch one when the
    reader it has just woken destroys the park. *)

From Stdlib Require Import ZArith Lia Bool.
From stdpp Require Import base numbers relations list gmap.
From S2P Require Import Prelude Types.

Inductive side : Type := RdSide | WrSide.
#[global] Instance side_eq_dec : EqDecision side.
Proof. solve_decision. Defined.

(** What a suspended routine is inside of: a wait at a park, without a limit
    or with one (and then whether its timer could be started), or a plain
    [Return] of [CheckTicks], of the pool, or of a routine not yet started. *)
Inductive site : Type :=
  | InWait (park : Z) (sd : side) (limit : option bool)
  | InReturn.

(** [timeout_out] is the caller's [timeout]; a running routine has no site. *)
Record Routine : Type := mk_routine {
  finished_ : bool;
  ticks_max_ : Z;
  ticks_now_ : Z;
  timeout_ : bool;
  timer_on : bool;
  timeout_out : bool;
  site_ : option site;
}.
Definition kRoutineTicks : Z := 10.
Definition Routine_new : Routine := mk_routine false kRoutineTicks 0 false false false (Some InReturn).

Record AsyncPark : Type := mk_park {
  events_ : Z;
  read_routine_ : option Z;
  write_routine_ : option Z;
}.
Definition AsyncPark_new : AsyncPark := mk_park 0 None None.

(** What is left to do for the main routine. *)
Inductive main_op : Type :=
  | OpCall (routine : Z)
  | OpSchedule (park events : Z)
  | OpRead (park : Z)
  | OpWrite (park : Z).

(** [control = None]: the main routine runs.  A park that is not in [parks]
    does not exist (any more). *)
Record Machine : Type := mk_machine {
  tg_current_routine : option Z;
  control : option Z;
  routines : gmap Z Routine;
  parks : gmap Z AsyncPark;
  functions_ : list Z;
  todo : list main_op;
}.

Definition set_ticks (n : Z) (r : Routine) : Routine :=
  mk_routine (finished_ r) (ticks_max_ r) n (timeout_ r) (timer_on r) (timeout_out r) (site_ r).
Definition set_site (s : option site) (r : Routine) : Routine :=
  mk_routine (finished_ r) (ticks_max_ r) (ticks_now_ r) (timeout_ r) (timer_on r) (timeout_out r) s.
Definition set_timer (timeout on : bool) (r : Routine) : Routine :=
  mk_routine (finished_ r) (ticks_max_ r) (ticks_now_ r) timeout on (timeout_out r) (site_ r).
Definition set_out (b : bool) (r : Routine) : Routine :=
  mk_routine (finished_ r) (ticks_max_ r) (ticks_now_ r) (timeout_ r) (timer_on r) b (site_ r).
Definition finish (r : Routine) : Routine :=
  mk_routine true (ticks_max_ r) (ticks_now_ r) (timeout_ r) (timer_on r) (timeout_out r) None.

Definition with_control (c : option Z) (m : Machine) : Machine :=
  mk_machine c c (routines m) (parks m) (functions_ m) (todo m).
Definition with_current (c : option Z) (m : Machine) : Machine :=
  mk_machine c (control m) (routines m) (parks m) (functions_ m) (todo m).
Definition with_routine (id : Z) (r : Routine) (m : Machine) : Machine :=
  mk_machine (tg_current_routine m) (control m) (<[id := r]> (routines m)) (parks m) (functions_ m) (todo m).
Definition with_parks (ps : gmap Z AsyncPark) (m : Machine) : Machine :=
  mk_machine (tg_current_routine m) (control m) (routines m) ps (functions_ m) (todo m).
Definition with_functions (fs : list Z) (m : Machine) : Machine :=
  mk_machine (tg_current_routine m) (control m) (routines m) (parks m) fs (todo m).
Definition with_todo (ops : list main_op) (m : Machine) : Machine :=
  mk_machine (tg_current_routine m) (control m) (routines m) (parks m) (functions_ m) ops.

(** Objects behind pointers. *)
Definition routine_at (id : Z) (m : Machine) : result Routine :=
  match routines m !! id with Some r => Ret r | None => Fault WildPointer end.
Definition park_at (p : Z) (m : Machine) : result AsyncPark :=
  match parks m !! p with Some k => Ret k | None => Fault WildPointer end.
Definition waiter (sd : side) (k : AsyncPark) : option Z :=
  match sd with RdSide => read_routine_ k | WrSide => write_routine_ k end.
Definition set_waiter (sd : side) (w : option Z) (k : AsyncPark) : AsyncPark :=
  match sd with
  | RdSide => mk_park (events_ k) w (write_routine_ k)
  | WrSide => mk_park (events_ k) (read_routine_ k) w
  end.

Definition is_main_routine (m : Machine) : bool := bool_decide (tg_current_routine m = None).

(** ** Routine *)
Definition Tick (r : Routine) : Routine * bool :=
  let now := ticks_now_ r + 1 in
  if bool_decide (now >= ticks_max_ r) then (set_ticks 0 r, true) else (set_ticks now r, false).

(** What a routine does first when it is resumed: the end of
    [Return(ms, timeout)], then the end of the wait, on the park it was
    called on. *)
Definition resumed (id : Z) (r : Routine) (m : Machine) : result Machine :=
  match site_ r with
  | Some (InWait p sd limit) =>
      let r := match limit with Some _ => set_out (timeout_ r) (set_timer (timeout_ r) false r) | None => r end in
      k ← park_at p m;
      Ret (with_parks (<[p := set_waiter sd None k]> (parks m)) (with_routine id (set_site None r) m))
  | _ => Ret (with_routine id (set_site None r) m)
  end.

(** [Routine::Call] and [RoutineImpl::Call]. *)
Definition Call (id : Z) (m : Machine) : result Machine :=
  if negb (is_main_routine m) then Fault Aborted
  else
    let m := with_current (Some id) m in
    r ← routine_at id m;
    if finished_ r then Ret m
    else resumed id r (with_control (Some id) m).

(** [Routine::Return] and [RoutineImpl::Return] of the running routine, which
    is suspended in [s]. *)
Definition Return (id : Z) (s : site) (m : Machine) : result Machine :=
  if is_main_routine m then Fault Aborted
  else
    r ← routine_at id m;
    if finished_ r then Ret (with_current None m)
    else Ret (with_control None (with_routine id (set_site (Some s) r) m)).

(** The timer's callback; the wheel has taken the timer out before. *)
Definition OnTimer (id : Z) (m : Machine) : result Machine :=
  r ← routine_at id m;
  Call id (with_routine id (set_timer true false r) m).

(** ** EventLoop::RunRoutineInLoop *)
Definition RunRoutineInLoop (id : Z) (m : Machine) : result Machine :=
  if is_main_routine m then Call id m else Ret (with_functions (functions_ m ++ [id]) m).

(** ** AsyncPark *)
Definition EPOLLIN : Z := 1.
Definition EPOLLPRI : Z := 2.
Definition EPOLLOUT : Z := 4.
Definition EPOLLERR : Z := 8.
Definition EPOLLHUP : Z := 16.
Definition EPOLLRDHUP : Z := 8192.
Definition wakes_reader (events : Z) : bool :=
  negb (bool_decide (Z.land events (Z.lor EPOLLIN (Z.lor EPOLLPRI (Z.lor EPOLLRDHUP (Z.lor EPOLLHUP EPOLLERR)))) = 0)).
Definition wakes_writer (events : Z) : bool :=
  negb (bool_decide (Z.land events (Z.lor EPOLLOUT (Z.lor EPOLLHUP EPOLLERR)) = 0)).

Definition ScheduleSide (sd : side) (p : Z) (m : Machine) : result Machine :=
  k ← park_at p m;
  match waiter sd k with Some id => RunRoutineInLoop id m | None => Ret m end.
Definition ScheduleRead := ScheduleSide RdSide.
Definition ScheduleWrite := ScheduleSide WrSide.

(** [current_routine()->...] *)
Definition current_routine (m : Machine) : result Z :=
  match tg_current_routine m with Some id => Ret id | None => Fault NullDeref end.

(** [WaitRead] and [WatiWrite]: without a limit, or with one. *)
Definition Wait (p : Z) (sd : side) (limit : option bool) (m : Machine) : result Machine :=
  k ← park_at p m;
  let m := with_parks (<[p := set_waiter sd (tg_current_routine m) k]> (parks m)) m in
  id ← current_routine m;
  r ← routine_at id m;
  let r := match limit with Some started => set_timer false started r | None => r end in
  Return id (InWait p sd limit) (with_routine id r m).

Definition CheckTicks (m : Machine) : result Machine :=
  _ ← cpp_assert (negb (is_main_routine m));
  id ← current_routine m;
  r ← routine_at id m;
  let '(r, tick) := Tick r in
  let m := with_routine id r m in
  if tick then
    m ← RunRoutineInLoop id m;
    Return id InReturn m
  else Ret m.

(** [AsyncPark::Schedule], whose two calls are left to the main routine. *)
Definition Schedule (p events : Z) (m : Machine) : result Machine :=
  _ ← cpp_assert (is_main_routine m);
  k ← park_at p m;
  let m := with_parks (<[p := mk_park events (read_routine_ k) (write_routine_ k)]> (parks m)) m in
  Ret (with_todo ((if wakes_reader events then [OpRead p] else []) ++
                  (if wakes_writer events then [OpWrite p] else []) ++ todo m) m).

(** ** Running *)

(** The main routine goes on with its work. *)
Definition main_step (m : Machine) : result Machine :=
  match todo m with
  | [] => Ret m
  | op :: ops =>
      let m := with_todo ops m in
      match op with
      | OpCall id => Call id m
      | OpSchedule p events => Schedule p events m
      | OpRead p => ScheduleRead p m
      | OpWrite p => ScheduleWrite p m
      end
  end.

(** What the running routine may do next; [DoReturn] is the pool's [Return]
    after a task. *)
Inductive action : Type :=
  | DoNew (park : Z)
  | DoDelete (park : Z)
  | DoSchedule (sd : side) (park : Z)
  | DoWait (park : Z) (sd : side) (limit : option bool)
  | DoCheckTicks
  | DoReturn.
Definition routine_step (a : action) (m : Machine) : result Machine :=
  match a with
  | DoNew p => Ret (with_parks (<[p := AsyncPark_new]> (parks m)) m)
  | DoDelete p => _ ← park_at p m; Ret (with_parks (delete p (parks m)) m)
  | DoSchedule sd p => ScheduleSide sd p m
  | DoWait p sd limit => Wait p sd limit m
  | DoCheckTicks => CheckTicks m
  | DoReturn => id ← current_routine m; Return id InReturn m
  end.

(** The body of a routine ends ([RoutineImpl]): those of the pool never do. *)
Definition body_ends (id : Z) (m : Machine) : result Machine :=
  r ← routine_at id m; Ret (with_control None (with_routine id (finish r) m)).

(** A round of [EventLoop::Start]: the functions, the events epoll reports for
    parks that exist when it returns, the timers; and a routine the pool calls
    for a new task.  A new park takes an address no other has. *)
Inductive step (m : Machine) : Machine → Prop :=
  | step_start id m' : control m = None → todo m = [] → Call id m = Ret m' → step m m'
  | step_functions :
      control m = None → todo m = [] → step m (with_todo (OpCall <$> functions_ m) (with_functions [] m))
  | step_poll batch :
      control m = None → todo m = [] → (∀ p ev, (p, ev) ∈ batch → is_Some (parks m !! p)) →
      step m (with_todo ((λ '(p, ev), OpSchedule p ev) <$> batch) m)
  | step_timer id r m' :
      control m = None → todo m = [] → routines m !! id = Some r → timer_on r = true →
      OnTimer id m = Ret m' → step m m'
  | step_main m' : control m = None → main_step m = Ret m' → step m m'
  | step_routine id a m' :
      control m = Some id → (∀ p, a = DoNew p → parks m !! p = None) → routine_step a m = Ret m' → step m m'.

Definition Machine_new (n : nat) : Machine :=
  mk_machine None None (list_to_map ((λ i, (Z.of_nat i, Routine_new)) <$> seq 1 n)) ∅ [] [].
Definition reachable (n : nat) (m : Machine) : Prop := rtc step (Machine_new n) m.

(** ** The invariant *)

(** A routine's own fields agree with what it is suspended in. *)
Record routine_wf (c : option Z) (id : Z) (r : Routine) : Prop := mk_routine_wf {
  rw_finished : finished_ r = false;
  rw_running : site_ r = None ↔ c = Some id;
  rw_timer : timer_on r = true → ∃ p sd, site_ r = Some (InWait p sd (Some true));
  rw_armed : ∀ p sd b, site_ r = Some (InWait p sd (Some b)) → timer_on r = b ∧ timeout_ r = false;
  rw_ticks : 0 <= ticks_now_ r < Z.max 1 (ticks_max_ r);
}.
Record machine_inv (m : Machine) : Prop := mk_machine_inv {
  mi_current : tg_current_routine m = control m;
  mi_control : ∀ id, control m = Some id → is_Some (routines m !! id);
  mi_routines : ∀ id r, routines m !! id = Some r → routine_wf (control m) id r;
  mi_parks : ∀ p k sd id, parks m !! p = Some k → waiter sd k = Some id →
    ∃ r limit, routines m !! id = Some r ∧ site_ r = Some (InWait p sd limit);
}.

(** [ps] keeps only pointers that were there. *)
Definition fewer_waiters (ps ps' : gmap Z AsyncPark) : Prop :=
  ∀ p k sd id, ps' !! p = Some k → waiter sd k = Some id → ∃ k0, ps !! p = Some k0 ∧ waiter sd k0 = Some id.

Lemma waiter_set sd sd' w k : waiter sd (set_waiter sd' w k) = if bool_decide (sd = sd') then w else waiter sd k.
Proof. by destruct sd, sd'. Qed.

Lemma inv_work m fs ops :
  machine_inv m → machine_inv (mk_machine (tg_current_routine m) (control m) (routines m) (parks m) fs ops).
Proof. intros []. by split. Qed.

Lemma inv_parks m ps : machine_inv m → fewer_waiters (parks m) ps → machine_inv (with_parks ps m).
Proof.
  intros [] Hps. split; [done..|]. intros p k sd id Hk Hw. cbn [parks with_parks] in Hk.
  destruct (Hps p k sd id Hk Hw) as (k0 & H0 & Hw0). eauto.
Qed.

Lemma inv_running m id r0 r' ps fs ops :
  machine_inv m → control m = None → routines m !! id = Some r0 →
  finished_ r' = false → site_ r' = None → timer_on r' = false → 0 <= ticks_now_ r' < Z.max 1 (ticks_max_ r') →
  fewer_waiters (parks m) ps → (∀ p k sd, ps !! p = Some k → waiter sd k ≠ Some id) →
  machine_inv (mk_machine (Some id) (Some id) (<[id := r']> (routines m)) ps fs ops).
Proof.
  intros [Hcur Hctl Hrs Hpk] Hc Hr Hfin Hs Ht Htk Hps Hno. split; cbn [tg_current_routine control routines parks].
  - done.
  - intros id' [= <-]. by rewrite lookup_insert_eq.
  - intros id' r1 H1. apply lookup_insert_Some in H1 as [[<- <-]|[Hne H1]].
    + split; [done|by rewrite Hs|by rewrite Ht|by rewrite Hs|done].
    + destruct (Hrs id' r1 H1) as [G1 G2 G3 G4 G5]. split; [done| |done..]. rewrite G2, Hc.
      split; [done|]. congruence.
  - intros p k sd id' Hk Hw. assert (id' ≠ id) by (intros ->; by eapply Hno). rewrite lookup_insert_ne by done.
    destruct (Hps p k sd id' Hk Hw) as (k0 & H0 & Hw0). eauto.
Qed.

Lemma inv_suspended m id r0 r' s ps fs ops :
  machine_inv m → control m = Some id → routines m !! id = Some r0 →
  finished_ r' = false → site_ r' = Some s → 0 <= ticks_now_ r' < Z.max 1 (ticks_max_ r') →
  (match s with
   | InWait _ _ (Some b) => timer_on r' = b ∧ timeout_ r' = false
   | _ => timer_on r' = false
   end) →
  (∀ p k sd id', ps !! p = Some k → waiter sd k = Some id' →
     (id' = id ∧ ∃ limit, s = InWait p sd limit) ∨ ∃ k0, parks m !! p = Some k0 ∧ waiter sd k0 = Some id') →
  machine_inv (mk_machine None None (<[id := r']> (routines m)) ps fs ops).
Proof.
  intros [Hcur Hctl Hrs Hpk] Hc Hr Hfin Hs Htk Hlim Hps. split; cbn [tg_current_routine control routines parks].
  - done.
  - done.
  - intros id' r1 H1. apply lookup_insert_Some in H1 as [[<- <-]|[Hne H1]].
    + split; [done|rewrite Hs; by split| | |done]; rewrite Hs.
      * intros Ht. destruct s as [p sd [[]|]|]; try (rewrite Ht in Hlim); naive_solver.
      * intros p sd b [= ->]. done.
    + destruct (Hrs id' r1 H1) as [G1 G2 G3 G4 G5]. split; [done| |done..]. rewrite G2, Hc.
      split; [congruence|done].
  - intros p k sd id' Hk Hw. destruct (Hps p k sd id' Hk Hw) as [[-> [limit ->]]|(k0 & H0 & Hw0)].
    + exists r', limit. by rewrite lookup_insert_eq.
    + destruct (Hpk p k0 sd id' H0 Hw0) as (r1 & limit & H1 & Hs1).
      assert (id' ≠ id). { intros ->. destruct (Hrs id r1 H1) as [_ [_ G] _ _ _]. rewrite (G Hc) in Hs1. done. }
      exists r1, limit. by rewrite lookup_insert_ne.
Qed.

(** ** Every step keeps it *)
Section preservation.
Context (m : Machine) (Hm : machine_inv m).

(** [M] is [m] with the routine [id] in control and, possibly, its fields
    changed. *)
Lemma resumed_inv M id r0 r m' :
  control m = None → routines m !! id = Some r0 → site_ r = site_ r0 → finished_ r = false →
  ticks_now_ r = ticks_now_ r0 → ticks_max_ r = ticks_max_ r0 →
  (timer_on r = true → timer_on r0 = true) →
  tg_current_routine M = Some id → control M = Some id → parks M = parks m →
  (∀ x, <[id := x]> (routines M) = <[id := x]> (routines m)) →
  resumed id r M = Ret m' → machine_inv m'.
Proof using Hm.
  intros Hc Hr Hs Hfin Hn Hx Ht Htg Hctl Hpk Hrs E.
  destruct (mi_routines m Hm id r0 Hr) as [G1 G2 G3 G4 G5].
  assert (Hown : ∀ p k sd, parks m !! p = Some k → waiter sd k = Some id → ∃ limit, site_ r0 = Some (InWait p sd limit)).
  { intros p k sd Hk Hw. destruct (mi_parks m Hm p k sd id Hk Hw) as (r1 & limit & H1 & Hs1).
    rewrite Hr in H1. injection H1 as <-. eauto. }
  unfold resumed in E. rewrite Hs in E.
  assert (Hrest : ∀ q, site_ r0 = Some (InReturn) ∨ site_ r0 = None →
    q = with_routine id (set_site None r) M → machine_inv q).
  { intros q Hq ->. unfold with_routine. rewrite Htg, Hctl, Hpk, Hrs. eapply inv_running; try done.
    - cbn. destruct (timer_on r); [|done]. destruct (G3 (Ht eq_refl)) as (p & sd & E1). naive_solver.
    - cbn. by rewrite Hn, Hx.
    - intros p k sd id' Hk Hw. eauto.
    - intros p k sd Hk Hw. destruct (Hown p k sd Hk Hw). naive_solver. }
  destruct (site_ r0) as [[p sd limit|]|] eqn:Es; [|injection E as <-; by apply Hrest; [left|]|injection E as <-; by apply Hrest; [right|]].
  unfold park_at in E. rewrite Hpk in E. destruct (parks m !! p) as [k|] eqn:Ek; [|done].
  cbn [mbind result_bind] in E. injection E as <-. unfold with_parks, with_routine.
  cbn [tg_current_routine control routines parks functions_ todo]. rewrite Htg, Hctl, Hrs.
  eapply inv_running; try done.
  - by destruct limit.
  - destruct limit as [b|]; [done|]. cbn. destruct (timer_on r); [|done].
    destruct (G3 (Ht eq_refl)) as (p' & sd' & E1). naive_solver.
  - destruct limit; cbn; by rewrite Hn, Hx.
  - intros p' k' sd' id' Hk Hw. apply lookup_insert_Some in Hk as [[<- <-]|[_ Hk]]; [|eauto].
    rewrite waiter_set in Hw. case_bool_decide; [done|]. eauto.
  - intros p' k' sd' Hk Hw. apply lookup_insert_Some in Hk as [[<- <-]|[Hne Hk]].
    + rewrite waiter_set in Hw. destruct (bool_decide_reflect (sd' = sd)) as [|Hne]; [done|].
      destruct (Hown p k sd' Ek Hw) as [? E]. congruence.
    + destruct (Hown p' k' sd' Hk Hw) as [? E]. congruence.
Qed.

Lemma Call_machine_inv id m' : control m = None → Call id m = Ret m' → machine_inv m'.
Proof using Hm.
  intros Hc E. unfold Call in E. destruct (is_main_routine m); cbn [negb] in E; [|done].
  unfold routine_at in E. cbn [routines with_current] in E. destruct (routines m !! id) as [r|] eqn:Er; [|done].
  cbn [mbind result_bind] in E. destruct (mi_routines m Hm id r Er) as [Gf _ _ _ _].
  rewrite Gf in E. by eapply (resumed_inv (with_control (Some id) (with_current (Some id) m)) id r r m').
Qed.
Lemma OnTimer_inv id m' : control m = None → OnTimer id m = Ret m' → machine_inv m'.
Proof using Hm.
  intros Hc E. unfold OnTimer, routine_at in E. destruct (routines m !! id) as [r|] eqn:Er; [|done].
  cbn [mbind result_bind] in E. unfold Call in E. destruct (is_main_routine _); cbn [negb] in E; [|done].
  unfold routine_at in E. cbn [routines with_current with_routine] in E. rewrite lookup_insert_eq in E.
  cbn [mbind result_bind] in E. destruct (mi_routines m Hm id r Er) as [Gf _ _ _ _].
  cbn [finished_ set_timer] in E. rewrite Gf in E.
  eapply (resumed_inv (with_control (Some id) (with_current (Some id) (with_routine id (set_timer true false r) m)))
            id r (set_timer true false r) m' Hc Er); try done.
  intros x. apply insert_insert_eq.
Qed.
Lemma RunRoutineInLoop_inv id m' : RunRoutineInLoop id m = Ret m' → machine_inv m'.
Proof using Hm.
  intros E. unfold RunRoutineInLoop in E. destruct (is_main_routine m) eqn:Em.
  - unfold is_main_routine in Em. apply bool_decide_eq_true in Em. rewrite (mi_current m Hm) in Em.
    by eapply Call_machine_inv.
  - injection E as <-. by apply inv_work.
Qed.
Lemma ScheduleSide_inv sd p m' : ScheduleSide sd p m = Ret m' → machine_inv m'.
Proof using Hm.
  unfold ScheduleSide, park_at. destruct (parks m !! p); [|done]. cbn [mbind result_bind].
  destruct (waiter sd a); [by apply RunRoutineInLoop_inv|by intros [= <-]].
Qed.
Lemma Schedule_inv p events m' : Schedule p events m = Ret m' → machine_inv m'.
Proof using Hm.
  unfold Schedule, park_at. destruct (is_main_routine m); [|done]. cbn [cpp_assert mbind result_bind].
  destruct (parks m !! p) as [k|] eqn:Ek; [|done]. cbn [mbind result_bind]. intros [= <-].
  apply (inv_work (with_parks (<[p := mk_park events (read_routine_ k) (write_routine_ k)]> (parks m)) m)).
  apply inv_parks; [done|]. intros p' k' sd id Hk Hw.
  apply lookup_insert_Some in Hk as [[<- <-]|[_ Hk]]; [|eauto]. exists k. by destruct sd.
Qed.
Lemma Return_inv id s r0 m' (g : Routine → Routine) ps :
  control m = Some id → routines m !! id = Some r0 →
  (∀ r, finished_ (g r) = finished_ r ∧ ticks_now_ (g r) = ticks_now_ r ∧ ticks_max_ (g r) = ticks_max_ r) →
  match s with
  | InWait _ _ (Some b) => timer_on (g r0) = b ∧ timeout_ (g r0) = false
  | _ => timer_on (g r0) = timer_on r0
  end →
  (∀ p k sd id', ps !! p = Some k → waiter sd k = Some id' →
     (id' = id ∧ ∃ limit, s = InWait p sd limit) ∨ ∃ k0, parks m !! p = Some k0 ∧ waiter sd k0 = Some id') →
  ∀ fs, Return id s (with_functions fs (with_routine id (g r0) (with_parks ps m))) = Ret m' → machine_inv m'.
Proof using Hm.
  intros Hc Hr Hg Hlim Hps fs E. unfold Return, is_main_routine in E.
  cbn [tg_current_routine with_routine with_parks with_functions] in E.
  rewrite (mi_current m Hm), Hc, bool_decide_false in E by done.
  unfold routine_at in E. cbn [routines with_routine with_parks with_functions] in E. rewrite lookup_insert_eq in E.
  cbn [mbind result_bind] in E. destruct (mi_routines m Hm id r0 Hr) as [G1 G2 G3 G4 G5].
  destruct (Hg r0) as (F1 & F2 & F3). rewrite F1, G1 in E. injection E as <-.
  unfold with_control, with_routine, with_functions. cbn [routines parks functions_ todo with_parks].
  rewrite insert_insert_eq. eapply (inv_suspended m id r0 _ s ps); try done.
  - cbn. by rewrite F1.
  - cbn. by rewrite F2, F3.
  - assert (timer_on r0 = false).
    { destruct (timer_on r0); [|done]. destruct (G3 eq_refl) as (p & sd & E1). destruct G2 as [_ G2].
      by rewrite G2 in E1. }
    cbn. destruct s as [? ? [b|]|]; [done| |]; by rewrite Hlim.
Qed.
Lemma Wait_inv p sd limit id m' : control m = Some id → Wait p sd limit m = Ret m' → machine_inv m'.
Proof using Hm.
  intros Hc E. unfold Wait, park_at, current_routine, routine_at in E.
  destruct (parks m !! p) as [k|] eqn:Ek; [|done]. cbn [mbind result_bind tg_current_routine routines with_parks] in E.
  rewrite (mi_current m Hm), Hc in E. cbn [mbind result_bind] in E.
  destruct (routines m !! id) as [r|] eqn:Er; [|done]. cbn [mbind result_bind] in E.
  eapply (Return_inv id (InWait p sd limit) r m'
    (λ r, match limit with Some started => set_timer false started r | None => r end)
    (<[p := set_waiter sd (Some id) k]> (parks m)) Hc Er) with (fs := functions_ m);
    [by destruct limit|by destruct limit| |exact E].
  intros p' k' sd' id' Hk Hw. apply lookup_insert_Some in Hk as [[<- <-]|[Hne Hk]]; [|right; eauto].
  rewrite waiter_set in Hw. destruct (bool_decide_reflect (sd' = sd)) as [->|]; [|right; eauto].
  left. injection Hw as <-. eauto.
Qed.
Lemma Return_plain_inv id m' : control m = Some id → Return id InReturn m = Ret m' → machine_inv m'.
Proof using Hm.
  intros Hc E. destruct (mi_control m Hm id Hc) as [r Er].
  eapply (Return_inv id InReturn r m' (λ r, r) (parks m) Hc Er) with (fs := functions_ m); [done|done|by right; eauto|].
  replace (with_functions (functions_ m) (with_routine id r (with_parks (parks m) m))) with m; [done|].
  destruct m. unfold with_functions, with_routine, with_parks. cbn in *. by rewrite insert_id.
Qed.
Lemma inv_ticks id r n :
  routines m !! id = Some r → 0 <= n < Z.max 1 (ticks_max_ r) → machine_inv (with_routine id (set_ticks n r) m).
Proof using Hm.
  intros Hr Hn. destruct Hm as [Hcur Hctl Hrs Hpk].
  split; cbn [tg_current_routine control routines parks with_routine].
  - done.
  - intros id' Hc. rewrite lookup_insert_is_Some. destruct (decide (id = id')); [by left|right; eauto].
  - intros id' r1 H1. apply lookup_insert_Some in H1 as [[<- <-]|[Hne H1]]; [|eauto].
    destruct (Hrs id r Hr). by split.
  - intros p k sd id' Hk Hw. destruct (Hpk p k sd id' Hk Hw) as (r1 & limit & H1 & Hs).
    destruct (decide (id' = id)) as [->|Hne].
    + rewrite Hr in H1. injection H1 as <-. exists (set_ticks n r), limit. by rewrite lookup_insert_eq.
    + exists r1, limit. by rewrite lookup_insert_ne.
Qed.
End preservation.

Lemma Tick_ok r r' b :
  0 <= ticks_now_ r < Z.max 1 (ticks_max_ r) → Tick r = (r', b) →
  ∃ n, r' = set_ticks n r ∧ 0 <= n < Z.max 1 (ticks_max_ r).
Proof. intros H. unfold Tick. case_bool_decide; intros [= <- <-]; eexists; (split; [done|]); lia. Qed.

Lemma CheckTicks_inv m id m' : machine_inv m → control m = Some id → CheckTicks m = Ret m' → machine_inv m'.
Proof.
  intros Hm Hc E. unfold CheckTicks, current_routine, routine_at in E.
  destruct (negb (is_main_routine m)) eqn:Em; [|done]. cbn [cpp_assert mbind result_bind] in E.
  rewrite (mi_current m Hm), Hc in E. cbn [mbind result_bind] in E.
  destruct (routines m !! id) as [r|] eqn:Er; [|done]. cbn [mbind result_bind] in E.
  destruct (Tick r) as [r' tick] eqn:Et.
  destruct (Tick_ok r r' tick (rw_ticks _ _ _ (mi_routines m Hm id r Er)) Et) as (n & -> & Hn).
  pose proof (inv_ticks m Hm id r n Er Hn) as Hm1. destruct tick; [|by injection E as <-].
  unfold RunRoutineInLoop in E.
  replace (is_main_routine (with_routine id (set_ticks n r) m)) with false in E
    by (symmetry; unfold is_main_routine; cbn; rewrite (mi_current m Hm), Hc; done).
  cbn [mbind result_bind] in E.
  eapply (Return_plain_inv (with_functions _ (with_routine id (set_ticks n r) m))); [by apply inv_work|done|exact E].
Qed.

Lemma routine_step_inv m id a m' :
  machine_inv m → control m = Some id → (∀ p, a = DoNew p → parks m !! p = None) →
  routine_step a m = Ret m' → machine_inv m'.
Proof.
  intros Hm Hc Hnew E. destruct a as [p|p|sd p|p sd limit| |]; cbn [routine_step] in E.
  - injection E as <-. apply inv_parks; [done|]. intros p' k sd id' Hk Hw.
    apply lookup_insert_Some in Hk as [[<- <-]|[_ Hk]]; [by destruct sd|eauto].
  - unfold park_at in E. destruct (parks m !! p); [|done]. cbn [mbind result_bind] in E. injection E as <-.
    apply inv_parks; [done|]. intros p' k sd id' [_ Hk]%lookup_delete_Some Hw. eauto.
  - by eapply ScheduleSide_inv.
  - by eapply Wait_inv.
  - by eapply CheckTicks_inv.
  - unfold current_routine in E. rewrite (mi_current m Hm), Hc in E. by eapply Return_plain_inv.
Qed.
Lemma main_step_inv m m' : machine_inv m → control m = None → main_step m = Ret m' → machine_inv m'.
Proof.
  intros Hm Hc E. unfold main_step in E. destruct (todo m) as [|op ops]; [by injection E as <-|].
  assert (Hm1 : machine_inv (with_todo ops m)) by (by apply (inv_work m)).
  destruct op; [by eapply Call_machine_inv|by eapply Schedule_inv|by eapply ScheduleSide_inv..].
Qed.
Lemma step_inv m m' : machine_inv m → step m m' → machine_inv m'.
Proof.
  intros Hm. destruct 1.
  - by eapply Call_machine_inv.
  - by apply (inv_work m).
  - by apply (inv_work m).
  - by eapply OnTimer_inv.
  - by eapply main_step_inv.
  - by eapply routine_step_inv.
Qed.

Lemma Machine_new_routines n id r : routines (Machine_new n) !! id = Some r → r = Routine_new.
Proof.
  intros H%elem_of_list_to_map_2. apply list_elem_of_fmap in H as (i & [= _ ->] & _). done.
Qed.
Lemma Machine_new_inv n : machine_inv (Machine_new n).
Proof.
  split; [done..| |].
  - intros id r ->%Machine_new_routines. split; [done|done|done|done|]. cbn. unfold kRoutineTicks. lia.
  - intros p k sd id Hk. change (parks (Machine_new n)) with (∅ : gmap Z AsyncPark) in Hk.
    by rewrite lookup_empty in Hk.
Qed.
Lemma machine_reachable_inv n m : reachable n m → machine_inv m.
Proof.
  unfold reachable. intros Hr. pose proof (Machine_new_inv n) as H0. induction Hr as [|x y z Hs _ IH]; [done|].
  apply IH. by eapply step_inv.
Qed.

(** C10: whatever the routines do and whatever epoll and the timers report, the
    thread's notion of the current routine is right, at most one routine runs,
    every routine's timer is running exactly while it is inside a timed wait
    whose timer could be started, and every routine a park points to is
    suspended in a wait at that park, on that side. *)
Theorem park_life n m :
  reachable n m →
  tg_current_routine m = control m ∧
  (∀ id r, routines m !! id = Some r →
     (site_ r = None ↔ control m = Some id) ∧
     (timer_on r = true ↔ ∃ p sd, site_ r = Some (InWait p sd (Some true)))) ∧
  (∀ p k sd id, parks m !! p = Some k → waiter sd k = Some id →
     ∃ r limit, routines m !! id = Some r ∧ site_ r = Some (InWait p sd limit)).
Proof.
  intros [Hcur Hctl Hrs Hpk]%machine_reachable_inv. split_and!; [done| |done].
  intros id r Hr. destruct (Hrs id r Hr) as [_ G2 G3 G4 _]. split; [done|]. split; [done|].
  intros (p & sd & Hs). by apply G4 in Hs as [-> _].
Qed.

(** ** Timed waits *)

(** A resumed routine: what its wait reports, and its timer. *)
Lemma resumed_out id r M m' p sd b :
  site_ r = Some (InWait p sd (Some b)) → resumed id r M = Ret m' →
  ∃ r', routines m' !! id = Some r' ∧ timeout_out r' = timeout_ r ∧ timer_on r' = false.
Proof.
  intros Hs E. unfold resumed in E. rewrite Hs in E. destruct (park_at p M); [|done..].
  cbn [mbind result_bind] in E. injection E as <-. cbn [with_parks with_routine routines]. eexists.
  by rewrite lookup_insert_eq.
Qed.

Section waits.
Context (m : Machine) (Hm : machine_inv m) (Hc : control m = None).
Context (id : Z) (r : Routine) (p : Z) (sd : side) (b : bool).
Hypothesis Hr : routines m !! id = Some r.
Hypothesis Hs : site_ r = Some (InWait p sd (Some b)).

Lemma Call_out id' m' :
  Call id' m = Ret m' → control m' = Some id →
  ∃ r', routines m' !! id = Some r' ∧ timeout_out r' = timeout_ r ∧ timer_on r' = false.
Proof using Hm Hc Hr Hs.
  unfold Call. destruct (is_main_routine m); cbn [negb]; [|done]. unfold routine_at. cbn [with_current routines].
  destruct (routines m !! id') as [r1|] eqn:E1; [|done]. cbn [mbind result_bind].
  destruct (mi_routines m Hm id' r1 E1) as [-> _ _ _ _]. intros E Hid.
  assert (id' = id) as ->.
  { unfold resumed in E. destruct (site_ r1) as [[q sd' l|]|]; [|injection E as <-; by injection Hid..].
    destruct (park_at _ _); [|done..]. cbn [mbind result_bind] in E. injection E as <-. by injection Hid. }
  rewrite Hr in E1. injection E1 as <-. by eapply resumed_out.
Qed.
Lemma ScheduleSide_out sd' q m' :
  ScheduleSide sd' q m = Ret m' → control m' = Some id →
  ∃ r', routines m' !! id = Some r' ∧ timeout_out r' = timeout_ r ∧ timer_on r' = false.
Proof using Hm Hc Hr Hs.
  unfold ScheduleSide. destruct (park_at q m) as [k| |]; [|done..]. cbn [mbind result_bind].
  destruct (waiter sd' k); [|intros [= <-]; by rewrite Hc].
  unfold RunRoutineInLoop. destruct (is_main_routine m); [apply Call_out|]. intros [= <-]. cbn. by rewrite Hc.
Qed.
End waits.

Lemma main_step_out m id r p sd b m' :
  machine_inv m → control m = None → routines m !! id = Some r → site_ r = Some (InWait p sd (Some b)) →
  main_step m = Ret m' → control m' = Some id →
  ∃ r', routines m' !! id = Some r' ∧ timeout_out r' = timeout_ r ∧ timer_on r' = false.
Proof.
  intros Hm Hc Hr Hs E Hid. unfold main_step in E.
  destruct (todo m) as [|op ops]; [injection E as <-; by rewrite Hc in Hid|].
  assert (Hm1 : machine_inv (with_todo ops m)) by (by apply (inv_work m)).
  destruct op as [id'|q ev|q|q].
  - by eapply (Call_out (with_todo ops m)).
  - unfold Schedule in E. destruct (cpp_assert _); [|done..]. cbn [mbind result_bind] in E.
    destruct (park_at q _); [|done..]. cbn [mbind result_bind] in E. injection E as <-.
    change (control m = Some id) in Hid. by rewrite Hc in Hid.
  - by eapply (ScheduleSide_out (with_todo ops m)).
  - by eapply (ScheduleSide_out (with_todo ops m)).
Qed.

(** A timed wait reports a timeout exactly when it was its timer that woke
    the routine: resumed by an event, by another routine or by the queue, it
    reports none, and in both cases its timer no longer runs. *)
Theorem timed_wait n m id r p sd b :
  reachable n m → control m = None → routines m !! id = Some r → site_ r = Some (InWait p sd (Some b)) →
  (∀ m', main_step m = Ret m' → control m' = Some id →
     ∃ r', routines m' !! id = Some r' ∧ timeout_out r' = false ∧ timer_on r' = false) ∧
  (∀ m', OnTimer id m = Ret m' →
     control m' = Some id ∧ ∃ r', routines m' !! id = Some r' ∧ timeout_out r' = true ∧ timer_on r' = false).
Proof.
  intros Hm%machine_reachable_inv Hc Hr Hs. destruct (mi_routines m Hm id r Hr) as [Gf _ _ G4 _].
  destruct (G4 p sd b Hs) as [_ Ht]. split.
  - intros m' E Hid. destruct (main_step_out m id r p sd b m') as (r' & ? & Ho & ?); [done..|].
    exists r'. by rewrite Ho.
  - intros m' E. unfold OnTimer, routine_at in E. rewrite Hr in E. cbn [mbind result_bind] in E.
    unfold Call in E. destruct (is_main_routine _); [|done]. cbn [negb] in E. unfold routine_at in E.
    cbn [with_current with_routine routines] in E. rewrite lookup_insert_eq in E. cbn [mbind result_bind] in E.
    cbn [finished_ set_timer] in E. rewrite Gf in E. split.
    + unfold resumed in E. cbn [site_ set_timer] in E. rewrite Hs in E. destruct (park_at _ _); [|done..].
      cbn [mbind result_bind] in E. by injection E as <-.
    + by eapply (resumed_out id (set_timer true false r)).
Qed.

(** ** Ticks *)
Fixpoint ticks (k : nat) (r : Routine) : Routine * list bool :=
  match k with
  | O => (r, [])
  | S k => let '(r, b) := Tick r in let '(r, bs) := ticks k r in (r, b :: bs)
  end.

(** A routine with [ticks_max_] ticks (ten unless set otherwise) is told to
    yield at every [ticks_max_]-th check exactly: never earlier, so that it
    keeps the processor, and never later, so that it cannot starve the loop. *)
Theorem yields_in_time k r i b :
  0 <= ticks_now_ r < ticks_max_ r → (ticks k r).2 !! i = Some b →
  b = bool_decide ((ticks_now_ r + Z.of_nat i + 1) mod ticks_max_ r = 0).
Proof.
  revert r i. induction k as [|k IH]; intros r i Hr; [done|]. cbn [ticks].
  destruct (Tick r) as [r1 b1] eqn:E1. destruct (ticks k r1) as [r2 bs] eqn:E2. cbn [snd].
  assert (H1 : b1 = bool_decide ((ticks_now_ r + 1) mod ticks_max_ r = 0) ∧ ticks_max_ r1 = ticks_max_ r ∧
               ticks_now_ r1 = (ticks_now_ r + 1) mod ticks_max_ r).
  { unfold Tick in E1. destruct (bool_decide_reflect (ticks_now_ r + 1 >= ticks_max_ r)) as [Hge|Hlt];
      injection E1 as <- <-; cbn [set_ticks ticks_max_ ticks_now_].
    - replace (ticks_now_ r + 1) with (ticks_max_ r) by lia. rewrite Z_mod_same_full. done.
    - rewrite Z.mod_small by lia. rewrite bool_decide_false by lia. done. }
  destruct H1 as (-> & Hmax & Hnow). destruct i as [|i]; cbn [lookup list_lookup].
  - intros [= <-]. apply bool_decide_ext. by replace (ticks_now_ r + Z.of_nat 0 + 1) with (ticks_now_ r + 1) by lia.
  - intros Hi. replace bs with (ticks k r1).2 in Hi by (by rewrite E2).
    apply IH in Hi as ->; [|rewrite Hmax, Hnow; apply Z.mod_pos_bound; lia].
    apply bool_decide_ext. rewrite Hmax, Hnow, <-Z.add_assoc, Zplus_mod_idemp_l.
    by replace (ticks_now_ r + 1 + (Z.of_nat i + 1)) with (ticks_now_ r + Z.of_nat (S i) + 1) by lia.
Qed.

(** ** The life of a park *)

(** The park an operation of the main routine will touch. *)
Definition touches (op : main_op) : option Z :=
  match op with OpCall _ => None | OpSchedule p _ | OpRead p | OpWrite p => Some p end.
(** Work of the main routine, or a routine suspended in a wait, that will
    touch the park. *)
Definition refers (m : Machine) (p : Z) : Prop :=
  (∃ op, op ∈ todo m ∧ touches op = Some p) ∨
  (∃ id r sd limit, routines m !! id = Some r ∧ site_ r = Some (InWait p sd limit)).
Definition queued (m : Machine) (id : Z) : Prop := OpCall id ∈ todo m ∨ id ∈ functions_ m.
(** A step that destroys no park that something refers to. *)
Definition careful_step (m m' : Machine) : Prop :=
  step m m' ∧ ∀ p, is_Some (parks m !! p) → parks m' !! p = None → ¬ refers m p.

(** What a step may add: references to parks that exist, routines that exist. *)
Record extends (m m' : Machine) : Prop := mk_extends {
  ex_refers : ∀ p, refers m' p → refers m p ∨ is_Some (parks m' !! p);
  ex_queued : ∀ id, queued m' id → queued m id ∨ is_Some (routines m' !! id);
  ex_routines : ∀ id, is_Some (routines m !! id) → is_Some (routines m' !! id);
}.

Lemma resumed_form id r M m' :
  resumed id r M = Ret m' → ∃ r' ps, m' = with_parks ps (with_routine id r' M) ∧ site_ r' = None.
Proof.
  unfold resumed. destruct (site_ r) as [[p sd limit|]|].
  - destruct (park_at p M) as [k| |]; [|done..]. cbn [mbind result_bind]. intros [= <-]. by do 2 eexists.
  - intros [= <-]. exists (set_site None r), (parks M). by destruct M.
  - intros [= <-]. exists (set_site None r), (parks M). by destruct M.
Qed.

(** A routine runs: nothing new. *)
Lemma extends_run m tg c rs id r' ps fs ops :
  site_ r' = None → (∀ x, <[id := x]> rs = <[id := x]> (routines m)) →
  (∀ op, op ∈ ops → op ∈ todo m) → (∀ i, i ∈ fs → i ∈ functions_ m) →
  extends m (mk_machine tg c (<[id := r']> rs) ps fs ops).
Proof.
  intros Hs Hrs Hops Hfs. rewrite Hrs. split; unfold refers, queued; cbn [todo routines functions_].
  - intros p [(op & Hin & Ht)|(id' & r & sd & limit & Hr & Hw)]; [left; left; eauto|].
    apply lookup_insert_Some in Hr as [[<- <-]|[_ Hr]]; [by rewrite Hs in Hw|]. left. right. eauto 6.
  - intros i [Hi|Hi]; left; [left|right]; eauto.
  - intros i Hi. apply lookup_insert_is_Some. destruct (decide (id = i)); [by left|by right].
Qed.

Lemma Call_extends m id ops m' :
  (∀ op, op ∈ ops → op ∈ todo m) → machine_inv m → Call id (with_todo ops m) = Ret m' → extends m m'.
Proof.
  intros Hops Hm. unfold Call. destruct (is_main_routine _); cbn [negb]; [|done]. unfold routine_at.
  cbn [with_current with_todo routines]. destruct (routines m !! id) as [r|] eqn:Er; [|done]. cbn [mbind result_bind].
  destruct (mi_routines m Hm id r Er) as [-> _ _ _ _]. intros (r' & ps & -> & Hs)%resumed_form.
  by apply extends_run.
Qed.
Lemma OnTimer_extends m id m' : machine_inv m → OnTimer id m = Ret m' → extends m m'.
Proof.
  intros Hm. unfold OnTimer, routine_at. destruct (routines m !! id) as [r|] eqn:Er; [|done]. cbn [mbind result_bind].
  unfold Call. destruct (is_main_routine _); cbn [negb]; [|done]. unfold routine_at.
  cbn [with_current with_routine routines]. rewrite lookup_insert_eq. cbn [mbind result_bind finished_ set_timer].
  destruct (mi_routines m Hm id r Er) as [-> _ _ _ _]. intros (r' & ps & -> & Hs)%resumed_form.
  apply extends_run; [done| |done..]. intros x. apply insert_insert_eq.
Qed.

(** More work, with references that exist. *)
Lemma extends_work m tg c ps fs ops :
  (∀ op p, op ∈ ops → touches op = Some p → op ∈ todo m ∨ is_Some (ps !! p)) →
  (∀ i, OpCall i ∈ ops ∨ i ∈ fs → queued m i ∨ is_Some (routines m !! i)) →
  extends m (mk_machine tg c (routines m) ps fs ops).
Proof.
  intros Hops Hq. split; unfold refers; cbn [todo routines parks].
  - intros p [(op & Hin & Ht)|H]; [|by left; right]. destruct (Hops op p Hin Ht); [left; left; eauto|by right].
  - intros i Hi. by apply Hq.
  - done.
Qed.

Lemma ScheduleSide_extends m sd p ops m' :
  (∀ op, op ∈ ops → op ∈ todo m) → machine_inv m → ScheduleSide sd p (with_todo ops m) = Ret m' → extends m m'.
Proof.
  intros Hops Hm. unfold ScheduleSide, park_at. cbn [parks with_todo].
  destruct (parks m !! p) as [k|] eqn:Ek; [|done]. cbn [mbind result_bind].
  destruct (waiter sd k) as [id|] eqn:Ew.
  - unfold RunRoutineInLoop. destruct (is_main_routine _); [by apply Call_extends|]. intros [= <-].
    apply (extends_work m); [by eauto|]. cbn [functions_ with_todo]. intros i [Hi|Hi]; [left; left; eauto|].
    apply elem_of_app in Hi as [Hi|Hi%list_elem_of_singleton]; [left; by right|subst i].
    destruct (mi_parks m Hm p k sd id Ek Ew) as (r & l & -> & _). right. by eexists.
  - intros [= <-]. apply (extends_work m); [by eauto|]. intros i [Hi|Hi]; left; [left; eauto|by right].
Qed.
Lemma elem_of_if {A} (b : bool) (x y : A) : x ∈ (if b then [y] else []) → x = y.
Proof. destruct b; [apply list_elem_of_singleton|by intros ?%elem_of_nil]. Qed.
Lemma main_step_extends m m' : machine_inv m → main_step m = Ret m' → extends m m'.
Proof.
  intros Hm. unfold main_step. destruct (todo m) as [|op ops] eqn:Et.
  { intros [= <-]. by split; auto. }
  assert (Hops : ∀ o, o ∈ ops → o ∈ todo m) by (rewrite Et; intros; by right).
  destruct op as [id|p ev|p|p]; [by apply Call_extends| |by apply ScheduleSide_extends..].
  unfold Schedule. destruct (cpp_assert _); [|done..]. cbn [mbind result_bind]. unfold park_at. cbn [parks with_todo].
  destruct (parks m !! p) as [k|]; [|done]. cbn [mbind result_bind]. intros [= <-].
  apply (extends_work m); cbn [todo with_todo with_parks].
  - intros op q Hin Ht. rewrite !elem_of_app in Hin. destruct Hin as [Hin|[Hin|Hin]]; [..|left; eauto].
    all: right; apply elem_of_if in Hin as ->; injection Ht as <-; cbn; by rewrite lookup_insert_eq.
  - intros i [Hin|Hin]; [|left; by right]. rewrite !elem_of_app in Hin. left. left.
    destruct Hin as [Hin|[Hin|Hin]]; [..|eauto]; by apply elem_of_if in Hin.
Qed.

(** The running routine is suspended again. *)
Lemma extends_suspend m tg c id r r' s ps fs :
  routines m !! id = Some r → site_ r' = Some s →
  (∀ p sd limit, s = InWait p sd limit → is_Some (ps !! p)) → (∀ i, i ∈ fs → i ∈ functions_ m ∨ i = id) →
  extends m (mk_machine tg c (<[id := r']> (routines m)) ps fs (todo m)).
Proof.
  intros Hr Hs Hps Hfs.
  assert (Hdom : ∀ i, is_Some (routines m !! i) → is_Some (<[id := r']> (routines m) !! i)).
  { intros i Hi. apply lookup_insert_is_Some. destruct (decide (id = i)); [by left|by right]. }
  split; unfold refers, queued; cbn [todo routines functions_ parks].
  - intros p [H|(id' & r1 & sd & limit & Hr1 & Hw)]; [left; by left|].
    apply lookup_insert_Some in Hr1 as [[<- <-]|[_ Hr1]]; [|left; right; eauto 6].
    right. rewrite Hs in Hw. injection Hw as ->. eauto.
  - intros i [Hi|Hi]; [left; by left|]. destruct (Hfs i Hi) as [H| ->]; [left; by right|]. right. eauto.
  - done.
Qed.
Lemma Return_form id s r m m' :
  routines m !! id = Some r → finished_ r = false → Return id s m = Ret m' →
  m' = with_control None (with_routine id (set_site (Some s) r) m).
Proof.
  intros Hr Hf. unfold Return, routine_at. destruct (is_main_routine m); [done|]. rewrite Hr.
  cbn [mbind result_bind]. rewrite Hf. by intros [= <-].
Qed.

Lemma Wait_extends m p sd limit m' : machine_inv m → Wait p sd limit m = Ret m' → extends m m'.
Proof.
  intros Hm. unfold Wait, park_at, current_routine, routine_at.
  destruct (parks m !! p) as [k|]; [|done]. cbn [mbind result_bind tg_current_routine routines with_parks].
  destruct (tg_current_routine m) as [id|]; [|done]. cbn [mbind result_bind].
  destruct (routines m !! id) as [r|] eqn:Er; [|done]. cbn [mbind result_bind].
  destruct (mi_routines m Hm id r Er) as [Gf _ _ _ _].
  intros E%(Return_form id _ (match limit with Some started => set_timer false started r | None => r end));
    [|by cbn; rewrite lookup_insert_eq|by destruct limit].
  subst m'. unfold with_control, with_routine, with_parks. cbn [routines parks functions_ todo]. rewrite insert_insert_eq.
  eapply (extends_suspend m); [done|done| |by auto]. intros p' sd' limit' [= <- _ _]. by rewrite lookup_insert_eq.
Qed.
Lemma CheckTicks_extends m m' : machine_inv m → CheckTicks m = Ret m' → extends m m'.
Proof.
  intros Hm. unfold CheckTicks, current_routine, routine_at.
  destruct (negb (is_main_routine m)) eqn:Em; [|done]. cbn [cpp_assert mbind result_bind].
  apply negb_true_iff in Em.
  destruct (tg_current_routine m) as [id|]; [|done]. cbn [mbind result_bind].
  destruct (routines m !! id) as [r|] eqn:Er; [|done]. cbn [mbind result_bind].
  destruct (mi_routines m Hm id r Er) as [Gf _ _ _ Gt].
  destruct (Tick r) as [r1 tick] eqn:Ek. destruct (Tick_ok r r1 tick Gt Ek) as (n & -> & _). destruct tick.
  - unfold RunRoutineInLoop. change (is_main_routine (with_routine id (set_ticks n r) m)) with (is_main_routine m).
    rewrite Em. cbn [mbind result_bind].
    intros E%(Return_form id _ (set_ticks n r)); [|by cbn; rewrite lookup_insert_eq|done]. subst m'.
    unfold with_control, with_routine, with_functions. cbn [routines parks functions_ todo]. rewrite insert_insert_eq.
    eapply (extends_suspend m); [done|done|done|]. intros i Hi.
    apply elem_of_app in Hi as [Hi|Hi%list_elem_of_singleton]; auto.
  - intros [= <-]. split; unfold refers, queued; cbn [todo routines functions_ parks with_routine]; [|by auto|].
    + intros p [H|(id' & r1 & sd & limit & Hr1 & Hw)]; [left; by left|]. left. right.
      apply lookup_insert_Some in Hr1 as [[<- <-]|[_ Hr1]]; eauto 6.
    + intros i Hi. apply lookup_insert_is_Some. destruct (decide (id = i)); [by left|by right].
Qed.
Lemma routine_step_extends m a m' : machine_inv m → routine_step a m = Ret m' → extends m m'.
Proof.
  intros Hm E. destruct a as [p|p|sd p|p sd limit| |]; cbn [routine_step] in E.
  - injection E as <-. apply (extends_work m); eauto.
  - destruct (park_at p m); [|done..]. cbn [mbind result_bind] in E. injection E as <-. apply (extends_work m); eauto.
  - apply (ScheduleSide_extends m sd p (todo m)); [done|done|]. by destruct m.
  - by eapply Wait_extends.
  - by apply CheckTicks_extends.
  - unfold current_routine in E. destruct (tg_current_routine m) as [id|]; [|done]. cbn [mbind result_bind] in E.
    destruct (routines m !! id) as [r|] eqn:Er; [|by unfold Return, routine_at in E; rewrite Er in E; destruct (is_main_routine m)].
    destruct (mi_routines m Hm id r Er) as [Gf _ _ _ _]. apply (Return_form id _ r) in E as ->; [|done..].
    unfold with_control, with_routine. cbn [routines parks functions_ todo].
    eapply (extends_suspend m); [done|done|done|]. by auto.
Qed.
Lemma step_extends m m' : machine_inv m → step m m' → extends m m'.
Proof.
  intros Hm. destruct 1 as [id m' Hc Ht E|Hc Ht|batch Hc Ht Hb|id r m' Hc Ht Hr Hon E|m' Hc E|id a m' Hc Hn E].
  - apply (Call_extends m id (todo m)); [done|done|]. by destruct m.
  - apply (extends_work m).
    + intros op p (i & -> & _)%list_elem_of_fmap. done.
    + intros i [(j & [= ->] & Hi)%list_elem_of_fmap|Hi]; [left; by right|by apply elem_of_nil in Hi].
  - apply (extends_work m).
    + intros op p ([q ev] & -> & Hin)%list_elem_of_fmap [= <-]. right. eauto.
    + intros i [([q ev] & H & Hin)%list_elem_of_fmap|Hi]; [done|left; by right].
  - by eapply OnTimer_extends.
  - by apply main_step_extends.
  - by eapply routine_step_extends.
Qed.

(** Everything referred to exists. *)
Record live_inv (m : Machine) : Prop := mk_live {
  lv_inv : machine_inv m;
  lv_refers : ∀ p, refers m p → is_Some (parks m !! p);
  lv_queued : ∀ id, queued m id → is_Some (routines m !! id);
}.
Lemma careful_live m m' : live_inv m → careful_step m m' → live_inv m'.
Proof.
  intros [Hm Hr Hq] [Hs Hk]. destruct (step_extends m m' Hm Hs) as [E1 E2 E3]. split.
  - by eapply step_inv.
  - intros p Hp. destruct (E1 p Hp) as [H|]; [|done]. destruct (parks m' !! p) as [k|] eqn:Ep; [by eexists|].
    destruct (Hk p (Hr p H) Ep H).
  - intros id Hid. destruct (E2 id Hid) as [H|]; [|done]. auto.
Qed.
Lemma careful_reachable n m : rtc careful_step (Machine_new n) m → live_inv m.
Proof.
  intros Hr. assert (H0 : live_inv (Machine_new n)).
  { split; [apply Machine_new_inv| |].
    - intros p [(op & Hin & _)|(id & r & sd & limit & ->%Machine_new_routines & Hs)]; [by apply elem_of_nil in Hin|done].
    - by intros id [H%elem_of_nil|H%elem_of_nil]. }
  induction Hr as [|x y z Hs _ IH]; [done|]. apply IH. by eapply careful_live.
Qed.

Lemma resumed_runs id r m M :
  live_inv m → routines m !! id = Some r → parks M = parks m → ∀ r', site_ r' = site_ r → ∃ m', resumed id r' M = Ret m'.
Proof.
  intros Hl Hr Hp r' Hs. unfold resumed. rewrite Hs. destruct (site_ r) as [[p sd limit|]|] eqn:Es; [|by eexists..].
  unfold park_at. rewrite Hp. destruct (lv_refers m Hl p) as [k ->]; [right; eauto 6|]. by eexists.
Qed.
Lemma Call_runs m id ops :
  live_inv m → control m = None → is_Some (routines m !! id) → ∃ m', Call id (with_todo ops m) = Ret m'.
Proof.
  intros Hl Hc [r Hr]. unfold Call, is_main_routine. cbn [tg_current_routine with_todo].
  rewrite (mi_current m (lv_inv m Hl)), Hc, bool_decide_true by done. cbn [negb].
  unfold routine_at. cbn [routines with_current with_todo]. rewrite Hr. cbn [mbind result_bind].
  destruct (mi_routines m (lv_inv m Hl) id r Hr) as [-> _ _ _ _]. by eapply resumed_runs.
Qed.
Lemma ScheduleSide_runs m sd p ops :
  live_inv m → control m = None → refers m p → ∃ m', ScheduleSide sd p (with_todo ops m) = Ret m'.
Proof.
  intros Hl Hc Hp. unfold ScheduleSide, park_at. cbn [parks with_todo].
  destruct (lv_refers m Hl p Hp) as [k Ek]. rewrite Ek. cbn [mbind result_bind].
  destruct (waiter sd k) as [id|] eqn:Ew; [|by eexists]. unfold RunRoutineInLoop, is_main_routine.
  cbn [tg_current_routine with_todo]. rewrite (mi_current m (lv_inv m Hl)), Hc, bool_decide_true by done.
  apply Call_runs; [done..|]. destruct (mi_parks m (lv_inv m Hl) p k sd id Ek Ew) as (r & l & -> & _). by eexists.
Qed.

Lemma main_step_runs m : live_inv m → control m = None → ∃ m', main_step m = Ret m'.
Proof.
  intros Hl Hc. pose proof (lv_inv m Hl) as Hm.
  unfold main_step. destruct (todo m) as [|op ops] eqn:Et; [by eexists|].
  assert (Hp : ∀ p, touches op = Some p → refers m p) by (intros p Hp; left; exists op; rewrite Et; split; [by left|done]).
  destruct op as [id|p ev|p|p].
  - apply Call_runs; [done..|]. apply (lv_queued m Hl). left. rewrite Et. by left.
  - unfold Schedule, is_main_routine. cbn [tg_current_routine with_todo].
    rewrite (mi_current m Hm), Hc, bool_decide_true by done. cbn [cpp_assert mbind result_bind].
    unfold park_at. cbn [parks with_todo]. destruct (lv_refers m Hl p (Hp p eq_refl)) as [k ->]. by eexists.
  - by apply ScheduleSide_runs; auto.
  - by apply ScheduleSide_runs; auto.
Qed.

(** C9: as long as no park is destroyed that pending work of the main routine,
    or a routine suspended at it, still refers to, the main routine never
    faults: every queued call, every event and every timer of a wait runs. *)
Theorem parks_safe n m :
  rtc careful_step (Machine_new n) m → control m = None →
  (∃ m', main_step m = Ret m') ∧
  (∀ id r, routines m !! id = Some r → timer_on r = true → ∃ m', OnTimer id m = Ret m').
Proof.
  intros Hl%careful_reachable Hc. pose proof (lv_inv m Hl) as Hm. split.
  - by apply main_step_runs.
  - intros id r Hr _. unfold OnTimer, routine_at. rewrite Hr. cbn [mbind result_bind].
    unfold Call, is_main_routine. cbn [tg_current_routine with_routine].
    rewrite (mi_current m Hm), Hc, bool_decide_true by done. cbn [negb].
    unfold routine_at. cbn [routines with_current with_routine]. rewrite lookup_insert_eq. cbn [mbind result_bind].
    cbn [finished_ set_timer]. destruct (mi_routines m Hm id r Hr) as [-> _ _ _ _]. by eapply resumed_runs.
Qed.

(** ** A park destroyed under the loop *)
Lemma wakes_both ev p m k :
  is_main_routine m = true → parks m !! p = Some k → wakes_reader ev = true → wakes_writer ev = true →
  Schedule p ev m =
    Ret (with_todo (OpRead p :: OpWrite p :: todo m)
           (with_parks (<[p := mk_park ev (read_routine_ k) (write_routine_ k)]> (parks m)) m)).
Proof. intros Hm Hk H1 H2. unfold Schedule, park_at. by rewrite Hm, Hk, H1, H2. Qed.

(** C39: when epoll reports a park both readable and writable (as it does when
    the peer of a TCP connection closes), the loop first runs the routine that
    waits to read; if that routine ends its task and destroys the park, the
    loop goes on to read the writer's pointer of the destroyed object. *)
Theorem destroyed_park_faults n m p ev rest k id :
  reachable n m → control m = None → todo m = OpSchedule p ev :: rest →
  parks m !! p = Some k → read_routine_ k = Some id →
  wakes_reader ev = true → wakes_writer ev = true →
  ∃ m1 m2 m3 m4,
    main_step m = Ret m1 ∧ main_step m1 = Ret m2 ∧ control m2 = Some id ∧
    routine_step (DoDelete p) m2 = Ret m3 ∧ routine_step DoReturn m3 = Ret m4 ∧ control m4 = None ∧
    main_step m4 = Fault WildPointer.
Proof.
  intros Hm%machine_reachable_inv Hc Ht Hk Hrd H1 H2. pose proof (mi_current m Hm) as Htg. rewrite Hc in Htg.
  destruct (mi_parks m Hm p k RdSide id Hk Hrd) as (r & limit & Hr & Hs).
  destruct (mi_routines m Hm id r Hr) as [Gf _ _ _ _].
  assert (Hmain : is_main_routine m = true) by (unfold is_main_routine; by rewrite Htg).
  do 4 eexists. split_and!.
  - unfold main_step. rewrite Ht. by apply (wakes_both ev p (with_todo rest m) k).
  - unfold main_step. cbn [todo with_todo]. unfold ScheduleRead, ScheduleSide, park_at. cbn [parks with_todo with_parks].
    rewrite lookup_insert_eq. cbn [mbind result_bind waiter read_routine_]. rewrite Hrd.
    unfold RunRoutineInLoop, Call, is_main_routine. cbn [tg_current_routine with_todo with_parks].
    rewrite Htg, bool_decide_true by done. cbn [negb]. unfold routine_at.
    cbn [routines with_todo with_parks with_current]. rewrite Hr. cbn [mbind result_bind]. rewrite Gf.
    unfold resumed, park_at. rewrite Hs. cbn [parks with_todo with_parks with_current with_control].
    by rewrite lookup_insert_eq.
  - done.
  - cbn [routine_step]. unfold park_at. cbn [parks with_parks]. by rewrite lookup_insert_eq.
  - cbn [routine_step]. unfold current_routine. cbn [mbind result_bind tg_current_routine with_parks with_routine with_control].
    unfold Return, is_main_routine, routine_at. cbn [tg_current_routine routines with_parks with_routine with_control].
    rewrite bool_decide_false by done. rewrite lookup_insert_eq. cbn [mbind result_bind].
    match goal with |- context [finished_ ?x] => assert (Hf : finished_ x = false) by (by destruct limit) end.
    by rewrite Hf.
  - done.
  - unfold main_step, ScheduleWrite, ScheduleSide, park_at.
    cbn [todo parks with_todo with_parks with_routine with_control with_current].
    by rewrite lookup_delete_eq.
Qed.

(** A program: routine 1 makes a park and waits at it, with a limit, until
    epoll reports it readable and writable. *)
Definition peer_closed : Z := Z.lor EPOLLIN (Z.lor EPOLLOUT EPOLLRDHUP).
Definition or_stuck (r : result Machine) : Machine := match r with Ret m => m | _ => Machine_new 0 end.
Definition sample_running : Machine := or_stuck (Call 1 (Machine_new 2)).
Definition sample_made : Machine := or_stuck (routine_step (DoNew 100) sample_running).
Definition sample_waiting : Machine := or_stuck (routine_step (DoWait 100 RdSide (Some true)) sample_made).
Definition sample_reported : Machine :=
  with_todo ((λ '(p, ev), OpSchedule p ev) <$> [(100, peer_closed)]) sample_waiting.

Lemma sample_steps : Forall2 careful_step [Machine_new 2; sample_running; sample_made; sample_waiting]
                                          [sample_running; sample_made; sample_waiting; sample_reported].
Proof.
  repeat apply Forall2_cons_2; [..|apply Forall2_nil_2].
  - split; [|by intros p [k Hk]]. by apply (step_start _ 1).
  - split; [|by intros p [k Hk]]. apply (step_routine _ 1 (DoNew 100)); [done| |done]. by intros p [= <-].
  - split; [by apply (step_routine _ 1 (DoWait 100 RdSide (Some true)))|].
    intros p [k Hk] Hn. exfalso. change (parks sample_made) with ({[100 := AsyncPark_new]} : gmap Z AsyncPark) in Hk.
    apply lookup_singleton_Some in Hk as [<- _]. vm_compute in Hn. discriminate Hn.
  - split; [|intros p [k Hk] Hn; change (parks sample_waiting !! p = None) in Hn; by rewrite Hn in Hk].
    apply step_poll; [done|done|]. intros p ev [= -> _]%list_elem_of_singleton. by eexists.
Qed.
Lemma sample_careful : rtc careful_step (Machine_new 2) sample_reported ∧ rtc careful_step (Machine_new 2) sample_waiting.
Proof.
  pose proof sample_steps as H. rewrite !Forall2_cons in H. destruct H as (H1 & H2 & H3 & H4 & _).
  assert (rtc careful_step (Machine_new 2) sample_waiting).
  { eapply rtc_l; [exact H1|]. eapply rtc_l; [exact H2|]. by apply rtc_once. }
  split; [|done]. eapply rtc_r; [done|exact H4].
Qed.
Lemma careful_step_step n m : rtc careful_step (Machine_new n) m → reachable n m.
Proof. apply rtc_subrel. by intros x y [H _]. Qed.
Lemma sample_machine_reachable : reachable 2 sample_reported ∧ reachable 2 sample_waiting.
Proof. destruct sample_careful. split; by apply careful_step_step. Qed.

Lemma park_life_witness :
  reachable 2 sample_waiting ∧
  ∃ r, routines sample_waiting !! 1 = Some r ∧ (timer_on r = true ↔ ∃ p sd, site_ r = Some (InWait p sd (Some true))).
Proof.
  destruct sample_machine_reachable as [_ H]. split; [exact H|]. destruct (park_life 2 sample_waiting H) as (_ & Hr & _).
  eexists. split; [reflexivity|]. by apply (Hr 1).
Defined.
Lemma timed_wait_witness :
  ∃ m', OnTimer 1 sample_waiting = Ret m' ∧ control m' = Some 1 ∧
    ∃ r', routines m' !! 1 = Some r' ∧ timeout_out r' = true ∧ timer_on r' = false.
Proof.
  eexists. split; [reflexivity|]. destruct sample_machine_reachable as [_ H].
  eapply (timed_wait 2 sample_waiting 1 _ 100 RdSide true H); reflexivity.
Defined.
Lemma yields_in_time_witness : (ticks 20 Routine_new).2 !! 19%nat = Some true.
Proof.
  destruct ((ticks 20 Routine_new).2 !! 19%nat) as [b|] eqn:E; [|discriminate E].
  rewrite (yields_in_time 20 Routine_new 19 b); [reflexivity|cbn; unfold kRoutineTicks; lia|exact E].
Defined.
Lemma parks_safe_witness : ∃ m', main_step sample_reported = Ret m'.
Proof. destruct sample_careful as [H _]. by apply (parks_safe 2 sample_reported H). Defined.
Lemma destroyed_park_faults_witness :
  ∃ m1 m2 m3 m4,
    main_step sample_reported = Ret m1 ∧ main_step m1 = Ret m2 ∧ control m2 = Some 1 ∧
    routine_step (DoDelete 100) m2 = Ret m3 ∧ routine_step DoReturn m3 = Ret m4 ∧ control m4 = None ∧
    main_step m4 = Fault WildPointer.
Proof.
  destruct sample_machine_reachable as [H _].
  eapply (destroyed_park_faults 2 sample_reported 100 peer_closed [] _ 1 H); reflexivity.
Defined.
