(* ===== verification/Epoll.v ===== *)
(** * Waiting for the kernel: kernel/runtime/event_loop.cc, async_park.cc and edge-triggered epoll

    Parks are registered with epoll for edges: a descriptor that becomes ready
    is reported once.  A routine waits at a park only after a call has found
    the descriptor not ready.  The state adds to the machine of the parks what
    is ready and which edges epoll has still to report; that a new edge is
    recorded when a descriptor becomes ready, or is ready when it is
    registered, and that a report of a descriptor covers every recorded edge
    that is still ready is what epoll documents.

    The theorems: no wake-up is lost as long as each side of a park has one
    user; a routine whose place at a park has been taken by another is not
    woken by any event. *)

From Stdlib Require Import ZArith Lia Bool String.
From stdpp Require Import base numbers relations list gmap countable.
From S2P Require Import Prelude Types Park.

#[global] Instance side_countable : Countable side :=
  inj_countable' (λ sd, match sd with RdSide => true | WrSide => false end)
    (λ b : bool, if b then RdSide else WrSide) (λ sd, match sd with RdSide => eq_refl | WrSide => eq_refl end).

(** [esize]: the size of [events_]; [ready]: what a call would find; [edges]:
    what epoll has to report; [seen]: what a call has found not ready
    ([EAGAIN]) since epoll was last asked. *)
Record Poll : Type := mk_poll {
  mach : Machine;
  esize : Z;
  ready : gset (Z * side);
  edges : gset (Z * side);
  seen : gset (Z * side);
}.

(** ** EventLoop *)
Inductive ctl_op : Type := CTL_ADD | CTL_DEL.
(** [epoll_ctl] fails with a negative result: fatal, but for a removal. *)
Definition EpollControl (ret : Z) (op : ctl_op) : result unit :=
  if bool_decide (ret < 0) then match op with CTL_DEL => Ret tt | CTL_ADD => Fault Aborted end else Ret tt.

Definition both_sides (p : Z) : gset (Z * side) := {[(p, RdSide); (p, WrSide)]}.
(** A descriptor that is ready when it is added is reported. *)
Definition EnablePoll (ret : Z) (p : Z) (found : gset side) (e : Poll) : result Poll :=
  _ ← EpollControl ret CTL_ADD;
  let now := set_map (λ sd, (p, sd)) found in
  Ret (mk_poll (mach e) (esize e) (now ∪ ready e) (now ∪ edges e) (seen e)).
Definition DisablePoll (ret : Z) (p : Z) (e : Poll) : result Poll :=
  _ ← EpollControl ret CTL_DEL;
  Ret (mk_poll (mach e) (esize e) (ready e ∖ both_sides p) (edges e ∖ both_sides p) (seen e)).

(** Only a park with a descriptor is registered. *)
Definition park_created (fd ret p : Z) (found : gset side) (e : Poll) : result Poll :=
  if bool_decide (fd >= 0) then EnablePoll ret p found e else Ret e.
Definition park_destroyed (fd ret p : Z) (e : Poll) : result Poll :=
  if bool_decide (fd >= 0) then DisablePoll ret p e else Ret e.

(** How long [epoll_wait] may block: not at all when functions wait. *)
Definition kEpollTimeout : Z := 1.
Definition epoll_time (m : Machine) : Z :=
  if bool_decide (functions_ m = []) then kEpollTimeout else Z.min 0 kEpollTimeout.

(** The vector of events is doubled when a call has filled it. *)
Definition kEpollEventSize : Z := 16.
Definition events_size (num_events size : Z) : Z := if bool_decide (num_events = size) then size * 2 else size.

Definition wakes (sd : side) (events : Z) : bool :=
  match sd with RdSide => wakes_reader events | WrSide => wakes_writer events end.
Definition op_of (sd : side) (p : Z) : main_op := match sd with RdSide => OpRead p | WrSide => OpWrite p end.

(** What epoll may report: as many events as there is room for, of parks that
    exist, each with all its edges that are still ready. *)
Record reportable (e : Poll) (batch : list (Z * Z)) : Prop := mk_reportable {
  rp_size : zlen batch <= esize e;
  rp_exist : ∀ p ev, (p, ev) ∈ batch → is_Some (parks (mach e) !! p);
  rp_edges : ∀ p ev sd, (p, ev) ∈ batch → (p, sd) ∈ edges e → (p, sd) ∈ ready e → wakes sd ev = true;
}.
Definition reported (batch : list (Z * Z)) (es : gset (Z * side)) : gset (Z * side) :=
  filter (λ x, x.1 ∉ batch.*1) es.

(** The part of a round around [epoll_wait]. *)
Definition take_events (batch : list (Z * Z)) (e : Poll) : Poll :=
  mk_poll (with_todo ((λ '(p, ev), OpSchedule p ev) <$> batch) (mach e)) (events_size (zlen batch) (esize e))
    (ready e) (reported batch (edges e)) ∅.
Definition with_mach (m : Machine) (e : Poll) : Poll := mk_poll m (esize e) (ready e) (edges e) (seen e).

(** What the steps below allow a routine: it waits only when a call has found
    the descriptor not ready and nobody else waits there, and it destroys a
    park only when nothing refers to it. *)
Definition allowed (e : Poll) (a : action) : Prop :=
  match a with
  | DoNew _ | DoDelete _ => False
  | DoWait p sd _ => (p, sd) ∈ seen e ∧ ∀ k, parks (mach e) !! p = Some k → waiter sd k = None
  | _ => True
  end.

Inductive poll_step (e : Poll) : Poll → Prop :=
  | ps_ready p sd :
      is_Some (parks (mach e) !! p) →
      poll_step e (mk_poll (mach e) (esize e) ({[(p, sd)]} ∪ ready e) ({[(p, sd)]} ∪ edges e) (seen e))
  | ps_drained p sd : poll_step e (mk_poll (mach e) (esize e) (ready e ∖ {[(p, sd)]}) (edges e) (seen e))
  | ps_again p sd :
      (p, sd) ∉ ready e → poll_step e (mk_poll (mach e) (esize e) (ready e) (edges e) ({[(p, sd)]} ∪ seen e))
  | ps_poll batch :
      control (mach e) = None → todo (mach e) = [] → reportable e batch → poll_step e (take_events batch e)
  | ps_functions :
      control (mach e) = None → todo (mach e) = [] →
      poll_step e (with_mach (with_todo (OpCall <$> functions_ (mach e)) (with_functions [] (mach e))) e)
  | ps_start id m' :
      control (mach e) = None → todo (mach e) = [] → Call id (mach e) = Ret m' → poll_step e (with_mach m' e)
  | ps_timer id r m' :
      control (mach e) = None → todo (mach e) = [] → routines (mach e) !! id = Some r → timer_on r = true →
      OnTimer id (mach e) = Ret m' → poll_step e (with_mach m' e)
  | ps_main m' : control (mach e) = None → main_step (mach e) = Ret m' → poll_step e (with_mach m' e)
  | ps_new id p fd ret found e' m' :
      control (mach e) = Some id → parks (mach e) !! p = None → routine_step (DoNew p) (mach e) = Ret m' →
      park_created fd ret p found (with_mach m' e) = Ret e' → poll_step e e'
  | ps_delete id p fd ret e' m' :
      control (mach e) = Some id → ¬ refers (mach e) p → routine_step (DoDelete p) (mach e) = Ret m' →
      park_destroyed fd ret p (with_mach m' e) = Ret e' → poll_step e e'
  | ps_routine id a m' :
      control (mach e) = Some id → allowed e a → routine_step a (mach e) = Ret m' → poll_step e (with_mach m' e).

(** The text of the events in a log line. *)
Definition event_names : list (Z * String.string) :=
  [(EPOLLIN, " EPOLLIN"); (EPOLLOUT, " EPOLLOUT"); (EPOLLPRI, " EPOLLPRI"); (EPOLLRDHUP, " EPOLLRDHUP");
   (EPOLLHUP, " EPOLLHUP"); (EPOLLERR, " EPOLLERR")]%string.
Definition epoll_event_string (events : Z) : list Z :=
  let s := foldl (λ s '(flag, name), if bool_decide (Z.land events flag = 0) then s else s ++ bytes_of name) []
             event_names in
  if bool_decide (s = []) then bytes_of " EMPTY " else s ++ bytes_of " ".

(** ** The loop of a thread and the names of its routines *)
(** [tg_loop]; a destroyed loop stays in it. *)
Definition EventLoop_ctor (loop : Z) (tg_loop : option Z) : result (option Z) :=
  match tg_loop with Some _ => Fault Aborted | None => Ret (Some loop) end.
Definition EventLoop_dtor (tg_loop : option Z) : option Z := tg_loop.
Definition current_loop (tg_loop : option Z) : result Z :=
  match tg_loop with Some loop => Ret loop | None => Fault AssertFailed end.
Definition kMainRoutineId : Z := 0.
Definition current_routineid (m : Machine) : Z :=
  match tg_current_routine m with Some id => id | None => kMainRoutineId end.
Definition current_routine_name (names : Z → list Z) (m : Machine) : list Z :=
  match tg_current_routine m with Some id => names id | None => bytes_of "main_routine" end.

Definition Poll_new (n : nat) : Poll := mk_poll (Machine_new n) kEpollEventSize ∅ ∅ ∅.
Definition poll_reachable (n : nat) (e : Poll) : Prop := rtc poll_step (Poll_new n) e.

(** ** The invariant *)
Definition waits_at (m : Machine) (id p : Z) (sd : side) : Prop :=
  ∃ r limit, routines m !! id = Some r ∧ site_ r = Some (InWait p sd limit).
(** Work of the main routine that will look at this side of the park. *)
Definition pending (m : Machine) (p : Z) (sd : side) : Prop :=
  op_of sd p ∈ todo m ∨ ∃ ev, OpSchedule p ev ∈ todo m ∧ wakes sd ev = true.
(** Every waiting routine is the one the park points to. *)
Definition sole_waiters (m : Machine) : Prop :=
  ∀ id p sd, waits_at m id p sd → ∃ k, parks m !! p = Some k ∧ waiter sd k = Some id.
Record poll_inv (e : Poll) : Prop := mk_poll_inv {
  pv_live : live_inv (mach e);
  pv_sole : sole_waiters (mach e);
  pv_edge : ∀ id p sd, waits_at (mach e) id p sd → (p, sd) ∈ ready e → (p, sd) ∈ edges e ∨ pending (mach e) p sd;
  pv_seen : ∀ p sd, (p, sd) ∈ seen e → (p, sd) ∈ ready e → (p, sd) ∈ edges e;
  pv_size : 0 < esize e;
}.

(** ** A routine is resumed *)
Record resumes (m m' : Machine) (id : Z) : Prop := mk_resumes {
  rs_control : control m' = Some id;
  rs_todo : todo m' = todo m;
  rs_waits : ∀ i p sd, waits_at m' i p sd → i ≠ id ∧ waits_at m i p sd;
  rs_others : ∀ i p sd, i ≠ id → waits_at m i p sd → waits_at m' i p sd;
  rs_parks : ∀ i p sd k, i ≠ id → parks m !! p = Some k → waiter sd k = Some i →
    ∃ k', parks m' !! p = Some k' ∧ waiter sd k' = Some i;
  rs_keep : ∀ p, is_Some (parks m !! p) → is_Some (parks m' !! p);
}.

(** [M] is [m] with the routine [id] in control and, possibly, its fields
    changed. *)
Lemma resumed_resumes m M id r r1 m' :
  sole_waiters m → routines m !! id = Some r → site_ r1 = site_ r →
  control M = Some id → todo M = todo m → parks M = parks m →
  (∀ x, <[id := x]> (routines M) = <[id := x]> (routines m)) →
  resumed id r1 M = Ret m' → resumes m m' id.
Proof.
  intros Hsole Hr Hs Hc Ht Hp Hrs E. unfold resumed in E. rewrite Hs in E.
  assert (Hw : ∀ r2 i p sd, site_ r2 = None →
    (∃ r3 limit, <[id := r2]> (routines m) !! i = Some r3 ∧ site_ r3 = Some (InWait p sd limit)) →
    i ≠ id ∧ waits_at m i p sd).
  { intros r2 i p sd H2 (r3 & limit & H3 & Hs3). apply lookup_insert_Some in H3 as [[<- <-]|[Hne H3]]; [congruence|].
    split; [done|]. by exists r3, limit. }
  assert (Ho : ∀ r2 i p sd, i ≠ id → waits_at m i p sd →
    ∃ r3 limit, <[id := r2]> (routines m) !! i = Some r3 ∧ site_ r3 = Some (InWait p sd limit)).
  { intros r2 i p sd Hne (r3 & limit & H3 & Hs3). exists r3, limit. by rewrite lookup_insert_ne. }
  assert (Hrest : resumes m (with_routine id (set_site None r1) M) id).
  { split; cbn [control todo parks with_routine]; rewrite ?Hp; eauto.
    - intros i p sd H. unfold waits_at in H. cbn [routines with_routine] in H. rewrite Hrs in H. by eapply Hw; [|exact H].
    - intros i p sd Hne H. unfold waits_at. cbn [routines with_routine]. rewrite Hrs. by apply Ho. }
  destruct (site_ r) as [[p sd limit|]|] eqn:Es.
  - unfold park_at in E. rewrite Hp in E. destruct (parks m !! p) as [k|] eqn:Ek; [|done].
    cbn [mbind result_bind] in E. injection E as <-.
    split; cbn [control todo routines parks with_parks with_routine]; [done|done| | | |].
    + intros i q sd' H. unfold waits_at in H. cbn [routines with_parks with_routine] in H. rewrite Hrs in H.
      eapply Hw; [|exact H]. by destruct limit.
    + intros i q sd' Hne H. unfold waits_at. cbn [routines with_parks with_routine]. rewrite Hrs. by apply Ho.
    + intros i q sd' k1 Hne Hk1 Hw1. destruct (decide (p = q)) as [<-|]; [|rewrite lookup_insert_ne by done; eauto].
      rewrite lookup_insert_eq. eexists. split; [done|]. rewrite waiter_set, Ek in *. injection Hk1 as <-.
      destruct (bool_decide_reflect (sd' = sd)) as [->|]; [|done].
      destruct (Hsole id p sd) as (k2 & Hk2 & Hw2); [by exists r, limit|]. congruence.
    + intros q Hq. apply lookup_insert_is_Some. destruct (decide (p = q)); [by left|by right].
  - injection E as <-. exact Hrest.
  - injection E as <-. exact Hrest.
Qed.

Lemma Call_resumes m id m' :
  machine_inv m → sole_waiters m → control m = None → Call id m = Ret m' → resumes m m' id.
Proof.
  intros Hm Hsole Hc E. unfold Call in E. destruct (is_main_routine m); cbn [negb] in E; [|done].
  unfold routine_at in E. cbn [routines with_current] in E. destruct (routines m !! id) as [r|] eqn:Er; [|done].
  cbn [mbind result_bind] in E. destruct (mi_routines m Hm id r Er) as [Gf _ _ _ _]. rewrite Gf in E.
  by eapply (resumed_resumes m (with_control (Some id) (with_current (Some id) m)) id r r).
Qed.
Lemma OnTimer_resumes m id m' :
  machine_inv m → sole_waiters m → control m = None → OnTimer id m = Ret m' → resumes m m' id.
Proof.
  intros Hm Hsole Hc E. unfold OnTimer, routine_at in E. destruct (routines m !! id) as [r|] eqn:Er; [|done].
  cbn [mbind result_bind] in E. unfold Call in E. destruct (is_main_routine _); cbn [negb] in E; [|done].
  unfold routine_at in E. cbn [routines with_current with_routine] in E. rewrite lookup_insert_eq in E.
  cbn [mbind result_bind] in E. destruct (mi_routines m Hm id r Er) as [Gf _ _ _ _].
  cbn [finished_ set_timer] in E. rewrite Gf in E.
  eapply (resumed_resumes m (with_control (Some id) (with_current (Some id) (with_routine id (set_timer true false r) m)))
            id r (set_timer true false r)); try done.
  intros x. apply insert_insert_eq.
Qed.
Lemma ScheduleSide_resumes m sd p k m' :
  machine_inv m → sole_waiters m → control m = None → parks m !! p = Some k → ScheduleSide sd p m = Ret m' →
  match waiter sd k with Some id => resumes m m' id | None => m' = m end.
Proof.
  intros Hm Hsole Hc Hk. unfold ScheduleSide, park_at. rewrite Hk. cbn [mbind result_bind].
  destruct (waiter sd k) as [id|]; [|by intros [= <-]]. unfold RunRoutineInLoop, is_main_routine.
  rewrite (mi_current m Hm), Hc, bool_decide_true by done. by apply Call_resumes.
Qed.

(** ** Nobody new waits *)
Record quiet (m m' : Machine) : Prop := mk_quiet {
  qt_todo : ∀ i p sd, waits_at m i p sd → pending m p sd → pending m' p sd;
  qt_waits : ∀ i p sd, waits_at m' i p sd ↔ waits_at m i p sd;
  qt_parks : ∀ p k, parks m !! p = Some k → ∃ k', parks m' !! p = Some k' ∧ ∀ sd, waiter sd k' = waiter sd k;
}.
Lemma pending_mono m m' p sd : (∀ op, op ∈ todo m → op ∈ todo m') → pending m p sd → pending m' p sd.
Proof. intros H [Hp|(ev & Hp & ?)]; [left|right; exists ev]; auto. Qed.
Lemma quiet_same m c tg fs ops :
  (∀ op, op ∈ todo m → op ∈ ops) → quiet m (mk_machine tg c (routines m) (parks m) fs ops).
Proof. intros H. split; cbn [parks]; [intros i p sd _; by apply pending_mono|eauto..]. Qed.
(** The running routine changes, or is suspended in a plain [Return]. *)
Lemma quiet_routine m c tg id r0 r fs :
  routines m !! id = Some r0 → site_ r0 = None → (∀ p sd limit, site_ r ≠ Some (InWait p sd limit)) →
  quiet m (mk_machine tg c (<[id := r]> (routines m)) (parks m) fs (todo m)).
Proof.
  intros H0 Hs0 H. split; cbn [parks]; [intros i p sd _; by apply pending_mono| |eauto]. intros i p sd. split.
  - intros (r' & limit & Hr & Hs). cbn [routines] in Hr.
    apply lookup_insert_Some in Hr as [[<- <-]|[Hne Hr]]; [by apply H in Hs|]. by exists r', limit.
  - intros (r' & limit & Hr & Hs). exists r', limit. cbn [routines]. rewrite lookup_insert_ne; [done|]. congruence.
Qed.
(** The effect of [CheckTicks] and of a plain [Return]. *)
Definition plain (m m' : Machine) (id : Z) : Prop :=
  ∃ r0 r c fs, routines m !! id = Some r0 ∧ site_ r0 = None ∧ (∀ p sd limit, site_ r ≠ Some (InWait p sd limit)) ∧
    (∀ i, i ∈ fs → i ∈ functions_ m ∨ i = id) ∧
    m' = mk_machine c c (<[id := r]> (routines m)) (parks m) fs (todo m).
Lemma CheckTicks_plain m m' id : machine_inv m → control m = Some id → CheckTicks m = Ret m' → plain m m' id.
Proof.
  intros Hm Hc. unfold CheckTicks, current_routine, routine_at.
  destruct (negb (is_main_routine m)) eqn:Em; [|done]. cbn [cpp_assert mbind result_bind]. apply negb_true_iff in Em.
  rewrite (mi_current m Hm), Hc. cbn [mbind result_bind].
  destruct (routines m !! id) as [r|] eqn:Er; [|done]. cbn [mbind result_bind].
  destruct (mi_routines m Hm id r Er) as [Gf [_ G2] _ _ Gt].
  destruct (Tick r) as [r1 tick] eqn:Ek. destruct (Tick_ok r r1 tick Gt Ek) as (n & -> & _). destruct tick.
  - unfold RunRoutineInLoop. change (is_main_routine (with_routine id (set_ticks n r) m)) with (is_main_routine m).
    rewrite Em. cbn [mbind result_bind].
    intros E%(Return_form id _ (set_ticks n r)); [|by cbn; rewrite lookup_insert_eq|done]. subst m'.
    unfold with_control, with_routine, with_functions. cbn [routines parks functions_ todo]. rewrite insert_insert_eq.
    exists r. do 3 eexists. split_and!; [done|auto| | |reflexivity]; [done|].
    intros i [Hi|Hi%list_elem_of_singleton]%elem_of_app; auto.
  - intros [= <-]. unfold with_routine. rewrite (mi_current m Hm). exists r. do 3 eexists.
    split_and!; [done|auto| | |reflexivity]; [|by auto]. intros p sd limit. cbn. by rewrite (G2 Hc).
Qed.
Lemma DoReturn_plain m m' id : machine_inv m → control m = Some id → routine_step DoReturn m = Ret m' → plain m m' id.
Proof.
  intros Hm Hc. cbn [routine_step]. unfold current_routine. rewrite (mi_current m Hm), Hc. cbn [mbind result_bind].
  destruct (mi_control m Hm id Hc) as [r Er]. destruct (mi_routines m Hm id r Er) as [Gf [_ G2] _ _ _].
  intros ->%(Return_form id _ r); [|done..]. exists r. do 3 eexists. split_and!; [done|auto| | |reflexivity]; by auto.
Qed.
Lemma plain_quiet m m' id : plain m m' id → quiet m m'.
Proof. intros (r0 & r & c & fs & H0 & Hs0 & H & _ & ->). by apply (quiet_routine m c c id r0). Qed.
Lemma DoSchedule_quiet m m' id sd p :
  machine_inv m → control m = Some id → routine_step (DoSchedule sd p) m = Ret m' → quiet m m'.
Proof.
  intros Hm Hc. cbn [routine_step]. unfold ScheduleSide. destruct (park_at p m) as [k| |]; [|done..].
  cbn [mbind result_bind]. destruct (waiter sd k) as [i|]; [|intros [= <-]; by split; eauto].
  unfold RunRoutineInLoop, is_main_routine. rewrite (mi_current m Hm), Hc, bool_decide_false by done.
  intros [= <-]. by apply quiet_same.
Qed.

(** ** The machine's part of a step *)
Definition keeps_parks (m m' : Machine) : Prop := ∀ p, is_Some (parks m !! p) → is_Some (parks m' !! p).
Lemma keeps_careful m m' : step m m' → keeps_parks m m' → careful_step m m'.
Proof. intros Hs Hk. split; [done|]. intros p Hp Hn. destruct (Hk p Hp). congruence. Qed.
Lemma quiet_keeps m m' : quiet m m' → keeps_parks m m'.
Proof. intros Hq p [k Hk]. destruct (qt_parks m m' Hq p k Hk) as (k' & -> & _). by eexists. Qed.

Section steps.
Context (e : Poll) (He : poll_inv e).

Lemma inv_quiet m' : live_inv m' → quiet (mach e) m' → poll_inv (with_mach m' e).
Proof using He.
  intros Hl [Ht Hw Hp]. destruct He as [_ Hsole Hedge Hseen Hsize].
  split; cbn [mach ready edges seen esize with_mach]; [done| | |done|done].
  - intros i p sd (k & Hk & Hwk)%Hw%Hsole. destruct (Hp p k Hk) as (k' & Hk' & E). exists k'. by rewrite E.
  - intros i p sd Hi%Hw Hr. destruct (Hedge i p sd Hi Hr) as [H|H]; [by left|right; by eapply Ht].
Qed.
Lemma step_quiet m' : step (mach e) m' → quiet (mach e) m' → poll_inv (with_mach m' e).
Proof using He.
  intros Hs Hq. apply inv_quiet; [|done]. eapply careful_live; [by apply pv_live|].
  apply keeps_careful; [done|]. by apply quiet_keeps.
Qed.

(** A routine is resumed after the work [ops] is left. *)
Lemma step_resumes m' id ops :
  step (mach e) m' → resumes (with_todo ops (mach e)) m' id →
  (∀ i p sd, i ≠ id → waits_at (mach e) i p sd → pending (mach e) p sd → pending (with_todo ops (mach e)) p sd) →
  poll_inv (with_mach m' e).
Proof using He.
  intros Hs [Hc Ht Hw _ Hp Hk] Hops. pose proof He as [Hl Hsole Hedge Hseen Hsize].
  split; cbn [mach ready edges seen esize with_mach]; [|..|done|done].
  - eapply careful_live; [done|]. by apply keeps_careful.
  - intros i p sd [Hne Hi]%Hw. destruct (Hsole i p sd Hi) as (k & Hk1 & Hwk). by eapply Hp.
  - intros i p sd [Hne Hi]%Hw Hr. destruct (Hedge i p sd Hi Hr) as [H|H]; [by left|]. right.
    apply (Hops i p sd Hne Hi) in H as H1. unfold pending in *. by rewrite Ht.
Qed.
End steps.

Lemma Schedule_quiet m q ev ops m' :
  todo m = OpSchedule q ev :: ops → Schedule q ev (with_todo ops m) = Ret m' → quiet m m'.
Proof.
  intros Et. unfold Schedule. destruct (cpp_assert _); [|done..]. cbn [mbind result_bind].
  unfold park_at. cbn [parks with_todo]. destruct (parks m !! q) as [k|] eqn:Ek; [|done]. cbn [mbind result_bind].
  intros [= <-]. split.
  - intros i p sd _ H. unfold pending in *. rewrite Et in H. cbn [todo with_todo with_parks].
    destruct H as [[H|H]%elem_of_cons|(ev' & [[= <- <-]|H]%elem_of_cons & Hw)].
    + by destruct sd.
    + left. rewrite !elem_of_app. auto.
    + left. rewrite !elem_of_app. destruct sd; cbn [wakes op_of] in *; rewrite Hw; [left|right; left]; by left.
    + right. exists ev'. rewrite !elem_of_app. auto.
  - done.
  - intros p k1 Hk1. cbn [parks with_todo with_parks]. destruct (decide (q = p)) as [<-|]; [|rewrite lookup_insert_ne by done; eauto].
    rewrite lookup_insert_eq. eexists. split; [done|]. intros sd. rewrite Ek in Hk1. injection Hk1 as <-. by destruct sd.
Qed.
(** Nobody waits where the loop looks. *)
Lemma skip_quiet m op ops :
  todo m = op :: ops → (∀ i p sd, waits_at m i p sd → op_of sd p ≠ op) → (∀ p ev, op ≠ OpSchedule p ev) →
  quiet m (with_todo ops m).
Proof.
  intros Et Hno Hns. split; [|done|eauto]. intros i p sd Hi H. unfold pending in *. rewrite Et in H. cbn [todo with_todo].
  destruct H as [[H|H]%elem_of_cons|(ev & [H|H]%elem_of_cons & ?)]; [by destruct (Hno i p sd Hi)|auto|by destruct (Hns p ev)|eauto].
Qed.

Lemma wait_form m id p sd limit m' :
  machine_inv m → control m = Some id → routine_step (DoWait p sd limit) m = Ret m' →
  ∃ k r, parks m !! p = Some k ∧ site_ r = Some (InWait p sd limit) ∧
    m' = mk_machine None None (<[id := r]> (routines m)) (<[p := set_waiter sd (Some id) k]> (parks m)) (functions_ m) (todo m).
Proof.
  intros Hm Hc E.
  cbn [routine_step] in E. unfold Wait, park_at, current_routine, routine_at in E.
  destruct (parks m !! p) as [k|] eqn:Ek; [|done]. cbn [mbind result_bind tg_current_routine routines with_parks] in E.
  rewrite (mi_current m Hm), Hc in E. cbn [mbind result_bind] in E.
  destruct (routines m !! id) as [r|] eqn:Er; [|done]. cbn [mbind result_bind] in E.
  destruct (mi_routines m Hm id r Er) as [Gf _ _ _ _].
  apply (Return_form id _ (match limit with Some started => set_timer false started r | None => r end)) in E;
    [|by cbn; rewrite lookup_insert_eq|by destruct limit]. subst m'.
  unfold with_control, with_routine. cbn [routines parks functions_ todo with_parks]. rewrite insert_insert_eq.
  do 2 eexists. by split_and!; [| |reflexivity].
Qed.

Section loop.
Context (e : Poll) (He : poll_inv e).
Local Notation m := (mach e).

(** What a step of the main routine does: it resumes a routine, or only works
    for parks where nobody waits. *)
Definition resumes_one (m' : Machine) (id : Z) : Prop :=
  ∃ ops, resumes (with_todo ops m) m' id ∧
    ∀ i p sd, i ≠ id → waits_at m i p sd → pending m p sd → pending (with_todo ops m) p sd.
Lemma schedule_side_cases q sd ops m' :
  control m = None → todo m = op_of sd q :: ops → ScheduleSide sd q (with_todo ops m) = Ret m' →
  quiet m m' ∨ ∃ id, resumes_one m' id.
Proof using He.
  intros Hc Et E. destruct He as [Hl Hsole _ _ _].
  assert (Hns : ∀ p ev, op_of sd q ≠ OpSchedule p ev) by (by destruct sd).
  assert (Hq : ∃ k, parks m !! q = Some k).
  { unfold ScheduleSide, park_at in E. cbn [parks with_todo] in E. destruct (parks m !! q); [eauto|done]. }
  destruct Hq as [k Hk].
  apply (ScheduleSide_resumes (with_todo ops m) sd q k) in E; [|by apply (inv_work m), lv_inv|done..].
  assert (Hwho : ∀ i p sd', waits_at m i p sd' → op_of sd' p = op_of sd q → waiter sd k = Some i).
  { intros i p sd' Hi H. assert (p = q ∧ sd' = sd) as [-> ->] by (destruct sd, sd'; cbn in H; naive_solver).
    destruct (Hsole i q sd Hi) as (k' & Hk' & Hw). congruence. }
  destruct (waiter sd k) as [id|].
  - right. exists id, ops. split; [done|]. intros i p sd' Hne Hi H. unfold pending in *.
    rewrite Et in H. cbn [todo with_todo].
    destruct H as [[H|H]%elem_of_cons|(ev & [H|H]%elem_of_cons & ?)]; [|auto| |eauto].
    + specialize (Hwho i p sd' Hi H). congruence.
    + by destruct (Hns p ev).
  - subst m'. left. apply (skip_quiet m (op_of sd q)); [done| |done].
    intros i p sd' Hi H. by specialize (Hwho i p sd' Hi H).
Qed.
Lemma main_step_cases m' : control m = None → main_step m = Ret m' → quiet m m' ∨ ∃ id, resumes_one m' id.
Proof using He.
  intros Hc E. unfold main_step in E.
  destruct (todo m) as [|op ops] eqn:Et; [injection E as <-; left; by split; eauto|]. destruct op as [id|q ev|q|q].
  - pose proof He as [Hl Hsole _ _ _]. right. exists id, ops. split.
    + apply Call_resumes; [by apply (inv_work m), lv_inv|done..].
    + intros i p sd _ _. unfold pending. rewrite Et. cbn [todo with_todo].
      intros [[H|H]%elem_of_cons|(ev & [H|H]%elem_of_cons & ?)]; [by destruct sd|auto|done|eauto].
  - left. by eapply Schedule_quiet.
  - by apply (schedule_side_cases q RdSide ops).
  - by apply (schedule_side_cases q WrSide ops).
Qed.
Lemma main_step_poll m' : control m = None → main_step m = Ret m' → poll_inv (with_mach m' e).
Proof using He.
  intros Hc E. pose proof (step_main m m' Hc E) as Hst.
  destruct (main_step_cases m' Hc E) as [Hq|(id & ops & Hr & Hp)]; [by apply step_quiet|by apply (step_resumes e He m' id ops)].
Qed.
Lemma wait_poll id p sd limit m' :
  control m = Some id → allowed e (DoWait p sd limit) → routine_step (DoWait p sd limit) m = Ret m' →
  poll_inv (with_mach m' e).
Proof using He.
  intros Hc [Hseen Hfree] E. pose proof He as [Hl Hsole Hedge Hsn Hsize].
  assert (Hst : step m m') by (by apply (step_routine m id (DoWait p sd limit))).
  destruct (wait_form m id p sd limit m' (lv_inv _ Hl) Hc E) as (k & r & Ek & Hs & ->).
  split; cbn [mach ready edges seen esize with_mach]; [| | |done|done].
  - eapply careful_live; [exact Hl|]. apply keeps_careful; [exact Hst|]. intros q Hq.
    cbn. apply lookup_insert_is_Some. destruct (decide (p = q)); [by left|by right].
  - intros i q sd' (r' & l' & Hr' & Hs'). cbn in Hr'. cbn [parks].
    apply lookup_insert_Some in Hr' as [[<- <-]|[Hne Hr']].
    + rewrite Hs in Hs'. injection Hs' as <- <- <-. rewrite lookup_insert_eq. eexists. split; [done|].
      by rewrite waiter_set, bool_decide_true.
    + destruct (Hsole i q sd') as (k' & Hk' & Hw'); [by exists r', l'|].
      destruct (decide (p = q)) as [<-|]; [|rewrite lookup_insert_ne by done; eauto].
      rewrite lookup_insert_eq. eexists. split; [done|]. rewrite waiter_set. rewrite Ek in Hk'. injection Hk' as <-.
      destruct (bool_decide_reflect (sd' = sd)) as [->|]; [|done]. by rewrite (Hfree k Ek) in Hw'.
  - intros i q sd' (r' & l' & Hr' & Hs') Hrd. cbn in Hr'. apply lookup_insert_Some in Hr' as [[<- <-]|[Hne Hr']].
    + rewrite Hs in Hs'. injection Hs' as <- <- <-. left. by apply Hsn.
    + destruct (Hedge i q sd') as [H|H]; [by exists r', l'|done|by left|by right].
Qed.
End loop.

(** ** Every step *)
Lemma poll_inv_ready e p sd :
  poll_inv e → poll_inv (mk_poll (mach e) (esize e) ({[(p, sd)]} ∪ ready e) ({[(p, sd)]} ∪ edges e) (seen e)).
Proof.
  intros [Hl Hsole Hedge Hseen Hsize]. split; cbn [mach ready edges seen esize]; [done|done| | |done].
  - intros i q sd' Hi [H|H]%elem_of_union; [set_solver|]. destruct (Hedge i q sd' Hi H); set_solver.
  - intros q sd' Hq [H|H]%elem_of_union; [set_solver|]. apply elem_of_union_r. auto.
Qed.
Lemma take_events_inv e batch :
  poll_inv e → control (mach e) = None → todo (mach e) = [] → reportable e batch → poll_inv (take_events batch e).
Proof.
  intros [Hl Hsole Hedge Hseen Hsize] Hc Ht [Hsz Hex Hed]. split; cbn [mach ready edges seen esize take_events].
  - eapply careful_live; [done|]. apply keeps_careful; [by apply step_poll|by intros p].
  - done.
  - intros i p sd Hi Hr. destruct (Hedge i p sd Hi Hr) as [H|[H|(ev & H & _)]];
      [|rewrite Ht in H; by apply elem_of_nil in H..].
    destruct (decide (p ∈ batch.*1)) as [Hp|Hp].
    + right. right. apply list_elem_of_fmap in Hp as ([q ev] & [= ->] & Hin). exists ev. split; [|by eapply Hed].
      cbn [todo with_todo]. apply list_elem_of_fmap. by exists (q, ev).
    + left. by apply elem_of_filter.
  - intros p sd Hp. by apply elem_of_empty in Hp.
  - unfold events_size. case_bool_decide; lia.
Qed.
Lemma EnablePoll_inv e p ret found e' : poll_inv e → EnablePoll ret p found e = Ret e' → poll_inv e'.
Proof.
  intros [Hl Hsole Hedge Hseen Hsize] E. unfold EnablePoll in E. destruct (EpollControl ret CTL_ADD); [|done..].
  cbn [mbind result_bind] in E. injection E as <-. split; cbn [mach ready edges seen esize]; [done|done| | |done].
  - intros i q sd Hi [H|H]%elem_of_union; [left; by apply elem_of_union_l|].
    destruct (Hedge i q sd Hi H); [left; by apply elem_of_union_r|by right].
  - intros q sd Hq [H|H]%elem_of_union; [by apply elem_of_union_l|apply elem_of_union_r; auto].
Qed.
Lemma DisablePoll_inv e p ret e' :
  poll_inv e → (∀ i sd, ¬ waits_at (mach e) i p sd) → DisablePoll ret p e = Ret e' → poll_inv e'.
Proof.
  intros [Hl Hsole Hedge Hseen Hsize] Hno E. unfold DisablePoll in E. destruct (EpollControl ret CTL_DEL); [|done..].
  cbn [mbind result_bind] in E. injection E as <-. split; cbn [mach ready edges seen esize]; [done|done| | |done].
  - intros i q sd Hi [H Hq]%elem_of_difference. destruct (Hedge i q sd Hi H); [|by right]. left. by apply elem_of_difference.
  - intros q sd Hq [H1 H2]%elem_of_difference. apply elem_of_difference. split; [auto|done].
Qed.
Lemma new_poll e id p m' :
  poll_inv e → control (mach e) = Some id → parks (mach e) !! p = None → routine_step (DoNew p) (mach e) = Ret m' →
  poll_inv (with_mach m' e).
Proof.
  intros He Hc Hp E. pose proof He as [Hl Hsole Hedge Hseen Hsize].
  assert (Hst : step (mach e) m') by (apply (step_routine (mach e) id (DoNew p)); [done|by intros q [= <-]|done]).
  injection E as <-. apply step_quiet; [done..|]. split; [done|done|]. intros q k Hk. exists k.
  cbn. by rewrite lookup_insert_ne by congruence.
Qed.
Lemma delete_poll e id p m' :
  poll_inv e → control (mach e) = Some id → ¬ refers (mach e) p → routine_step (DoDelete p) (mach e) = Ret m' →
  poll_inv (with_mach m' e) ∧ ∀ i sd, ¬ waits_at m' i p sd.
Proof.
  intros He Hc Hp E. pose proof He as [Hl Hsole Hedge Hseen Hsize].
  assert (Hst : step (mach e) m') by (by apply (step_routine (mach e) id (DoDelete p))).
  cbn [routine_step] in E. destruct (park_at p (mach e)); [|done..]. cbn [mbind result_bind] in E. injection E as <-.
  assert (Hno : ∀ i sd, ¬ waits_at (mach e) i p sd).
  { intros i sd (r & limit & Hr & Hs). apply Hp. right. eauto 6. }
  split; [|exact Hno]. split; cbn [mach ready edges seen esize with_mach]; [| |done|done|done].
  - eapply careful_live; [done|]. split; [done|]. intros q [k Hk] Hn. cbn in Hn.
    destruct (decide (p = q)) as [<-|]; [done|]. rewrite lookup_delete_ne in Hn by done. congruence.
  - intros i q sd Hi. destruct (Hsole i q sd Hi) as (k & Hk & Hw). cbn. rewrite lookup_delete_ne; [eauto|].
    intros ->. by eapply Hno.
Qed.

Lemma poll_step_inv e e' : poll_inv e → poll_step e e' → poll_inv e'.
Proof.
  intros He. pose proof He as [Hl Hsole Hedge Hseen Hsize].
  destruct 1 as [p sd Hp|p sd|p sd Hn|batch Hc Ht Hb|Hc Ht|id m' Hc Ht E|id r m' Hc Ht Hr Hon E|m' Hc E
                |id p fd ret found e' m' Hc Hp E1 E2|id p fd ret e' m' Hc Hp E1 E2|id a m' Hc Ha E].
  - by apply poll_inv_ready.
  - split; cbn [mach ready edges seen esize]; [done|done| | |done].
    + intros i q sd' Hi [H _]%elem_of_difference. eauto.
    + intros q sd' Hq [H _]%elem_of_difference. eauto.
  - split; cbn [mach ready edges seen esize]; [done|done|done| |done].
    intros q sd' [[= -> ->]%elem_of_singleton|Hq]%elem_of_union Hr; [done|auto].
  - by apply take_events_inv.
  - apply step_quiet; [done|by apply step_functions|]. apply (quiet_same (mach e)). rewrite Ht. by intros op ?%elem_of_nil.
  - apply (step_resumes e He m' id (todo (mach e))); [by apply (step_start _ id)| |done].
    replace (with_todo (todo (mach e)) (mach e)) with (mach e) by (by destruct (mach e)).
    by apply Call_resumes; [apply lv_inv|..].
  - apply (step_resumes e He m' id (todo (mach e))); [by apply (step_timer _ id r)| |done].
    replace (with_todo (todo (mach e)) (mach e)) with (mach e) by (by destruct (mach e)).
    by apply OnTimer_resumes; [apply lv_inv|..].
  - by apply main_step_poll.
  - pose proof (new_poll e id p m' He Hc Hp E1). unfold park_created in E2.
    case_bool_decide; [by eapply EnablePoll_inv|by injection E2 as <-].
  - destruct (delete_poll e id p m' He Hc Hp E1). unfold park_destroyed in E2.
    case_bool_decide; [by eapply DisablePoll_inv|by injection E2 as <-].
  - pose proof (lv_inv _ Hl) as Hm. destruct a as [p|p|sd p|p sd limit| |]; [done|done| |by eapply wait_poll|..].
    all: apply step_quiet; [done|by refine (step_routine (mach e) id _ m' Hc _ E)|].
    + by eapply DoSchedule_quiet.
    + by eapply plain_quiet, CheckTicks_plain.
    + by eapply plain_quiet, DoReturn_plain.
Qed.
Lemma poll_reachable_inv n e : poll_reachable n e → poll_inv e.
Proof.
  intros Hr. assert (H0 : poll_inv (Poll_new n)).
  { split; cbn [mach ready edges seen esize Poll_new]; [apply (careful_reachable n), rtc_refl| | | |done].
    all: try (intros i p sd (r & limit & ->%Machine_new_routines & Hs); done). set_solver. }
  unfold poll_reachable in Hr. induction Hr as [|x y z Hs _ IH]; [done|]. apply IH. by eapply poll_step_inv.
Qed.

(** ** Progress *)

(** Steps of the main routine that are left at most: an event needs two more. *)
Definition op_work (op : main_op) : nat := match op with OpSchedule _ _ => 3 | _ => 1 end.
Definition work (m : Machine) : nat := sum_list_with op_work (todo m).

Lemma RunRoutineInLoop_todo id m m' : RunRoutineInLoop id m = Ret m' → todo m' = todo m.
Proof.
  unfold RunRoutineInLoop. destruct (is_main_routine m); [|by intros [= <-]]. unfold Call.
  destruct (negb _); [done|]. destruct (routine_at _ _) as [r| |]; [|done..]. cbn [mbind result_bind].
  destruct (finished_ r); [by intros [= <-]|]. by intros (r' & ps & -> & _)%resumed_form.
Qed.
Lemma ScheduleSide_todo sd p m m' : ScheduleSide sd p m = Ret m' → todo m' = todo m.
Proof.
  unfold ScheduleSide. destruct (park_at p m) as [k| |]; [|done..]. cbn [mbind result_bind].
  destruct (waiter sd k); [apply RunRoutineInLoop_todo|by intros [= <-]].
Qed.
Lemma Return_todo id s m m' : Return id s m = Ret m' → todo m' = todo m.
Proof.
  unfold Return. destruct (is_main_routine m); [done|]. destruct (routine_at id m) as [r| |]; [|done..].
  cbn [mbind result_bind]. destruct (finished_ r); by intros [= <-].
Qed.
Lemma routine_step_todo a m m' : routine_step a m = Ret m' → todo m' = todo m.
Proof.
  destruct a as [p|p|sd p|p sd limit| |]; cbn [routine_step].
  - by intros [= <-].
  - destruct (park_at p m); [|done..]. by intros [= <-].
  - apply ScheduleSide_todo.
  - unfold Wait. destruct (park_at p m); [|done..]. cbn [mbind result_bind].
    destruct (current_routine _) as [id| |]; [|done..]. cbn [mbind result_bind].
    destruct (routine_at _ _); [|done..]. cbn [mbind result_bind]. by intros ->%Return_todo.
  - unfold CheckTicks. destruct (cpp_assert _); [|done..]. cbn [mbind result_bind].
    destruct (current_routine m) as [id| |]; [|done..]. cbn [mbind result_bind].
    destruct (routine_at id m) as [r| |]; [|done..]. cbn [mbind result_bind]. destruct (Tick r) as [r1 []].
    + destruct (RunRoutineInLoop _ _) as [m1| |] eqn:E; [|done..]. cbn [mbind result_bind].
      intros ->%Return_todo. by apply RunRoutineInLoop_todo in E.
    + by intros [= <-].
  - destruct (current_routine m); [|done..]. cbn [mbind result_bind]. apply Return_todo.
Qed.
Lemma main_step_work m m' : todo m ≠ [] → main_step m = Ret m' → (work m' < work m)%nat.
Proof.
  unfold main_step, work. destruct (todo m) as [|op ops] eqn:Et; [done|]. intros _. destruct op as [id|q ev|q|q].
  - unfold Call. destruct (negb _); [done|]. destruct (routine_at _ _) as [r| |]; [|done..]. cbn [mbind result_bind].
    destruct (finished_ r); [intros [= <-]; cbn; lia|]. intros (r' & ps & -> & _)%resumed_form. cbn. lia.
  - unfold Schedule. destruct (cpp_assert _); [|done..]. cbn [mbind result_bind].
    destruct (park_at q _); [|done..]. cbn [mbind result_bind]. intros [= <-]. cbn [todo with_todo with_parks].
    rewrite !sum_list_with_app. destruct (wakes_reader ev), (wakes_writer ev); cbn; lia.
  - intros ->%ScheduleSide_todo. cbn. lia.
  - intros ->%ScheduleSide_todo. cbn. lia.
Qed.
Lemma pending_work m p sd : pending m p sd → todo m ≠ [].
Proof. intros [H|(ev & H & _)] E; rewrite E in H; by apply elem_of_nil in H. Qed.

(** A step in which the routine [id] is not resumed. *)
Definition step_without (id : Z) (e e' : Poll) : Prop := poll_step e e' ∧ control (mach e') ≠ Some id.

Lemma main_persists e id p sd m' :
  poll_inv e → control (mach e) = None → main_step (mach e) = Ret m' → control m' ≠ Some id →
  waits_at (mach e) id p sd → pending (mach e) p sd → waits_at m' id p sd ∧ pending m' p sd.
Proof.
  intros He Hc E Hn Hw Hp. destruct (main_step_cases e He m' Hc E) as [[Ht Hq _]|(j & ops & [Hj Ht _ Ho _ _] & Hops)].
  - split; [by apply Hq|by eapply Ht].
  - assert (id ≠ j) by congruence. split; [by apply Ho|]. specialize (Hops id p sd). unfold pending in *. rewrite Ht. auto.
Qed.
Lemma routine_persists e id j p sd a m' :
  poll_inv e → control (mach e) = Some j → allowed e a → routine_step a (mach e) = Ret m' →
  waits_at (mach e) id p sd → waits_at m' id p sd.
Proof.
  intros He Hc Ha E Hw. pose proof (lv_inv _ (pv_live e He)) as Hm.
  assert (Hq : quiet (mach e) m' → waits_at m' id p sd) by (intros Hq; by apply (qt_waits _ _ Hq)).
  destruct a as [q|q|sd' q|q sd' limit| |]; [done|done|by eapply Hq, DoSchedule_quiet| |by eapply Hq, plain_quiet, CheckTicks_plain|
    by eapply Hq, plain_quiet, DoReturn_plain].
  destruct (wait_form (mach e) j q sd' limit m' Hm Hc E) as (k & r & _ & _ & ->). destruct Hw as (r' & l' & Hr' & Hs').
  exists r', l'. cbn [routines]. rewrite lookup_insert_ne; [done|]. intros <-.
  destruct (mi_routines _ Hm j r' Hr') as [_ [_ G] _ _ _]. by rewrite (G Hc) in Hs'.
Qed.

Lemma park_created_mach fd ret p found e e' : park_created fd ret p found e = Ret e' → mach e' = mach e.
Proof.
  unfold park_created, EnablePoll. case_bool_decide; [|by intros [= <-]]. destruct (EpollControl _ _); [|done..].
  by intros [= <-].
Qed.
Lemma park_destroyed_mach fd ret p e e' : park_destroyed fd ret p e = Ret e' → mach e' = mach e.
Proof.
  unfold park_destroyed, DisablePoll. case_bool_decide; [|by intros [= <-]]. destruct (EpollControl _ _); [|done..].
  by intros [= <-].
Qed.
Lemma wait_persists e e' id p sd :
  poll_inv e → step_without id e e' → waits_at (mach e) id p sd → pending (mach e) p sd →
  waits_at (mach e') id p sd ∧ pending (mach e') p sd ∧ (work (mach e') <= work (mach e))%nat.
Proof.
  intros He [Hst Hn] Hw Hp. pose proof (pending_work _ _ _ Hp) as Htodo.
  destruct Hst as [q sd' Hq|q sd'|q sd' Hr|batch Hc Ht Hb|Hc Ht|j m' Hc Ht E|j r m' Hc Ht Hr Hon E|m' Hc E
                  |j q fd ret found e' m' Hc Hq E1 E2|j q fd ret e' m' Hc Hq E1 E2|j a m' Hc Ha E]; try done;
    cbn [mach with_mach] in *.
  - destruct (main_persists e id p sd m') as [H1 H2]; [done..|]. split_and!; [done|done|].
    apply Nat.lt_le_incl. by apply main_step_work.
  - rewrite (park_created_mach _ _ _ _ _ _ E2). by injection E1 as <-.
  - rewrite (park_destroyed_mach _ _ _ _ _ E2).
    cbn [routine_step] in E1. destruct (park_at q (mach e)); [|done..]. by injection E1 as <-.
  - pose proof (routine_step_todo a _ _ E) as Et. unfold pending, work in *. rewrite Et.
    split_and!; [by eapply routine_persists|done|done].
Qed.
Lemma waits_persist e e' id p sd :
  poll_inv e → rtc (step_without id) e e' → waits_at (mach e) id p sd → pending (mach e) p sd →
  poll_inv e' ∧ waits_at (mach e') id p sd ∧ pending (mach e') p sd ∧ (work (mach e') <= work (mach e))%nat.
Proof.
  intros He Hr. induction Hr as [e|e e1 e2 Hs _ IH]; [done|]. intros Hw Hp.
  destruct (wait_persists e e1 id p sd He Hs Hw Hp) as (H1 & H2 & H3).
  destruct IH as (I1 & I2 & I3 & I4); [|done..|]; [by destruct Hs; eapply poll_step_inv|]. split_and!; [done..|lia].
Qed.

(** C11: under edge-triggered polling no wake-up is lost, in runs in which a
    routine waits on a side of a park only when a call has found it not ready
    since epoll's last report, with no other routine waiting on that side, and
    destroys a park only when nothing refers to it: when a routine waits at a
    park that is ready, epoll still has an edge of it to report or the main
    routine has work left for it; the report becomes such work; and as long as
    that work is left, the main routine does not return to [epoll_wait]: each
    of its steps succeeds and uses up work that nothing adds to, until the
    routine runs. *)
Theorem no_lost_wakeup n e id p sd :
  poll_reachable n e → waits_at (mach e) id p sd → (p, sd) ∈ ready e →
  ((p, sd) ∈ edges e ∨ pending (mach e) p sd) ∧
  (∀ batch, control (mach e) = None → todo (mach e) = [] → reportable e batch → p ∈ batch.*1 →
     pending (mach (take_events batch e)) p sd) ∧
  (pending (mach e) p sd → ∀ e', rtc (step_without id) e e' →
     pending (mach e') p sd ∧ (work (mach e') <= work (mach e))%nat ∧
     (control (mach e') = None → ∃ m', main_step (mach e') = Ret m' ∧ (work m' < work (mach e'))%nat)).
Proof.
  intros He%poll_reachable_inv Hw Hr. pose proof (pv_edge e He id p sd Hw Hr) as Hep. split_and!; [done|..].
  - intros batch Hc Ht Hb Hp. destruct (take_events_inv e batch He Hc Ht Hb) as [_ _ Hedge _ _].
    destruct (Hedge id p sd Hw Hr) as [H|H]; [|done]. apply elem_of_filter in H as [H _]. done.
  - intros Hp e' Hs. destruct (waits_persist e e' id p sd He Hs Hw Hp) as (He' & _ & Hp' & Hk). split_and!; [done..|].
    intros Hc. destruct (main_step_runs (mach e') (pv_live e' He') Hc) as [m' E]. exists m'. split; [done|].
    apply main_step_work; [by eapply pending_work|done].
Qed.

(** Routine 1 registers a park, finds nothing to read and waits; then data
    arrives and epoll reports it. *)
Definition polled (m : Machine) (rd es sn : gset (Z * side)) : Poll := mk_poll m kEpollEventSize rd es sn.
Definition arrived : Poll := polled sample_waiting {[(100, RdSide)]} {[(100, RdSide)]} {[(100, RdSide)]}.
Lemma arrived_reachable : poll_reachable 2 arrived.
Proof.
  eapply rtc_l; [by apply (ps_start _ 1 sample_running)|].
  eapply rtc_l; [by apply (ps_new _ 1 100 5 0 ∅ (polled sample_made ∅ ∅ ∅) sample_made)|].
  eapply rtc_l; [by apply (ps_again _ 100 RdSide)|]. cbn [mach esize ready edges seen polled].
  eapply rtc_l.
  { apply (ps_routine _ 1 (DoWait 100 RdSide (Some true)) sample_waiting); [done| |done]. split.
    - cbn [seen]. set_solver.
    - intros k Hk. vm_compute in Hk. by injection Hk as <-. }
  eapply rtc_l; [apply (ps_ready _ 100 RdSide); by eexists|]. cbn [mach esize ready edges seen with_mach].
  rewrite !(right_id_L ∅ (∪)). apply rtc_refl.
Qed.
Lemma arrived_reportable : reportable arrived [(100, EPOLLIN)].
Proof.
  split; [by vm_compute|intros p ev [= -> _]%list_elem_of_singleton; by eexists|].
  intros p ev sd [= -> ->]%list_elem_of_singleton H _. unfold arrived, polled in H. cbn [edges] in H.
  by apply elem_of_singleton in H as [= ->].
Qed.
Lemma no_lost_wakeup_witness :
  pending (mach (take_events [(100, EPOLLIN)] arrived)) 100 RdSide.
Proof.
  destruct (no_lost_wakeup 2 arrived 1 100 RdSide arrived_reachable) as (_ & H & _).
  - by do 2 eexists.
  - unfold arrived, polled. cbn [ready]. by apply elem_of_singleton.
  - apply H; [reflexivity|reflexivity|exact arrived_reportable|by left].
Defined.

(** ** Two routines on one side of a park *)
Section one_call.
Context (m m' : Machine) (j : Z).
(** What calling the routine [j] leaves alone. *)
Record only_runs : Prop := mk_only_runs {
  or_parks : fewer_waiters (parks m) (parks m');
  or_others : ∀ i, i ≠ j → routines m' !! i = routines m !! i;
  or_functions : functions_ m' = functions_ m;
  or_todo : todo m' = todo m;
}.
End one_call.
Lemma resumed_only id r M m' : resumed id r M = Ret m' → only_runs M m' id.
Proof.
  assert (H : only_runs M (with_routine id (set_site None r) M) id).
  { split; [by intros p k sd i; eauto| |done|done]. intros i Hi. cbn. by rewrite lookup_insert_ne. }
  unfold resumed. destruct (site_ r) as [[p sd limit|]|]; [|by intros [= <-]..].
  unfold park_at. destruct (parks M !! p) as [k|] eqn:Ek; [|done]. cbn [mbind result_bind]. intros [= <-].
  split; [|intros i Hi; cbn; by rewrite lookup_insert_ne|done|done]. intros q k' sd' i Hk Hw. cbn in Hk.
  apply lookup_insert_Some in Hk as [[<- <-]|[_ Hk]]; [|eauto]. rewrite waiter_set in Hw.
  case_bool_decide; [done|eauto].
Qed.
Lemma Call_only id m m' : Call id m = Ret m' → only_runs m m' id.
Proof.
  unfold Call. destruct (negb _); [done|]. destruct (routine_at _ _) as [r| |]; [|done..]. cbn [mbind result_bind].
  destruct (finished_ r); [intros [= <-]; split; [by intros p k sd i; eauto|done..]|].
  intros [H1 H2 H3 H4]%resumed_only. by split.
Qed.
Lemma OnTimer_only id m m' : OnTimer id m = Ret m' → only_runs m m' id.
Proof.
  unfold OnTimer. destruct (routine_at id m) as [r| |]; [|done..]. cbn [mbind result_bind].
  intros [H1 H2 H3 H4]%Call_only. split; [done| |done..]. intros i Hi. rewrite H2 by done. cbn. by rewrite lookup_insert_ne.
Qed.

(** The routine waits without a limit, and nothing will call it. *)
Record lost (id p : Z) (sd : side) (m : Machine) : Prop := mk_lost {
  lo_inv : machine_inv m;
  lo_waits : ∃ r, routines m !! id = Some r ∧ site_ r = Some (InWait p sd None);
  lo_parks : ∀ q k sd', parks m !! q = Some k → waiter sd' k ≠ Some id;
  lo_queued : ¬ queued m id;
}.
(** Any step but the pool's calling the routine for a new task, which it does
    only with a free one. *)
Definition other_step (id : Z) (m m' : Machine) : Prop := step m m' ∧ Call id m ≠ Ret m'.

Lemma lost_not_running id p sd m : lost id p sd m → control m ≠ Some id.
Proof.
  intros [Hm (r & Hr & Hs) _ _] Hc. destruct (mi_routines m Hm id r Hr) as [_ [_ G] _ _ _]. by rewrite (G Hc) in Hs.
Qed.
Lemma lost_runs id p sd m ops m' j :
  lost id p sd m → j ≠ id → (∀ op, op ∈ ops → op ∈ todo m) → machine_inv m' → only_runs (with_todo ops m) m' j →
  lost id p sd m'.
Proof.
  intros [Hm (r & Hr & Hs) Hp Hq] Hj Hops Hm' [H1 H2 H3 H4]. split; [done|..].
  - exists r. by rewrite H2.
  - intros q k sd' Hk Hw. destruct (H1 q k sd' id Hk Hw) as (k0 & Hk0 & Hw0). by eapply Hp.
  - unfold queued in *. rewrite H3, H4. cbn. naive_solver.
Qed.
Lemma lost_work id p sd m ps fs ops :
  lost id p sd m → fewer_waiters (parks m) ps → (OpCall id ∈ ops ∨ id ∈ fs → queued m id) →
  machine_inv (mk_machine (tg_current_routine m) (control m) (routines m) ps fs ops) →
  lost id p sd (mk_machine (tg_current_routine m) (control m) (routines m) ps fs ops).
Proof.
  intros [Hm Hr Hp Hq] Hps Hfs Hm'. split; [done|done| |].
  - intros q k sd' Hk Hw. destruct (Hps q k sd' id Hk Hw) as (k0 & Hk0 & Hw0). by eapply Hp.
  - unfold queued in *. cbn. auto.
Qed.
Lemma lost_suspend id p sd m j r c ps fs :
  lost id p sd m → j ≠ id → (∀ q k sd', ps !! q = Some k → waiter sd' k = Some id → ∃ k0, parks m !! q = Some k0 ∧ waiter sd' k0 = Some id) →
  (id ∈ fs → id ∈ functions_ m ∨ id = j) → machine_inv (mk_machine c c (<[j := r]> (routines m)) ps fs (todo m)) →
  lost id p sd (mk_machine c c (<[j := r]> (routines m)) ps fs (todo m)).
Proof.
  intros [Hm (r0 & Hr & Hs) Hp Hq] Hj Hps Hfs Hm'. split; [done|..].
  - exists r0. cbn. by rewrite lookup_insert_ne.
  - intros q k sd' Hk Hw. destruct (Hps q k sd' Hk Hw) as (k0 & Hk0 & Hw0). by eapply Hp.
  - unfold queued in *. cbn. intros [H|H]; [by auto|]. destruct (Hfs H); [by auto|congruence].
Qed.

Section lost.
Context (id p : Z) (sd : side) (m : Machine) (Hl : lost id p sd m).

Lemma lost_schedule_side sd' q ops m' :
  control m = None → (∀ op, op ∈ ops → op ∈ todo m) → machine_inv m' → ScheduleSide sd' q (with_todo ops m) = Ret m' →
  lost id p sd m'.
Proof using Hl.
  intros Hc Hops Hm' E. pose proof (mi_current m (lo_inv _ _ _ _ Hl)) as Htg. rewrite Hc in Htg.
  unfold ScheduleSide, park_at in E. cbn [parks with_todo] in E. destruct (parks m !! q) as [k|] eqn:Ek; [|done].
  cbn [mbind result_bind] in E. destruct (waiter sd' k) as [j|] eqn:Ew.
  - unfold RunRoutineInLoop, is_main_routine in E. cbn [tg_current_routine with_todo] in E.
    rewrite Htg, bool_decide_true in E by done. apply Call_only in E.
    apply (lost_runs id p sd m ops m' j); try done. intros ->. by apply (lo_parks _ _ _ _ Hl q k sd').
  - injection E as <-. apply (lost_work id p sd m (parks m)); [done|by intros ????; eauto| |done].
    unfold queued. cbn. naive_solver.
Qed.
Lemma lost_main m' : control m = None → machine_inv m' → main_step m = Ret m' → lost id p sd m'.
Proof using Hl.
  intros Hc Hm' E. unfold main_step in E. destruct (todo m) as [|op ops] eqn:Et; [by injection E as <-|].
  assert (Hops : ∀ o, o ∈ ops → o ∈ todo m) by (rewrite Et; intros; by right).
  destruct op as [j|q ev|q|q]; [| |by eapply lost_schedule_side..].
  - apply (lost_runs id p sd m ops m' j); try done; [|by apply Call_only].
    intros ->. apply (lo_queued _ _ _ _ Hl). left. rewrite Et. by left.
  - unfold Schedule in E. destruct (cpp_assert _); [|done..]. cbn [mbind result_bind] in E. unfold park_at in E.
    cbn [parks with_todo] in E. destruct (parks m !! q) as [k|] eqn:Ek; [|done]. cbn [mbind result_bind] in E. injection E as <-.
    apply (lost_work id p sd m); [done| | |done].
    + intros q' k' sd' i Hk Hw. cbn in Hk. apply lookup_insert_Some in Hk as [[<- <-]|[_ Hk]]; [|eauto].
      exists k. by destruct sd'.
    + unfold queued. cbn [functions_ todo with_todo with_parks]. rewrite !elem_of_app.
      intros [[H|[H|H]]|H]; [by apply elem_of_if in H..|left; auto|by right].
Qed.
Lemma lost_routine j a m' :
  control m = Some j → machine_inv m' → routine_step a m = Ret m' → lost id p sd m'.
Proof using Hl.
  intros Hc Hm' E. pose proof (lo_inv _ _ _ _ Hl) as Hm.
  assert (Hj : j ≠ id) by (intros ->; by apply (lost_not_running _ _ _ _ Hl)).
  assert (Hplain : plain m m' j → lost id p sd m').
  { intros (r0 & r & c & fs & _ & _ & _ & Hfs & ->). apply lost_suspend; try done; eauto. }
  destruct a as [q|q|sd' q|q sd' limit| |]; [| | | |by apply Hplain, CheckTicks_plain|by apply Hplain, DoReturn_plain].
  - injection E as <-. apply (lost_work id p sd m); [done| |done|done]. intros q' k' sd' i Hk Hw.
    apply lookup_insert_Some in Hk as [[<- <-]|[_ Hk]]; [by destruct sd'|eauto].
  - cbn [routine_step] in E. destruct (park_at q m); [|done..]. injection E as <-.
    apply (lost_work id p sd m); [done| |done|done]. intros q' k' sd' i [_ Hk]%lookup_delete_Some Hw. eauto.
  - cbn [routine_step] in E. unfold ScheduleSide, park_at in E. destruct (parks m !! q) as [k|] eqn:Ek; [|done].
    cbn [mbind result_bind] in E. destruct (waiter sd' k) as [i|] eqn:Ew; [|by injection E as <-].
    unfold RunRoutineInLoop, is_main_routine in E. rewrite (mi_current m Hm), Hc, bool_decide_false in E by done.
    injection E as <-. apply (lost_work id p sd m); [done|by intros ????; eauto| |done].
    unfold queued. intros [H|[H|H%list_elem_of_singleton]%elem_of_app]; [by left|by right|subst i].
    by destruct (lo_parks _ _ _ _ Hl q k sd').
  - destruct (wait_form m j q sd' limit m' Hm Hc E) as (k & r & Ek & _ & ->). apply lost_suspend; try done; [|by auto].
    intros q' k' sd2 Hk Hw. apply lookup_insert_Some in Hk as [[<- <-]|[_ Hk]]; [|eauto].
    rewrite waiter_set in Hw. case_bool_decide; [congruence|eauto].
Qed.
Lemma lost_step m' : other_step id m m' → lost id p sd m'.
Proof using Hl.
  intros [Hs Hn]. pose proof (lo_inv _ _ _ _ Hl) as Hm. pose proof (step_inv m m' Hm Hs) as Hm'.
  assert (Hself : with_todo (todo m) m = m) by (by destruct m).
  destruct Hs as [j m' Hc Ht E|Hc Ht|batch Hc Ht Hb|j r m' Hc Ht Hr Hon E|m' Hc E|j a m' Hc Hnew E].
  - apply (lost_runs id p sd m (todo m) m' j); try done; [by intros ->|rewrite Hself; by apply Call_only].
  - apply (lost_work id p sd m (parks m)); [done|by intros ????; eauto| |done]. cbn. unfold queued.
    intros [(i & [= ->] & H)%list_elem_of_fmap|H%elem_of_nil]; [by right|done].
  - apply (lost_work id p sd m (parks m)); [done|by intros ????; eauto| |done]. cbn. unfold queued.
    intros [([q ev] & H & _)%list_elem_of_fmap|H]; [done|by right].
  - apply (lost_runs id p sd m (todo m) m' j); try done; [|rewrite Hself; by apply OnTimer_only].
    intros ->. destruct (lo_waits _ _ _ _ Hl) as (r' & Hr' & Hs').
    destruct (rw_timer _ _ _ (mi_routines m Hm id r Hr) Hon) as (q & sd' & E'). congruence.
  - by apply lost_main.
  - by eapply lost_routine.
Qed.
End lost.
Lemma lost_forever id p sd m m' : lost id p sd m → rtc (other_step id) m m' → control m' ≠ Some id.
Proof.
  intros Hl Hr. induction Hr as [m|m m1 m2 Hs _ IH]; [by eapply lost_not_running|]. apply IH. by eapply lost_step.
Qed.

(** C40: a park has room for one routine on each side: when a second one waits
    there, the first, if it waits without a limit and no call of it is queued,
    never runs again, whatever epoll, the timers and the other routines do. *)
Theorem overwritten_waiter n m id j p sd limit k r :
  reachable n m → control m = Some j → parks m !! p = Some k → waiter sd k = Some id →
  routines m !! id = Some r → site_ r = Some (InWait p sd None) → ¬ queued m id →
  ∃ m1, routine_step (DoWait p sd limit) m = Ret m1 ∧
    ∀ m2, rtc (other_step id) m1 m2 → control m2 ≠ Some id.
Proof.
  intros Hm%machine_reachable_inv Hc Hk Hw Hr Hs Hq.
  destruct (mi_control m Hm j Hc) as [rj Hrj]. destruct (mi_routines m Hm j rj Hrj) as [Gf [_ G2] _ _ _].
  assert (Hj : j ≠ id) by (intros ->; rewrite Hr in Hrj; injection Hrj as <-; by rewrite G2 in Hs).
  assert (E : ∃ m1, routine_step (DoWait p sd limit) m = Ret m1).
  { cbn [routine_step]. unfold Wait, park_at, current_routine, routine_at. rewrite Hk. cbn [mbind result_bind].
    cbn [tg_current_routine routines with_parks]. rewrite (mi_current m Hm), Hc. cbn [mbind result_bind]. rewrite Hrj.
    cbn [mbind result_bind]. unfold Return, is_main_routine, routine_at.
    cbn [tg_current_routine with_routine with_parks routines]. rewrite (mi_current m Hm), Hc, bool_decide_false by done.
    rewrite lookup_insert_eq. cbn [mbind result_bind]. destruct limit; cbn [finished_ set_timer]; rewrite Gf; by eexists. }
  destruct E as [m1 E]. exists m1. split; [done|]. intros m2. apply (lost_forever id p sd).
  pose proof (routine_step_inv m j _ m1 Hm Hc (λ q (H : DoWait p sd limit = DoNew q), ltac:(discriminate)) E) as Hm1.
  destruct (wait_form m j p sd limit m1 Hm Hc E) as (k' & r' & Hk' & _ & ->). rewrite Hk in Hk'. injection Hk' as <-.
  split; [done|exists r; cbn; by rewrite lookup_insert_ne| |done].
  assert (Hown : ∀ q k' sd', parks m !! q = Some k' → waiter sd' k' = Some id → q = p ∧ sd' = sd).
  { intros q k' sd' Hk' Hw'. destruct (mi_parks m Hm q k' sd' id Hk' Hw') as (r1 & l & H1 & Hs1).
    rewrite Hr in H1. injection H1 as <-. by rewrite Hs in Hs1; injection Hs1. }
  intros q k' sd' Hk' Hw'. cbn in Hk'. apply lookup_insert_Some in Hk' as [[<- <-]|[Hne Hk']].
  - rewrite waiter_set in Hw'. destruct (bool_decide_reflect (sd' = sd)); [congruence|]. by destruct (Hown p k sd').
  - by destruct (Hown q k' sd').
Qed.

(** Routine 1 waits to read at a park, then routine 2 is started. *)
Definition sample_first : Machine := or_stuck (routine_step (DoWait 100 RdSide None) sample_made).
Definition sample_second : Machine := or_stuck (Call 2 sample_first).
Lemma sample_second_reachable : reachable 2 sample_second.
Proof.
  eapply rtc_l; [by apply (step_start _ 1 sample_running)|].
  eapply rtc_l; [apply (step_routine _ 1 (DoNew 100) sample_made); [done|by intros p [= <-]|done]|].
  eapply rtc_l; [by apply (step_routine _ 1 (DoWait 100 RdSide None) sample_first)|].
  eapply rtc_l; [by apply (step_start _ 2 sample_second)|apply rtc_refl].
Qed.
Lemma overwritten_waiter_witness :
  ∃ m1, routine_step (DoWait 100 RdSide None) sample_second = Ret m1 ∧
    ∀ m2, rtc (other_step 1) m1 m2 → control m2 ≠ Some 1.
Proof.
  eapply (overwritten_waiter 2 sample_second 1 2 100 RdSide None _ _ sample_second_reachable);
    [reflexivity..|]. intros [H|H]; by apply elem_of_nil in H.
Defined.
