(* ===== verification/Runtime.v ===== *)
(** * The scheduler: kernel/runtime/{routine_pool,event_loop,async_park,routine}.cc

    Routines run one at a time: a call of a routine runs it until it parks,
    yields or has finished its task.  What a task does in such a burst is the
    behaviour of the program on top and a parameter that may depend on the
    whole state; a burst hands tasks and wake-ups to the loop and then ends.
    A routine of the pool is free or active; an active one knows its task and
    the park it waits at.  Context switches themselves, epoll and the names of
    routines, which only appear in log lines, are left out.

    The theorems: no routine is lost or runs two tasks, tasks start in the
    order in which they were submitted and none is lost; [Start] never leaves
    a task waiting beside a free routine, but the end of a task does; and a
    wake-up that arrives after its routine has finished aborts the program. *)

From Stdlib Require Import ZArith Lia Bool.
From stdpp Require Import base numbers relations list gmap.
From S2P Require Import Prelude Types.

Section runtime.
Context {T : Type}.

(** [functions_]: a task for the pool, or a routine to call. *)
Inductive function : Type :=
  | FStart (func : T)
  | FCall (routine : Z).

(** What a burst does while it runs: [EventLoop::Do], and [ScheduleRead] or
    [ScheduleWrite] of a park. *)
Inductive effect : Type :=
  | EDo (func : T)
  | ESchedule (park : Z).
(** How it ends: in [WaitRead] or [WatiWrite], in [CheckTicks] with its ticks
    used up, or at the end of the task. *)
Inductive burst_end : Type :=
  | Wait (park : Z)
  | Yield
  | Finish.
Record burst : Type := mk_burst {
  effects : list effect;
  ends : burst_end;
}.

(** An entry of [active_list_]: the routine, its task and the park whose
    [read_routine_] or [write_routine_] it has set. *)
Record active : Type := mk_active {
  a_id : Z;
  a_task : T;
  a_park : option Z;
}.

(** The last three fields only record what happened. *)
Record EventLoop : Type := mk_loop {
  free_list_ : list Z;
  active_list_ : list active;
  tasks_ : list T;
  functions_ : list function;
  parked : gmap Z Z;
  submitted : list T;
  started : list T;
  finished : list T;
}.

(** [RoutinePool::RoutinePool]: the routines are numbered from one. *)
Definition EventLoop_new (poolsize : nat) : EventLoop :=
  mk_loop (Z.of_nat <$> seq 1 poolsize) [] [] [] ∅ [] [] [].

(** [free_list_] is ordered by the number of the routine. *)
Fixpoint insert_id (id : Z) (l : list Z) : list Z :=
  match l with
  | [] => [id]
  | x :: l' => if bool_decide (id < x) then id :: l else x :: insert_id id l'
  end.
Definition erase_id (id : Z) (l : list Z) : list Z := filter (λ x, x ≠ id) l.
Definition find_active (id : Z) (l : list active) : option active :=
  head (filter (λ a, a_id a = id) l).
Definition erase_active (id : Z) (l : list active) : list active := filter (λ a, a_id a ≠ id) l.

Definition with_functions (fs : list function) (l : EventLoop) : EventLoop :=
  mk_loop (free_list_ l) (active_list_ l) (tasks_ l) fs (parked l) (submitted l) (started l) (finished l).
Definition with_active (acts : list active) (pk : gmap Z Z) (l : EventLoop) : EventLoop :=
  mk_loop (free_list_ l) acts (tasks_ l) (functions_ l) pk (submitted l) (started l) (finished l).

(** [RunInLoop] outside the main routine. *)
Definition run_effect (l : EventLoop) (e : effect) : EventLoop :=
  match e with
  | EDo func => with_functions (functions_ l ++ [FStart func]) l
  | ESchedule park =>
      match parked l !! park with
      | Some id => with_functions (functions_ l ++ [FCall id]) l
      | None => l
      end
  end.

(** The end of a burst of the routine [id], which runs [func]. *)
Definition end_burst (id : Z) (func : T) (e : burst_end) (l : EventLoop) : EventLoop :=
  match e with
  | Wait park =>
      with_active (mk_active id func (Some park) :: erase_active id (active_list_ l)) (<[park := id]> (parked l)) l
  | Yield => with_functions (functions_ l ++ [FCall id]) l
  | Finish =>
      mk_loop (insert_id id (free_list_ l)) (erase_active id (active_list_ l)) (tasks_ l) (functions_ l)
        (parked l) (submitted l) (started l) (finished l ++ [func])
  end.

(** A routine that was parked clears the park first. *)
Definition resume (a : active) (l : EventLoop) : EventLoop :=
  match a_park a with
  | None => l
  | Some park =>
      with_active (mk_active (a_id a) (a_task a) None :: erase_active (a_id a) (active_list_ l))
        (delete park (parked l)) l
  end.

Section behaviour.
(** What the routine does next. *)
Context (behave : EventLoop → Z → burst).

Definition run_burst (id : Z) (func : T) (l : EventLoop) : EventLoop :=
  let b := behave l id in
  end_burst id func (ends b) (foldl run_effect l (effects b)).

(** [Routine::Call], and what the routine then does: go on with its task, or
    another round of [RoutineProcess]. *)
Definition Call (id : Z) (l : EventLoop) : result EventLoop :=
  match find_active id (active_list_ l) with
  | Some a => Ret (run_burst id (a_task a) (resume a l))
  | None =>
      _ ← cpp_assert (bool_decide (id ∈ free_list_ l));
      match tasks_ l with
      | [] => Fault AssertFailed
      | func :: tasks =>
          Ret (run_burst id func
                 (mk_loop (erase_id id (free_list_ l)) (mk_active id func None :: active_list_ l) tasks
                    (functions_ l) (parked l) (submitted l) (started l ++ [func]) (finished l)))
      end
  end.

(** [while (!tasks_.empty() && !free_list_.empty())] *)
Fixpoint start_loop (fuel : nat) (l : EventLoop) : result EventLoop :=
  match fuel with
  | O => OutOfFuel
  | S fuel =>
      match tasks_ l, free_list_ l with
      | _ :: _, id :: _ => l ← Call id l; start_loop fuel l
      | _, _ => Ret l
      end
  end.
(** [RoutinePool::Start] *)
Definition Start (func : T) (l : EventLoop) : result EventLoop :=
  let l := mk_loop (free_list_ l) (active_list_ l) (tasks_ l ++ [func]) (functions_ l) (parked l)
             (submitted l ++ [func]) (started l) (finished l) in
  start_loop (S (length (tasks_ l))) l.

Definition run_function (f : function) (l : EventLoop) : result EventLoop :=
  match f with
  | FStart func => Start func l
  | FCall id => Call id l
  end.
Fixpoint run_all (fs : list function) (l : EventLoop) : result EventLoop :=
  match fs with
  | [] => Ret l
  | f :: fs => l ← run_function f l; run_all fs l
  end.
(** The first part of a round of [EventLoop::Start]. *)
Definition run_functions (l : EventLoop) : result EventLoop :=
  run_all (functions_ l) (with_functions [] l).

(** [AsyncPark::Schedule] from the main routine: the routine is called. *)
Definition schedule (park : Z) (l : EventLoop) : result EventLoop :=
  match parked l !! park with
  | Some id => Call id l
  | None => Ret l
  end.

(** What happens in the loop: its functions, an epoll event, a timeout of a
    wait ([Routine::OnTimer]), a task given from the main routine. *)
Inductive loop_step (l : EventLoop) : EventLoop → Prop :=
  | step_functions l' : run_functions l = Ret l' → loop_step l l'
  | step_event park l' : schedule park l = Ret l' → loop_step l l'
  | step_timeout id a l' :
      find_active id (active_list_ l) = Some a → is_Some (a_park a) → Call id l = Ret l' → loop_step l l'
  | step_do func l' : Start func l = Ret l' → loop_step l l'.
End behaviour.

(** ** The lists of the pool *)
Lemma insert_id_perm id l : insert_id id l ≡ₚ id :: l.
Proof.
  induction l as [|x l IH]; [done|]. cbn [insert_id]. case_bool_decide; [done|].
  rewrite IH. apply Permutation_swap.
Qed.
Lemma erase_id_cons id x l :
  erase_id id (x :: l) = if bool_decide (x = id) then erase_id id l else x :: erase_id id l.
Proof. unfold erase_id. case_bool_decide; [by rewrite filter_cons_False by tauto|by rewrite filter_cons_True]. Qed.
Lemma erase_id_absent id l : id ∉ l → erase_id id l = l.
Proof.
  induction l as [|x l IH]; intros Hn; [done|]. apply not_elem_of_cons in Hn as [H1 H2].
  rewrite erase_id_cons, bool_decide_false by congruence. by rewrite IH.
Qed.
Lemma erase_id_perm id l : NoDup l → id ∈ l → l ≡ₚ id :: erase_id id l.
Proof.
  induction l as [|x l IH]; intros Hn Hin; [by apply elem_of_nil in Hin|]. apply NoDup_cons in Hn as [Hx Hn].
  rewrite erase_id_cons. case_bool_decide as Hne; [subst; by rewrite erase_id_absent|].
  apply elem_of_cons in Hin as [->|Hin]; [done|]. rewrite (IH Hn Hin) at 1. apply Permutation_swap.
Qed.

Lemma erase_active_cons id x acts :
  erase_active id (x :: acts) = if bool_decide (a_id x = id) then erase_active id acts else x :: erase_active id acts.
Proof. unfold erase_active. case_bool_decide; [by rewrite filter_cons_False by tauto|by rewrite filter_cons_True]. Qed.
Lemma erase_active_absent id acts : id ∉ a_id <$> acts → erase_active id acts = acts.
Proof.
  induction acts as [|x acts IH]; intros Hn; [done|].
  rewrite fmap_cons in Hn. apply not_elem_of_cons in Hn as [H1 H2].
  rewrite erase_active_cons, bool_decide_false by congruence. by rewrite IH.
Qed.
Lemma find_active_cons id a acts :
  find_active id (a :: acts) = if bool_decide (a_id a = id) then Some a else find_active id acts.
Proof.
  unfold find_active. case_bool_decide; [by rewrite filter_cons_True|by rewrite filter_cons_False].
Qed.
Lemma find_active_None id acts : find_active id acts = None ↔ id ∉ a_id <$> acts.
Proof.
  induction acts as [|x acts IH]; [split; [intros _ ?%elem_of_nil; done|done]|].
  rewrite find_active_cons, fmap_cons, not_elem_of_cons. case_bool_decide; naive_solver.
Qed.
Lemma find_active_perm id acts a :
  find_active id acts = Some a → NoDup (a_id <$> acts) → a_id a = id ∧ acts ≡ₚ a :: erase_active id acts.
Proof.
  induction acts as [|x acts IH]; [done|]. rewrite find_active_cons, fmap_cons, NoDup_cons.
  rewrite erase_active_cons. case_bool_decide as E.
  - intros [= <-] [Hx _]. split; [done|]. subst id. by rewrite erase_active_absent.
  - intros Hf [_ Hn]. destruct (IH Hf Hn) as [Hid Hp]. split; [done|].
    rewrite Hp at 1. apply Permutation_swap.
Qed.

(** ** The invariant *)
Definition pool_ids (n : nat) : list Z := Z.of_nat <$> seq 1 n.
Definition calls (f : function) : option Z := match f with FCall id => Some id | FStart _ => None end.

Record loop_inv (n : nat) (l : EventLoop) : Prop := {
  li_ids : free_list_ l ++ (a_id <$> active_list_ l) ≡ₚ pool_ids n;
  li_order : started l ++ tasks_ l = submitted l;
  li_tasks : finished l ++ (a_task <$> active_list_ l) ≡ₚ started l;
  li_parked : ∀ park id, parked l !! park = Some id → id ∈ pool_ids n;
  li_calls : ∀ id, FCall id ∈ functions_ l → id ∈ pool_ids n;
}.

Lemma pool_ids_nodup n : NoDup (pool_ids n).
Proof. apply NoDup_fmap_2; [apply _|]. apply NoDup_seq. Qed.

Section pool.
Context (n : nat).
Implicit Types l : EventLoop.

Lemma ids_nodup l : loop_inv n l → NoDup (free_list_ l) ∧ NoDup (a_id <$> active_list_ l) ∧
  (∀ id, id ∈ free_list_ l → id ∉ a_id <$> active_list_ l).
Proof.
  intros Hl. pose proof (pool_ids_nodup n) as Hn. rewrite <-(li_ids _ _ Hl) in Hn.
  apply NoDup_app in Hn as (? & ? & ?). auto.
Qed.
Lemma active_id l id a :
  loop_inv n l → find_active id (active_list_ l) = Some a →
  a_id a = id ∧ id ∈ pool_ids n ∧
  a_id <$> active_list_ l ≡ₚ id :: (a_id <$> erase_active id (active_list_ l)) ∧
  a_task <$> active_list_ l ≡ₚ a_task a :: (a_task <$> erase_active id (active_list_ l)).
Proof.
  intros Hl Ha. destruct (ids_nodup l Hl) as (_ & Hn & _).
  destruct (find_active_perm id _ a Ha Hn) as [Hid Hp].
  assert (Hi : a_id <$> active_list_ l ≡ₚ id :: (a_id <$> erase_active id (active_list_ l)))
    by (rewrite <-Hid at 1; exact (fmap_Permutation a_id _ _ Hp)).
  split_and!; [done| |done|exact (fmap_Permutation a_task _ _ Hp)].
  rewrite <-(li_ids _ _ Hl), Hi, elem_of_app. right. by left.
Qed.

Lemma run_effect_inv l e :
  loop_inv n l → loop_inv n (run_effect l e) ∧ active_list_ (run_effect l e) = active_list_ l.
Proof.
  intros Hl. destruct e as [func|park]; cbn [run_effect].
  - split; [|done]. destruct Hl. constructor; cbn; auto.
    intros id [H|H%list_elem_of_singleton]%elem_of_app; [auto|done].
  - destruct (parked l !! park) as [id|] eqn:E; [|done]. split; [|done].
    destruct Hl. constructor; cbn; auto.
    intros id' [H|[= ->]%list_elem_of_singleton]%elem_of_app; eauto.
Qed.
Lemma run_effects_inv es l :
  loop_inv n l →
  loop_inv n (foldl run_effect l es) ∧ active_list_ (foldl run_effect l es) = active_list_ l.
Proof.
  revert l. induction es as [|e es IH]; intros l Hl; [done|]. cbn [foldl].
  destruct (run_effect_inv l e Hl) as [H1 H2]. destruct (IH _ H1) as [H3 H4]. split; [done|congruence].
Qed.

(** Replacing the entry of a routine by one for the same task. *)
Lemma reentry_inv l id a park pk :
  loop_inv n l → find_active id (active_list_ l) = Some a →
  (∀ p i, pk !! p = Some i → i ∈ pool_ids n) →
  loop_inv n (with_active (mk_active id (a_task a) park :: erase_active id (active_list_ l)) pk l).
Proof.
  intros Hl Ha Hpk. destruct (active_id l id a Hl Ha) as (_ & _ & Hi & Ht). destruct Hl.
  constructor; cbn; auto.
  - by rewrite <-li_ids0, Hi.
  - by rewrite <-li_tasks0, Ht.
Qed.

Lemma end_burst_inv l id a e :
  loop_inv n l → find_active id (active_list_ l) = Some a → loop_inv n (end_burst id (a_task a) e l).
Proof.
  intros Hl Ha. destruct (active_id l id a Hl Ha) as (_ & Hin & Hi & Ht). destruct e as [park| |]; cbn [end_burst].
  - apply reentry_inv; [done..|]. intros p i. destruct Hl.
    destruct (decide (p = park)) as [->|]; [by rewrite lookup_insert_eq; intros [= <-]|].
    rewrite lookup_insert_ne by done. eauto.
  - destruct Hl. constructor; cbn; auto. intros i [H|[= ->]%list_elem_of_singleton]%elem_of_app; auto.
  - destruct Hl. constructor; cbn; auto.
    + rewrite insert_id_perm, <-li_ids0, Hi. apply Permutation_middle.
    + rewrite <-li_tasks0, Ht. by rewrite <-app_assoc.
Qed.

Lemma resume_inv l id a :
  loop_inv n l → find_active id (active_list_ l) = Some a →
  loop_inv n (resume a l) ∧
  ∃ a', find_active id (active_list_ (resume a l)) = Some a' ∧ a_task a' = a_task a.
Proof.
  intros Hl Ha. destruct (active_id l id a Hl Ha) as (Hid & _). unfold resume.
  destruct (a_park a) as [park|]; [|eauto]. rewrite Hid. split.
  - apply reentry_inv; [done..|]. intros p i [_ H]%lookup_delete_Some. by eapply li_parked.
  - eexists. cbn. rewrite find_active_cons, bool_decide_true by done. done.
Qed.

Section steps.
Context (behave : EventLoop → Z → burst).

Lemma run_burst_inv l id a :
  loop_inv n l → find_active id (active_list_ l) = Some a → loop_inv n (run_burst behave id (a_task a) l).
Proof.
  intros Hl Ha. unfold run_burst. destruct (run_effects_inv (effects (behave l id)) l Hl) as [H1 H2].
  apply end_burst_inv; [done|]. by rewrite H2.
Qed.

(** A burst leaves the queue of tasks alone. *)
Lemma run_effects_tasks es l : tasks_ (foldl run_effect l es) = tasks_ l.
Proof.
  revert l. induction es as [|[func|park] es IH]; intros l; [done|..]; cbn [foldl run_effect]; rewrite IH; [done|].
  by destruct (parked l !! park).
Qed.
Lemma run_burst_tasks id func l : tasks_ (run_burst behave id func l) = tasks_ l.
Proof.
  unfold run_burst. rewrite <-(run_effects_tasks (effects (behave l id)) l).
  by destruct (ends (behave l id)).
Qed.

(** A call goes on with a task, begins the next one, or aborts. *)
Lemma Call_active l id a :
  loop_inv n l → find_active id (active_list_ l) = Some a →
  ∃ l', Call behave id l = Ret l' ∧ loop_inv n l' ∧ tasks_ l' = tasks_ l.
Proof.
  intros Hl Ha. unfold Call. rewrite Ha. destruct (resume_inv l id a Hl Ha) as (Hr & a' & Ha' & Et).
  eexists. split; [done|]. rewrite <-Et. split; [by apply run_burst_inv|]. rewrite run_burst_tasks.
  unfold resume. by destruct (a_park a).
Qed.
Lemma Call_free l id func tasks :
  loop_inv n l → id ∈ free_list_ l → tasks_ l = func :: tasks →
  ∃ l', Call behave id l = Ret l' ∧ loop_inv n l' ∧ tasks_ l' = tasks.
Proof.
  intros Hl Hid Ht. destruct (ids_nodup l Hl) as (Hn & _ & Hd). unfold Call.
  rewrite (proj2 (find_active_None id _) (Hd id Hid)). unfold cpp_assert. rewrite bool_decide_true by done.
  cbn [mbind result_bind]. rewrite Ht. eexists. split; [done|]. set (l1 := mk_loop _ _ _ _ _ _ _ _).
  assert (Hl1 : loop_inv n l1).
  { destruct Hl. constructor; cbn; auto.
    - rewrite <-li_ids0, <-Permutation_middle. symmetry.
      exact (Permutation_app_tail _ (erase_id_perm id (free_list_ l) Hn Hid)).
    - rewrite <-li_order0, Ht. by rewrite <-app_assoc.
    - rewrite <-li_tasks0. rewrite <-app_assoc. f_equiv. apply Permutation_cons_append. }
  split; [|by rewrite run_burst_tasks].
  apply (run_burst_inv l1 id (mk_active id func None)); [done|]. cbn. by rewrite find_active_cons, bool_decide_true.
Qed.
Lemma Call_stale l id :
  find_active id (active_list_ l) = None → tasks_ l = [] → Call behave id l = Fault AssertFailed.
Proof. intros Ha Ht. unfold Call. rewrite Ha, Ht. unfold cpp_assert. by case_bool_decide. Qed.
Lemma Call_inv l id l' : loop_inv n l → id ∈ pool_ids n → Call behave id l = Ret l' → loop_inv n l'.
Proof.
  intros Hl Hid E. destruct (find_active id (active_list_ l)) as [a|] eqn:Ha.
  - destruct (Call_active l id a Hl Ha) as (l2 & E2 & H & _). congruence.
  - destruct (tasks_ l) as [|func tasks] eqn:Ht; [by rewrite Call_stale in E|].
    assert (Hf : id ∈ free_list_ l).
    { apply find_active_None in Ha. rewrite <-(li_ids _ _ Hl), elem_of_app in Hid. tauto. }
    destruct (Call_free l id func tasks Hl Hf Ht) as (l2 & E2 & H & _). congruence.
Qed.

Lemma start_loop_ok fuel l :
  loop_inv n l → (length (tasks_ l) < fuel)%nat →
  ∃ l', start_loop behave fuel l = Ret l' ∧ loop_inv n l' ∧ (tasks_ l' = [] ∨ free_list_ l' = []).
Proof.
  revert l. induction fuel as [|fuel IH]; intros l Hl Hf; [lia|]. cbn [start_loop].
  destruct (tasks_ l) as [|func tasks] eqn:Ht; [by exists l; auto|].
  destruct (free_list_ l) as [|id free] eqn:Hfree; [by exists l; auto|].
  destruct (Call_free l id func tasks Hl) as (l1 & -> & Hl1 & Ht1); [rewrite Hfree; by left|done|].
  cbn [mbind result_bind]. apply IH; [done|]. rewrite Ht1. cbn in Hf. lia.
Qed.
Lemma Start_ok func l :
  loop_inv n l →
  ∃ l', Start behave func l = Ret l' ∧ loop_inv n l' ∧ (tasks_ l' = [] ∨ free_list_ l' = []).
Proof.
  intros Hl. unfold Start. apply start_loop_ok; [|cbn [tasks_]; lia].
  destruct Hl. constructor; cbn; auto. by rewrite app_assoc, li_order0.
Qed.

Lemma run_all_inv fs l l' :
  loop_inv n l → (∀ id, FCall id ∈ fs → id ∈ pool_ids n) → run_all behave fs l = Ret l' → loop_inv n l'.
Proof.
  revert l. induction fs as [|f fs IH]; intros l Hl Hfs; cbn [run_all]; [by intros [= <-]|].
  destruct (run_function behave f l) as [l1| |] eqn:E; [|done..]. cbn [mbind result_bind].
  apply IH; [|intros id Hid; apply Hfs; by right]. destruct f as [func|id]; cbn [run_function] in E.
  - destruct (Start_ok func l Hl) as (l2 & E2 & H & _). congruence.
  - eapply Call_inv; [done| |done]. apply Hfs. by left.
Qed.

Lemma loop_step_inv l l' : loop_inv n l → loop_step behave l l' → loop_inv n l'.
Proof.
  intros Hl [l1 E|park l1 E|id a l1 Ha _ E|func l1 E].
  - unfold run_functions in E. eapply run_all_inv; [|by apply (li_calls _ _ Hl)|exact E].
    destruct Hl. constructor; cbn; auto. by intros id ?%elem_of_nil.
  - unfold schedule in E. destruct (parked l !! park) as [id|] eqn:Hp; [|congruence].
    eapply Call_inv; [done|by eapply li_parked|done].
  - destruct (active_id l id a Hl Ha) as (_ & Hin & _). by eapply Call_inv.
  - destruct (Start_ok func l Hl) as (l2 & E2 & H & _). congruence.
Qed.
Lemma loop_inv_new : loop_inv n (EventLoop_new n).
Proof.
  constructor; cbn; auto.
  - by rewrite app_nil_r.
  - intros park id. by rewrite lookup_empty.
  - by intros id ?%elem_of_nil.
Qed.
Lemma loop_inv_reachable l : rtc (loop_step behave) (EventLoop_new n) l → loop_inv n l.
Proof.
  intros Hs. remember (EventLoop_new n) as l0 eqn:E. assert (H0 : loop_inv n l0) by (subst; apply loop_inv_new).
  clear E. induction Hs; eauto using loop_step_inv.
Qed.
End steps.
End pool.
End runtime.

Arguments EventLoop : clear implicits.
Arguments burst : clear implicits.

(** C8: over any behaviour of the tasks and any order of events, as long as the
    loop runs, every routine of the pool is exactly once free or active, the
    tasks are started in the order in which they were submitted, and those
    started are exactly the finished ones and the ones that an active routine
    runs: no task is lost, started twice or run by two routines. *)
Theorem loop_life {T} (behave : EventLoop T → Z → burst T) n l :
  rtc (loop_step behave) (EventLoop_new n) l →
  NoDup (free_list_ l ++ (a_id <$> active_list_ l)) ∧
  free_list_ l ++ (a_id <$> active_list_ l) ≡ₚ pool_ids n ∧
  started l ++ tasks_ l = submitted l ∧
  finished l ++ (a_task <$> active_list_ l) ≡ₚ started l.
Proof.
  intros Hl%loop_inv_reachable. destruct Hl. split_and!; [|done..]. rewrite li_ids0. apply pool_ids_nodup.
Qed.

(** Two tasks: the one in routine 2 wakes the other twice and waits; the other
    waits once and then finishes. *)
Definition sample_behaviour (l : EventLoop Z) (id : Z) : burst Z :=
  if bool_decide (id = 2) then mk_burst [ESchedule 7; ESchedule 7] (Wait 8)
  else mk_burst [] (if bool_decide (parked l !! 8 = None) then Wait 7 else Finish).
Definition sample_loop : EventLoop Z :=
  mk_loop [] [mk_active 2 20 (Some 8); mk_active 1 10 (Some 7)] [] [FCall 1; FCall 1] {[7 := 1; 8 := 2]}
    [10; 20] [10; 20] [].

Lemma sample_reachable : rtc (loop_step sample_behaviour) (EventLoop_new 2) sample_loop.
Proof.
  assert (E : (l ← Start sample_behaviour 10 (EventLoop_new 2); Start sample_behaviour 20 l) = Ret sample_loop)
    by (vm_compute; reflexivity).
  destruct (Start sample_behaviour 10 (EventLoop_new 2)) as [l| |] eqn:E1; [|done..]. cbn [mbind result_bind] in E.
  eapply rtc_l; [by apply step_do with 10|]. apply rtc_once. by apply step_do with 20.
Qed.

Lemma loop_life_witness :
  free_list_ sample_loop ++ (a_id <$> active_list_ sample_loop) ≡ₚ pool_ids 2 ∧
  started sample_loop ++ tasks_ sample_loop = submitted sample_loop.
Proof.
  destruct (loop_life sample_behaviour 2 sample_loop sample_reachable) as (_ & H1 & H2 & _). split; [exact H1|exact H2].
Defined.

Section finishing.
Context {T : Type} (behave : EventLoop T → Z → burst T).

Lemma find_erased id (acts : list (@active T)) : find_active id (erase_active id acts) = None.
Proof.
  induction acts as [|a acts IH]; [done|]. rewrite erase_active_cons. case_bool_decide as E; [done|].
  by rewrite find_active_cons, bool_decide_false.
Qed.

(** A burst that finishes the task frees the routine and starts nothing. *)
Lemma Call_finish id a l :
  find_active id (active_list_ l) = Some a → ends (behave (resume a l) id) = Finish →
  ∃ l', Call behave id l = Ret l' ∧ tasks_ l' = tasks_ l ∧ id ∈ free_list_ l' ∧
    find_active id (active_list_ l') = None.
Proof.
  intros Ha He. unfold Call. rewrite Ha. eexists. split; [done|]. split_and!.
  - rewrite run_burst_tasks. unfold resume. by destruct (a_park a).
  - unfold run_burst. rewrite He. cbn. rewrite insert_id_perm. by left.
  - unfold run_burst. rewrite He. cbn. apply find_erased.
Qed.
End finishing.

(** Submitting a task always succeeds, and afterwards no task waits beside a
    free routine; but a task that ends leaves the waiting tasks where they are
    although its routine is free. *)
Theorem waiting_tasks {T} (behave : EventLoop T → Z → burst T) n l :
  rtc (loop_step behave) (EventLoop_new n) l →
  (∀ func, ∃ l', Start behave func l = Ret l' ∧ (tasks_ l' = [] ∨ free_list_ l' = [])) ∧
  (∀ id a, find_active id (active_list_ l) = Some a → ends (behave (resume a l) id) = Finish →
     ∃ l', Call behave id l = Ret l' ∧ tasks_ l' = tasks_ l ∧ id ∈ free_list_ l').
Proof.
  intros Hl%loop_inv_reachable. split.
  - intros func. destruct (Start_ok n behave func l Hl) as (l' & E & _ & H). eauto.
  - intros id a Ha He. destruct (Call_finish behave id a l Ha He) as (l' & E & H1 & H2 & _). eauto.
Qed.

Lemma waiting_tasks_witness :
  ∃ l', Start sample_behaviour 30 sample_loop = Ret l' ∧ (tasks_ l' = [] ∨ free_list_ l' = []).
Proof. apply (waiting_tasks sample_behaviour 2 sample_loop sample_reachable). Defined.

(** When a routine is woken twice before it runs and finishes its task on
    the first of the two calls, the second one meets a routine without a task:
    with no task waiting, an assertion of the pool fails. *)
Theorem stale_wake_aborts {T} (behave : EventLoop T → Z → burst T) l id a fs :
  functions_ l = FCall id :: FCall id :: fs → find_active id (active_list_ l) = Some a → tasks_ l = [] →
  ends (behave (resume a (with_functions [] l)) id) = Finish →
  run_functions behave l = Fault AssertFailed.
Proof.
  intros Hf Ha Ht He. unfold run_functions. rewrite Hf. cbn [run_all run_function].
  destruct (Call_finish behave id a (with_functions [] l) Ha He) as (l1 & -> & H1 & _ & H2).
  cbn [mbind result_bind]. by rewrite Call_stale by (done || by rewrite H1).
Qed.

Lemma stale_wake_aborts_witness :
  rtc (loop_step sample_behaviour) (EventLoop_new 2) sample_loop ∧
  run_functions sample_behaviour sample_loop = Fault AssertFailed.
Proof.
  split; [exact sample_reachable|].
  apply (stale_wake_aborts sample_behaviour sample_loop 1 (mk_active 1 10 (Some 7)) []); vm_compute; reflexivity.
Defined.
